(* ===== verification/_CoqProject ===== *)
-Q . S2P
Prelude.v
Prog.v
GoStrings.v
GoTime.v
Calendar.v
Expiring.v
Json.v
RedisServer.v
RateLimit.v
Blacklist.v
Cache.v
Jwt.v
Float64.v
Pagination.v
User.v
World.v
UserUseCase.v
AuthUseCase.v
Http.v
Hardening.v
Middleware.v
Validator.v
Handlers.v
Health.v
Routes.v
Envelopes.v
ApiWitness.v
Broker.v
Kafka.v
Rabbit.v
RabbitProps.v
Config.v
Database.v
Migrate.v
Main.v
Base64.v
Crypto.v
Journal.v
Ssrf.v
HttpClient.v
HttpClientProps.v
Generator.v
Scaffold.v
Commands.v
Upgrade.v
Notify.v
Firebase.v
Project.v
Console.v
Cli.v
Addons.v
Observe.v
Sinks.v
Pool.v
Queue.v
QueueProps.v
QueueDrain.v
QueueWitness.v
GoogleLogin.v
GoogleLoginProps.v
App.v
ApiDocs.v
ApiDocsProps.v
Examples.v
ExamplesProps.v
ExampleMessaging.v
Contexts.v
