(* ===== verification/Prelude.v ===== *)
(** The wapgo service and its generator, verified.

    wapgo (Go) is an HTTP API platform: a service (cmd/api over internal/ and pkg/), a
    migration command (cmd/migrate) and a command line generator (cli/). This development
    translates their own logic into Rocq functions and proves what it promises. It has one
    file per component; the files read in the order of _CoqProject, each after those it
    uses.

    * Conventions

    Go values: an [int] or [time.Duration] is a [Z], wrapped to 64 bits ([wrap64]) where
    the code can overflow it; a string is a [string] of bytes; a Go error is an [error]
    ([Prelude]: sentinels compared with errors.Is, fresh errors, wrapping by fmt.Errorf);
    a fallible call answers a [result] or an [option error]; a map is a [gmap], an ordered
    or repeated one an association list. A method with a pointer receiver takes the old
    state and answers the new one.

    Effects: [Prog] is the type of programs over a world: [Ret], or one atomic action
    followed by a continuation. [run] executes a program alone; [par_step] interleaves two
    of them at their actions, which is how the claims about concurrency are stated; [Pool]
    interleaves any number, lets one be killed at any point, and gives a logic in which a
    thread holds at most one permission ([linear]).
    [World] is the state the use cases and handlers share; a component that talks to the
    outside (brokers, servers, disks, toolchains) instead keeps the history of its calls
    with their answers, newest first, and the environment answers each call from that
    history, so it may answer differently every time. The clock is read this way too.

    Code outside the repository is a parameter: HMAC and bcrypt, the AEAD, the JSON text
    format (values only), the SQL engine, Redis (a class with its documented laws), viper,
    gobreaker, kafka-go, amqp091-go, net/smtp, net/http, text/template, go/parser. Each
    class or hypothesis has an instance in a witness. Strings, strconv, base64, url and
    time functions of the standard library are written out ([GoStrings], [GoTime],
    [Calendar], [Base64], [Migrate]).

    * The files and the code

    - [Prelude], [Prog], [GoStrings], [GoTime], [Base64], [Json], [RedisServer],
      [Expiring]: errors, results, programs and their logics ([keeps], [wp]), the pieces of
      Go's library, JSON values, the Redis commands, maps whose entries expire.
    - [RateLimit] (pkg/ratelimit), [Blacklist] (pkg/auth blacklists), [Cache]
      (internal/repository memory and redis), [Jwt] (pkg/auth/jwt.go), [Float64] (the
      binary64 division and Ceil of the page count), [Pagination] (pkg/pagination), [User] (entity and gorm repository), [Validator], [Crypto],
      [Config] (config/).
    - [World], [UserUseCase], [AuthUseCase] (internal/usecase): the use cases over the
      shared state.
    - [Http], [Hardening], [Middleware], [Handlers], [Health], [Routes]
      (internal/delivery/http, pkg/response, pkg/auth/middleware.go): requests to
      responses, and what the recover, CORS and helmet middlewares are given; [ApiWitness] runs the
      assembled API on concrete requests.
    - [Main] (cmd/api/main.go): start-up, wiring and shutdown; [Migrate] (cmd/migrate);
      [Database] (pkg/database).
    - [Broker], [Kafka], [Rabbit], [RabbitProps] (pkg/messaging).
    - [Journal] (pkg/journal and the logging middlewares), [Ssrf], [HttpClient],
      [HttpClientProps] (pkg/httpclient), [Notify], [Firebase] (pkg/notification).
    - [Observe] (pkg/observability), [Sinks] (pkg/logger), [Addons] (pkg/auditlog and
      pkg/auth/google), [Calendar] (dates of Go's time package).
    - [Generator], [Scaffold] (cli/generator), [Commands], [Upgrade], [Project], [Console]
      (cli/commands: the steps, the snapshots, and the lines the commands print), [Cli]
      (the commands with their arguments, flags and bindings, and the program as a whole).
    - [Envelopes]: the shape of every answer of the API, over [Routes].
    - [App] (the app.Use calls of cmd/api/main.go): the middleware stack around the routes.
      The limiter, the tracing history, the counters and the log lines are one component
      of the world, which no handler behind the stack touches.
    - [GoogleLogin], [GoogleLoginProps]: the Google sign-in handler the generator puts into
      a project (cli/generator/templates/skeleton: google_auth_handler, google_auth_route).
    - [Queue], [QueueProps], [QueueDrain], [QueueWitness]: the Postgres job queue the
      generator puts into a project (cli/generator/templates/skeleton: internal/queue,
      cmd/worker, migrations/000002_jobs). A SQL statement is one action on the table,
      which the database may refuse, or carry out and lose the answer.

    - [ApiDocs], [ApiDocsProps] (docs/docs.go): the Swagger document as the JSON value it is,
      what its schemas mean, and the document against the routes, handlers and validator.
    - [Contexts]: the values the packages keep in a context.Context (pkg/logger,
      pkg/httpclient, pkg/journal, pkg/auditlog).
    - [Examples], [ExamplesProps], [ExampleMessaging] (examples/): the example programs over
      the packages they call.

    * What is shown

    - Sessions: a refresh token buys one pair, a reset token one reset; a logged-out token
      opens no route; a reset closes every older session ([AuthUseCase], [Middleware]).
    - Stores: the memory limiter, blacklist and cache refine specifications that never
      sweep; the Redis limiter counts once across replicas ([RateLimit], [Blacklist],
      [Cache]).
    - Use cases and endpoints on every branch: who gets tokens, what a failed request
      leaves, which routes answer without a token ([AuthUseCase], [UserUseCase],
      [Handlers], [Routes], [Validator], [Pagination], [Health]).
    - Messaging: exact commits and back-off of the Kafka consumer and its termination; one
      open RabbitMQ connection under any interleaving, every delivery settled once.
    - Outbound calls: bounded requests, guarded addresses, breaker and retries
      ([HttpClientProps], [Ssrf]); mails and push notifications ([Notify], [Firebase]).
    - Round trips: tokens, base64, encryption, configuration values, the Postgres URL of
      the migration command.
    - The process: configuration precedence, start-up and shutdown order, statement
      timers, migrations ([Config], [Main], [Database], [Migrate]).
    - Every answer of the API is a well-typed envelope ([Envelopes]).
    - The assembled service: one question to the limiter, then one route's handler, whose
      answer is the service's, one log line, one count, balanced spans; nothing guarded
      happens without a token, through the whole stack ([App]).
    - Observability: spans are balanced and hooks transparent, metrics count, the daily
      log loses no line within its retention ([Observe], [Sinks]).
    - The generator: names, fields and columns, no file overwritten, exactly the files of
      the options, upgrades, what [list] shows; no command line makes it panic ([Generator],
      [Scaffold], [Commands], [Upgrade], [Project], [Cli]).
    - Google sign-in: a state is redeemed once, under any interleaving, and only if issued;
      what the callback answers and changes on every branch ([GoogleLoginProps]).
    - The job queue: any number of workers and clients, with kills and lost answers, keep
      every row in the state its history leads to; attempts are bounded, claims separated
      by a release; a pass of one worker ends and settles exactly the due jobs, oldest
      first ([QueueProps], [QueueDrain]).
    - The API document: the answers of the user routes have documented statuses and bodies of
      the documented shape, but for those of the guards; the documented request bodies are
      those the validator takes; which routes it leaves out ([ApiDocsProps]).
    - The example programs: a login opens what its roles allow, for a day; tokens print as
      signed; the HTTP client's program stops at its first request, and what its
      demonstrations show when loopback addresses are allowed; messages carry the context's
      identifier, and none is routed to the queue bound after them ([ExamplesProps],
      [ExampleMessaging]).
    - Theorems named in the Witness modules and those about overflow, lost updates and the
      like state where the code does less than it means to.

    * Bounds and fuel

    [HttpClient] follows at most ten redirects, as net/http does; [Scaffold.search_gomod]
    looks at five directories, as the code does; a worker's pass needs one turn more than
    there are due jobs ([QueueDrain.drain_spec]); parsers take the length of their input as
    fuel, which decreases at every step; a consumer loop runs for a given number of turns
    ([Broker.iterate]), and the theorems hold for every number, the termination ones giving
    a number that is enough.

    * Not modelled

    Embed directives, the interface of the external user service, swag's registry. Inside
    modelled components: cobra's parsing of flags and its help; how fiber matches a path, and what
    the libraries behind the recover, CORS and security header middlewares do with the
    configuration [Hardening] states ([App] has their documented behaviour as hypotheses:
    they hand the request on and set headers, a preflight excepted); the other templates of
    the skeleton, which mirror the packages above; log lines (the journal, the access log
    and the sinks excepted) and the progress lines of the make commands; the exporters of
    the tracing SDKs, the Prometheus text, panics of the service, and the JSON text
    format. *)

From stdpp Require Import base gmap strings list fin_maps.
From Stdlib Require Import ZArith Lia.

Declare Scope go_scope.
Delimit Scope go_scope with go.
Open Scope Z_scope.
Open Scope go_scope.

(** ** Go errors

    [sentinel] lists the package-level [errors.New] variables the program
    compares with [errors.Is] (its own and those of its dependencies). *)

Inductive sentinel : Type :=
| ErrCacheMiss            (* internal/domain/repository *)
| ErrNotFound             (* internal/usecase *)
| ErrEmailConflict
| ErrInvalidUUID
| ErrInvalidCredentials
| ErrInvalidToken
| ErrWeakSecret           (* pkg/auth *)
| ErrKeySize              (* pkg/crypto *)
| ErrInvalidCiphertext
| ErrUserNotFound         (* pkg/httpclient *)
| ErrRecordNotFound       (* gorm *)
| RedisNil                (* go-redis *)
| ErrNoChange             (* golang-migrate *)
| ErrNilVersion
| CtxCanceled             (* context.Canceled *)
| CtxDeadlineExceeded.    (* context.DeadlineExceeded *)

#[export] Instance sentinel_eq_dec : EqDecision sentinel.
Proof. solve_decision. Defined.

(** An error value: a sentinel, an error made on the spot, a [net.Error]
    (with its [Timeout()]), a [*fiber.Error] (with its HTTP code), or a wrapped
    error [fmt.Errorf("pre%wpost", e)]. *)
Inductive error : Type :=
| Sentinel (s : sentinel)
| Fresh (msg : string)
| NetErr (msg : string) (timeout : bool)
| FiberErr (code : Z)
| Wrap (pre : string) (e : error) (post : string).

#[export] Instance error_eq_dec : EqDecision error.
Proof. solve_decision. Defined.

(** [fmt.Errorf("ctx: %w", e)]. *)
Definition errorf (ctx : string) (e : error) : error := Wrap ctx e "".

(** [errors.Is(e, s)]: walks the chain of wrapped errors. *)
Fixpoint errors_is (e : error) (s : sentinel) : bool :=
  match e with
  | Sentinel s' => bool_decide (s' = s)
  | Wrap _ e' _ => errors_is e' s
  | _ => false
  end.

Lemma errors_is_refl s : errors_is (Sentinel s) s = true.
Proof. by apply bool_decide_eq_true. Qed.

Lemma errors_is_wrap ctx e s : errors_is (errorf ctx e) s = errors_is e s.
Proof. reflexivity. Qed.

(** The texts of the sentinels. *)
Definition sentinel_text (s : sentinel) : string :=
  match s with
  | ErrCacheMiss => "cache miss"
  | ErrNotFound => "not found"
  | ErrEmailConflict => "email already in use"
  | ErrInvalidUUID => "invalid id format"
  | ErrInvalidCredentials => "invalid email or password"
  | ErrInvalidToken => "invalid or expired token"
  | ErrWeakSecret => "jwt secret must be at least 32 bytes"
  | ErrKeySize => "encryption key must be exactly 32 bytes"
  | ErrInvalidCiphertext => "invalid or corrupted ciphertext"
  | ErrUserNotFound => "user not found"
  | ErrRecordNotFound => "record not found"
  | RedisNil => "redis: nil"
  | ErrNoChange => "no change"
  | ErrNilVersion => "no migration"
  | CtxCanceled => "context canceled"
  | CtxDeadlineExceeded => "context deadline exceeded"
  end.

(** [http.StatusText]. *)
Definition StatusText (code : Z) : string :=
  match code with
  | 100 => "Continue" | 101 => "Switching Protocols" | 102 => "Processing" | 103 => "Early Hints"
  | 200 => "OK" | 201 => "Created" | 202 => "Accepted" | 203 => "Non-Authoritative Information"
  | 204 => "No Content" | 205 => "Reset Content" | 206 => "Partial Content"
  | 207 => "Multi-Status" | 208 => "Already Reported" | 226 => "IM Used"
  | 300 => "Multiple Choices" | 301 => "Moved Permanently" | 302 => "Found" | 303 => "See Other"
  | 304 => "Not Modified" | 305 => "Use Proxy" | 307 => "Temporary Redirect"
  | 308 => "Permanent Redirect"
  | 400 => "Bad Request" | 401 => "Unauthorized" | 402 => "Payment Required" | 403 => "Forbidden"
  | 404 => "Not Found" | 405 => "Method Not Allowed" | 406 => "Not Acceptable"
  | 407 => "Proxy Authentication Required" | 408 => "Request Timeout" | 409 => "Conflict"
  | 410 => "Gone" | 411 => "Length Required" | 412 => "Precondition Failed"
  | 413 => "Request Entity Too Large" | 414 => "Request URI Too Long"
  | 415 => "Unsupported Media Type" | 416 => "Requested Range Not Satisfiable"
  | 417 => "Expectation Failed" | 418 => "I'm a teapot" | 421 => "Misdirected Request"
  | 422 => "Unprocessable Entity" | 423 => "Locked" | 424 => "Failed Dependency"
  | 425 => "Too Early" | 426 => "Upgrade Required" | 428 => "Precondition Required"
  | 429 => "Too Many Requests" | 431 => "Request Header Fields Too Large"
  | 451 => "Unavailable For Legal Reasons"
  | 500 => "Internal Server Error" | 501 => "Not Implemented" | 502 => "Bad Gateway"
  | 503 => "Service Unavailable" | 504 => "Gateway Timeout" | 505 => "HTTP Version Not Supported"
  | 506 => "Variant Also Negotiates" | 507 => "Insufficient Storage" | 508 => "Loop Detected"
  | 510 => "Not Extended" | 511 => "Network Authentication Required"
  | _ => ""
  end%string.

(** [err.Error()]. *)
Fixpoint error_text (e : error) : string :=
  match e with
  | Sentinel s => sentinel_text s
  | Fresh msg => msg
  | NetErr msg _ => msg
  | FiberErr code => StatusText code
  | Wrap pre e' post => pre ++ error_text e' ++ post
  end.

(** The pair [(value, error)] a fallible Go function returns: the value is
    meaningful only when the error is nil. *)
Inductive result (A : Type) : Type :=
| Ok (a : A)
| Err (e : error).
Arguments Ok {A} a.
Arguments Err {A} e.

Definition is_ok {A} (r : result A) : bool :=
  match r with Ok _ => true | Err _ => false end.

Definition result_map {A B} (f : A -> B) (r : result A) : result B :=
  match r with Ok a => Ok (f a) | Err e => Err e end.

(** ** Machine integers and durations *)

(** Two's complement wrap-around of Go's [int] and [int64] (64-bit targets). *)
Definition wrap64 (z : Z) : Z := (z + 2 ^ 63) mod 2 ^ 64 - 2 ^ 63.
Definition in_int64 (z : Z) : Prop := - 2 ^ 63 <= z < 2 ^ 63.

Lemma wrap64_id z : in_int64 z -> wrap64 z = z.
Proof. unfold in_int64, wrap64. intros H. rewrite Z.mod_small; lia. Qed.

Lemma wrap64_range z : in_int64 (wrap64 z).
Proof.
  unfold in_int64, wrap64. pose proof (Z.mod_pos_bound (z + 2 ^ 63) (2 ^ 64)). lia.
Qed.

(** A [time.Duration] is an int64 count of nanoseconds; an instant
    ([time.Time]) is a count of nanoseconds since the Unix epoch. *)
Definition Nanosecond : Z := 1.
Definition Microsecond : Z := 1000 * Nanosecond.
Definition Millisecond : Z := 1000 * Microsecond.
Definition Second : Z := 1000 * Millisecond.
Definition Minute : Z := 60 * Second.
Definition Hour : Z := 60 * Minute.

(** The zero [time.Time] (January 1, year 1, 00:00:00 UTC). *)
Definition zero_time : Z := -62135596800 * Second.
Definition is_zero_time (t : Z) : bool := t =? zero_time.

(** [Duration.Milliseconds()] truncates toward zero; [int(d.Seconds())] is the
    integral part of the seconds. *)
Definition milliseconds (d : Z) : Z := Z.quot d Millisecond.
Definition seconds_int (d : Z) : Z := Z.quot d Second.
