(* ===== verification/Prog.v ===== *)
(** Effectful code as sequences of atomic actions.

    A handler or use case of the program is a [prog W A]: a finite tree whose
    nodes are atomic actions on the shared world [W] (one critical section, one
    database or cache command, one clock reading) and whose leaves are results.
    [run] executes the actions one after the other; [exec] interleaves two
    concurrent activations under a schedule, and [par_step] is the step relation
    behind it. The same definition of a handler serves both readings. *)

From stdpp Require Import base list relations.
From Stdlib Require Import ZArith.
From S2P Require Import Prelude.

Inductive prog (W A : Type) : Type :=
| Ret (a : A)
| Act {X : Type} (f : W -> X * W) (k : X -> prog W A).
Arguments Ret {W A} a.
Arguments Act {W A X} f k.

Fixpoint bind {W A B} (m : prog W A) (f : A -> prog W B) : prog W B :=
  match m with
  | Ret a => f a
  | Act g k => Act g (fun x => bind (k x) f)
  end.

(** One atomic action. *)
Definition act {W X} (f : W -> X * W) : prog W X := Act f Ret.

(** Reading part of the world without changing it. *)
Definition reads {W X} (f : W -> X) : prog W X := act (fun w => (f w, w)).

Notation "'let!' x := m 'in' k" := (bind m (fun x => k))
  (at level 10, x binder, m at level 100, k at level 200,
   format "'[v' 'let!'  x  :=  m  'in' '/' k ']'") : go_scope.
Notation "'do!' m 'in' k" := (bind m (fun _ => k))
  (at level 10, m at level 100, k at level 200,
   format "'[v' 'do!'  m  'in' '/' k ']'") : go_scope.

(** ** Sequential execution *)

Fixpoint run {W A} (m : prog W A) (w : W) : A * W :=
  match m with
  | Ret a => (a, w)
  | Act f k => let '(x, w') := f w in run (k x) w'
  end.

Lemma run_ret {W A} (a : A) (w : W) : run (Ret a) w = (a, w).
Proof. reflexivity. Qed.

Lemma run_act {W X} (f : W -> X * W) (w : W) : run (act f) w = f w.
Proof. unfold act; simpl. by destruct (f w). Qed.

Lemma run_bind {W A B} (m : prog W A) (f : A -> prog W B) (w : W) :
  run (bind m f) w = let '(a, w') := run m w in run (f a) w'.
Proof.
  revert w. induction m as [a | X g k IH]; intros w; simpl; [done |].
  destruct (g w) as [x w']. apply IH.
Qed.

(** [wp m Q w]: run from [w], [m] ends in a result and a world that satisfy [Q]. *)
Definition wp {W A} (m : prog W A) (Q : A -> W -> Prop) (w : W) : Prop :=
  Q (run m w).1 (run m w).2.

Lemma wp_run {W A} (m : prog W A) (Q : A -> W -> Prop) (w w' : W) (a : A) :
  wp m Q w -> run m w = (a, w') -> Q a w'.
Proof. unfold wp. intros H E. by rewrite E in H. Qed.

Lemma run_wp {W A} (m : prog W A) (Q : A -> W -> Prop) (w : W) :
  wp m Q w -> let '(a, w') := run m w in Q a w'.
Proof. unfold wp. by destruct (run m w). Qed.

Lemma wp_ret {W A} (a : A) (Q : A -> W -> Prop) (w : W) : Q a w -> wp (Ret a) Q w.
Proof. done. Qed.

Lemma wp_bind {W A B} (m : prog W A) (f : A -> prog W B) (Q : B -> W -> Prop) (w : W) :
  wp m (fun a w' => wp (f a) Q w') w -> wp (bind m f) Q w.
Proof. unfold wp. rewrite run_bind. by destruct (run m w) as [a w']. Qed.

Lemma wp_act {W X} (f : W -> X * W) (Q : X -> W -> Prop) (w : W) :
  (forall x w', f w = (x, w') -> Q x w') -> wp (act f) Q w.
Proof. unfold wp. rewrite run_act. destruct (f w). simpl. auto. Qed.

Lemma wp_reads {W X} (f : W -> X) (Q : X -> W -> Prop) (w : W) : Q (f w) w -> wp (reads f) Q w.
Proof. done. Qed.

Lemma wp_mono {W A} (m : prog W A) (P Q : A -> W -> Prop) (w : W) :
  wp m P w -> (forall a w', P a w' -> Q a w') -> wp m Q w.
Proof. unfold wp. auto. Qed.

(** Lifting an operation of a component to the world that contains it. *)
Definition lift {W S X} (get : W -> S) (put : S -> W -> W) (f : S -> X * S) :
  W -> X * W :=
  fun w => let '(x, s) := f (get w) in (x, put s w).

Lemma wp_lift {W S X} (get : W -> S) (put : S -> W -> W) (f : S -> X * S)
    (Q : X -> W -> Prop) (w : W) :
  (forall x s, f (get w) = (x, s) -> Q x (put s w)) -> wp (act (lift get put f)) Q w.
Proof.
  intros H. apply wp_act. intros x w'. unfold lift. destruct (f (get w)) as [y s] eqn:E.
  intros [= <- <-]. by apply H.
Qed.

(** ** Concurrent execution of two activations *)

Record par (W A B : Type) : Type := Par { left_prog : prog W A; right_prog : prog W B; world : W }.
Arguments Par {W A B} _ _ _.
Arguments left_prog {W A B} _.
Arguments right_prog {W A B} _.
Arguments world {W A B} _.

(** One scheduler step: one side performs its next atomic action. *)
Inductive par_step {W A B} : par W A B -> par W A B -> Prop :=
| step_left X (f : W -> X * W) k q w x w' :
    f w = (x, w') -> par_step (Par (Act f k) q w) (Par (k x) q w')
| step_right X (f : W -> X * W) p k w x w' :
    f w = (x, w') -> par_step (Par p (Act f k) w) (Par p (k x) w').

(** [exec sched c] runs the schedule ([true]: the left side moves); a side that
    has finished ignores its turn. *)
Fixpoint exec {W A B} (sched : list bool) (c : par W A B) : par W A B :=
  match sched with
  | [] => c
  | true :: s =>
      match left_prog c with
      | Ret _ => exec s c
      | Act f k => let '(x, w') := f (world c) in exec s (Par (k x) (right_prog c) w')
      end
  | false :: s =>
      match right_prog c with
      | Ret _ => exec s c
      | Act f k => let '(x, w') := f (world c) in exec s (Par (left_prog c) (k x) w')
      end
  end.

Lemma exec_steps {W A B} (sched : list bool) (c : par W A B) :
  rtc par_step c (exec sched c).
Proof.
  revert c. induction sched as [| b s IH]; intros [p q w]; [constructor |].
  destruct b; simpl.
  - destruct p as [a | X f k]; [apply IH |].
    destruct (f w) as [x w'] eqn:E. eapply rtc_l; [by apply step_left | apply IH].
  - destruct q as [a | X f k]; [apply IH |].
    destruct (f w) as [x w'] eqn:E. eapply rtc_l; [by apply step_right | apply IH].
Qed.

(** The result of an activation that has finished. *)
Definition finished {W A} (m : prog W A) : option A :=
  match m with Ret a => Some a | Act _ _ => None end.

Lemma exec_finished {W A B} (sched : list bool) (c : par W A B) a b :
  finished (left_prog (exec sched c)) = Some a -> finished (right_prog (exec sched c)) = Some b ->
  rtc par_step c (Par (Ret a) (Ret b) (world (exec sched c))).
Proof.
  intros Ha Hb. pose proof (exec_steps sched c) as Hx.
  destruct (exec sched c) as [[a' |] [b' |] w]; simpl in *; by simplify_eq.
Qed.

(** An invariant of every step holds in every reachable configuration. *)
Lemma par_invariant {W A B} (I : par W A B -> Prop) (c c' : par W A B) :
  (forall c1 c2, I c1 -> par_step c1 c2 -> I c2) ->
  rtc par_step c c' -> I c -> I c'.
Proof. intros Hstep Hr. induction Hr; eauto. Qed.

(** [keeps J m]: every atomic action of [m] preserves [J], whatever happened
    before it. *)
Fixpoint keeps {W A} (J : W -> Prop) (m : prog W A) : Prop :=
  match m with
  | Ret _ => True
  | Act f k => (forall w, J w -> J (f w).2) /\ forall x, keeps J (k x)
  end.

Lemma keeps_bind {W A B} (J : W -> Prop) (m : prog W A) (f : A -> prog W B) :
  keeps J m -> (forall a, keeps J (f a)) -> keeps J (bind m f).
Proof.
  intros Hm Hf. induction m as [a | X g k IH]; simpl in *; [apply Hf |].
  destruct Hm as [Hg Hk]. split; [done |]. intros x. by apply IH.
Qed.

Lemma keeps_act {W X} (J : W -> Prop) (f : W -> X * W) :
  (forall w, J w -> J (f w).2) -> keeps J (act f).
Proof. intros H. by split. Qed.

Lemma keeps_reads {W X} (J : W -> Prop) (f : W -> X) : keeps J (reads f).
Proof. by apply keeps_act. Qed.

Lemma keeps_run {W A} (J : W -> Prop) (m : prog W A) (w : W) : keeps J m -> J w -> J (run m w).2.
Proof.
  revert w. induction m as [a | X g k IH]; intros w Hm Hw; simpl in *; [done |].
  destruct Hm as [Hg Hk]. specialize (Hg w Hw). destruct (g w) as [x w']. by apply IH.
Qed.

(** Whatever the interleaving, it holds in every reachable configuration. *)
Lemma keeps_par {W A B} (J : W -> Prop) (p : prog W A) (q : prog W B) (w : W) (c : par W A B) :
  keeps J p -> keeps J q -> J w -> rtc par_step (Par p q w) c -> J (world c).
Proof.
  intros Hp Hq Hw Hr.
  assert (H : keeps J (left_prog c) /\ keeps J (right_prog c) /\ J (world c)); [| by apply H].
  eapply (par_invariant (fun c => keeps J (left_prog c) /\ keeps J (right_prog c) /\ J (world c)));
    [| exact Hr | by repeat split].
  clear. intros c1 c2 (H1 & H2 & H3) Hstep. destruct Hstep as [X f k q w x w' E | X f p k w x w' E];
    simpl in *; (split; [| split]); try done.
  - by apply H1.
  - destruct H1 as [H1 _]. specialize (H1 w H3). by rewrite E in H1.
  - by apply H2.
  - destruct H2 as [H2 _]. specialize (H2 w H3). by rewrite E in H2.
Qed.

Lemma wp_keeps {W A} (J : W -> Prop) (m : prog W A) (Q : A -> W -> Prop) (w : W) :
  keeps J m -> J w -> (forall a w', J w' -> Q a w') -> wp m Q w.
Proof. intros Hm Hw HQ. unfold wp. apply HQ. by apply keeps_run. Qed.
