(* ===== verification/GoStrings.v ===== *)
(** The functions of Go's [strings] and [strconv] packages the program uses, on
    byte strings. Letters are ASCII: a byte above 127 is never changed by
    [ToLower]/[ToUpper] and is not white space. *)

From stdpp Require Import base list strings.
From Stdlib Require Import ZArith Lia Ascii String.
From Stdlib Require Import DecimalString DecimalZ.
From S2P Require Import Prelude.

Definition byte_of (c : ascii) : Z := Z.of_nat (nat_of_ascii c).
Definition chr (z : Z) : ascii := ascii_of_nat (Z.to_nat z).

Definition is_upper (c : ascii) : bool := (65 <=? byte_of c) && (byte_of c <=? 90).
Definition is_lower (c : ascii) : bool := (97 <=? byte_of c) && (byte_of c <=? 122).
Definition is_digit (c : ascii) : bool := (48 <=? byte_of c) && (byte_of c <=? 57).
Definition to_lower_char (c : ascii) : ascii := if is_upper c then chr (byte_of c + 32) else c.
Definition to_upper_char (c : ascii) : ascii := if is_lower c then chr (byte_of c - 32) else c.

Fixpoint str_map (f : ascii -> ascii) (s : string) : string :=
  match s with EmptyString => EmptyString | String c s' => String (f c) (str_map f s') end.

Definition ToLower (s : string) : string := str_map to_lower_char s.

(** [strings.EqualFold] on ASCII. *)
Definition EqualFold (a b : string) : bool := String.eqb (ToLower a) (ToLower b).

Definition len (s : string) : Z := Z.of_nat (String.length s).

Fixpoint HasPrefix (s p : string) : bool :=
  match p, s with
  | EmptyString, _ => true
  | String a p', String b s' => Ascii.eqb a b && HasPrefix s' p'
  | _, EmptyString => false
  end.

Fixpoint drop_str (n : nat) (s : string) : string :=
  match n, s with
  | S n', String _ s' => drop_str n' s'
  | _, _ => s
  end.
Fixpoint take_str (n : nat) (s : string) : string :=
  match n, s with
  | S n', String c s' => String c (take_str n' s')
  | _, _ => EmptyString
  end.

Definition TrimPrefix (s p : string) : string :=
  if HasPrefix s p then drop_str (String.length p) s else s.

Lemma append_nil s : (EmptyString ++ s)%string = s.
Proof. reflexivity. Qed.
Lemma append_cons c a s : (String c a ++ s)%string = String c (a ++ s)%string.
Proof. reflexivity. Qed.
Lemma append_assoc a b c : ((a ++ b) ++ c)%string = (a ++ b ++ c)%string.
Proof. induction a as [| x a IH]; [done |]. rewrite !append_cons. by rewrite IH. Qed.
Lemma append_nil_r a : (a ++ EmptyString)%string = a.
Proof. induction a as [| x a IH]; [done |]. rewrite append_cons. by rewrite IH. Qed.

Lemma HasPrefix_app p s : HasPrefix (p ++ s) p = true.
Proof. induction p as [| c p IH]; simpl; [by destruct s | by rewrite Ascii.eqb_refl]. Qed.

Lemma drop_str_app p s : drop_str (String.length p) (p ++ s) = s.
Proof. induction p as [| c p IH]; simpl; [by destruct s | done]. Qed.

Lemma TrimPrefix_app p s : TrimPrefix (p ++ s) p = s.
Proof. unfold TrimPrefix. by rewrite HasPrefix_app, drop_str_app. Qed.

Lemma length_app_str a b : String.length (a ++ b) = (String.length a + String.length b)%nat.
Proof. induction a as [| c a IH]; simpl; [done |]. by rewrite IH. Qed.

Lemma take_str_app a b : take_str (String.length a) (a ++ b) = a.
Proof. induction a as [| c a IH]; simpl; [by destruct b |]. by rewrite IH. Qed.

Lemma take_drop_str n s : (take_str n s ++ drop_str n s)%string = s.
Proof.
  revert s. induction n as [| n IH]; intros s; [by destruct s |].
  destruct s as [| c s]; [done |].
  change (String c (take_str n s ++ drop_str n s)%string = String c s). by rewrite IH.
Qed.

Lemma length_take_str n s : String.length (take_str n s) = Nat.min n (String.length s).
Proof.
  revert s. induction n as [| n IH]; intros [| c s]; simpl; try done. by rewrite IH.
Qed.

Lemma HasPrefix_take n s : HasPrefix s (take_str n s) = true.
Proof.
  revert s. induction n as [| n IH]; intros s; [by destruct s |].
  destruct s as [| c s]; [done |]. simpl. by rewrite Ascii.eqb_refl, IH.
Qed.

Definition HasSuffix (s suf : string) : bool :=
  (String.length suf <=? String.length s)%nat &&
  String.eqb (drop_str (String.length s - String.length suf) s) suf.

Definition TrimSuffix (s suf : string) : string :=
  if HasSuffix s suf then take_str (String.length s - String.length suf) s else s.

(** [strings.Contains]. *)
Fixpoint Contains (s sub : string) : bool :=
  HasPrefix s sub ||
  match s with EmptyString => false | String _ s' => Contains s' sub end.

(** ASCII white space of [strings.TrimSpace]: tab, LF, VT, FF, CR, blank. *)
Definition is_space (c : ascii) : bool :=
  ((9 <=? byte_of c) && (byte_of c <=? 13)) || (byte_of c =? 32).

Fixpoint trim_left (p : ascii -> bool) (s : string) : string :=
  match s with
  | EmptyString => EmptyString
  | String c s' => if p c then trim_left p s' else s
  end.

Fixpoint str_rev_app (s acc : string) : string :=
  match s with EmptyString => acc | String c s' => str_rev_app s' (String c acc) end.
Definition str_rev (s : string) : string := str_rev_app s EmptyString.

Definition trim_right (p : ascii -> bool) (s : string) : string :=
  str_rev (trim_left p (str_rev s)).
Definition TrimSpace (s : string) : string := trim_right is_space (trim_left is_space s).

(** [strings.Split(s, sep)] for a one-byte separator. *)
Fixpoint split_acc (sep : ascii) (cur : string) (s : string) : list string :=
  match s with
  | EmptyString => [str_rev cur]
  | String c s' =>
      if Ascii.eqb c sep then str_rev cur :: split_acc sep EmptyString s'
      else split_acc sep (String c cur) s'
  end.
Definition Split (s : string) (sep : ascii) : list string := split_acc sep EmptyString s.

(** [strings.SplitN(s, sep, n)] for a one-byte separator and n >= 1: at most [n]
    parts, the last one is the unsplit rest. *)
Fixpoint splitn_acc (sep : ascii) (n : nat) (cur : string) (s : string) : list string :=
  match s with
  | EmptyString => [str_rev cur]
  | String c s' =>
      if Ascii.eqb c sep then
        match n with
        | S (S _ as n') => str_rev cur :: splitn_acc sep n' EmptyString s'
        | _ => splitn_acc sep n (String c cur) s'
        end
      else splitn_acc sep n (String c cur) s'
  end.
Definition SplitN (s : string) (sep : ascii) (n : nat) : list string :=
  splitn_acc sep n EmptyString s.

(** [strings.Join]. *)
Fixpoint Join (l : list string) (sep : string) : string :=
  match l with
  | [] => EmptyString
  | [x] => x
  | x :: l' => (x ++ sep ++ Join l' sep)%string
  end.

(** [strings.ReplaceAll(s, old, new)] with [old] not empty: a left-to-right scan
    that skips [skip] bytes after a match, so replaced text is not scanned again. *)
Fixpoint replace_from (skip : nat) (s old new : string) : string :=
  match s with
  | EmptyString => EmptyString
  | String c s' =>
      match skip with
      | S k => replace_from k s' old new
      | O => if HasPrefix s old
             then (new ++ replace_from (String.length old - 1) s' old new)%string
             else String c (replace_from 0 s' old new)
      end
  end.
Definition ReplaceAll (s old new : string) : string := replace_from 0 s old new.

(** [strings.Repeat]. *)
Fixpoint Repeat (s : string) (n : nat) : string :=
  match n with O => EmptyString | S n' => (s ++ Repeat s n')%string end.

(** [strconv.Itoa]. *)
Definition Itoa (z : Z) : string := NilZero.string_of_int (Z.to_int z).

(** [strconv.Atoi]: optional sign, then decimal digits only. The Go function
    returns a value together with its error: 0 on a syntax error, the nearest
    int64 bound when the number does not fit. A prefix that no longer fits a
    uint64 stops the scan, whatever follows it. *)
Inductive parsed : Type := Digits (v : Z) | OutOfRange | BadSyntax.

Fixpoint digits_val (acc : Z) (s : string) : parsed :=
  match s with
  | EmptyString => Digits acc
  | String c s' =>
      if is_digit c then
        let acc' := acc * 10 + (byte_of c - 48) in
        if 2 ^ 64 <=? acc' then OutOfRange else digits_val acc' s'
      else BadSyntax
  end.

Definition split_sign (s : string) : bool * string :=
  match s with
  | String c s' => if Ascii.eqb c "-" then (true, s')
                   else if Ascii.eqb c "+" then (false, s') else (false, s)
  | EmptyString => (false, s)
  end.

Definition Atoi (s : string) : Z * bool :=
  let '(neg, body) := split_sign s in
  match body with
  | EmptyString => (0, false)
  | _ =>
      match digits_val 0 body with
      | BadSyntax => (0, false)
      | OutOfRange => (if neg then - 2 ^ 63 else 2 ^ 63 - 1, false)
      | Digits v =>
          if neg then (if 2 ^ 63 <? v then (- 2 ^ 63, false) else (- v, true))
          else (if 2 ^ 63 <=? v then (2 ^ 63 - 1, false) else (v, true))
      end
  end.

Arguments Split s%_string sep%_char.
Arguments SplitN s%_string sep%_char n%_nat.

(** ** [encoding/hex] *)

Definition hex_digit (n : nat) : ascii :=
  match String.get n "0123456789abcdef" with Some c => c | None => "0"%char end.

Fixpoint hex_EncodeToString (s : string) : string :=
  match s with
  | EmptyString => EmptyString
  | String c s' =>
      String (hex_digit (Nat.div (nat_of_ascii c) 16))
        (String (hex_digit (Nat.modulo (nat_of_ascii c) 16)) (hex_EncodeToString s'))
  end.

Lemma hex_digit_inj n m : (n < 16)%nat -> (m < 16)%nat -> hex_digit n = hex_digit m -> n = m.
Proof.
  intros Hn Hm.
  do 16 (destruct n as [| n]; [do 16 (destruct m as [| m]; [by vm_compute |]); lia |]). lia.
Qed.

Lemma hex_byte_inj c d :
  hex_digit (Nat.div (nat_of_ascii c) 16) = hex_digit (Nat.div (nat_of_ascii d) 16) ->
  hex_digit (Nat.modulo (nat_of_ascii c) 16) = hex_digit (Nat.modulo (nat_of_ascii d) 16) ->
  c = d.
Proof.
  pose proof (nat_ascii_bounded c). pose proof (nat_ascii_bounded d).
  intros H1%hex_digit_inj H2%hex_digit_inj;
    [| apply Nat.mod_upper_bound; done | apply Nat.mod_upper_bound; done
     | apply Nat.Div0.div_lt_upper_bound; lia | apply Nat.Div0.div_lt_upper_bound; lia].
  rewrite <- (ascii_nat_embedding c), <- (ascii_nat_embedding d). f_equal.
  rewrite (Nat.div_mod_eq (nat_of_ascii c) 16), (Nat.div_mod_eq (nat_of_ascii d) 16). lia.
Qed.

Lemma hex_EncodeToString_inj s s' : hex_EncodeToString s = hex_EncodeToString s' -> s = s'.
Proof.
  revert s'. induction s as [| c s IH]; intros [| d s']; simpl; intros H; try done.
  injection H as H1 H2 H3. f_equal; [by apply hex_byte_inj | by apply IH].
Qed.

(** ** [strconv.Quote]

    Backslash escapes for the quote, the backslash and the control characters; a
    byte above 127 is taken for part of a printable character and kept. *)

Definition quote_char (c : ascii) : string :=
  let b := byte_of c in
  let esc x := String (chr 92) (String x EmptyString) in
  if (b =? 34) || (b =? 92) then esc c
  else if b =? 7 then esc "a"%char else if b =? 8 then esc "b"%char
  else if b =? 9 then esc "t"%char else if b =? 10 then esc "n"%char
  else if b =? 11 then esc "v"%char else if b =? 12 then esc "f"%char
  else if b =? 13 then esc "r"%char
  else if (b <? 32) || (b =? 127)
       then (esc "x"%char ++ hex_EncodeToString (String c EmptyString))%string
       else String c EmptyString.

Fixpoint quote_chars (s : string) : string :=
  match s with EmptyString => EmptyString | String c s' => (quote_char c ++ quote_chars s')%string end.

Definition Quote (s : string) : string :=
  String (chr 34) (quote_chars s ++ String (chr 34) EmptyString).

(** ** Reversal, trimming, splitting *)

Fixpoint str_forall (p : ascii -> bool) (s : string) : bool :=
  match s with EmptyString => true | String c s' => p c && str_forall p s' end.

Lemma str_forall_app p a b : str_forall p (a ++ b) = str_forall p a && str_forall p b.
Proof. induction a as [| c a IH]; [done |]. rewrite append_cons. simpl. by rewrite IH, andb_assoc. Qed.

Lemma str_forall_impl (p q : ascii -> bool) s :
  (forall c, p c = true -> q c = true) -> str_forall p s = true -> str_forall q s = true.
Proof.
  intros H. induction s as [| c s IH]; simpl; [done |].
  intros [Hc Hs]%andb_prop. by rewrite (H _ Hc), IH.
Qed.

Lemma str_rev_app_spec s acc : str_rev_app s acc = (str_rev s ++ acc)%string.
Proof.
  unfold str_rev. revert acc. induction s as [| c s IH]; intros acc; simpl; [done |].
  rewrite IH, (IH (String c EmptyString)), append_assoc. reflexivity.
Qed.

Lemma str_rev_cons c s : str_rev (String c s) = (str_rev s ++ String c EmptyString)%string.
Proof. unfold str_rev. simpl. apply str_rev_app_spec. Qed.

Lemma str_rev_append a b : str_rev (a ++ b) = (str_rev b ++ str_rev a)%string.
Proof.
  induction a as [| c a IH].
  - by rewrite append_nil, append_nil_r.
  - by rewrite append_cons, !str_rev_cons, IH, append_assoc.
Qed.

Lemma str_rev_involutive s : str_rev (str_rev s) = s.
Proof.
  induction s as [| c s IH]; [done |]. rewrite str_rev_cons, str_rev_append, IH. reflexivity.
Qed.

Lemma str_forall_rev p s : str_forall p (str_rev s) = str_forall p s.
Proof.
  induction s as [| c s IH]; [done |]. rewrite str_rev_cons, str_forall_app, IH. simpl.
  by rewrite andb_true_r, andb_comm.
Qed.

Lemma trim_left_none p s : str_forall (fun c => negb (p c)) s = true -> trim_left p s = s.
Proof. destruct s as [| c s]; simpl; [done |]. intros [Hc _]%andb_prop. by destruct (p c). Qed.

Lemma TrimSpace_none s : str_forall (fun c => negb (is_space c)) s = true -> TrimSpace s = s.
Proof.
  intros H. unfold TrimSpace, trim_right. rewrite (trim_left_none _ s) by done.
  rewrite trim_left_none by (by rewrite str_forall_rev). apply str_rev_involutive.
Qed.

Lemma split_acc_spec sep cur s :
  split_acc sep cur s =
  match Split s sep with [] => [] | x :: l => (str_rev cur ++ x)%string :: l end.
Proof.
  unfold Split. revert cur. induction s as [| c s IH]; intros cur; simpl.
  - by rewrite append_nil_r.
  - destruct (Ascii.eqb c sep); [by rewrite append_nil_r |].
    rewrite IH, (IH (String c EmptyString)). destruct (split_acc sep EmptyString s); [done |].
    by rewrite str_rev_cons, append_assoc.
Qed.

Lemma Split_cons sep w s :
  str_forall (fun c => negb (Ascii.eqb c sep)) w = true ->
  Split (w ++ String sep s) sep = w :: Split s sep.
Proof.
  intros Hw. assert (H : forall cur, split_acc sep cur (w ++ String sep s) = (str_rev cur ++ w)%string :: Split s sep).
  { revert Hw. induction w as [| c w IH]; intros Hw cur.
    - rewrite append_nil. simpl. by rewrite Ascii.eqb_refl, append_nil_r.
    - simpl in Hw. apply andb_prop in Hw as [Hc Hw]. rewrite append_cons. simpl.
      destruct (Ascii.eqb c sep); [done |]. rewrite IH by done.
      by rewrite str_rev_cons, append_assoc. }
  unfold Split at 1. by rewrite H.
Qed.

Lemma Split_none sep w : str_forall (fun c => negb (Ascii.eqb c sep)) w = true -> Split w sep = [w].
Proof.
  intros Hw. assert (H : forall cur, split_acc sep cur w = [(str_rev cur ++ w)%string]).
  { revert Hw. induction w as [| c w IH]; intros Hw cur; simpl; [by rewrite append_nil_r |].
    simpl in Hw. apply andb_prop in Hw as [Hc Hw]. destruct (Ascii.eqb c sep); [done |].
    rewrite IH by done. by rewrite str_rev_cons, append_assoc. }
  unfold Split. by rewrite H.
Qed.

(** Splitting what was joined. *)
Lemma Split_Join sep ws :
  ws <> [] -> Forall (fun w => str_forall (fun c => negb (Ascii.eqb c sep)) w = true) ws ->
  Split (Join ws (String sep EmptyString)) sep = ws.
Proof.
  intros Hne H. induction ws as [| w [| v ws] IH]; [done | |].
  - apply Forall_cons in H as [H _]. by apply Split_none.
  - apply Forall_cons in H as [Hw H].
    change (Split (w ++ String sep (Join (v :: ws) (String sep EmptyString))) sep = w :: v :: ws).
    rewrite Split_cons by done. by rewrite IH.
Qed.

(** ** [Atoi] reads what [Itoa] wrote *)

(** The value of decimal digits that follow others worth [acc]. *)
Fixpoint digits_of (acc : Z) (u : Decimal.uint) : Z :=
  match u with
  | Decimal.Nil => acc
  | Decimal.D0 l => digits_of (acc * 10) l | Decimal.D1 l => digits_of (acc * 10 + 1) l
  | Decimal.D2 l => digits_of (acc * 10 + 2) l | Decimal.D3 l => digits_of (acc * 10 + 3) l
  | Decimal.D4 l => digits_of (acc * 10 + 4) l | Decimal.D5 l => digits_of (acc * 10 + 5) l
  | Decimal.D6 l => digits_of (acc * 10 + 6) l | Decimal.D7 l => digits_of (acc * 10 + 7) l
  | Decimal.D8 l => digits_of (acc * 10 + 8) l | Decimal.D9 l => digits_of (acc * 10 + 9) l
  end.

Lemma digits_of_pos u p : digits_of (Z.pos p) u = Z.pos (Pos.of_uint_acc u p).
Proof.
  revert p. induction u as [| u IH | u IH | u IH | u IH | u IH | u IH | u IH | u IH | u IH | u IH];
    intros p; cbn [digits_of Pos.of_uint_acc]; [done | ..];
    rewrite <- IH; apply (f_equal (fun a => digits_of a u)); lia.
Qed.

Lemma digits_of_uint u : digits_of 0 u = Z.of_N (Pos.of_uint u).
Proof. induction u; simpl; try done; apply (digits_of_pos u _). Qed.

Lemma digits_of_ge u acc : 0 <= acc -> acc <= digits_of acc u.
Proof.
  revert acc. induction u as [| u IH | u IH | u IH | u IH | u IH | u IH | u IH | u IH | u IH | u IH];
    intros acc H; simpl; try lia; match goal with |- _ <= digits_of ?a u => specialize (IH a) end; lia.
Qed.

Lemma digits_val_step acc c d s :
  is_digit c = true -> byte_of c - 48 = d -> acc * 10 + d < 2 ^ 64 ->
  digits_val acc (String c s) = digits_val (acc * 10 + d) s.
Proof.
  intros Hc <- Hb. cbn [digits_val]. rewrite Hc. by rewrite (proj2 (Z.leb_gt _ _)) by lia.
Qed.

Lemma digits_val_uint u acc :
  0 <= acc -> digits_of acc u < 2 ^ 64 ->
  digits_val acc (NilEmpty.string_of_uint u) = Digits (digits_of acc u).
Proof.
  revert acc. induction u as [| u IH | u IH | u IH | u IH | u IH | u IH | u IH | u IH | u IH | u IH];
    intros acc Ha Hb; cbn [NilEmpty.string_of_uint digits_of] in *; [done | ..];
    match type of Hb with digits_of ?a u < _ => pose proof (digits_of_ge u a) as Hge end;
    match goal with |- digits_val ?a (String ?c ?s) = _ =>
      let d := eval vm_compute in (byte_of c - 48) in
      rewrite (digits_val_step a c d s) by (reflexivity || lia) end;
    rewrite ?Z.add_0_r; apply IH; lia.
Qed.

Lemma string_of_uint_digits p :
  exists c s, NilZero.string_of_uint (Pos.to_uint p) = String c s /\ is_digit c = true /\
    NilZero.string_of_uint (Pos.to_uint p) = NilEmpty.string_of_uint (Pos.to_uint p).
Proof.
  pose proof (DecimalPos.Unsigned.to_uint_nonnil p) as Hn. unfold NilZero.string_of_uint.
  destruct (Pos.to_uint p) as [| u | u | u | u | u | u | u | u | u | u]; [done | ..];
    do 2 eexists; repeat split; reflexivity.
Qed.

Lemma Atoi_Itoa z : 0 <= z < 2 ^ 63 -> Atoi (Itoa z) = (z, true).
Proof.
  intros H. destruct z as [| p | p]; [done | | lia]. unfold Itoa. cbn [Z.to_int NilZero.string_of_int].
  destruct (string_of_uint_digits p) as (c & s & E & Hc & E2). unfold Atoi.
  assert (Hs : split_sign (String c s) = (false, String c s)).
  { cbn [split_sign]. destruct (Ascii.eqb_spec c "-") as [-> |]; [done |].
    destruct (Ascii.eqb_spec c "+") as [-> |]; done. }
  rewrite E, Hs, <- E, E2.
  assert (Hv : digits_of 0 (Pos.to_uint p) = Z.pos p)
    by (by rewrite digits_of_uint, DecimalPos.Unsigned.of_to).
  rewrite digits_val_uint by (rewrite ?Hv; lia). rewrite Hv, (proj2 (Z.leb_gt _ _)) by lia. done.
Qed.

Lemma Itoa_digits z : 0 <= z -> str_forall is_digit (Itoa z) = true.
Proof.
  intros H. destruct z as [| p | p]; [done | | lia]. unfold Itoa. cbn [Z.to_int NilZero.string_of_int].
  destruct (string_of_uint_digits p) as (_ & _ & _ & _ & ->).
  induction (Pos.to_uint p); simpl; done.
Qed.

(** ** Suffixes and single characters *)

Lemma HasSuffix_app a b : HasSuffix (a ++ b) b = true.
Proof.
  unfold HasSuffix. rewrite length_app_str.
  replace (String.length a + String.length b - String.length b)%nat with (String.length a) by lia.
  rewrite drop_str_app, String.eqb_refl, andb_true_r. apply Nat.leb_le. lia.
Qed.
Lemma TrimSuffix_app a b : TrimSuffix (a ++ b) b = a.
Proof.
  unfold TrimSuffix. rewrite HasSuffix_app, length_app_str.
  replace (String.length a + String.length b - String.length b)%nat with (String.length a) by lia. apply take_str_app.
Qed.

Lemma HasPrefix_char s c : HasPrefix s (String c "") = match s with String x _ => Ascii.eqb x c | EmptyString => false end.
Proof. destruct s as [| x s]; [done |]. cbn [HasPrefix]. rewrite Ascii.eqb_sym. destruct s; apply andb_true_r. Qed.

Lemma Contains_char s c : Contains s (String c "") = negb (str_forall (fun x => negb (Ascii.eqb x c)) s).
Proof.
  induction s as [| x s IH]; [done |]. cbn [Contains str_forall]. rewrite HasPrefix_char, IH.
  by destruct (Ascii.eqb x c).
Qed.
