(* ===== verification/GoTime.v ===== *)
(** Durations of Go's [time] package: rounding, printing and parsing.

    A duration is an int64 count of nanoseconds ([Prelude]). In [ParseDuration]
    the digits after a decimal point are scaled exactly, where Go multiplies in
    float64. *)

From stdpp Require Import base list strings.
From Stdlib Require Import ZArith Lia Ascii String.
From S2P Require Import Prelude GoStrings.

(** [d.Round(m)]: to the nearest multiple of [m], halfway values away from
    zero, saturating at the ends of int64. *)
Definition Round (d m : Z) : Z :=
  if m <=? 0 then d
  else
    let r := Z.rem d m in
    if d <? 0 then
      let r := - r in
      if r + r <? m then d + r
      else let d1 := wrap64 (d - m + r) in if d1 <? d then d1 else - 2 ^ 63
    else
      if r + r <? m then d - r
      else let d1 := wrap64 (d + m - r) in if d <? d1 then d1 else 2 ^ 63 - 1.

(** The decimals [v / 10 ^ prec] after the point, without trailing zeros. *)
Fixpoint fmtFrac (v : Z) (prec : nat) (print : bool) (acc : string) : string * Z :=
  match prec with
  | O => ((if print then String "." acc else acc), v)
  | S p =>
      let digit := v mod 10 in
      let print := print || negb (digit =? 0) in
      fmtFrac (v / 10) p print (if print then (Itoa digit ++ acc)%string else acc)
  end.

(** [d.String()], as in "72h3m0.5s". *)
Definition Duration_String (d : Z) : string :=
  let u := Z.abs d in
  let body :=
    if u <? Second then
      if u =? 0 then "0s"
      else if u <? Microsecond then (Itoa u ++ "ns")%string
      else if u <? Millisecond then
        let '(f, v) := fmtFrac u 3 false "" in
        (Itoa v ++ f ++ String (chr 194) (String (chr 181) "s"))%string
      else let '(f, v) := fmtFrac u 6 false "" in (Itoa v ++ f ++ "ms")%string
    else
      let '(f, v) := fmtFrac u 9 false "" in
      let s := (Itoa (v mod 60) ++ f ++ "s")%string in
      let v := v / 60 in
      if 0 <? v then
        let s := (Itoa (v mod 60) ++ "m" ++ s)%string in
        let v := v / 60 in
        if 0 <? v then (Itoa v ++ "h" ++ s)%string else s
      else s in
  if d <? 0 then String "-" body else body.

(** ** [time.ParseDuration] *)

(** The leading digits of [s] and what follows them; [None] beyond 2^63. *)
Fixpoint leadingInt (x : Z) (s : string) : option (Z * string) :=
  match s with
  | String c s' =>
      if is_digit c then
        if 2 ^ 63 / 10 <? x then None
        else let x := x * 10 + (byte_of c - 48) in
             if 2 ^ 63 <? x then None else leadingInt x s'
      else Some (x, s)
  | EmptyString => Some (x, s)
  end.

(** The digits after the point: value, scale and rest; digits beyond int64 are
    skipped. *)
Fixpoint leadingFraction (x scale : Z) (overflow : bool) (s : string) : Z * Z * string :=
  match s with
  | String c s' =>
      if is_digit c then
        if overflow then leadingFraction x scale true s'
        else if (2 ^ 63 - 1) / 10 <? x then leadingFraction x scale true s'
        else let y := x * 10 + (byte_of c - 48) in
             if 2 ^ 63 <? y then leadingFraction x scale true s'
             else leadingFraction y (scale * 10) false s'
      else (x, scale, s)
  | EmptyString => (x, scale, s)
  end.

(** Up to the next digit or point. *)
Fixpoint take_unit (s : string) : string * string :=
  match s with
  | String c s' =>
      if Ascii.eqb c "." || is_digit c then (EmptyString, s)
      else let '(u, r) := take_unit s' in (String c u, r)
  | EmptyString => (EmptyString, EmptyString)
  end.

Definition unitMap (u : string) : option Z :=
  if String.eqb u "ns" then Some Nanosecond
  else if String.eqb u "us" then Some Microsecond
  else if String.eqb u (String (chr 194) (String (chr 181) "s")) then Some Microsecond
  else if String.eqb u (String (chr 206) (String (chr 188) "s")) then Some Microsecond
  else if String.eqb u "ms" then Some Millisecond
  else if String.eqb u "s" then Some Second
  else if String.eqb u "m" then Some Minute
  else if String.eqb u "h" then Some Hour
  else None.

Fixpoint parse_terms (fuel : nat) (d : Z) (s : string) : option Z :=
  match fuel, s with
  | _, EmptyString => Some d
  | O, _ => None
  | S n, String c _ =>
      if Ascii.eqb c "." || is_digit c then
        match leadingInt 0 s with
        | None => None
        | Some (v, s1) =>
            let pre := negb (String.length s =? String.length s1)%nat in
            let '(f, scale, s2, post) :=
              match s1 with
              | String c1 s1' =>
                  if Ascii.eqb c1 "." then
                    let '(f, scale, s2) := leadingFraction 0 1 false s1' in
                    (f, scale, s2, negb (String.length s1' =? String.length s2)%nat)
                  else (0, 1, s1, false)
              | EmptyString => (0, 1, s1, false)
              end in
            if negb pre && negb post then None
            else
              let '(u, s3) := take_unit s2 in
              if (String.length u =? 0)%nat then None
              else match unitMap u with
                   | None => None
                   | Some unit =>
                       if 2 ^ 63 / unit <? v then None
                       else
                         let v := v * unit + f * unit / scale in
                         if (0 <? f) && (2 ^ 63 <? v) then None
                         else let d := d + v in
                              if 2 ^ 63 <? d then None else parse_terms n d s3
                   end
        end
      else None
  end.

(** [None] is an error; Go's value is then 0. *)
Definition ParseDuration (s : string) : option Z :=
  let '(neg, s) := split_sign s in
  if String.eqb s "0" then Some 0
  else if String.eqb s "" then None
  else match parse_terms (String.length s) 0 s with
       | None => None
       | Some d => if neg then Some (- d) else if 2 ^ 63 - 1 <? d then None else Some d
       end.

Example parse_1h15m : ParseDuration "1h15m30.918s" = Some (Hour + 15 * Minute + 30918 * Millisecond).
Proof. vm_compute. reflexivity. Qed.
Example print_72h : Duration_String (72 * Hour + 3 * Minute + 500 * Millisecond) = "72h3m0.5s"%string.
Proof. vm_compute. reflexivity. Qed.
Example parse_errors :
  (ParseDuration "", ParseDuration "5", ParseDuration "1d", ParseDuration "-2s", ParseDuration ".s")
  = (None, None, None, Some (-2 * Second), None).
Proof. vm_compute. reflexivity. Qed.
