(* ===== verification/Calendar.v ===== *)
(** Dates of Go's [time] package: the proleptic Gregorian calendar, and the layout
    ["2006-01-02"] in [Format] and [Parse]. A date is its number of days since 1970-01-01. *)

From stdpp Require Import base list strings.
From Stdlib Require Import ZArith Lia Ascii String.
From S2P Require Import Prelude GoStrings.

(** ** Days and civil dates

    Years start in March here, so that the leap day comes last; four hundred years are one
    era of 146097 days. *)
Definition era_days : Z := 146097.

Definition year_of (doe : Z) : Z := (doe - doe / 1460 + doe / 36524 - doe / 146096) / 365.
Definition year_start (yoe : Z) : Z := 365 * yoe + yoe / 4 - yoe / 100.
Definition month_day (doy : Z) : Z * Z :=
  let mp := (5 * doy + 2) / 153 in
  ((if mp <? 10 then mp + 3 else mp - 9), doy - (153 * mp + 2) / 5 + 1).

Definition civil_of_doe (doe : Z) : Z * Z * Z :=
  let yoe := year_of doe in
  let '(m, d) := month_day (doe - year_start yoe) in
  ((if m <=? 2 then yoe + 1 else yoe), m, d).

Definition civil_from_days (z : Z) : Z * Z * Z :=
  let z := z + 719468 in
  let '(y, m, d) := civil_of_doe (z mod era_days) in (y + z / era_days * 400, m, d).

Definition day_of_year (m d : Z) : Z := (153 * (if 2 <? m then m - 3 else m + 9) + 2) / 5 + d - 1.
Definition doe_of_civil (yoe m d : Z) : Z := year_start yoe + day_of_year m d.

Definition days_from_civil (y m d : Z) : Z :=
  let y := if m <=? 2 then y - 1 else y in
  y / 400 * era_days + doe_of_civil (y mod 400) m d - 719468.

Definition is_leap (y : Z) : bool := (y mod 4 =? 0) && (negb (y mod 100 =? 0) || (y mod 400 =? 0)).
Definition daysIn (m y : Z) : Z :=
  if m =? 2 then (if is_leap y then 29 else 28)
  else if (m =? 4) || (m =? 6) || (m =? 9) || (m =? 11) then 30 else 31.

(** ** Format and Parse *)

Definition digit_char (n : Z) : ascii := chr (48 + n).
Definition pad2 (n : Z) : string := String (digit_char (n / 10)) (String (digit_char (n mod 10)) EmptyString).
Definition pad4 (n : Z) : string := (pad2 (n / 100) ++ pad2 (n mod 100))%string.

Definition format_date (z : Z) : string :=
  let '(y, m, d) := civil_from_days z in (pad4 y ++ "-" ++ pad2 m ++ "-" ++ pad2 d)%string.

Definition digit_of (c : ascii) : option Z := if is_digit c then Some (byte_of c - 48) else None.
Definition num2 (a b : ascii) : option Z :=
  match digit_of a, digit_of b with Some x, Some y => Some (10 * x + y) | _, _ => None end.

(** [time.Parse("2006-01-02", s)], in days. *)
Definition parse_date (s : string) : option Z :=
  match s with
  | String a (String b (String c (String d (String s1 (String e (String f (String s2 (String g (String h
      EmptyString))))))))) =>
      if negb (Ascii.eqb s1 "-" && Ascii.eqb s2 "-") then None
      else match num2 a b, num2 c d, num2 e f, num2 g h with
           | Some y1, Some y2, Some m, Some day =>
               let y := 100 * y1 + y2 in
               if (1 <=? m) && (m <=? 12) && (1 <=? day) && (day <=? daysIn m y)
               then Some (days_from_civil y m day) else None
           | _, _, _, _ => None
           end
  | _ => None
  end.

Example format_epoch : format_date 0 = "1970-01-01"%string /\ format_date 19782 = "2024-02-29"%string.
Proof. by vm_compute. Qed.
Example parse_leap : parse_date "2024-02-29" = Some 19782 /\ parse_date "2023-02-29" = None /\ parse_date "2024-2-9" = None.
Proof. by vm_compute. Qed.

(** ** A formatted date parses back *)

(** Checking every number below a bound. *)
Fixpoint all_from (p : Z -> bool) (n : nat) (z : Z) : bool :=
  match n with O => true | S k => p z && all_from p k (z + 1) end.

Lemma all_from_spec p n z : all_from p n z = true -> forall x, z <= x < z + Z.of_nat n -> p x = true.
Proof.
  revert z. induction n as [| n IH]; intros z H x Hx; [lia |]. cbn [all_from] in H.
  apply andb_prop in H as [Hz H]. destruct (decide (x = z)) as [-> | Hne]; [done |].
  apply (IH (z + 1) H). lia.
Qed.

(** A March year: its first and last day are in it, and the next one follows. *)
Definition year_days (yoe : Z) : Z := if is_leap (yoe + 1) then 366 else 365.
Definition year_ok (yoe : Z) : bool :=
  (year_of (year_start yoe) =? yoe) && (year_of (year_start yoe + year_days yoe - 1) =? yoe) &&
  (year_start (yoe + 1) =? year_start yoe + year_days yoe - (if yoe =? 399 then 1 else 0)).

(** A day of a March year: its month and day are a date's and give the day back; only the
    last day of a leap year is a 29th of February. *)
Definition doy_ok (doy : Z) : bool :=
  let '(m, d) := month_day doy in
  (1 <=? m) && (m <=? 12) && (1 <=? d) && (day_of_year m d =? doy) &&
  (d <=? (if m =? 2 then if doy =? 365 then 29 else 28 else daysIn m 1)).

Lemma years_ok : all_from year_ok 400 0 = true.
Proof. vm_compute. reflexivity. Qed.
Lemma doys_ok : all_from doy_ok 366 0 = true.
Proof. vm_compute. reflexivity. Qed.

Lemma year_of_mono x y : 0 <= x <= y -> y < era_days -> year_of x <= year_of y.
Proof. unfold year_of, era_days. intros H1 H2. apply Z.div_le_mono; [lia |]. Z.to_euclidean_division_equations. lia. Qed.

Lemma year_of_spec doe :
  0 <= doe < era_days ->
  0 <= year_of doe < 400 /\ year_start (year_of doe) <= doe < year_start (year_of doe) + year_days (year_of doe).
Proof.
  intros Hd. set (k := year_of doe).
  assert (H0 : 0 <= k) by (apply (year_of_mono 0 doe); lia).
  assert (H1 : k <= 399) by (apply (year_of_mono doe 146096); unfold era_days in *; lia).
  assert (Y : forall j, 0 <= j < 400 -> year_of (year_start j) = j /\ year_of (year_start j + year_days j - 1) = j /\
              year_start (j + 1) = year_start j + year_days j - (if j =? 399 then 1 else 0)).
  { intros j Hj. pose proof (all_from_spec _ _ _ years_ok j ltac:(lia)) as H. unfold year_ok in H.
    apply andb_prop in H as [[H2 H3]%andb_prop H4]. rewrite !Z.eqb_eq in H2, H3, H4. done. }
  assert (P : forall j, 0 <= j < 400 -> 0 <= year_start j /\ 365 <= year_days j).
  { intros j Hj. unfold year_start, year_days. split; [Z.to_euclidean_division_equations; lia | destruct (is_leap _); lia]. }
  split; [lia |]. split.
  - destruct (decide (year_start k <= doe)) as [| Hlt]; [done | exfalso].
    destruct (decide (k = 0)) as [E | Hk]; [rewrite E in Hlt; change (year_start 0) with 0 in Hlt; lia |].
    destruct (Y (k - 1) ltac:(lia)) as (_ & H3 & H4). destruct (P (k - 1) ltac:(lia)) as [P1 P2].
    replace (k - 1 + 1) with k in H4 by lia. destruct (Z.eqb_spec (k - 1) 399); [lia |].
    assert (Hm := year_of_mono doe (year_start (k - 1) + year_days (k - 1) - 1) ltac:(lia)).
    specialize (Hm ltac:(unfold year_days, year_start, era_days in *; destruct (is_leap _); Z.to_euclidean_division_equations; lia)).
    unfold k in *. lia.
  - destruct (decide (doe < year_start k + year_days k)) as [| Hge]; [done | exfalso].
    destruct (Y k ltac:(lia)) as (_ & _ & H4). destruct (Z.eqb_spec k 399) as [E | Hk].
    { rewrite E in Hge. change (year_start 399 + year_days 399) with era_days in Hge. lia. }
    destruct (Y (k + 1) ltac:(lia)) as (H2 & _).
    pose proof (year_of_mono (year_start (k + 1)) doe ltac:(pose proof (P (k + 1)); lia) ltac:(lia)).
    unfold k in *. lia.
Qed.

Lemma is_leap_era y e : is_leap (y + e * 400) = is_leap y.
Proof.
  unfold is_leap. replace (y + e * 400) with (y + (e * 100) * 4) at 1 by lia. rewrite Z.mod_add by lia.
  replace (y + e * 400) with (y + (e * 4) * 100) at 1 by lia. rewrite Z.mod_add by lia. by rewrite Z.mod_add by lia.
Qed.

(** What a date is, and that the day of the date of a day is the day. *)
Lemma civil_from_days_spec z :
  let '(y, m, d) := civil_from_days z in
  1 <= m <= 12 /\ 1 <= d <= daysIn m y /\ days_from_civil y m d = z.
Proof.
  unfold civil_from_days, civil_of_doe. set (doe := (z + 719468) mod era_days). set (era := (z + 719468) / era_days).
  assert (Hz : z = era * era_days + doe - 719468)
    by (pose proof (Z.div_mod (z + 719468) era_days ltac:(done)); unfold era, doe; lia).
  assert (Hdoe : 0 <= doe < era_days) by (apply Z.mod_pos_bound; done).
  destruct (year_of_spec doe Hdoe) as [Hk Hs]. set (k := year_of doe) in *. set (doy := doe - year_start k).
  assert (Hdoy : 0 <= doy < 366 /\ (doy = 365 -> is_leap (k + 1) = true)).
  { unfold year_days in Hs. unfold doy. destruct (is_leap (k + 1)); split; try done; lia. }
  pose proof (all_from_spec _ _ _ doys_ok doy ltac:(lia)) as H. unfold doy_ok in H.
  destruct (month_day doy) as [m d].
  apply andb_prop in H as [[[[H1 H2]%andb_prop H3]%andb_prop H4]%andb_prop H5].
  rewrite !Z.leb_le in H1, H2, H3, H5. rewrite Z.eqb_eq in H4. split; [done |]. split; [split; [done |] |].
  - unfold daysIn in *. destruct (Z.eqb_spec m 2) as [-> | Hm]; [| done]. cbn [Z.leb Z.compare Pos.compare Pos.compare_cont].
    rewrite is_leap_era. destruct (Z.eqb_spec doy 365) as [E |]; [| destruct (is_leap _); lia].
    by rewrite (proj2 Hdoy E).
  - unfold days_from_civil, doe_of_civil. rewrite H4.
    replace (if m <=? 2 then (if m <=? 2 then k + 1 else k) + era * 400 - 1 else (if m <=? 2 then k + 1 else k) + era * 400)
      with (k + era * 400) by (destruct (m <=? 2); lia).
    rewrite Z.div_add, Z.mod_add by lia. rewrite Z.div_small, Z.mod_small by lia. unfold doy. lia.
Qed.

Lemma num2_pad2 n : 0 <= n < 100 -> num2 (digit_char (n / 10)) (digit_char (n mod 10)) = Some n.
Proof.
  intros Hn. assert (H : all_from (fun n => bool_decide (num2 (digit_char (n / 10)) (digit_char (n mod 10)) = Some n)) 100 0 = true)
    by (vm_compute; reflexivity).
  pose proof (all_from_spec _ _ _ H n ltac:(lia)) as E. by apply bool_decide_eq_true in E.
Qed.

(** The dates of the layout: years of four digits. *)
Definition in_layout (z : Z) : Prop := 0 <= (civil_from_days z).1.1 <= 9999.

Lemma parse_format_date z : in_layout z -> parse_date (format_date z) = Some z.
Proof.
  unfold in_layout, format_date. pose proof (civil_from_days_spec z) as H.
  destruct (civil_from_days z) as [[y m] d]. cbn [fst]. intros Hy. destruct H as (Hm & Hd & Hz).
  assert (Hd31 : daysIn m y <= 31) by (unfold daysIn; destruct (m =? 2); [destruct (is_leap y) | destruct (_ || _)]; lia).
  unfold pad4, pad2. repeat (rewrite append_cons || rewrite append_nil). cbn [parse_date].
  change (Ascii.eqb "-" "-" && Ascii.eqb "-" "-") with true. cbn [negb].
  rewrite (num2_pad2 m), (num2_pad2 d) by lia.
  rewrite (num2_pad2 (y / 100)), (num2_pad2 (y mod 100)) by (Z.to_euclidean_division_equations; lia).
  replace (100 * (y / 100) + y mod 100) with y by (pose proof (Z.div_mod y 100 ltac:(lia)); lia).
  rewrite !(proj2 (Z.leb_le _ _)) by lia. cbn [andb]. by rewrite Hz.
Qed.
