(* ===== verification/Expiring.v ===== *)
(** Maps whose entries expire: the lemmas the in-process stores share.

    The memory cache, the memory blacklist and their specifications keep a
    [gmap] of entries, ask whether an entry is dead at some instant, and drop
    dead entries now and then. What such a store means is its [live] view. *)

From stdpp Require Import base gmap strings list fin_maps.
From Stdlib Require Import ZArith Lia.
From S2P Require Import Prelude.

(** How long a value written at [now] with [ttl] is there: for ever when the TTL
    is not positive. *)
Definition lives (now ttl t : Z) : bool := (ttl <=? 0) || (t <? now + ttl).

Section Expiring.
Context {V : Type} (dead : Z -> V -> bool).

(** Once dead, an entry stays dead. *)
Definition dead_mono : Prop :=
  forall t t' v, t <= t' -> dead t v = true -> dead t' v = true.

Definition live (t : Z) (m : gmap string V) (k : string) : option V :=
  match m !! k with
  | Some v => if dead t v then None else Some v
  | None => None
  end.

(** Dropping every dead entry. *)
Definition purge (t : Z) (m : gmap string V) : gmap string V :=
  filter (fun kv => dead t kv.2 = false) m.

Lemma live_insert t m k v k' :
  live t (<[k := v]> m) k' =
  if decide (k' = k) then (if dead t v then None else Some v) else live t m k'.
Proof.
  unfold live. destruct (decide (k' = k)) as [-> | Hne].
  - by rewrite lookup_insert_eq.
  - by rewrite lookup_insert_ne.
Qed.

Lemma live_delete t m k k' :
  live t (delete k m) k' = if decide (k' = k) then None else live t m k'.
Proof.
  unfold live. destruct (decide (k' = k)) as [-> | Hne].
  - by rewrite lookup_delete_eq.
  - by rewrite lookup_delete_ne.
Qed.

Lemma live_purge t t' m k : dead_mono -> t <= t' -> live t' (purge t m) k = live t' m k.
Proof.
  intros Hd Hle. unfold live, purge. rewrite map_lookup_filter.
  destruct (m !! k) as [v |]; [| done]. simpl.
  destruct (dead t v) eqn:E; simpl; [| done]. by rewrite (Hd t t' v Hle E).
Qed.

(** Dropping one dead entry is not observable. *)
Lemma live_delete_dead t t' m k k' v :
  dead_mono -> t <= t' -> m !! k = Some v -> dead t v = true ->
  live t' (delete k m) k' = live t' m k'.
Proof.
  intros Hd Hle Hk Hv. rewrite live_delete. destruct (decide (k' = k)) as [-> |]; [| done].
  unfold live. by rewrite Hk, (Hd t t' v Hle Hv).
Qed.

Lemma live_mono t t' m k v : dead_mono -> t <= t' -> live t' m k = Some v -> live t m k = Some v.
Proof.
  intros Hd Hle. unfold live. destruct (m !! k) as [v' |]; [| done].
  destruct (dead t v') eqn:E; [by rewrite (Hd t t' v' Hle E) |]. by destruct (dead t' v').
Qed.

(** Two stores with the same live view from [t] on. *)
Definition same_live (t : Z) (m1 m2 : gmap string V) : Prop :=
  forall t' k, t <= t' -> live t' m1 k = live t' m2 k.

#[global] Instance same_live_equiv t : Equivalence (same_live t).
Proof.
  split.
  - intros m t' k _. done.
  - intros m1 m2 H t' k Ht. symmetry. by apply H.
  - intros m1 m2 m3 H1 H2 t' k Ht. rewrite H1 by done. by apply H2.
Qed.

Lemma same_live_later t t' m1 m2 : same_live t m1 m2 -> t <= t' -> same_live t' m1 m2.
Proof. intros H Hle u k Hu. apply H. lia. Qed.

Lemma same_live_insert t m1 m2 k v :
  same_live t m1 m2 -> same_live t (<[k := v]> m1) (<[k := v]> m2).
Proof. intros H t' k' Ht. rewrite !live_insert. case_decide; [done |]. by apply H. Qed.

Lemma same_live_delete t m1 m2 k :
  same_live t m1 m2 -> same_live t (delete k m1) (delete k m2).
Proof. intros H t' k' Ht. rewrite !live_delete. case_decide; [done |]. by apply H. Qed.

Lemma same_live_purge t m1 m2 :
  dead_mono -> same_live t m1 m2 -> same_live t (purge t m1) m2.
Proof. intros Hd H t' k Ht. rewrite live_purge by done. by apply H. Qed.

Lemma same_live_drop t m1 m2 k v :
  dead_mono -> same_live t m1 m2 -> m1 !! k = Some v -> dead t v = true ->
  same_live t (delete k m1) m2.
Proof.
  intros Hd H Hk Hv t' k' Ht. rewrite (live_delete_dead t t' m1 k k' v Hd Ht Hk Hv).
  by apply H.
Qed.
End Expiring.

Create HintDb live discriminated.
#[export] Hint Resolve same_live_insert same_live_delete same_live_purge : live.
