(* ===== verification/Json.v ===== *)
(** JSON values and the encodings the program stores.

    [encoding/json] turns a Go value into text and back; the model keeps the
    value tree and leaves the text out. [Unmarshal] into a destination of the
    wrong shape is an error, [null] leaves the destination at its zero value and
    an absent field leaves that field at its zero value. *)

From stdpp Require Import base list strings.
From Stdlib Require Import ZArith Lia String.
From S2P Require Import Prelude.

Inductive json : Type :=
| JNull
| JBool (b : bool)
| JNum (z : Z)
| JStr (s : string)
| JArr (l : list json)
| JObj (fields : list (string * json)).

(** Encoding of a Go type. *)
Class Json (A : Type) : Type := {
  marshal : A -> result json;
  unmarshal : json -> result A
}.

(** [Unmarshal] gives back what [Marshal] was given. *)
Class JsonRoundtrip (A : Type) `{Json A} : Prop :=
  unmarshal_marshal : forall a j, marshal a = Ok j -> unmarshal j = Ok a.

Definition type_error {A} : result A := Err (Fresh "json: cannot unmarshal value into Go value").

#[export] Instance json_string : Json string := {|
  marshal s := Ok (JStr s);
  unmarshal j := match j with JStr s => Ok s | JNull => Ok "" | _ => type_error end
|}.

(** Go [int]: a number outside int64 is a decoding error. *)
#[export] Instance json_int : Json Z := {|
  marshal z := Ok (JNum z);
  unmarshal j :=
    match j with
    | JNum z => if (- 2 ^ 63 <=? z) && (z <? 2 ^ 63) then Ok z else type_error
    | JNull => Ok 0
    | _ => type_error
    end
|}.

Fixpoint field (name : string) (l : list (string * json)) : option json :=
  match l with
  | [] => None
  | (k, v) :: l' => if String.eqb k name then Some v else field name l'
  end.

(** Decoding one struct field into its zero-valued destination. *)
Definition field_or {A} `{Json A} (zero : A) (name : string) (l : list (string * json)) : result A :=
  match field name l with Some v => unmarshal v | None => Ok zero end.

#[export] Instance json_string_roundtrip : JsonRoundtrip string.
Proof. intros a j [= <-]. reflexivity. Qed.

Lemma json_int_roundtrip z : in_int64 z -> unmarshal (JNum z) = Ok z.
Proof.
  intros [Hlo Hhi]. simpl. assert ((- 2 ^ 63 <=? z) = true) as -> by lia.
  by assert ((z <? 2 ^ 63) = true) as -> by lia.
Qed.
