(* ===== verification/RedisServer.v ===== *)
(** The Redis server behind go-redis: the commands the cache and the token
    blacklist send ([Set] with an expiry, [Get], [Del], [Exists]).

    The server and its client library are not part of the program, so the
    commands are parameters ([RedisServer]); [RedisServerLaws] states what the
    Redis documentation promises of a server that answers. A command may also
    fail with a transport error, about which nothing is promised but that reads
    leave the data alone. *)

From stdpp Require Import base gmap strings list fin_maps.
From Stdlib Require Import ZArith Lia String.
From S2P Require Import Prelude Expiring Json.

(** The expiry go-redis sends for a [time.Duration]: whole milliseconds, rounded
    down but at least one; none when the duration is zero. *)
Definition px (ttl : Z) : Z :=
  if ttl <=? 0 then 0 else if ttl <? Millisecond then Millisecond else milliseconds ttl * Millisecond.

Lemma px_id ttl : 0 <= ttl -> (Millisecond | ttl) -> px ttl = ttl.
Proof.
  intros H [q ->]. unfold px, milliseconds.
  destruct (q * Millisecond <=? 0) eqn:E; [unfold Millisecond, Microsecond, Nanosecond in *; lia |].
  rewrite Z.quot_mul by done.
  destruct (q * Millisecond <? Millisecond) eqn:E'; [| done].
  unfold Millisecond, Microsecond, Nanosecond in *. nia.
Qed.

Lemma px_bounds ttl : Millisecond <= ttl -> ttl - Millisecond < px ttl <= ttl.
Proof.
  intros H. unfold px, milliseconds, Millisecond, Microsecond, Nanosecond in *.
  assert ((ttl <=? 0) = false) as -> by lia.
  destruct (ttl <? _) eqn:E; [lia |].
  rewrite Z.quot_div_nonneg by lia. pose proof (Z.mod_pos_bound ttl 1000000 eq_refl).
  pose proof (Z.div_mod ttl 1000000 ltac:(done)). change (1000 * (1000 * 1)) with 1000000. lia.
Qed.

Class RedisServer (S : Type) : Type := {
  SET : Z -> string -> json -> Z -> S -> option error * S;   (* clock, key, value, expiry *)
  GET : Z -> string -> S -> result json * S;
  DEL : Z -> list string -> S -> option error * S;
  EXISTS : Z -> string -> S -> result Z * S
}.

Class RedisServerLaws (S : Type) `{RedisServer S} : Type := {
  stored : S -> Z -> string -> option json;
  SET_ok : forall now k v ttl s s',
    0 <= ttl -> SET now k v ttl s = (None, s') ->
    forall t, now <= t -> stored s' t k = if lives now (px ttl) t then Some v else None;
  SET_frame : forall now k v ttl s t k', now <= t -> k' <> k ->
    stored (SET now k v ttl s).2 t k' = stored s t k';
  GET_ok : forall now k v s s', GET now k s = (Ok v, s') -> stored s now k = Some v;
  GET_nil : forall now k e s s',
    GET now k s = (Err e, s') -> errors_is e RedisNil = true -> stored s now k = None;
  GET_frame : forall now k s t k', now <= t -> stored (GET now k s).2 t k' = stored s t k';
  DEL_ok : forall now ks s s', DEL now ks s = (None, s') -> forall t k, now <= t ->
    k ∈ ks -> stored s' t k = None;
  DEL_frame : forall now ks s t k, now <= t -> k ∉ ks ->
    stored (DEL now ks s).2 t k = stored s t k;
  EXISTS_ok : forall now k n s s',
    EXISTS now k s = (Ok n, s') -> n = if stored s now k then 1 else 0;
  EXISTS_frame : forall now k s t k', now <= t -> stored (EXISTS now k s).2 t k' = stored s t k'
}.

(** A server that always answers, to instantiate the parameters with. *)
Module MapServer.

Record entry : Type := MkEntry { value : json; forever : bool; until : Z }.
Notation server := (gmap string entry).

Definition dead (now : Z) (e : entry) : bool := negb (forever e) && negb (now <? until e).

Lemma server_dead_mono : Expiring.dead_mono dead.
Proof. intros t t' e Hle. unfold dead. destruct (forever e); simpl; [done | lia]. Qed.

#[export] Instance map_server : RedisServer server := {|
  SET now k v ttl s := (None, <[k := MkEntry v (px ttl <=? 0) (now + px ttl)]> s);
  GET now k s := (match live dead now s k with
                  | Some e => Ok (value e)
                  | None => Err (Sentinel RedisNil)
                  end, s);
  DEL _ ks s := (None, foldl (fun s' k => delete k s') s ks);
  EXISTS now k s := (Ok (if live dead now s k then 1 else 0), s)
|}.

Lemma foldl_delete_live now ks (s : server) k :
  live dead now (foldl (fun s' k' => delete k' s') s ks) k
  = if decide (k ∈ ks) then None else live dead now s k.
Proof.
  revert s. induction ks as [| k0 ks IH]; intros s; cbn [foldl].
  - rewrite decide_False; [done | apply not_elem_of_nil].
  - rewrite IH, live_delete. destruct (decide (k ∈ ks)) as [Hi | Hn].
    + rewrite decide_True; [done |]. by right.
    + destruct (decide (k = k0)) as [-> | Hne].
      * rewrite decide_True; [done | by left].
      * rewrite decide_False; [done |]. by intros [? | ?]%elem_of_cons.
Qed.

#[export] Instance map_server_laws : RedisServerLaws server.
Proof.
  refine {| stored s t k := value <$> live dead t s k |}.
  - intros now k v ttl s s' _ [= <-] t _. rewrite live_insert, decide_True by done.
    unfold dead, lives. cbn [forever until].
    destruct (px ttl <=? 0); simpl; [done |]. by destruct (t <? now + px ttl).
  - intros now k v ttl s t k' _ Hne. simpl. by rewrite live_insert, decide_False.
  - intros now k v s s' H. injection H as H _. by destruct (live dead now s k); simplify_eq/=.
  - intros now k e s s' H _. injection H as H _. by destruct (live dead now s k); simplify_eq/=.
  - done.
  - intros now ks s s' [= <-] t k _ Hk. by rewrite foldl_delete_live, decide_True.
  - intros now ks s t k _ Hk. simpl. by rewrite foldl_delete_live, decide_False.
  - intros now k n s s' [= <- _]. by destruct (live dead now s k).
  - done.
Defined.
End MapServer.
