(* ===== verification/RateLimit.v ===== *)
(** [pkg/ratelimit]: the fixed-window request limiters.

    [Memory] models [MemoryLimiter] (memory.go): the map of windows, its sweep
    and [Allow]. [Window] is the specification: one key, one window, no sweep.
    The limiter refines it on every trace whose clock does not go back, from
    which the quota bounds follow. [Redis] models [RedisLimiter] (redis.go) over
    the commands of the server its script runs. *)

From stdpp Require Import base gmap strings list fin_maps.
From Stdlib Require Import ZArith Lia Ascii String Sorted.
From S2P Require Import Prelude.

(** [Result] of one [Allow] call. *)
Record Result : Type := MkResult { Allowed : bool; Remaining : Z; RetryAfter : Z }.

(** ** Specification: the window of one key *)
Module Window.

Record windowState : Type := MkWindow { count : Z; resetAt : Z }.

Section Machine.
Context (max window : Z).

(** The window a request at [now] is counted in. *)
Definition current (now : Z) (st : option windowState) : windowState :=
  match st with
  | Some w => if now <? resetAt w then w else MkWindow 0 (now + window)
  | None => MkWindow 0 (now + window)
  end.

Definition decide_window (now : Z) (w : windowState) : Result :=
  if max <? count w then MkResult false 0 (resetAt w - now)
  else MkResult true (max - count w) 0.

Definition step (now : Z) (st : option windowState) : Result * option windowState :=
  let w := current now st in
  let w' := MkWindow (count w + 1) (resetAt w) in
  (decide_window now w', Some w').

Fixpoint run_key (ts : list Z) (st : option windowState) : list (Z * Result) :=
  match ts with
  | [] => []
  | t :: ts' => let '(r, st') := step t st in (t, r) :: run_key ts' st'
  end.

(** Number of requests allowed with an arrival time in [a, b). *)
Fixpoint allowed_in (a b : Z) (evs : list (Z * Result)) : Z :=
  match evs with
  | [] => 0
  | (t, r) :: evs' =>
      (if Allowed r && (a <=? t) && (t <? b) then 1 else 0) + allowed_in a b evs'
  end.

Definition wf_window (st : option windowState) : Prop :=
  match st with Some w => 0 <= count w | None => True end.

Lemma current_count now st : wf_window st -> 0 <= count (current now st).
Proof. destruct st as [w |]; simpl; [| lia]. destruct (now <? resetAt w); simpl; lia. Qed.

Lemma step_wf now st : wf_window st -> wf_window (snd (step now st)).
Proof. intros H. simpl. pose proof (current_count now st H). lia. Qed.

Lemma allowed_in_late a b ts st :
  Forall (fun t => b <= t) ts -> allowed_in a b (run_key ts st) = 0.
Proof.
  intros H. revert st. induction H as [| t ts Ht _ IH]; intros st; simpl; [done |].
  rewrite IH. assert ((t <? b) = false) as -> by lia. by rewrite andb_false_r.
Qed.

(** Budget left for the interval [a, a + window) in window state [st]. *)
Definition budget (a : Z) (st : option windowState) : Z :=
  match st with
  | None => 2 * max
  | Some w =>
      if a + window <=? resetAt w then Z.max 0 (max - count w)
      else if a <? resetAt w then Z.max 0 (max - count w) + max
      else 2 * max
  end.

Lemma step_budget a t st :
  0 < max -> 0 < window -> wf_window st ->
  (t < a + window \/ match st with Some w => resetAt w < a + window | None => True end) ->
  let '(r, st') := step t st in
  (if Allowed r && (a <=? t) && (t <? a + window) then 1 else 0) + budget a st'
  <= budget a st.
Proof.
  intros Hm Hw Hwf Hor. unfold step, budget, decide_window, current.
  destruct st as [[c r] |]; simpl in *; repeat case_match; simpl in *;
    rewrite ?andb_true_iff, ?andb_false_iff in *; lia.
Qed.

Lemma budget_bound a st : 0 < max -> wf_window st -> budget a st <= 2 * max.
Proof. intros Hm H. destruct st as [w |]; simpl in *; repeat case_match; lia. Qed.

Lemma allowed_in_budget a ts st :
  0 < max -> 0 < window -> StronglySorted Z.le ts -> wf_window st ->
  allowed_in a (a + window) (run_key ts st) <= budget a st.
Proof.
  intros Hm Hw Hs. revert st. induction Hs as [| t ts Hs IH Ht]; intros st Hwf.
  - destruct st as [w |]; simpl in *; repeat case_match; lia.
  - pose proof (step_wf t st Hwf) as Hwf'.
    destruct (decide (t < a + window)) as [Hlt | Hge].
    + pose proof (step_budget a t st Hm Hw Hwf (or_introl Hlt)) as Hb.
      cbn [run_key]. destruct (step t st) as [r st']. cbn [allowed_in].
      specialize (IH st' Hwf'). lia.
    + assert (allowed_in a (a + window) (run_key (t :: ts) st) = 0) as ->.
      { apply allowed_in_late. constructor; [lia |].
        eapply Forall_impl; [exact Ht | simpl; lia]. }
      destruct st as [w |]; simpl; repeat case_match; lia.
Qed.

(** The i-th request of an open window [MkWindow c r]. *)
Lemma run_key_open ts c r i t :
  Forall (fun t => t < r) ts -> ts !! i = Some t ->
  run_key ts (Some (MkWindow c r)) !! i
  = Some (t, decide_window t (MkWindow (c + Z.of_nat i + 1) r)).
Proof.
  revert c i. induction ts as [| t0 ts IH]; intros c i Hall Hi; [done |].
  inversion Hall as [| ? ? Ht0 Hts]; subst.
  cbn [run_key step current resetAt]. assert ((t0 <? r) = true) as -> by lia.
  cbn [count resetAt].
  destruct i as [| i]; simpl in Hi.
  - injection Hi as ->. simpl. by rewrite Z.add_0_r.
  - etransitivity; [exact (IH (c + 1) i Hts Hi) |].
    by replace (c + 1 + Z.of_nat i + 1) with (c + Z.of_nat (S i) + 1) by lia.
Qed.

(** The i-th request of a key when the first one opens the window. *)
Lemma first_open t0 ts i t :
  Forall (fun u => u < t0 + window) ts -> (t0 :: ts) !! i = Some t ->
  run_key (t0 :: ts) None !! i
  = Some (t, decide_window t (MkWindow (Z.of_nat i + 1) (t0 + window))).
Proof.
  intros Hts Hi. destruct i as [| i]; simpl in Hi.
  - by injection Hi as <-.
  - etransitivity; [exact (run_key_open ts (0 + 1) (t0 + window) i t Hts Hi) |].
    by replace (0 + 1 + Z.of_nat i + 1) with (Z.of_nat (S i) + 1) by lia.
Qed.

(** Two stored windows nobody can tell apart from time [t] on. *)
Definition agree (t : Z) (o1 o2 : option windowState) : Prop :=
  forall t', t <= t' -> current t' o1 = current t' o2.

Lemma agree_refl t o : agree t o o.
Proof. intros t' _. reflexivity. Qed.

Lemma agree_later t t' o1 o2 : agree t o1 o2 -> t <= t' -> agree t' o1 o2.
Proof. intros H Hle u Hu. apply H. lia. Qed.

Lemma agree_step t o1 o2 : agree t o1 o2 -> step t o1 = step t o2.
Proof. intros H. unfold step. rewrite (H t) by lia. reflexivity. Qed.

(** A window whose reset time has passed is as good as none. *)
Lemma agree_expired t w o : resetAt w <= t -> agree t (Some w) o -> agree t None o.
Proof.
  intros Hw H u Hu. rewrite <- H by done. simpl.
  assert ((u <? resetAt w) = false) as -> by lia. reflexivity.
Qed.
End Machine.
End Window.

(** ** MemoryLimiter *)
Module Memory.
Import Window.

(** Once the map has this many entries, expired windows are purged. *)
Definition sweepThreshold : Z := 4096.

Record MemoryLimiter : Type := MkLimiter {
  max : Z;
  window : Z;
  m : gmap string windowState
}.

Definition NewMemory (max window : Z) : MemoryLimiter :=
  MkLimiter (if max <=? 0 then 100 else max)
            (if window <=? 0 then Minute else window) ∅.

Definition expired (now : Z) (w : windowState) : bool := negb (now <? resetAt w).

(** [sweepLocked] on the map of windows. *)
Definition sweepLocked (now : Z) (ws : gmap string windowState) : gmap string windowState :=
  filter (fun kw => expired now kw.2 = false) ws.

(** [Allow]: [now] is the clock reading made at entry. *)
Definition Allow (now : Z) (key : string) (l : MemoryLimiter) : Result * MemoryLimiter :=
  let ws := if sweepThreshold <=? Z.of_nat (size (m l)) then sweepLocked now (m l) else m l in
  let w := match ws !! key with
           | Some w => if expired now w then MkWindow 0 (now + window l) else w
           | None => MkWindow 0 (now + window l)
           end in
  let w := MkWindow (count w + 1) (resetAt w) in
  let l' := MkLimiter (max l) (window l) (<[key := w]> ws) in
  if max l <? count w
  then (MkResult false 0 (resetAt w - now), l')
  else (MkResult true (max l - count w) 0, l').

(** A trace of calls [(arrival time, key)] and the events it produces. *)
Fixpoint run_trace (tr : list (Z * string)) (l : MemoryLimiter)
  : list (Z * string * Result) :=
  match tr with
  | [] => []
  | (t, k) :: tr' => let '(r, l') := Allow t k l in (t, k, r) :: run_trace tr' l'
  end.

(** The events of one key, and the arrival times of its calls. *)
Fixpoint key_events (k : string) (evs : list (Z * string * Result)) : list (Z * Result) :=
  match evs with
  | [] => []
  | (t, k', r) :: evs' =>
      if decide (k' = k) then (t, r) :: key_events k evs' else key_events k evs'
  end.

Fixpoint key_times (k : string) (tr : list (Z * string)) : list Z :=
  match tr with
  | [] => []
  | (t, k') :: tr' => if decide (k' = k) then t :: key_times k tr' else key_times k tr'
  end.

(** The trace reads a clock that does not go back. *)
Definition clocked (tr : list (Z * string)) : Prop := StronglySorted Z.le tr.*1.

Lemma current_expired now W w :
  current W now (Some w) = if expired now w then MkWindow 0 (now + W) else w.
Proof. unfold current, expired. by destruct (now <? resetAt w). Qed.

Lemma sweep_lookup now ws k :
  sweepLocked now ws !! k = ws !! k \/
  sweepLocked now ws !! k = None /\ exists w, ws !! k = Some w /\ resetAt w <= now.
Proof.
  unfold sweepLocked. rewrite map_lookup_filter. destruct (ws !! k) as [w |] eqn:E; [| by left].
  simpl. destruct (expired now w) eqn:Hx; [right | left]; simpl.
  - split; [done |]. exists w. split; [done |]. unfold expired in Hx. lia.
  - reflexivity.
Qed.

(** The map [Allow] works on agrees with the stored one. *)
Lemma swept_agree now W l k o :
  agree W now (m l !! k) o ->
  agree W now ((if sweepThreshold <=? Z.of_nat (size (m l))
                then sweepLocked now (m l) else m l) !! k) o.
Proof.
  intros H. destruct (sweepThreshold <=? Z.of_nat (size (m l))); [| done].
  destruct (sweep_lookup now (m l) k) as [-> | [-> (w & Hw & Hle)]]; [done |].
  rewrite Hw in H. by apply (agree_expired W now w).
Qed.

Lemma Allow_key now k l r l' o :
  agree (window l) now (m l !! k) o -> Allow now k l = (r, l') ->
  step (max l) (window l) now o = (r, m l' !! k).
Proof.
  intros Hag Ha. apply (swept_agree now (window l) l k) in Hag.
  unfold Allow in Ha. revert Ha Hag.
  generalize (if sweepThreshold <=? Z.of_nat (size (m l))
              then sweepLocked now (m l) else m l) as ws.
  intros ws Ha Hag. rewrite <- (agree_step _ _ now (ws !! k) o Hag).
  unfold step, decide_window.
  assert (current (window l) now (ws !! k) =
          match ws !! k with
          | Some w => if expired now w then MkWindow 0 (now + window l) else w
          | None => MkWindow 0 (now + window l)
          end) as Hcur.
  { destruct (ws !! k); [apply current_expired | reflexivity]. }
  rewrite <- Hcur in Ha. clear Hcur Hag. cbn [count resetAt] in Ha |- *.
  destruct (max l <? count (current (window l) now (ws !! k)) + 1);
    injection Ha as <- <-; simpl; by rewrite lookup_insert_eq.
Qed.

Lemma Allow_other now k k' l r l' o :
  k <> k' -> agree (window l) now (m l !! k') o -> Allow now k l = (r, l') ->
  agree (window l') now (m l' !! k') o.
Proof.
  intros Hne Hag Ha. apply (swept_agree now (window l) l k') in Hag.
  unfold Allow in Ha. cbn [count resetAt] in Ha.
  destruct (max l <? _); injection Ha as <- <-; simpl; by rewrite lookup_insert_ne.
Qed.

Lemma Allow_config now k l r l' :
  Allow now k l = (r, l') -> max l' = max l /\ window l' = window l.
Proof. unfold Allow. intros H. destruct (max l <? _); by injection H as <- <-. Qed.

Lemma run_trace_key tr k l o :
  clocked tr ->
  Forall (fun t => agree (window l) t (m l !! k) o) tr.*1 ->
  key_events k (run_trace tr l) = run_key (max l) (window l) (key_times k tr) o.
Proof.
  unfold clocked. revert l o. induction tr as [| [t k'] tr IH]; intros l o Hs Hag; [done |].
  apply StronglySorted_inv in Hs as [Hs Hle]. apply Forall_cons in Hag as [Ht Htr].
  simpl in Ht. cbn. destruct (Allow t k' l) as [r l'] eqn:Ha. cbn.
  destruct (Allow_config _ _ _ _ _ Ha) as [Hm Hw].
  destruct (decide (k' = k)) as [-> | Hne].
  - rewrite (IH l' (m l' !! k)), Hm, Hw; [| done |].
    + pose proof (Allow_key _ _ _ _ _ _ Ht Ha) as Hstep. cbn [run_key].
      by rewrite Hstep.
    + apply Forall_forall. intros u _. apply agree_refl.
  - rewrite (IH l' o), Hm, Hw; [done | done |].
    eapply Forall_impl; [exact Hle |]. intros u Hu.
    eapply agree_later; [by eapply Allow_other | exact Hu].
Qed.

Lemma clocked_key_times tr k : clocked tr -> StronglySorted Z.le (key_times k tr).
Proof.
  unfold clocked. induction tr as [| [t k'] tr IH]; intros Hs; [constructor |].
  apply StronglySorted_inv in Hs as [Hs Hle]. simpl.
  destruct (decide (k' = k)); [| by apply IH]. constructor; [by apply IH |].
  clear IH Hs. simpl in Hle. induction tr as [| [u k''] tr IH]; [constructor |].
  apply Forall_cons in Hle as [Hu Hle]. simpl. destruct (decide (k'' = k)); auto.
Qed.

Lemma NewMemory_pos mx W : 0 < max (NewMemory mx W) /\ 0 < window (NewMemory mx W).
Proof. unfold NewMemory, Minute, Second, Millisecond, Microsecond, Nanosecond. simpl.
  split; case_match; lia. Qed.

(** Well-formed limiter at time [t]: positive quota and window, and every
    stored window is in use and ends at most one window length from now. *)
Definition ok_at (t : Z) (l : MemoryLimiter) : Prop :=
  0 < max l /\ 0 < window l /\
  forall k w, m l !! k = Some w -> 1 <= count w /\ resetAt w <= t + window l.

Lemma NewMemory_ok mx W t : ok_at t (NewMemory mx W).
Proof. destruct (NewMemory_pos mx W). repeat split; [done | done | |]; done. Qed.

Lemma Allow_ok now k l r l' : ok_at now l -> Allow now k l = (r, l') -> ok_at now l'.
Proof.
  intros (Hm & HW & Hws) Ha. destruct (Allow_config _ _ _ _ _ Ha) as [Em EW].
  unfold ok_at. rewrite Em, EW. split; [done |]. split; [done |].
  intros k' w Hw. destruct (decide (k = k')) as [<- | Hne].
  - pose proof (Allow_key now k l r l' _ (agree_refl _ _ _) Ha) as Hs.
    injection Hs as _ Hs. rewrite Hw in Hs. injection Hs as <-. simpl.
    destruct (m l !! k) as [w0 |] eqn:E; simpl; [destruct (Hws _ _ E); destruct (now <? resetAt _) eqn:? |]; simpl; lia.
  - unfold Allow in Ha. cbn [count resetAt] in Ha.
    assert (m l !! k' = Some w) as E; [| by apply (Hws k')].
    assert (m l' !! k' = (if sweepThreshold <=? Z.of_nat (size (m l))
                          then sweepLocked now (m l) else m l) !! k') as E'.
    { destruct (max l <? _); injection Ha as <- <-; simpl; by rewrite lookup_insert_ne. }
    rewrite Hw in E'. destruct (sweepThreshold <=? Z.of_nat (size (m l))); [| done].
    destruct (sweep_lookup now (m l) k') as [<- | [Hn _]]; congruence.
Qed.

Lemma memory_key_run mx W tr k :
  clocked tr ->
  key_events k (run_trace tr (NewMemory mx W))
  = run_key (max (NewMemory mx W)) (window (NewMemory mx W)) (key_times k tr) None.
Proof.
  intros Hc. apply run_trace_key; [done |]. apply Forall_forall. intros u _. apply agree_refl.
Qed.

(** C5. MemoryLimiter implements the one-key window machine: on every trace of
    calls whose clock does not go back, the results of the calls made with one
    key are those of the specification run on that key alone. Sweeps and calls
    for other keys are not observable. *)
Theorem memory_refines_window (mx W : Z) (tr : list (Z * string)) (k : string) :
  clocked tr ->
  key_events k (run_trace tr (NewMemory mx W))
  = run_key (max (NewMemory mx W)) (window (NewMemory mx W)) (key_times k tr) None.
Proof. apply memory_key_run. Qed.

(** C21. Burst bound: in no interval as long as the window does one key get more
    than twice the quota through, whatever the traffic. *)
Theorem memory_burst_bound (mx W : Z) (tr : list (Z * string)) (k : string) (a : Z) :
  clocked tr ->
  let l := NewMemory mx W in
  allowed_in a (a + window l) (key_events k (run_trace tr l)) <= 2 * max l.
Proof.
  intros Hc l. unfold l. rewrite memory_key_run by done.
  destruct (NewMemory_pos mx W) as [Hm HW].
  etransitivity; [apply allowed_in_budget | apply budget_bound]; try done.
  by apply clocked_key_times.
Qed.

(** Exact quota of a window: when the requests of a key after the first one,
    at [t0], all arrive before [t0 + window], the i-th (from 0) is allowed
    exactly when [i < max], with [max - i - 1] remaining, and a denied one is told to wait
    until the window ends. *)
Theorem memory_window_exact (mx W t0 : Z) (ts : list Z) (tr : list (Z * string))
    (k : string) (i : nat) (t : Z) :
  let l := NewMemory mx W in
  clocked tr -> key_times k tr = t0 :: ts ->
  Forall (fun u => u < t0 + window l) ts -> (t0 :: ts) !! i = Some t ->
  key_events k (run_trace tr l) !! i
  = Some (t, if Z.of_nat i <? max l
             then MkResult true (max l - Z.of_nat i - 1) 0
             else MkResult false 0 (t0 + window l - t)).
Proof.
  intros l Hc Hk Hts Hi. unfold l in *. rewrite memory_key_run by done.
  rewrite Hk. destruct (NewMemory_pos mx W) as [Hm HW]. revert Hm HW Hts.
  generalize (max (NewMemory mx W)) (window (NewMemory mx W)). intros M V Hm HV Hts.
  rewrite (first_open M V t0 ts i t) by done.
  unfold decide_window. cbn [count resetAt].
  destruct (Z.of_nat i <? M) eqn:E1; destruct (M <? Z.of_nat i + 1) eqn:E2; try lia; [| done].
  by replace (M - (Z.of_nat i + 1)) with (M - Z.of_nat i - 1) by lia.
Qed.

(** Retry-After is honest: in a well-formed limiter a denied call reports a
    positive wait of at most one window, the limiter stays well-formed, and the
    next call of that key made after the wait is allowed. *)
Theorem memory_retry_after (now now' : Z) (k : string) (l l' : MemoryLimiter) (r : Result) :
  ok_at now l -> Allow now k l = (r, l') -> Allowed r = false ->
  0 < RetryAfter r <= window l /\ Remaining r = 0 /\ ok_at now l' /\
  (now + RetryAfter r <= now' -> Allowed (Allow now' k l').1 = true).
Proof.
  intros Hok Ha Hd. pose proof (Allow_ok _ _ _ _ _ Hok Ha) as Hok'.
  destruct Hok as (Hm & HW & Hws).
  pose proof (Allow_key now k l r l' _ (agree_refl _ _ _) Ha) as Hs.
  unfold step, decide_window in Hs. cbn [count resetAt] in Hs.
  destruct (max l <? _) eqn:Hlt; injection Hs as Hr Hw; subst r; [| done]. simpl.
  assert (now < resetAt (current (window l) now (m l !! k)) <= now + window l) as Hb.
  { destruct (m l !! k) as [w |] eqn:E; simpl; [destruct (Hws _ _ E); destruct (now <? resetAt _) eqn:? |]; simpl; lia. }
  split; [lia |]. split; [done |]. split; [done |]. intros Hge.
  destruct (Allow now' k l') as [r' l''] eqn:Ha'.
  pose proof (Allow_key now' k l' r' l'' _ (agree_refl _ _ _) Ha') as Hs'.
  destruct (Allow_config _ _ _ _ _ Ha) as [Em EW]. rewrite <- Hw, Em, EW in Hs'.
  unfold step, decide_window in Hs'. cbn [current resetAt count] in Hs'.
  assert ((now' <? resetAt (current (window l) now (m l !! k))) = false) as E by lia.
  rewrite E in Hs'. cbn [count resetAt] in Hs'.
  assert ((max l <? 0 + 1) = false) as E1 by lia. rewrite E1 in Hs'.
  by injection Hs' as <- _.
Qed.
End Memory.

(** ** RedisLimiter *)
Module Redis.

Record RedisLimiter : Type := MkRedis { prefix : string; max : Z; window : Z }.

Definition NewRedis (prefix : string) (max window : Z) : RedisLimiter :=
  MkRedis (if bool_decide (prefix = "") then "ratelimit" else prefix)
          (if max <=? 0 then 100 else max)
          (if window <=? 0 then Minute else window).

Section Server.
(** The Redis server: its state, the three commands of the script, and the
    connection ([Some e]: the server cannot be reached). *)
Context {R : Type} (INCR : string -> R -> Z * R) (PEXPIRE : string -> Z -> R -> R)
        (PTTL : string -> R -> Z) (conn : R -> option error).

(** The Lua script, run atomically by EVAL. *)
Definition incrWindowScript (key : string) (arg : Z) (r : R) : list Z * R :=
  let '(c, r1) := INCR key r in
  let r2 := if c =? 1 then PEXPIRE key arg r1 else r1 in
  ([c; PTTL key r2], r2).

Definition Eval (script : R -> list Z * R) (r : R) : result (list Z) * R :=
  match conn r with
  | Some e => (Err e, r)
  | None => let '(x, r') := script r in (Ok x, r')
  end.

Definition Allow (l : RedisLimiter) (key : string) (r : R) : result Result * R :=
  let '(res, r') :=
    Eval (incrWindowScript (prefix l ++ ":" ++ key) (milliseconds (window l))) r in
  match res with
  | Err e => (Err (errorf "rate limit: " e), r')
  | Ok [count; ttlMs] =>
      if max l <? count then
        (Ok (MkResult false 0 (if ttlMs <=? 0 then window l
                               else wrap64 (ttlMs * Millisecond))), r')
      else (Ok (MkResult true (max l - count) 0), r')
  | Ok _ => (Err (Fresh "rate limit: unexpected script reply"), r')
  end.

(** Calls made one after the other, each by one of the replicas. *)
Fixpoint run_calls (calls : list (RedisLimiter * string)) (r : R)
  : list (string * result Result) :=
  match calls with
  | [] => []
  | (l, k) :: calls' => let '(res, r') := Allow l k r in (k, res) :: run_calls calls' r'
  end.

Fixpoint results_of (k : string) (evs : list (string * result Result)) : list (result Result) :=
  match evs with
  | [] => []
  | (k', res) :: evs' => if decide (k' = k) then res :: results_of k evs' else results_of k evs'
  end.

(** [val k r]: the counter stored at [k], while it has not expired. *)
Context (val : string -> R -> option Z).
Hypothesis INCR_reply : forall k r, (INCR k r).1 = default 0 (val k r) + 1.
Hypothesis INCR_val : forall k r k',
  val k' (INCR k r).2 = if decide (k' = k) then Some (default 0 (val k r) + 1) else val k' r.
Hypothesis reachable : forall r, conn r = None.

Lemma Allow_eq l k r :
  let key := (prefix l ++ ":" ++ k)%string in
  let c := default 0 (val key r) + 1 in
  let r1 := (INCR key r).2 in
  let r2 := if c =? 1 then PEXPIRE key (milliseconds (window l)) r1 else r1 in
  Allow l k r =
  (Ok (if max l <? c
       then MkResult false 0 (if PTTL key r2 <=? 0 then window l
                              else wrap64 (PTTL key r2 * Millisecond))
       else MkResult true (max l - c) 0), r2).
Proof.
  cbn zeta. unfold Allow, Eval, incrWindowScript. rewrite reachable.
  rewrite (surjective_pairing (INCR (prefix l ++ ":" ++ k) r)), INCR_reply.
  by case_match.
Qed.

(** Replicas that share one namespace, one quota and one window. *)
Definition same_config (P : string) (M W : Z) (calls : list (RedisLimiter * string)) : Prop :=
  Forall (fun lk => lk.1 = MkRedis P M W) calls.

Definition decision (res : result Result) : option (bool * Z) :=
  match res with Ok r => Some (Allowed r, Remaining r) | Err _ => None end.

Lemma quota_from P M W calls k r :
  (forall k r k' ms, 0 < ms -> val k' (PEXPIRE k ms r) = val k' r) ->
  0 < milliseconds W -> same_config P M W calls ->
  forall i res, results_of k (run_calls calls r) !! i = Some res ->
  decision res =
    let c := default 0 (val (P ++ ":" ++ k)%string r) + Z.of_nat i + 1 in
    Some (c <=? M, Z.max 0 (M - c)).
Proof.
  intros Hpexp HW Hcfg. revert r. induction Hcfg as [| [l k0] calls Hl Hcfg IH];
    intros r i res; [done |]. simpl in Hl. subst l.
  cbn [run_calls]. rewrite Allow_eq. cbn [prefix max window].
  set (key := (P ++ ":" ++ k0)%string). set (r2 := if _ =? 1 then _ else _).
  assert (forall k', val k' r2 = val k' (INCR key r).2) as Hr2.
  { intros k'. unfold r2. case_match; [by apply Hpexp | done]. }
  cbn [results_of]. destruct (decide (k0 = k)) as [-> | Hne].
  - destruct i as [| i]; intros Hi.
    + injection Hi as <-. unfold decision. cbn zeta. fold key. rewrite Z.add_0_r.
      generalize (default 0 (val key r) + 1). intros c.
      destruct (M <? c) eqn:E; cbn [Allowed Remaining]; f_equal; f_equal; lia.
    + specialize (IH r2 i res Hi). cbn zeta in IH |- *. fold key in IH |- *.
      rewrite Hr2, INCR_val, decide_True in IH by done. rewrite IH. cbn [default].
      unfold default, id in *.
      generalize (match val key r with Some x => x | None => 0 end). intros c.
      do 2 f_equal; f_equal; lia.
  - intros Hi. specialize (IH r2 i res Hi). cbn zeta in IH |- *.
    rewrite Hr2, INCR_val in IH. rewrite decide_False in IH; [done |].
    intros Heq. apply Hne. unfold key in Heq.
    apply (inj (String.append P)) in Heq. by injection Heq.
Qed.

(** C20. Shared quota: while the counter of a key has not expired, its requests
    are counted once across all replicas that share the configuration: the
    i-th one (from 0) is allowed exactly when [i < max], whoever serves it
    and whatever other keys do in between. *)
Theorem redis_shared_quota (P : string) (M W : Z) (calls : list (RedisLimiter * string))
    (k : string) (r : R) (i : nat) (res : result Result) :
  (forall k r k' ms, 0 < ms -> val k' (PEXPIRE k ms r) = val k' r) ->
  0 < milliseconds W -> same_config P M W calls ->
  val (P ++ ":" ++ k)%string r = None ->
  results_of k (run_calls calls r) !! i = Some res ->
  decision res = Some (Z.of_nat i <? M, Z.max 0 (M - Z.of_nat i - 1)).
Proof.
  intros Hp HW Hc Hv Hi. rewrite (quota_from P M W calls k r Hp HW Hc i res Hi), Hv.
  simpl. do 2 f_equal; lia.
Qed.

(** Sub-millisecond windows disable the shared limiter: NewRedis accepts
    them, the script then sets a TTL of 0 ms, and on a server where a zero
    TTL removes the key every request is the first of its window. *)
Theorem redis_submillisecond_window_unlimited (P : string) (M W : Z)
    (calls : list (RedisLimiter * string)) (k : string) (r : R) (i : nat)
    (res : result Result) :
  (forall k r k', val k' (PEXPIRE k 0 r) = if decide (k' = k) then None else val k' r) ->
  0 < W < Millisecond -> 0 < M -> same_config P M W calls ->
  (forall k', val k' r = None) ->
  results_of k (run_calls calls r) !! i = Some res ->
  decision res = Some (true, M - 1).
Proof.
  intros Hp HW HM Hcfg. revert r i. 
  assert (milliseconds W = 0) as Hms by (apply Z.quot_small; lia).
  induction Hcfg as [| [l k0] calls Hl Hcfg IH]; intros r i Hv; [done |].
  simpl in Hl. subst l. cbn [run_calls]. rewrite Allow_eq. cbn [prefix max window].
  rewrite Hv, Hms. cbn [default]. unfold default, id.
  change (0 + 1 =? 1) with true. cbn match.
  set (key := (P ++ ":" ++ k0)%string).
  assert (forall k', val k' (PEXPIRE key 0 (INCR key r).2) = None) as Hv'.
  { intros k'. rewrite Hp, INCR_val. by repeat case_decide. }
  cbn [results_of]. destruct (decide (k0 = k)) as [-> | Hne]; [| by apply IH].
  destruct i as [| i]; intros Hi; [| by eapply IH].
  injection Hi as <-. assert ((M <? 0 + 1) = false) as -> by lia. done.
Qed.
End Server.
End Redis.

(** ** Witnesses: the quantified statements at concrete traffic *)
Module RateLimitWitness.
Import Memory.

Definition trace : list (Z * string) :=
  [(0, "a"); (1, "b"); (2, "a"); (3 * Second, "a"); (Minute, "a")]%string.

Lemma trace_clocked : clocked trace.
Proof.
  unfold clocked, trace. cbn. repeat constructor; cbn; done.
Defined.

Lemma memory_refines_window_witness :
  key_events "a" (run_trace trace (NewMemory 2 Minute))
  = Window.run_key 2 Minute (key_times "a" trace) None.
Proof. exact (memory_refines_window 2 Minute trace "a" trace_clocked). Defined.

Lemma memory_burst_bound_witness :
  Window.allowed_in 0 (0 + Minute) (key_events "a" (run_trace trace (NewMemory 2 Minute))) <= 4.
Proof. exact (memory_burst_bound 2 Minute trace "a" 0 trace_clocked). Defined.

Lemma memory_window_exact_witness :
  key_events "a" (run_trace (take 4 trace) (NewMemory 2 Minute)) !! 2%nat
  = Some (3 * Second, MkResult false 0 (57 * Second)).
Proof.
  refine (memory_window_exact 2 Minute 0 [2; 3 * Second] (take 4 trace) "a" 2 (3 * Second) _ _ _ _).
  - unfold clocked. cbn. repeat constructor; cbn; done.
  - reflexivity.
  - cbn. repeat constructor; cbn; done.
  - reflexivity.
Defined.

Lemma memory_retry_after_witness :
  Allowed (Allow (57 * Second + 3 * Second) "a"
             (MkLimiter 1 Minute {["a" := Window.MkWindow 2 Minute]})).1 = true.
Proof.
  refine (proj2 (proj2 (proj2 (memory_retry_after (3 * Second) (57 * Second + 3 * Second) "a"
    (MkLimiter 1 Minute {["a" := Window.MkWindow 1 Minute]}) _
    (MkResult false 0 (57 * Second)) _ _ _))) _).
  - split; [done |]. split; [done |]. intros k w.
    cbn [m]. intros [<- <-]%lookup_singleton_Some. cbn. done.
  - vm_compute. reflexivity.
  - reflexivity.
  - done.
Defined.

(** A server that stores its counters in a map; [keep] tells whether PEXPIRE
    with a zero TTL keeps the key. *)
Definition srv_incr (k : string) (r : gmap string Z) : Z * gmap string Z :=
  (default 0 (r !! k) + 1, <[k := default 0 (r !! k) + 1]> r).
Definition srv_pexpire (k : string) (ms : Z) (r : gmap string Z) : gmap string Z :=
  if 0 <? ms then r else delete k r.
Definition srv_pttl (k : string) (r : gmap string Z) : Z := 1000.
Definition srv_conn (r : gmap string Z) : option error := None.
Definition srv_val (k : string) (r : gmap string Z) : option Z := r !! k.

Lemma srv_incr_val k r k' :
  srv_val k' (srv_incr k r).2
  = if decide (k' = k) then Some (default 0 (srv_val k r) + 1) else srv_val k' r.
Proof.
  unfold srv_val, srv_incr. simpl. destruct (decide (k' = k)) as [-> | Hne].
  - apply lookup_insert_eq.
  - by apply lookup_insert_ne.
Qed.

Definition calls (W : Z) : list (Redis.RedisLimiter * string) :=
  let l := Redis.MkRedis "rl" 1 W in [(l, "a"); (l, "b"); (l, "a")]%string.

Lemma redis_shared_quota_witness :
  exists res,
    Redis.results_of "a" (Redis.run_calls srv_incr srv_pexpire srv_pttl srv_conn (calls Minute) ∅)
      !! 1%nat = Some res /\ Redis.decision res = Some (false, 0).
Proof.
  eexists. split; [vm_compute; reflexivity |].
  refine (Redis.redis_shared_quota srv_incr srv_pexpire srv_pttl srv_conn srv_val
            (fun _ _ => eq_refl) srv_incr_val (fun _ => eq_refl)
            "rl" 1 Minute (calls Minute) "a" ∅ 1 _ _ _ _ _ _).
  - intros k r k' ms Hms. unfold srv_pexpire. by assert ((0 <? ms) = true) as -> by lia.
  - reflexivity.
  - repeat constructor.
  - reflexivity.
  - vm_compute. reflexivity.
Defined.

Lemma redis_submillisecond_window_unlimited_witness :
  exists res,
    Redis.results_of "a"
      (Redis.run_calls srv_incr srv_pexpire srv_pttl srv_conn (calls (500 * Microsecond)) ∅)
      !! 1%nat = Some res /\ Redis.decision res = Some (true, 0).
Proof.
  eexists. split; [vm_compute; reflexivity |].
  refine (Redis.redis_submillisecond_window_unlimited srv_incr srv_pexpire srv_pttl srv_conn
            srv_val (fun _ _ => eq_refl) srv_incr_val (fun _ => eq_refl)
            "rl" 1 (500 * Microsecond) (calls (500 * Microsecond)) "a" ∅ 1 _ _ _ _ _ _ _).
  - intros k r k'. unfold srv_pexpire, srv_val. simpl.
    destruct (decide (k' = k)) as [-> | Hne]; [apply lookup_delete_eq | by apply lookup_delete_ne].
  - done.
  - done.
  - repeat constructor.
  - intros k'. reflexivity.
  - vm_compute. reflexivity.
Defined.
End RateLimitWitness.
