(* ===== verification/Blacklist.v ===== *)
(** [pkg/auth]: token revocation (blacklist.go, memory_blacklist.go).

    [Blacklist] is the interface the use cases and the middleware depend on;
    [MemoryBlacklist] keeps the revoked identifiers in process memory. *)

From stdpp Require Import base gmap strings list fin_maps.
From Stdlib Require Import ZArith Lia String Sorted.
From S2P Require Import Prelude Expiring Json RedisServer.

(** ** The interface, and what its clients rely on *)

Class Blacklist (B : Type) : Type := {
  Revoke : Z -> string -> Z -> B -> option error * B;     (* clock, jti, ttl *)
  IsRevoked : Z -> string -> B -> result bool * B
}.

(** [revoked b t jti]: at time [t] the store [b] holds [jti]. A store that
    counts whole milliseconds may forget a revocation less than one early. *)
Class BlacklistLaws (B : Type) `{Blacklist B} : Type := {
  revoked : B -> Z -> string -> bool;
  revoke_ok : forall now jti ttl b b', 0 <= ttl -> Revoke now jti ttl b = (None, b') ->
    forall t, now <= t -> t + Millisecond <= now + ttl -> revoked b' t jti = true;
  revoke_frame : forall now jti ttl b t j, now <= t -> j <> jti ->
    revoked (Revoke now jti ttl b).2 t j = revoked b t j;
  is_revoked_ok : forall now jti b r b', IsRevoked now jti b = (Ok r, b') ->
    jti <> "" -> r = revoked b now jti;
  is_revoked_frame : forall now jti b r b', IsRevoked now jti b = (r, b') ->
    forall t j, now <= t -> revoked b' t j = revoked b t j
}.

(** ** In process memory *)
Module MemoryBlacklist.

(** The map jti -> expiry. *)
Record MemoryBlacklist : Type := MkBlacklist { m : gmap string Z }.

Definition NewMemoryBlacklist : MemoryBlacklist := MkBlacklist ∅.

Definition dead (now exp : Z) : bool := negb (now <? exp).

Lemma bl_dead_mono : Expiring.dead_mono dead.
Proof. intros t t' v Hle. unfold dead. lia. Qed.

Definition sweepThreshold : Z := 1024.

Definition Revoke (now : Z) (jti : string) (ttl : Z) (b : MemoryBlacklist)
  : option error * MemoryBlacklist :=
  if bool_decide (jti = "") then (Some (Fresh "revoke: empty jti"), b)
  else
    let m1 := if sweepThreshold <=? Z.of_nat (size (m b)) then purge dead now (m b) else m b in
    (None, MkBlacklist (<[jti := now + ttl]> m1)).

Definition IsRevoked (now : Z) (jti : string) (b : MemoryBlacklist)
  : result bool * MemoryBlacklist :=
  if bool_decide (jti = "") then (Ok false, b)
  else
    match m b !! jti with
    | None => (Ok false, b)
    | Some exp =>
        if dead now exp then (Ok false, MkBlacklist (delete jti (m b)))
        else (Ok true, b)
    end.

(** ** Specification: a set of revocations that is never cleaned *)

Inductive op : Type := ORevoke (jti : string) (ttl : Z) | OIsRevoked (jti : string).
Inductive reply : Type := RRevoke (e : option error) | RIsRevoked (r : result bool).

Definition spec_step (now : Z) (o : op) (s : gmap string Z) : reply * gmap string Z :=
  match o with
  | ORevoke jti ttl =>
      if bool_decide (jti = "") then (RRevoke (Some (Fresh "revoke: empty jti")), s)
      else (RRevoke None, <[jti := now + ttl]> s)
  | OIsRevoked jti =>
      (RIsRevoked (Ok (negb (bool_decide (jti = "")) &&
                       bool_decide (is_Some (live dead now s jti)))), s)
  end.

Definition impl_step (now : Z) (o : op) (b : MemoryBlacklist) : reply * MemoryBlacklist :=
  match o with
  | ORevoke jti ttl => let '(e, b') := Revoke now jti ttl b in (RRevoke e, b')
  | OIsRevoked jti => let '(r, b') := IsRevoked now jti b in (RIsRevoked r, b')
  end.

Fixpoint run_ops {S} (step : Z -> op -> S -> reply * S) (tr : list (Z * op)) (s : S) : list reply :=
  match tr with
  | [] => []
  | (t, o) :: tr' => let '(r, s') := step t o s in r :: run_ops step tr' s'
  end.

Lemma IsRevoked_live now jti b :
  (IsRevoked now jti b).1
  = Ok (negb (bool_decide (jti = "")) && bool_decide (is_Some (live dead now (m b) jti))).
Proof.
  unfold IsRevoked, live. destruct (bool_decide (jti = "")); [done |].
  destruct (m b !! jti) as [exp |]; [| done]. by destruct (dead now exp).
Qed.

Lemma IsRevoked_same now jti b : same_live dead now (m (IsRevoked now jti b).2) (m b).
Proof.
  unfold IsRevoked. destruct (bool_decide (jti = "")); [reflexivity |].
  destruct (m b !! jti) as [exp |] eqn:E; [| reflexivity].
  destruct (dead now exp) eqn:D; [| reflexivity]. apply (same_live_drop dead now (m b) (m b) jti exp bl_dead_mono); [reflexivity | done | done].
Qed.

Lemma Revoke_same now jti ttl b s :
  same_live dead now (m b) s -> jti <> "" ->
  (Revoke now jti ttl b).1 = None /\
  same_live dead now (m (Revoke now jti ttl b).2) (<[jti := now + ttl]> s).
Proof.
  intros H Hj. unfold Revoke. rewrite bool_decide_eq_false_2 by done. split; [done |]. simpl.
  apply same_live_insert. destruct (sweepThreshold <=? Z.of_nat (size (m b))); [| done].
  apply same_live_purge; [apply bl_dead_mono | done].
Qed.

Lemma Revoke_live now jti ttl b b' t j :
  Revoke now jti ttl b = (None, b') -> now <= t ->
  live dead t (m b') j
  = if decide (j = jti) then (if dead t (now + ttl) then None else Some (now + ttl))
    else live dead t (m b) j.
Proof.
  intros H Ht. destruct (decide (jti = "")) as [-> | Hj].
  { unfold Revoke in H. simpl in H. discriminate. }
  destruct (Revoke_same now jti ttl b (m b) (reflexivity _) Hj) as [_ Hs].
  rewrite H in Hs. simpl in Hs. by rewrite (Hs t j Ht), live_insert.
Qed.

Lemma bl_step_refines now o b s :
  same_live dead now (m b) s ->
  (impl_step now o b).1 = (spec_step now o s).1 /\
  same_live dead now (m (impl_step now o b).2) (spec_step now o s).2.
Proof.
  intros H. destruct o as [jti ttl | jti]; simpl.
  - destruct (decide (jti = "")) as [-> | Hj]; [done |].
    rewrite (bool_decide_eq_false_2 (jti = "")) by done.
    destruct (Revoke_same now jti ttl b s H Hj) as [He Hs].
    destruct (Revoke now jti ttl b) as [e b']. simpl in *. by subst e.
  - pose proof (IsRevoked_live now jti b) as Hl. pose proof (IsRevoked_same now jti b) as Hs.
    destruct (IsRevoked now jti b) as [r b']. simpl in *. subst r.
    rewrite (H now jti) by lia. split; [done |]. by etransitivity.
Qed.

Lemma bl_run_refines tr b s :
  StronglySorted Z.le tr.*1 ->
  Forall (fun t => same_live dead t (m b) s) tr.*1 ->
  run_ops impl_step tr b = run_ops spec_step tr s.
Proof.
  revert b s. induction tr as [| [t o] tr IH]; intros b s Hs Hl; [done |].
  apply StronglySorted_inv in Hs as [Hs Hle]. apply Forall_cons in Hl as [Ht _]. cbn.
  destruct (bl_step_refines t o b s Ht) as [He Hn].
  destruct (impl_step t o b) as [r b'], (spec_step t o s) as [r' s']. simpl in *. subst r'.
  f_equal. apply IH; [done |]. eapply Forall_impl; [exact Hle |].
  intros u Hu. by eapply same_live_later.
Qed.

(** C6. MemoryBlacklist implements the store that never forgets a revocation:
    on every sequence of calls whose clock does not go back, each reply is the
    one the specification gives, so purging and lazy deletion are never
    visible and a revoked identifier stays revoked until its expiry. *)
Theorem memory_blacklist_refines (tr : list (Z * op)) :
  StronglySorted Z.le tr.*1 ->
  run_ops impl_step tr NewMemoryBlacklist = run_ops spec_step tr ∅.
Proof. intros Hs. apply bl_run_refines; [done |]. by apply Forall_forall. Qed.

Lemma memory_blacklist_refines_witness :
  run_ops impl_step [(0, ORevoke "j" 10); (5, OIsRevoked "j"); (10, OIsRevoked "j")]
    NewMemoryBlacklist
  = [RRevoke None; RIsRevoked (Ok true); RIsRevoked (Ok false)].
Proof.
  etransitivity.
  - apply (memory_blacklist_refines [(0, ORevoke "j" 10); (5, OIsRevoked "j"); (10, OIsRevoked "j")]).
    repeat constructor; done.
  - vm_compute. reflexivity.
Defined.

(** The interface, discharged. *)
#[export] Instance memory_blacklist : Blacklist MemoryBlacklist :=
  {| Blacklist.Revoke := Revoke; Blacklist.IsRevoked := IsRevoked |}.

#[export] Instance memory_blacklist_laws : BlacklistLaws MemoryBlacklist.
Proof.
  refine {| revoked b t j := bool_decide (is_Some (live dead t (m b) j)) |}.
  - intros now jti ttl b b' _ H t Ht Hms. rewrite (Revoke_live now jti ttl b b' t jti H Ht).
    rewrite decide_True by done. unfold dead, Millisecond, Microsecond, Nanosecond in *.
    by assert ((t <? now + ttl) = true) as -> by lia.
  - intros now jti ttl b t j Ht Hne. simpl. destruct (Revoke now jti ttl b) as [[e |] b'] eqn:E.
    + unfold Revoke in E. destruct (bool_decide (jti = "")); [| done]. by injection E as _ <-.
    + simpl. by rewrite (Revoke_live now jti ttl b b' t j E Ht), decide_False.
  - intros now jti b r b' H Hj. simpl in H. pose proof (IsRevoked_live now jti b) as Hl.
    rewrite H in Hl. simpl in Hl. injection Hl as ->.
    by rewrite (bool_decide_eq_false_2 (jti = "")).
  - intros now jti b r b' H t j Ht. simpl in H. pose proof (IsRevoked_same now jti b) as Hs.
    rewrite H in Hs. simpl in Hs. by rewrite (Hs t j Ht).
Defined.
End MemoryBlacklist.

(** ** Shared, in Redis *)
Module RedisBlacklist.
Section Client.
Context {S : Type} `{RedisServer S}.

Record RedisBlacklist : Type := MkRedisBlacklist { client : S }.

Definition NewRedisBlacklist (client : S) : RedisBlacklist := MkRedisBlacklist client.

Definition blacklistKeyPrefix : string := "jwt:bl:".

Definition Revoke (now : Z) (jti : string) (ttl : Z) (b : RedisBlacklist)
  : option error * RedisBlacklist :=
  if bool_decide (jti = "") then (Some (Fresh "revoke: empty jti"), b)
  else
    let key := (blacklistKeyPrefix ++ jti)%string in
    let '(e, s) := SET now key (JNum 1) ttl (client b) in
    (match e with
     | Some e => Some (errorf "revoke token: " e)
     | None => None
     end, MkRedisBlacklist s).

Definition IsRevoked (now : Z) (jti : string) (b : RedisBlacklist)
  : result bool * RedisBlacklist :=
  if bool_decide (jti = "") then (Ok false, b)
  else
    let key := (blacklistKeyPrefix ++ jti)%string in
    let '(reply, s) := EXISTS now key (client b) in
    (match reply with
     | Err e => Err (errorf "blacklist check: " e)
     | Ok n => Ok (0 <? n)
     end, MkRedisBlacklist s).

#[export] Instance redis_blacklist : Blacklist RedisBlacklist :=
  {| Blacklist.Revoke := Revoke; Blacklist.IsRevoked := IsRevoked |}.

Context `{!RedisServerLaws S}.

Lemma key_inj j j' : (blacklistKeyPrefix ++ j = blacklistKeyPrefix ++ j')%string -> j = j'.
Proof. intros Heq. by apply (inj (String.append blacklistKeyPrefix)) in Heq. Qed.

Lemma Revoke_eq now jti ttl b b' :
  Revoke now jti ttl b = (None, b') ->
  SET now (blacklistKeyPrefix ++ jti)%string (JNum 1) ttl (client b) = (None, client b').
Proof.
  intros Hr. unfold Revoke in Hr. destruct (bool_decide (jti = "")); [done |].
  destruct (SET now _ (JNum 1) ttl (client b)) as [e s] eqn:E.
  destruct e; [done |]. by injection Hr as <-.
Qed.

#[export] Instance redis_blacklist_laws : BlacklistLaws RedisBlacklist.
Proof.
  refine {| revoked b t j := bool_decide (is_Some (stored (client b) t (blacklistKeyPrefix ++ j))) |}.
  - intros now jti ttl b b' Httl Hr%Revoke_eq t Ht Hms.
    rewrite (SET_ok _ _ _ _ _ _ Httl Hr t Ht).
    assert (Millisecond <= ttl) as Hge by lia. pose proof (px_bounds ttl Hge) as Hb.
    unfold lives. assert ((t <? now + px ttl) = true) as -> by lia. by rewrite orb_true_r.
  - intros now jti ttl b t j Ht Hne. simpl. unfold Revoke.
    destruct (bool_decide (jti = "")); [done |].
    pose proof (SET_frame now (blacklistKeyPrefix ++ jti) (JNum 1) ttl (client b) t
                  (blacklistKeyPrefix ++ j) Ht) as Hf.
    destruct (SET now _ (JNum 1) ttl (client b)) as [e s]. simpl in *.
    rewrite Hf; [done |]. intros Heq. by apply Hne, key_inj.
  - intros now jti b r b' Hr Hj. simpl in Hr. unfold IsRevoked in Hr.
    rewrite bool_decide_eq_false_2 in Hr by done.
    destruct (EXISTS now _ (client b)) as [[n | e] s] eqn:E; [| done].
    injection Hr as <- <-. apply EXISTS_ok in E as ->. by destruct (stored _ _ _).
  - intros now jti b r b' Hr t j Ht. simpl in Hr. unfold IsRevoked in Hr.
    destruct (bool_decide (jti = "")); [by injection Hr as <- <- |].
    pose proof (EXISTS_frame now (blacklistKeyPrefix ++ jti) (client b) t (blacklistKeyPrefix ++ j) Ht) as Hf.
    destruct (EXISTS now _ (client b)) as [reply s]. injection Hr as <- <-.
    simpl in *. by rewrite Hf.
Defined.
End Client.
Arguments RedisBlacklist S : clear implicits.
End RedisBlacklist.
