(* ===== verification/Cache.v ===== *)
(** The cache: [internal/domain/repository/cache.go] (the interface the use
    cases depend on), [internal/repository/memory/cache.go] (in-process) and
    [internal/repository/redis/cache.go] (shared). *)

From stdpp Require Import base gmap strings list fin_maps relations.
From Stdlib Require Import ZArith Lia String Sorted.
From S2P Require Import Prelude Prog Expiring Json RedisServer.

(** ** The interface *)

Class Cacher (C : Type) : Type := {
  Set_ : forall {A} `{Json A}, Z -> string -> A -> Z -> C -> option error * C;  (* clock, key, value, ttl *)
  Get : forall {A} `{Json A}, Z -> string -> C -> result A * C;
  Del : Z -> list string -> C -> option error * C;
  Exists : Z -> string -> C -> result bool * C
}.

(** What the reply of [Get] is when the value seen under the key is [v]. *)
Definition reply_of {A} `{Json A} (v : option json) : result A :=
  match v with
  | None => Err (Sentinel ErrCacheMiss)
  | Some j => match unmarshal j with
              | Ok a => Ok a
              | Err e => Err (errorf "cache get unmarshal: " e)
              end
  end.

(** What a client may rely on. [view c t k] is the value a reader at [t] sees.
    A cache may forget, or be unreachable: [Get] answers what is stored or a
    miss. Writes and deletions count once they have answered nil. *)
Class CacherLaws (C : Type) `{Cacher C} : Type := {
  view : C -> Z -> string -> option json;
  get_sound : forall A `{Json A} now k c,
    (Get (A := A) now k c).1 = reply_of (view c now k) \/
    (Get (A := A) now k c).1 = Err (Sentinel ErrCacheMiss);
  get_frame : forall A `{Json A} now k c t k', now <= t ->
    view (Get (A := A) now k c).2 t k' = view c t k';
  set_ok : forall A `{Json A} now k (v : A) ttl c c' j,
    zero_time < now -> 0 <= ttl -> (Millisecond | ttl) ->
    Set_ now k v ttl c = (None, c') -> marshal v = Ok j ->
    forall t, now <= t -> view c' t k = if lives now ttl t then Some j else None;
  set_frame : forall A `{Json A} now k (v : A) ttl c t k', now <= t -> k' <> k ->
    view (Set_ now k v ttl c).2 t k' = view c t k';
  del_ok : forall now ks c c', Del now ks c = (None, c') -> forall t k, now <= t ->
    k ∈ ks -> view c' t k = None;
  del_frame : forall now ks c t k, now <= t -> k ∉ ks -> view (Del now ks c).2 t k = view c t k
}.

(** A cache that is always there. *)
Class CacherReliable (C : Type) `{CacherLaws C} : Prop := {
  get_ok : forall A `{Json A} now k c, (Get (A := A) now k c).1 = reply_of (view c now k);
  set_total : forall A `{Json A} now k (v : A) ttl c j,
    marshal v = Ok j -> (Set_ now k v ttl c).1 = None;
  del_total : forall now ks c, (Del now ks c).1 = None
}.

(** ** In process memory *)
Module Memory.

(** A stored value; the zero expiry means it never expires. *)
Record entry : Type := MkEntry { data : json; expiresAt : Z }.

Record Cacher : Type := MkCacher { ns : string; m : gmap string entry }.

Definition New (ns : string) : Cacher := MkCacher ns ∅.

Definition prefixed (c : Cacher) (key : string) : string :=
  if bool_decide (ns c = "") then key else (ns c ++ ":" ++ key)%string.

Definition sweepThreshold : Z := 1024.

(** [!e.expiresAt.IsZero() && !now.Before(e.expiresAt)]. *)
Definition dead (now : Z) (e : entry) : bool :=
  negb (is_zero_time (expiresAt e)) && negb (now <? expiresAt e).

(** The critical section of [Set]. *)
Definition store (now : Z) (full : string) (e : entry) (c : Cacher) : Cacher :=
  let m1 := if sweepThreshold <=? Z.of_nat (size (m c)) then purge dead now (m c) else m c in
  MkCacher (ns c) (<[full := e]> m1).

Definition Set_ {A} `{Json A} (now : Z) (key : string) (value : A) (ttl : Z) (c : Cacher)
  : option error * Cacher :=
  match marshal value with
  | Err e => (Some (errorf "cache set marshal: " e), c)
  | Ok b =>
      let e := MkEntry b (if 0 <? ttl then now + ttl else zero_time) in
      (None, store now (prefixed c key) e c)
  end.

(** [Get] takes the read lock for the lookup and, when the entry has expired,
    the write lock for the removal: two critical sections. *)
Definition Get_prog {A} `{Json A} (now : Z) (key : string) : prog Cacher (result A) :=
  let! hit := reads (fun c => m c !! prefixed c key) in
  match hit with
  | None => Ret (Err (Sentinel ErrCacheMiss))
  | Some e =>
      if dead now e then
        do! act (fun c => (tt, MkCacher (ns c) (delete (prefixed c key) (m c)))) in
        Ret (Err (Sentinel ErrCacheMiss))
      else
        match unmarshal (data e) with
        | Err e' => Ret (Err (errorf "cache get unmarshal: " e'))
        | Ok a => Ret (Ok a)
        end
  end.

Definition Exists_prog (now : Z) (key : string) : prog Cacher (result bool) :=
  let! hit := reads (fun c => m c !! prefixed c key) in
  match hit with
  | None => Ret (Ok false)
  | Some e =>
      if dead now e then
        do! act (fun c => (tt, MkCacher (ns c) (delete (prefixed c key) (m c)))) in
        Ret (Ok false)
      else Ret (Ok true)
  end.

Definition Get {A} `{Json A} (now : Z) (key : string) (c : Cacher) : result A * Cacher :=
  run (Get_prog now key) c.
Definition Exists (now : Z) (key : string) (c : Cacher) : result bool * Cacher :=
  run (Exists_prog now key) c.

Definition Del (keys : list string) (c : Cacher) : option error * Cacher :=
  (None, MkCacher (ns c) (foldl (fun m' k => delete (prefixed c k) m') (m c) keys)).

(** *** Lemmas *)

Lemma cacher_dead_mono : Expiring.dead_mono dead.
Proof. intros t t' e Hle. unfold dead. destruct (is_zero_time _); simpl; [done | lia]. Qed.

Lemma prefixed_inj c k k' : prefixed c k = prefixed c k' -> k = k'.
Proof.
  unfold prefixed. destruct (bool_decide _); [done |]. intros H.
  apply (inj (String.append (ns c))) in H. by injection H.
Qed.

Lemma Get_eq {A} `{Json A} now key c :
  Get (A := A) now key c =
  match m c !! prefixed c key with
  | None => (Err (Sentinel ErrCacheMiss), c)
  | Some e =>
      if dead now e
      then (Err (Sentinel ErrCacheMiss), MkCacher (ns c) (delete (prefixed c key) (m c)))
      else (match unmarshal (data e) with
            | Ok a => Ok a
            | Err e' => Err (errorf "cache get unmarshal: " e')
            end, c)
  end.
Proof.
  unfold Get, Get_prog. rewrite run_bind. unfold reads. rewrite run_act.
  destruct (m c !! prefixed c key) as [e |]; [| done].
  destruct (dead now e); [done |]. by destruct (unmarshal (data e)).
Qed.

Lemma Exists_eq now key c :
  Exists now key c =
  match m c !! prefixed c key with
  | None => (Ok false, c)
  | Some e =>
      if dead now e then (Ok false, MkCacher (ns c) (delete (prefixed c key) (m c)))
      else (Ok true, c)
  end.
Proof.
  unfold Exists, Exists_prog. rewrite run_bind. unfold reads. rewrite run_act.
  destruct (m c !! prefixed c key) as [e |]; [| done]. by destruct (dead now e).
Qed.

Lemma store_same now full e c s :
  same_live dead now (m c) s -> same_live dead now (m (store now full e c)) (<[full := e]> s).
Proof.
  intros H. unfold store. cbn [m]. apply same_live_insert.
  destruct (sweepThreshold <=? Z.of_nat (size (m c))); [| done].
  apply same_live_purge; [apply cacher_dead_mono | done].
Qed.

Lemma lookup_same_drop now k c s e :
  same_live dead now (m c) s -> m c !! prefixed c k = Some e -> dead now e = true ->
  same_live dead now (delete (prefixed c k) (m c)) s.
Proof. intros. by eapply same_live_drop; [apply cacher_dead_mono | | |]. Qed.

Lemma Get_same {A} `{Json A} now k c s :
  same_live dead now (m c) s -> same_live dead now (m (Get (A := A) now k c).2) s.
Proof.
  intros Hs. rewrite Get_eq. destruct (m c !! prefixed c k) as [e |] eqn:E; [| done].
  destruct (dead now e) eqn:D; [by eapply lookup_same_drop | done].
Qed.

Lemma Exists_same now k c s :
  same_live dead now (m c) s -> same_live dead now (m (Exists now k c).2) s.
Proof.
  intros Hs. rewrite Exists_eq. destruct (m c !! prefixed c k) as [e |] eqn:E; [| done].
  destruct (dead now e) eqn:D; [by eapply lookup_same_drop | done].
Qed.

Lemma foldl_delete_same now (f : string -> string) ks (m1 m2 : gmap string entry) :
  same_live dead now m1 m2 ->
  same_live dead now (foldl (fun m' k => delete (f k) m') m1 ks)
                     (foldl (fun m' k => delete (f k) m') m2 ks).
Proof. revert m1 m2. induction ks; simpl; auto using same_live_delete. Qed.

Lemma foldl_delete_lookup (f : string -> string) ks (m' : gmap string entry) k :
  foldl (fun m' k => delete (f k) m') m' ks !! k
  = if decide (k ∈ f <$> ks) then None else m' !! k.
Proof.
  revert m'. induction ks as [| k0 ks IH]; intros m'; cbn [foldl].
  - rewrite decide_False; [done | apply not_elem_of_nil].
  - rewrite IH, fmap_cons. destruct (decide (k ∈ f <$> ks)) as [Hi | Hn].
    + rewrite decide_True; [done |]. by right.
    + destruct (decide (k = f k0)) as [-> | Hne].
      * rewrite lookup_delete_eq, decide_True; [done | by left].
      * rewrite lookup_delete_ne by done. rewrite decide_False; [done |].
        by intros [? | ?]%elem_of_cons.
Qed.

(** *** Specification: a map that is never swept *)

Inductive op : Type :=
| OSet (key : string) (value : json) (ttl : Z)
| OGet (key : string)
| ODel (keys : list string)
| OExists (key : string).

Inductive reply : Type :=
| RDone
| RGet (r : option json)
| RExists (b : bool).

#[local] Instance json_json : Json json :=
  {| marshal j := Ok j; unmarshal j := Ok j |}.

Definition spec_step (pre : string -> string) (now : Z) (o : op) (s : gmap string entry)
  : reply * gmap string entry :=
  match o with
  | OSet k v ttl =>
      (RDone, <[pre k := MkEntry v (if 0 <? ttl then now + ttl else zero_time)]> s)
  | OGet k => (RGet (data <$> live dead now s (pre k)), s)
  | ODel ks => (RDone, foldl (fun m' k => delete (pre k) m') s ks)
  | OExists k => (RExists (bool_decide (is_Some (live dead now s (pre k)))), s)
  end.

Definition impl_step (now : Z) (o : op) (c : Cacher) : reply * Cacher :=
  match o with
  | OSet k v ttl => (RDone, (Set_ now k v ttl c).2)
  | OGet k =>
      let '(r, c') := Get (A := json) now k c in
      (RGet (match r with Ok j => Some j | Err _ => None end), c')
  | ODel ks => (RDone, (Del ks c).2)
  | OExists k =>
      let '(r, c') := Exists now k c in
      (RExists (match r with Ok b => b | Err _ => false end), c')
  end.

Fixpoint run_ops {S} (step : Z -> op -> S -> reply * S) (tr : list (Z * op)) (s : S) : list reply :=
  match tr with
  | [] => []
  | (t, o) :: tr' => let '(r, s') := step t o s in r :: run_ops step tr' s'
  end.

Lemma impl_ns now o c : ns (impl_step now o c).2 = ns c.
Proof.
  destruct o as [k v ttl | k | ks | k]; cbn [impl_step]; try done.
  - rewrite Get_eq. destruct (m c !! _) as [e |]; [by destruct (dead now e) | done].
  - rewrite Exists_eq. destruct (m c !! _) as [e |]; [by destruct (dead now e) | done].
Qed.

Lemma cacher_step_refines now o c s :
  same_live dead now (m c) s ->
  (impl_step now o c).1 = (spec_step (prefixed c) now o s).1 /\
  same_live dead now (m (impl_step now o c).2) (spec_step (prefixed c) now o s).2.
Proof.
  intros H. destruct o as [k v ttl | k | ks | k]; cbn [impl_step spec_step fst snd].
  - split; [done |]. unfold Set_. cbn [marshal json_json snd]. by apply store_same.
  - pose proof (Get_same (A := json) now k c s H) as Hs. rewrite Get_eq in Hs |- *.
    rewrite <- (H now (prefixed c k)) by lia. unfold live.
    destruct (m c !! prefixed c k) as [e |]; [| done]. by destruct (dead now e).
  - split; [done |]. by apply foldl_delete_same.
  - pose proof (Exists_same now k c s H) as Hs. rewrite Exists_eq in Hs |- *.
    rewrite <- (H now (prefixed c k)) by lia. unfold live.
    destruct (m c !! prefixed c k) as [e |]; [| done]. by destruct (dead now e).
Qed.

Lemma cacher_run_refines tr c s :
  StronglySorted Z.le tr.*1 -> Forall (fun t => same_live dead t (m c) s) tr.*1 ->
  run_ops impl_step tr c = run_ops (spec_step (prefixed c)) tr s.
Proof.
  revert c s. induction tr as [| [t o] tr IH]; intros c s Hs Hl; [done |].
  apply StronglySorted_inv in Hs as [Hs Hle]. apply Forall_cons in Hl as [Ht _]. cbn.
  destruct (cacher_step_refines t o c s Ht) as [He Hn]. pose proof (impl_ns t o c) as Hns.
  destruct (impl_step t o c) as [r c'], (spec_step (prefixed c) t o s) as [r' s'].
  simpl in *. subst r'. f_equal.
  assert (prefixed c = prefixed c') as -> by (unfold prefixed; by rewrite Hns).
  apply IH; [done |]. eapply Forall_impl; [exact Hle |]. intros u Hu. by eapply same_live_later.
Qed.

(** C7. The memory cache implements the map that is never swept: on every
    sequence of Set, Get, Del and Exists whose clock does not go back the
    replies are those of the specification, so a value is returned from the
    moment it is set until its TTL elapses or it is deleted, and never after;
    purging and lazy removal of expired entries are not visible. *)
Theorem memory_cacher_refines (namespace : string) (tr : list (Z * op)) :
  StronglySorted Z.le tr.*1 ->
  run_ops impl_step tr (New namespace)
  = run_ops (spec_step (prefixed (New namespace))) tr ∅.
Proof. intros Hs. apply cacher_run_refines; [done |]. by apply Forall_forall. Qed.

Definition trace : list (Z * op) :=
  [(0, OSet "k" (JNum 7) 10); (5, OGet "k"); (6, OExists "k"); (10, OGet "k");
   (11, OSet "k" (JNum 8) 0); (12, ODel ["j"]); (99, OGet "k"); (99, ODel ["k"]); (99, OExists "k")]%string.

Lemma memory_cacher_refines_witness :
  run_ops impl_step trace (New "wapgo")
  = [RDone; RGet (Some (JNum 7)); RExists true; RGet None; RDone; RDone;
     RGet (Some (JNum 8)); RDone; RExists false].
Proof.
  etransitivity.
  - apply (memory_cacher_refines "wapgo" trace). unfold trace. cbn. repeat constructor; done.
  - vm_compute. reflexivity.
Defined.

(** [Set] as one atomic action. *)
Definition Set_prog {A} `{Json A} (now : Z) (key : string) (value : A) (ttl : Z)
  : prog Cacher (option error) := act (Set_ now key value ttl).

(** Lost update: [Get] looks an expired entry up under the read lock and
    removes the key under the write lock without looking again. Whenever the
    key holds an expired entry, a [Set] of the same key scheduled between the
    two sections succeeds and its fresh value is then deleted. *)
Theorem memory_get_set_lost_update {A} `{Json A} (now now' : Z) (key : string)
    (value : A) (j : json) (ttl : Z) (e : entry) (c : Cacher) :
  m c !! prefixed c key = Some e -> dead now e = true -> marshal value = Ok j ->
  exists c',
    rtc par_step (Par (Get_prog (A := A) now key) (Set_prog now' key value ttl) c)
                 (Par (Ret (Err (Sentinel ErrCacheMiss))) (Ret None) c') /\
    m c' !! prefixed c key = None.
Proof.
  intros He Hd Hj.
  pose proof (exec_steps [true; false; true]
    (Par (Get_prog (A := A) now key) (Set_prog now' key value ttl) c)) as Hx.
  simpl in Hx. rewrite He in Hx. rewrite Hd in Hx. simpl in Hx.
  unfold Set_ in Hx. rewrite Hj in Hx. simpl in Hx.
  eexists. split; [exact Hx |]. simpl.
  unfold prefixed. simpl. apply lookup_delete_eq.
Qed.

Lemma memory_get_set_lost_update_witness :
  exists c',
    rtc par_step
      (Par (Get_prog (A := Z) 10 "k") (Set_prog 10 "k" 8 100)
           (MkCacher "" {["k"%string := MkEntry (JNum 7) 10]}))
      (Par (Ret (Err (Sentinel ErrCacheMiss))) (Ret None) c') /\
    m c' !! "k" = None.
Proof.
  apply (memory_get_set_lost_update 10 10 "k" 8 (JNum 8) 100 (MkEntry (JNum 7) 10)
           (MkCacher "" {["k"%string := MkEntry (JNum 7) 10]})); vm_compute; reflexivity.
Defined.

(** *** The interface, discharged *)

#[export] Instance memory_cacher : Cache.Cacher Cacher := {|
  Cache.Set_ A _ := Set_;
  Cache.Get A _ := Get;
  Cache.Del _ := Del;
  Cache.Exists := Exists
|}.

(** The clock never reads the zero time (year 1). *)
Definition view (c : Cacher) (t : Z) (k : string) : option json :=
  data <$> live dead t (m c) (prefixed c k).

Lemma view_same c c' now t k :
  ns c' = ns c -> same_live dead now (m c') (m c) -> now <= t -> view c' t k = view c t k.
Proof. intros Hn H Ht. unfold view, prefixed. rewrite Hn. by rewrite (H t _ Ht). Qed.

Lemma store_view now k e c t k' :
  now <= t ->
  view (store now (prefixed c k) e c) t k'
  = if decide (k' = k) then (if dead t e then None else Some (data e)) else view c t k'.
Proof.
  intros Ht. unfold view at 1.
  assert (prefixed (store now (prefixed c k) e c) k' = prefixed c k') as -> by reflexivity.
  rewrite (store_same now (prefixed c k) e c (m c) (reflexivity _) t _ Ht), live_insert.
  destruct (decide (k' = k)) as [-> | Hne].
  - rewrite decide_True by done. by destruct (dead t e).
  - rewrite decide_False; [done |]. intros Heq. by apply Hne, (prefixed_inj c).
Qed.

Lemma Get_view_eq {A} `{Json A} now k c :
  (Get (A := A) now k c).1 = reply_of (view c now k).
Proof.
  rewrite Get_eq. unfold reply_of, view, live. destruct (m c !! _) as [e |]; [| done].
  by destruct (dead now e).
Qed.

Lemma Get_frame {A} `{Json A} now k c t k' :
  now <= t -> view (Get (A := A) now k c).2 t k' = view c t k'.
Proof.
  intros Ht. apply (view_same c _ now); [| by apply Get_same | done].
  rewrite Get_eq. destruct (m c !! _) as [e |]; [by destruct (dead now e) | done].
Qed.

Lemma Del_view ks c t k' :
  view (Del ks c).2 t k' = if decide (k' ∈ ks) then None else view c t k'.
Proof.
  unfold view, Del, live. cbn [m snd].
  change (prefixed (MkCacher (ns c) _) k') with (prefixed c k').
  rewrite (foldl_delete_lookup (prefixed c)).
  destruct (decide (k' ∈ ks)) as [Hi | Hn].
  - rewrite decide_True; [done |]. by apply list_elem_of_fmap_2.
  - rewrite decide_False; [done |]. intros (k & Hk & Hin)%list_elem_of_fmap_1.
    apply Hn. by rewrite (prefixed_inj c k' k Hk).
Qed.

Lemma view_either c k e :
  m c !! prefixed c k = Some e -> forall t, view c t k = None \/ view c t k = Some (data e).
Proof. intros He t. unfold view, live. rewrite He. destruct (dead t e); auto. Qed.

Lemma view_absent c k : m c !! prefixed c k = None -> forall t, view c t k = None.
Proof. intros He t. unfold view, live. by rewrite He. Qed.

#[export] Instance memory_cacher_laws : Cache.CacherLaws Cacher.
Proof.
  refine {| Cache.view := view |}.
  - intros. left. apply Get_view_eq.
  - intros. by apply Get_frame.
  - intros A ? now k v ttl c c' j Hz _ _ Hs Hj t Ht. simpl in Hs. unfold Set_ in Hs.
    rewrite Hj in Hs. injection Hs as <-. rewrite store_view, decide_True by done.
    unfold dead, lives, is_zero_time. cbn [expiresAt data]. destruct (0 <? ttl) eqn:Ett.
    + assert ((now + ttl =? zero_time) = false) as -> by lia.
      assert ((ttl <=? 0) = false) as -> by lia. simpl. by destruct (t <? now + ttl).
    + assert ((ttl <=? 0) = true) as -> by lia. by rewrite Z.eqb_refl.
  - intros A ? now k v ttl c t k' Ht Hne. simpl. unfold Set_.
    destruct (marshal v) as [j |]; [| done]. simpl. by rewrite store_view, decide_False.
  - intros now ks c c' H t k _ Hk. simpl in H. pose proof (Del_view ks c t k) as Hd.
    rewrite H in Hd. by rewrite decide_True in Hd.
  - intros now ks c t k _ Hk. change (view (Del ks c).2 t k = view c t k).
    by rewrite Del_view, decide_False.
Defined.

#[export] Instance memory_cacher_reliable : Cache.CacherReliable Cacher.
Proof.
  split.
  - intros. apply Get_view_eq.
  - intros A ? now k v ttl c j Hj. simpl. unfold Set_. by rewrite Hj.
  - done.
Qed.
End Memory.

(** ** Shared, in Redis *)
Module Redis.
Section Client.
Context {S : Type} `{RedisServer S}.

(** [RedisCacher]: the connection to the server, and the namespace. *)
Record RedisCacher : Type := MkRedisCacher { client : S; ns : string }.

Definition New (client : S) (ns : string) : RedisCacher := MkRedisCacher client ns.

Definition prefixed (r : RedisCacher) (key : string) : string :=
  if bool_decide (ns r = "") then key else (ns r ++ ":" ++ key)%string.

Definition Set_ {A} `{Json A} (now : Z) (key : string) (value : A) (ttl : Z) (r : RedisCacher)
  : option error * RedisCacher :=
  match marshal value with
  | Err e => (Some (errorf "cache set marshal: " e), r)
  | Ok b =>
      let '(e, s) := SET now (prefixed r key) b ttl (client r) in (e, MkRedisCacher s (ns r))
  end.

Definition Get {A} `{Json A} (now : Z) (key : string) (r : RedisCacher)
  : result A * RedisCacher :=
  let '(reply, s) := GET now (prefixed r key) (client r) in
  let r' := MkRedisCacher s (ns r) in
  match reply with
  | Err e =>
      if errors_is e RedisNil then (Err (Sentinel ErrCacheMiss), r')
      else (* unreachable: logged, and treated as a miss *)
        (Err (Sentinel ErrCacheMiss), r')
  | Ok b =>
      match unmarshal b with
      | Err e => (Err (errorf "cache get unmarshal: " e), r')
      | Ok a => (Ok a, r')
      end
  end.

Definition Del (now : Z) (keys : list string) (r : RedisCacher) : option error * RedisCacher :=
  let full := map (prefixed r) keys in
  let '(e, s) := DEL now full (client r) in (e, MkRedisCacher s (ns r)).

Definition Exists (now : Z) (key : string) (r : RedisCacher) : result bool * RedisCacher :=
  let '(reply, s) := EXISTS now (prefixed r key) (client r) in
  (match reply with
   | Err e => Err (errorf "cache exists: " e)
   | Ok n => Ok (0 <? n)
   end, MkRedisCacher s (ns r)).

#[export] Instance redis_cacher : Cache.Cacher RedisCacher := {|
  Cache.Set_ A _ := Set_;
  Cache.Get A _ := Get;
  Cache.Del := Del;
  Cache.Exists := Exists
|}.

Lemma redis_prefixed_inj r k k' : prefixed r k = prefixed r k' -> k = k'.
Proof.
  unfold prefixed. destruct (bool_decide _); [done |]. intros Heq.
  apply (inj (String.append (ns r))) in Heq. by injection Heq.
Qed.

(** Graceful degradation: whatever the server answers, [Get] returns a
    value, a decoding error or ErrCacheMiss, and never the transport error of
    a failing server, so callers can fall back to the source of truth. *)
Theorem redis_get_degrades {A} `{Json A} (now : Z) (key : string) (r : RedisCacher) :
  match (Get (A := A) now key r).1 with
  | Ok a => exists b, (GET now (prefixed r key) (client r)).1 = Ok b /\ unmarshal b = Ok a
  | Err e => e = Sentinel ErrCacheMiss \/
      exists b e', (GET now (prefixed r key) (client r)).1 = Ok b /\ unmarshal b = (Err e' : result A)
                   /\ e = errorf "cache get unmarshal: " e'
  end.
Proof.
  unfold Get. destruct (GET now (prefixed r key) (client r)) as [[b | e] s].
  - destruct (unmarshal b) as [a | e] eqn:E; simpl; eauto 6.
  - destruct (errors_is e RedisNil); simpl; eauto.
Qed.

Context `{!RedisServerLaws S}.

#[export] Instance redis_cacher_laws : Cache.CacherLaws RedisCacher.
Proof.
  refine {| Cache.view r t k := stored (client r) t (prefixed r k) |}.
  - intros A ? now k r. simpl. unfold Get.
    destruct (GET now (prefixed r k) (client r)) as [[b | e] s] eqn:E.
    + left. apply GET_ok in E. rewrite E. unfold reply_of. by destruct (unmarshal b).
    + right. by destruct (errors_is e RedisNil).
  - intros A ? now k r t k' Ht. simpl. unfold Get.
    pose proof (GET_frame now (prefixed r k) (client r) t (prefixed r k') Ht) as Hf.
    destruct (GET now (prefixed r k) (client r)) as [[b | e] s]; simpl in Hf.
    + by destruct (unmarshal b).
    + by destruct (errors_is e RedisNil).
  - intros A ? now k v ttl r r' j _ Httl Hms Hs Hj t Ht. simpl in Hs. unfold Set_ in Hs.
    rewrite Hj in Hs. destruct (SET now (prefixed r k) j ttl (client r)) as [e s] eqn:E.
    injection Hs as -> <-. cbn [client].
    rewrite (SET_ok _ _ _ _ _ _ Httl E t Ht), px_id by done.
    done.
  - intros A ? now k v ttl r t k' Ht Hne. simpl. unfold Set_.
    destruct (marshal v) as [j |]; [| done].
    pose proof (SET_frame now (prefixed r k) j ttl (client r) t (prefixed r k') Ht) as Hf.
    destruct (SET now (prefixed r k) j ttl (client r)) as [e s]. simpl in *.
    rewrite <- Hf; [done |]. intros Heq. by apply Hne, (redis_prefixed_inj r).
  - intros now ks r r' Hd t k Ht Hk. simpl in Hd. unfold Del in Hd.
    destruct (DEL now (map (prefixed r) ks) (client r)) as [e s] eqn:E.
    injection Hd as -> <-. cbn [client]. rewrite (DEL_ok _ _ _ _ E t _ Ht); [done |].
    by apply (list_elem_of_fmap_2 (prefixed r)).
  - intros now ks r t k Ht Hk. simpl. unfold Del.
    pose proof (DEL_frame now (map (prefixed r) ks) (client r) t (prefixed r k) Ht) as Hf.
    destruct (DEL now (map (prefixed r) ks) (client r)) as [e s]. simpl in *.
    rewrite <- Hf; [done |]. intros (k' & Hk' & Hin)%(list_elem_of_fmap_1 (prefixed r)).
    apply Hk. by rewrite (redis_prefixed_inj r k k' Hk').
Defined.
End Client.
Arguments RedisCacher S : clear implicits.
End Redis.
