(* ===== verification/Jwt.v ===== *)
(** [pkg/auth/jwt.go], [claims.go]: signing and verifying JSON Web Tokens.

    The JWT library (golang-jwt) is not part of the program: signing, parsing and
    the rounding of dates are parameters ([JwtLib]) whose documented behaviour is
    [JwtLaws]. Random identifiers come from the [n]-th draw of the system's random
    source, a parameter as well. [TokenCodec] instantiates the library. *)

From stdpp Require Import base list strings.
From Stdlib Require Import ZArith Lia Ascii String.
From S2P Require Import Prelude GoStrings.

(** Parameters needed to sign and verify. *)
Record Config : Type := MkConfig {
  Secret : string;
  Issuer : string;
  Audience : string;
  Expiry : Z          (* token lifetime; 0 defaults to 24h *)
}.

(** [Claims] with the embedded [jwt.RegisteredClaims]; a nil date is [None]. *)
Record Claims : Type := MkClaims {
  ID : string;
  Subject : string;
  Iss : string;
  Aud : list string;
  IssuedAt : option Z;
  NotBefore : option Z;
  ExpiresAt : option Z;
  Roles : list string;
  TokenType : string
}.

(** The options given to [jwt.NewParser]. *)
Record parserOptions : Type := MkParser {
  validMethods : list string;
  withIssuer : string;
  withAudience : string;
  expirationRequired : bool;
  withIssuedAt : bool
}.

Class JwtLib : Type := {
  (* [jwt.NewNumericDate] *)
  NewNumericDate : Z -> Z;
  (* [jwt.NewWithClaims(HS256, c).SignedString(key)] *)
  SignedString : string -> Claims -> result string;
  (* [t.Method.( *jwt.SigningMethodHMAC)] succeeds, of the "alg" header *)
  isHMAC : string -> bool;
  (* [parser.ParseWithClaims(token, &Claims{}, keyfunc)] at the clock reading:
     the claims and [token.Valid] *)
  ParseWithClaims : parserOptions -> (string -> result string) -> Z -> string -> result (Claims * bool)
}.

(** The checks a parser with these options makes on the claims. *)
Definition valid_claims (o : parserOptions) (now : Z) (c : Claims) : bool :=
  match ExpiresAt c with Some e => now <? e | None => negb (expirationRequired o) end &&
  match IssuedAt c with Some i => negb (withIssuedAt o) || (i <=? now) | None => true end &&
  match NotBefore c with Some n => n <=? now | None => true end &&
  (bool_decide (withAudience o = "") || bool_decide (withAudience o ∈ Aud c)) &&
  (bool_decide (withIssuer o = "") || bool_decide (withIssuer o = Iss c)).

Class JwtLaws `{JwtLib} : Prop := {
  date_precision : forall t, t - Second < NewNumericDate t <= t;
  sign_total : forall key c, exists s, SignedString key c = Ok s;
  parse_signed : forall o kf now key c s,
    SignedString key c = Ok s -> "HS256" ∈ validMethods o -> kf "HS256" = Ok key ->
    valid_claims o now c = true -> ParseWithClaims o kf now s = Ok (c, true);
  parse_valid : forall o kf now s c v,
    ParseWithClaims o kf now s = Ok (c, v) -> v = true /\ valid_claims o now c = true;
  parse_claims : forall o kf now key c s c' v,
    SignedString key c = Ok s -> ParseWithClaims o kf now s = Ok (c', v) -> c' = c;
  parse_stable : forall o kf now now' s r r',
    ParseWithClaims o kf now s = Ok r -> ParseWithClaims o kf now' s = Ok r' -> r = r';
  parse_alg : forall o kf now s r,
    ParseWithClaims o kf now s = Ok r -> exists alg, alg ∈ validMethods o /\ is_ok (kf alg) = true;
  hs256_hmac : isHMAC "HS256" = true
}.

(** [newJTI]: sixteen random bytes in hexadecimal. *)
Definition newJTI (bytes : string) : string := hex_EncodeToString bytes.

Section Jwt.
Context `{JwtLib}.

(** [Sign] with the clock reading and the random bytes it makes: the token and
    its identifier. *)
Definition Sign (now : Z) (bytes : string) (subject : string) (roles : list string)
    (tokenType : string) (cfg : Config) : result (string * string) :=
  if len (Secret cfg) <? 32 then Err (Sentinel ErrWeakSecret)
  else
    let expiry := if Expiry cfg =? 0 then 24 * Hour else Expiry cfg in
    let jti := newJTI bytes in
    let c := {| ID := jti; Subject := subject; Iss := Issuer cfg; Aud := [Audience cfg];
                IssuedAt := Some (NewNumericDate now);
                NotBefore := Some (NewNumericDate now);
                ExpiresAt := Some (NewNumericDate (now + expiry));
                Roles := roles; TokenType := tokenType |} in
    match SignedString (Secret cfg) c with
    | Err e => Err (errorf "signing jwt: " e)
    | Ok signed => Ok (signed, jti)
    end.

Definition verifyParser (cfg : Config) : parserOptions :=
  {| validMethods := ["HS256"]; withIssuer := Issuer cfg; withAudience := Audience cfg;
     expirationRequired := true; withIssuedAt := true |}.

(** The key function: only an HMAC method gets the secret. *)
Definition keyfunc (cfg : Config) (alg : string) : result string :=
  if isHMAC alg then Ok (Secret cfg)
  else Err (Fresh ("unexpected signing method: " ++ alg)).

Definition Verify (now : Z) (tokenStr : string) (cfg : Config) : result Claims :=
  if len (Secret cfg) <? 32 then Err (Sentinel ErrWeakSecret)
  else
    match ParseWithClaims (verifyParser cfg) (keyfunc cfg) now tokenStr with
    | Err e => Err (errorf "invalid token: " e)
    | Ok (c, valid) => if valid then Ok c else Err (Fresh "invalid token claims")
    end.

(** The lifetime [Sign] gives a token, and the claims it puts in. *)
Definition lifetime (cfg : Config) : Z := if Expiry cfg =? 0 then 24 * Hour else Expiry cfg.

Definition issued (now : Z) (bytes subject : string) (roles : list string) (ty : string)
    (cfg : Config) (c : Claims) : Prop :=
  ID c = newJTI bytes /\ Subject c = subject /\ Roles c = roles /\ TokenType c = ty /\
  Iss c = Issuer cfg /\ Aud c = [Audience cfg] /\
  IssuedAt c = Some (NewNumericDate now) /\ NotBefore c = Some (NewNumericDate now) /\
  ExpiresAt c = Some (NewNumericDate (now + lifetime cfg)).

Lemma Sign_inv now bytes subject roles ty cfg tok jti :
  Sign now bytes subject roles ty cfg = Ok (tok, jti) ->
  32 <= len (Secret cfg) /\ jti = newJTI bytes /\
  exists c, SignedString (Secret cfg) c = Ok tok /\ issued now bytes subject roles ty cfg c.
Proof.
  unfold Sign. destruct (len (Secret cfg) <? 32) eqn:E; [done |].
  destruct (SignedString _ _) as [s | e] eqn:Es; [| done]. intros [= -> <-].
  split; [lia |]. split; [done |]. eexists. by split; [exact Es | repeat split].
Qed.

Context `{!JwtLaws}.

Lemma Sign_ok now bytes subject roles ty cfg :
  32 <= len (Secret cfg) ->
  exists tok, Sign now bytes subject roles ty cfg = Ok (tok, newJTI bytes).
Proof.
  intros Hs. unfold Sign. assert ((len (Secret cfg) <? 32) = false) as -> by lia.
  match goal with |- context [SignedString ?k ?c] => destruct (sign_total k c) as [s ->] end.
  by exists s.
Qed.

Lemma valid_issued now t bytes subject roles ty cfg cfg' c :
  issued now bytes subject roles ty cfg c -> now <= t ->
  Issuer cfg' = Issuer cfg -> Audience cfg' = Audience cfg ->
  valid_claims (verifyParser cfg') t c = (t <? NewNumericDate (now + lifetime cfg)).
Proof.
  intros (_ & _ & _ & _ & Hi & Ha & Hiat & Hnbf & Hexp) Ht HI HA.
  unfold valid_claims, verifyParser. cbn [withIssuer withAudience expirationRequired withIssuedAt].
  rewrite Hexp, Hiat, Hnbf, Hi, Ha, HI, HA.
  pose proof (date_precision now). assert ((NewNumericDate now <=? t) = true) as -> by lia.
  rewrite (bool_decide_eq_true_2 (Audience cfg ∈ [Audience cfg])) by (by left).
  rewrite (bool_decide_eq_true_2 (Issuer cfg = Issuer cfg)) by done.
  simpl. by rewrite !orb_true_r, !andb_true_r.
Qed.

(** Verification of a token [Sign] made, under the same secret, issuer and
    audience: accepted until the (rounded) expiry, then rejected. *)
Lemma Verify_signed now t bytes subject roles ty cfg cfg' tok jti :
  Sign now bytes subject roles ty cfg = Ok (tok, jti) -> now <= t ->
  Secret cfg' = Secret cfg -> Issuer cfg' = Issuer cfg -> Audience cfg' = Audience cfg ->
  exists c, issued now bytes subject roles ty cfg c /\
    (t < NewNumericDate (now + lifetime cfg) -> Verify t tok cfg' = Ok c) /\
    (NewNumericDate (now + lifetime cfg) <= t -> exists e, Verify t tok cfg' = Err e).
Proof.
  intros Hs Ht HS HI HA. apply Sign_inv in Hs as (Hlen & _ & c & Hc & Hi).
  exists c. split; [done |]. pose proof (valid_issued _ t _ _ _ _ _ cfg' _ Hi Ht HI HA) as Hv.
  unfold Verify. rewrite HS. assert ((len (Secret cfg) <? 32) = false) as -> by lia.
  assert (keyfunc cfg' "HS256" = Ok (Secret cfg)) as Hk
    by (unfold keyfunc; by rewrite hs256_hmac, HS).
  split; intros Hexp.
  - erewrite parse_signed; [done | exact Hc | by left | exact Hk |]. rewrite Hv. lia.
  - destruct (ParseWithClaims _ _ t tok) as [[c' v] |] eqn:E; [| by eexists].
    exfalso. pose proof (parse_claims _ _ _ _ _ _ _ _ Hc E) as ->.
    apply parse_valid in E as [_ E]. rewrite Hv in E. lia.
Qed.

Lemma Verify_claims t cfg now bytes subject roles ty cfg0 tok jti c :
  Sign now bytes subject roles ty cfg0 = Ok (tok, jti) -> Verify t tok cfg = Ok c ->
  issued now bytes subject roles ty cfg0 c.
Proof.
  intros Hs Hv. apply Sign_inv in Hs as (_ & _ & c0 & Hc & Hi).
  unfold Verify in Hv. destruct (len (Secret cfg) <? 32); [done |].
  destruct (ParseWithClaims _ _ t tok) as [[c' v] |] eqn:E; [| done].
  destruct v; [| done]. injection Hv as ->.
  by rewrite (parse_claims _ _ _ _ _ _ _ _ Hc E).
Qed.

Lemma Verify_stable t t' tok cfg c c' :
  Verify t tok cfg = Ok c -> Verify t' tok cfg = Ok c' -> c = c'.
Proof.
  unfold Verify. destruct (len (Secret cfg) <? 32); [done |].
  destruct (ParseWithClaims _ _ t tok) as [[d v] |] eqn:E; [| done].
  destruct (ParseWithClaims _ _ t' tok) as [[d' v'] |] eqn:E'; [| done].
  pose proof (parse_stable _ _ _ _ _ _ _ E E') as Heq. injection Heq as -> ->.
  destruct v'; [congruence | done].
Qed.

Lemma Verify_unexpired t tok cfg c :
  Verify t tok cfg = Ok c -> exists e, ExpiresAt c = Some e /\ t < e.
Proof.
  unfold Verify. destruct (len (Secret cfg) <? 32); [done |].
  destruct (ParseWithClaims _ _ t tok) as [[c' v] |] eqn:E; [| done].
  destruct v; [| done]. intros [= ->]. apply parse_valid in E as [_ E].
  unfold valid_claims in E. rewrite !andb_true_iff in E. destruct E as [[[[E _] _] _] _].
  destruct (ExpiresAt c) as [e |]; [| done]. exists e. split; [done | lia].
Qed.


(** What [Verify] accepts satisfies every check: the secret has at least 32
    bytes, the token was signed with an algorithm of the pinned list (HS256),
    the expiry is present and in the future, it was not issued and is not
    usable only in the future, and issuer and audience match when configured. *)
Theorem verify_sound (t : Z) (tok : string) (cfg : Config) (c : Claims) :
  Verify t tok cfg = Ok c ->
  32 <= len (Secret cfg) /\
  (exists e, ExpiresAt c = Some e /\ t < e) /\
  (forall i, IssuedAt c = Some i -> i <= t) /\
  (forall n, NotBefore c = Some n -> n <= t) /\
  (Audience cfg <> "" -> Audience cfg ∈ Aud c) /\
  (Issuer cfg <> "" -> Iss c = Issuer cfg).
Proof.
  unfold Verify. destruct (len (Secret cfg) <? 32) eqn:El; [done |].
  destruct (ParseWithClaims _ _ t tok) as [[c' v] |] eqn:E; [| done].
  destruct v; [| done]. intros [= ->]. apply parse_valid in E as [_ E].
  unfold valid_claims, verifyParser in E.
  cbn [withIssuer withAudience expirationRequired withIssuedAt] in E.
  rewrite !andb_true_iff, !orb_true_iff, !bool_decide_eq_true in E.
  destruct E as [[[[He Hi] Hn] Ha] Hs]. split; [lia |]. split.
  { destruct (ExpiresAt c) as [e |]; [| done]. exists e. split; [done | lia]. }
  repeat split.
  - intros i Hii. rewrite Hii in Hi. simpl in Hi. lia.
  - intros n Hnn. rewrite Hnn in Hn. lia.
  - by destruct Ha.
  - destruct Hs; [done |]. by intros _.
Qed.
End Jwt.

(** ** A token library to instantiate the parameters with

    A token is the key followed by the claims, written so that they can be read
    back: each character of a string is preceded by [x] and a string ends with a
    semicolon. It protects nothing; it behaves as [JwtLaws] says. *)
Module TokenCodec.

Fixpoint put_str (s : string) (rest : string) : string :=
  match s with
  | EmptyString => String ";" rest
  | String c s' => String "x" (String c (put_str s' rest))
  end.

Fixpoint get_str (fuel : nat) (s : string) : option (string * string) :=
  match fuel with
  | O => None
  | S fuel =>
      match s with
      | String k s' =>
          if Ascii.eqb k ";" then Some (EmptyString, s')
          else match s' with
               | String c s'' =>
                   match get_str fuel s'' with
                   | Some (r, rest) => Some (String c r, rest)
                   | None => None
                   end
               | EmptyString => None
               end
      | EmptyString => None
      end
  end.

Lemma get_put_str s rest fuel :
  (String.length s < fuel)%nat -> get_str fuel (put_str s rest) = Some (s, rest).
Proof.
  revert fuel. induction s as [| c s IH]; intros [| fuel] Hf; simpl in *; try lia; [done |].
  rewrite IH; [done | lia].
Qed.

Lemma put_str_length s rest :
  String.length (put_str s rest) = (2 * String.length s + 1 + String.length rest)%nat.
Proof. induction s; simpl; lia. Qed.

(** A list of strings, each preceded by a full stop. *)
Fixpoint put_list (l : list string) (rest : string) : string :=
  match l with
  | [] => String ";" rest
  | s :: l' => String "." (put_str s (put_list l' rest))
  end.

Fixpoint get_list (fuel : nat) (s : string) : option (list string * string) :=
  match fuel with
  | O => None
  | S fuel =>
      match s with
      | String k s' =>
          if Ascii.eqb k ";" then Some ([], s')
          else match get_str fuel s' with
               | Some (x, rest) =>
                   match get_list fuel rest with
                   | Some (l, rest') => Some (x :: l, rest')
                   | None => None
                   end
               | None => None
               end
      | EmptyString => None
      end
  end.

Lemma get_put_list l rest fuel :
  (String.length (put_list l rest) < fuel)%nat -> get_list fuel (put_list l rest) = Some (l, rest).
Proof.
  revert fuel. induction l as [| s l IH]; intros [| fuel] Hf; simpl in *; try lia; [done |].
  rewrite put_str_length in Hf. rewrite get_put_str by lia. rewrite IH; [done | lia].
Qed.

(** Numbers in binary, least significant digit first. *)
Fixpoint pos_str (p : positive) : string :=
  match p with
  | xH => "1" | xO p => String "0" (pos_str p) | xI p => String "2" (pos_str p)
  end.
Fixpoint str_pos (s : string) : positive :=
  match s with
  | EmptyString => xH
  | String c s' =>
      if Ascii.eqb c "1" then xH else if Ascii.eqb c "0" then xO (str_pos s') else xI (str_pos s')
  end.
Definition date_str (z : option Z) : string :=
  match z with
  | None => "n" | Some Z0 => "z"
  | Some (Zpos p) => String "p" (pos_str p) | Some (Zneg p) => String "m" (pos_str p)
  end.
Definition str_date (s : string) : option Z :=
  match s with
  | String c s' =>
      if Ascii.eqb c "z" then Some 0
      else if Ascii.eqb c "p" then Some (Zpos (str_pos s'))
      else if Ascii.eqb c "m" then Some (Zneg (str_pos s')) else None
  | EmptyString => None
  end.

Lemma str_pos_str p : str_pos (pos_str p) = p.
Proof. induction p; simpl; by rewrite ?IHp. Qed.
Lemma str_date_str z : str_date (date_str z) = z.
Proof. destruct z as [[| p | p] |]; simpl; by rewrite ?str_pos_str. Qed.

Definition to_list (key : string) (c : Claims) : list string :=
  [key; ID c; Subject c; Iss c; date_str (IssuedAt c); date_str (NotBefore c);
   date_str (ExpiresAt c); TokenType c].

Definition encode (key : string) (c : Claims) : string :=
  put_list (to_list key c) (put_list (Aud c) (put_list (Roles c) EmptyString)).

Definition decode (s : string) : option (string * Claims) :=
  let fuel := S (String.length s) in
  match get_list fuel s with
  | Some ([key; id; sub; iss; iat; nbf; exp; ty], s1) =>
      match get_list fuel s1 with
      | Some (aud, s2) =>
          match get_list fuel s2 with
          | Some (roles, _) =>
              Some (key, MkClaims id sub iss aud (str_date iat) (str_date nbf) (str_date exp) roles ty)
          | None => None
          end
      | None => None
      end
  | _ => None
  end.

Lemma put_list_length l rest :
  (String.length rest <= String.length (put_list l rest))%nat.
Proof. induction l; simpl; rewrite ?put_str_length; lia. Qed.

Lemma decode_encode key c : decode (encode key c) = Some (key, c).
Proof.
  unfold decode, encode.
  pose proof (put_list_length (to_list key c) (put_list (Aud c) (put_list (Roles c) EmptyString))).
  pose proof (put_list_length (Aud c) (put_list (Roles c) EmptyString)).
  rewrite get_put_list by lia. unfold to_list at 1.
  rewrite get_put_list by lia. rewrite get_put_list by lia.
  rewrite !str_date_str. by destruct c.
Qed.

Definition parse (o : parserOptions) (kf : string -> result string) (now : Z) (tok : string)
    : result (Claims * bool) :=
  match decode tok with
  | Some (key, c) =>
      if bool_decide ("HS256" ∈ validMethods o) then
        match kf "HS256" with
        | Err e => Err (errorf "token is unverifiable: " e)
        | Ok key' =>
            if bool_decide (key = key') && valid_claims o now c then Ok (c, true)
            else Err (Fresh "token is invalid")
        end
      else Err (Fresh "signing method is invalid")
  | None => Err (Fresh "token is malformed")
  end.

#[export] Instance lib : JwtLib := {|
  NewNumericDate t := t / Second * Second;
  SignedString key c := Ok (encode key c);
  isHMAC alg := bool_decide (alg ∈ ["HS256"; "HS384"; "HS512"]);
  ParseWithClaims := parse
|}.

#[export] Instance laws : JwtLaws.
Proof.
  split; simpl.
  - intros t. pose proof (Z.mod_pos_bound t Second eq_refl).
    pose proof (Z.div_mod t Second ltac:(done)). lia.
  - intros key c. by exists (encode key c).
  - intros o kf now key c s [= <-] Hm Hk Hv. unfold parse. rewrite decode_encode.
    rewrite bool_decide_eq_true_2 by done. rewrite Hk, Hv.
    by rewrite bool_decide_eq_true_2.
  - intros o kf now s c v Hp. unfold parse in Hp. destruct (decode s) as [[key c'] |]; [| done].
    destruct (bool_decide ("HS256" ∈ _)); [| done]. destruct (kf "HS256"); [| done].
    destruct (bool_decide _ && valid_claims o now c') eqn:E; [| done]. injection Hp as -> <-.
    by apply andb_true_iff in E as [_ ->].
  - intros o kf now key c s c' v [= <-] Hp. unfold parse in Hp. rewrite decode_encode in Hp.
    destruct (bool_decide ("HS256" ∈ _)); [| done]. destruct (kf "HS256"); [| done].
    destruct (bool_decide _ && valid_claims o now c); [| done]. by injection Hp as <- <-.
  - intros o kf now now' s r r' Hp Hp'. unfold parse in Hp, Hp'.
    destruct (decode s) as [[key c] |]; [| done].
    destruct (bool_decide ("HS256" ∈ _)); [| done]. destruct (kf "HS256"); [| done].
    destruct (bool_decide _ && valid_claims o now c); [| done].
    destruct (bool_decide _ && valid_claims o now' c); [| done]. congruence.
  - intros o kf now s r Hp. unfold parse in Hp. destruct (decode s) as [[key c] |]; [| done].
    destruct (bool_decide ("HS256" ∈ _)) eqn:E; [| done]. exists "HS256".
    apply bool_decide_eq_true in E. split; [done |]. by destruct (kf "HS256").
  - done.
Qed.
End TokenCodec.

(** ** Witnesses *)
Module JwtWitness.
Import TokenCodec.

Definition cfg : Config :=
  MkConfig "0123456789abcdef0123456789abcdef" "wapgo" "wapgo-api" (15 * Minute).


Definition token : string :=
  match Sign 0 "0123456789abcdef" "user-1" [] "access" cfg with Ok (t, _) => t | Err _ => "" end.
Definition claims : Claims :=
  match Verify Second token cfg with Ok c => c | Err _ => MkClaims "" "" "" [] None None None [] "" end.

Lemma verify_sound_witness :
  Verify Second token cfg = Ok claims /\ exists e, ExpiresAt claims = Some e /\ Second < e.
Proof.
  assert (Verify Second token cfg = Ok claims) as Hv by (vm_compute; reflexivity).
  split; [exact Hv |]. exact (proj1 (proj2 (verify_sound Second token cfg claims Hv))).
Defined.
End JwtWitness.
