(* ===== verification/Float64.v ===== *)
(** Go's float64 as far as the program computes with it: conversion from an int,
    division and [math.Ceil], as IEEE 754 defines them for binary64 away from the
    underflow and overflow ranges (the program divides page counts).

    A float is a mantissa and an exponent, standing for [mant * 2 ^ expo]; a result
    is the exact quotient rounded to 53 bits, to nearest with ties to even. *)

From stdpp Require Import base tactics.
From Stdlib Require Import ZArith Lia.
From S2P Require Import Prelude.

Record float64 : Type := Float { mant : Z; expo : Z }.

(** The integer nearest to n/d, the even one of two. *)
Definition nearest_even (n d : Z) : Z :=
  let q := n / d in
  let r := n mod d in
  if 2 * r <? d then q
  else if d <? 2 * r then q + 1
  else if Z.even q then q else q + 1.

(** n / (d * 2^e) as a fraction. *)
Definition scaled (e n d : Z) : Z * Z :=
  if 0 <=? e then (n, d * 2 ^ e) else (n * 2 ^ (- e), d).

(** The exponent that leaves 53 bits before the point, for n, d > 0. *)
Definition exponent (n d : Z) : Z :=
  let e := Z.log2 n - Z.log2 d - 53 in
  let '(n1, d1) := scaled e n d in
  if n1 <? 2 ^ 53 * d1 then e else e + 1.

(** The float nearest to n/d, for d > 0. *)
Definition round_quotient (n d : Z) : float64 :=
  if n =? 0 then Float 0 0
  else
    let e := exponent (Z.abs n) d in
    let '(n1, d1) := scaled e (Z.abs n) d in
    Float (Z.sgn n * nearest_even n1 d1) e.

Definition float_of_int (z : Z) : float64 := round_quotient z 1.

(** Division by a positive float. *)
Definition float_div (a b : float64) : float64 :=
  round_quotient (mant a * 2 ^ Z.max 0 (expo a - expo b)) (mant b * 2 ^ Z.max 0 (expo b - expo a)).

(** [int(math.Ceil(f))], for a result that fits an int. *)
Definition int_Ceil (f : float64) : Z :=
  if 0 <=? expo f then mant f * 2 ^ expo f else - ((- mant f) / 2 ^ (- expo f)).

(** ** Rounding *)

Lemma nearest_even_close n d : 0 < d -> 2 * Z.abs (nearest_even n d * d - n) <= d.
Proof.
  intros Hd. unfold nearest_even. pose proof (Z.mod_pos_bound n d Hd).
  pose proof (Z.div_mod n d ltac:(lia)).
  destruct (Z.ltb_spec (2 * (n mod d)) d); [nia |].
  destruct (Z.ltb_spec d (2 * (n mod d))); [nia |]. destruct (Z.even (n / d)); nia.
Qed.

Lemma pow2_pos k : 0 <= k -> 0 < 2 ^ k.
Proof. intros. apply Z.pow_pos_nonneg; lia. Qed.

Lemma scaled_pos e n d n1 d1 : 0 < n -> 0 < d -> scaled e n d = (n1, d1) -> 0 < n1 /\ 0 < d1.
Proof.
  unfold scaled. intros Hn Hd. destruct (Z.leb_spec 0 e); intros [= <- <-].
  - pose proof (pow2_pos e). nia.
  - pose proof (pow2_pos (- e)). nia.
Qed.

(** Scaling by one power less doubles the fraction. *)
Lemma scaled_pred e n d n1 d1 n2 d2 :
  0 < n -> 0 < d -> scaled e n d = (n1, d1) -> scaled (e + 1) n d = (n2, d2) -> n1 * d2 = 2 * n2 * d1.
Proof.
  unfold scaled. intros Hn Hd. destruct (Z.leb_spec 0 e).
  - rewrite (proj2 (Z.leb_le 0 (e + 1))) by lia. intros [= <- <-] [= <- <-].
    rewrite Z.pow_add_r by lia. change (2 ^ 1) with 2. nia.
  - intros [= <- <-]. destruct (Z.leb_spec 0 (e + 1)); intros [= <- <-].
    + replace e with (-1) by lia. change (2 ^ (- -1)) with 2. change (2 ^ (-1 + 1)) with 1. nia.
    + replace (- e) with (1 + - (e + 1)) by lia. rewrite Z.pow_add_r by lia. change (2 ^ 1) with 2. nia.
Qed.

(** The scaled fraction has its 53 bits: it is at least 2^52. *)
Lemma log2_scaled n d n1 d1 :
  0 < n -> 0 < d -> scaled (Z.log2 n - Z.log2 d - 53) n d = (n1, d1) -> 2 ^ 52 * d1 < n1.
Proof.
  intros Hn Hd. pose proof (Z.log2_spec n Hn) as [Hn1 _]. pose proof (Z.log2_spec d Hd) as [_ Hd2].
  pose proof (Z.log2_nonneg n). pose proof (Z.log2_nonneg d).
  set (a := Z.log2 n) in *. set (b := Z.log2 d) in *. unfold scaled.
  destruct (Z.leb_spec 0 (a - b - 53)); intros [= <- <-].
  - assert (2 ^ a = 2 ^ 52 * 2 ^ Z.succ b * 2 ^ (a - b - 53))
      by (rewrite <- !Z.pow_add_r by lia; f_equal; lia).
    pose proof (pow2_pos (a - b - 53)). nia.
  - assert (2 ^ a * 2 ^ (- (a - b - 53)) = 2 ^ 52 * 2 ^ Z.succ b)
      by (rewrite <- !Z.pow_add_r by lia; f_equal; lia).
    pose proof (pow2_pos (- (a - b - 53))). nia.
Qed.

Lemma exponent_bits n d n1 d1 :
  0 < n -> 0 < d -> scaled (exponent n d) n d = (n1, d1) -> 2 ^ 52 * d1 <= n1.
Proof.
  intros Hn Hd. unfold exponent.
  destruct (scaled (Z.log2 n - Z.log2 d - 53) n d) as [n0 d0] eqn:E0.
  pose proof (log2_scaled _ _ _ _ Hn Hd E0). destruct (Z.ltb_spec n0 (2 ^ 53 * d0)).
  - rewrite E0. intros [= <- <-]. lia.
  - intros E1. pose proof (scaled_pred _ _ _ _ _ _ _ Hn Hd E0 E1).
    destruct (scaled_pos _ _ _ _ _ Hn Hd E0), (scaled_pos _ _ _ _ _ Hn Hd E1). nia.
Qed.

(** A quotient below 2^53 has an exponent of at most zero: its float is the nearest
    multiple of 2^-k, where x/y*2^k has at least 53 bits. *)
Lemma round_quotient_spec n d :
  0 < n -> 0 < d -> n < 2 ^ 53 * d ->
  exists m k, round_quotient n d = Float m (- k) /\ 0 <= k /\
    2 ^ 52 * d <= n * 2 ^ k /\ 2 * Z.abs (m * d - n * 2 ^ k) <= d.
Proof.
  intros Hn Hd Hlt. unfold round_quotient. rewrite (proj2 (Z.eqb_neq n 0)) by lia.
  rewrite Z.abs_eq, Z.sgn_pos by lia. destruct (scaled (exponent n d) n d) as [n1 d1] eqn:E.
  pose proof (exponent_bits _ _ _ _ Hn Hd E) as Hb. destruct (scaled_pos _ _ _ _ _ Hn Hd E) as [Hn1 Hd1].
  pose proof (nearest_even_close n1 d1 Hd1) as Hc.
  assert (He : exponent n d <= 0).
  { destruct (Z.le_gt_cases (exponent n d) 0); [done |]. exfalso. unfold scaled in E.
    rewrite (proj2 (Z.leb_le 0 _)) in E by lia. injection E as <- <-.
    assert (2 ^ exponent n d = 2 * 2 ^ (exponent n d - 1)) as Hp
      by (rewrite <- Z.pow_succ_r by lia; f_equal; lia).
    pose proof (pow2_pos (exponent n d - 1)). nia. }
  exists (nearest_even n1 d1), (- exponent n d).
  assert (E' : n1 = n * 2 ^ (- exponent n d) /\ d1 = d).
  { unfold scaled in E. destruct (Z.leb_spec 0 (exponent n d)); injection E as <- <-; [| done].
    replace (exponent n d) with 0 by lia. simpl. lia. }
  destruct E' as [-> ->]. rewrite Z.opp_involutive, Z.mul_1_l. repeat split; [lia | exact Hb | exact Hc].
Qed.

(** Integers below 2^53 are exact. *)
Lemma float_of_int_exact n : 0 < n < 2 ^ 53 -> exists k, 0 <= k /\ float_of_int n = Float (n * 2 ^ k) (- k).
Proof.
  intros Hn. destruct (round_quotient_spec n 1) as (m & k & E & Hk & _ & Hc); [lia.. |].
  exists k. split; [done |]. unfold float_of_int. rewrite E. f_equal. lia.
Qed.

Lemma int_Ceil_unique m k c : 0 <= k -> 2 ^ k * (c - 1) < m <= 2 ^ k * c -> int_Ceil (Float m (- k)) = c.
Proof.
  intros Hk Hm. pose proof (pow2_pos k Hk). unfold int_Ceil. cbn [mant expo].
  rewrite Z.opp_involutive. destruct (Z.leb_spec 0 (- k)).
  - replace k with 0 in * by lia. change (- 0) with 0. change (2 ^ 0) with 1 in *. lia.
  - assert (- m / 2 ^ k = - c); [| lia]. symmetry. apply (Z.div_unique _ _ _ (2 ^ k * c - m)); lia.
Qed.

(** Rounding up the float of a quotient gives the quotient rounded up. *)
Theorem ceil_div_exact x y :
  0 <= x < 2 ^ 53 -> 0 < y < 2 ^ 53 ->
  int_Ceil (float_div (float_of_int x) (float_of_int y)) = (x + y - 1) / y.
Proof.
  intros Hx Hy. destruct (float_of_int_exact y Hy) as (kb & Hkb & ->).
  destruct (Z.eq_dec x 0) as [-> | Hx0].
  { cbn -[Z.mul Z.pow]. rewrite Z.div_small by lia. done. }
  destruct (float_of_int_exact x) as (ka & Hka & ->); [lia |].
  unfold float_div. cbn [mant expo]. set (M := 2 ^ Z.max ka kb).
  assert (HM : 0 < M) by (apply pow2_pos; lia).
  replace (x * 2 ^ ka * 2 ^ Z.max 0 (- ka - - kb)) with (x * M)
    by (unfold M; rewrite <- Z.mul_assoc, <- Z.pow_add_r by lia; f_equal; f_equal; lia).
  replace (y * 2 ^ kb * 2 ^ Z.max 0 (- kb - - ka)) with (y * M)
    by (unfold M; rewrite <- Z.mul_assoc, <- Z.pow_add_r by lia; f_equal; f_equal; lia).
  destruct (round_quotient_spec (x * M) (y * M)) as (m & k & -> & Hk & Hb & Hc); [nia.. |].
  set (c := (x + y - 1) / y).
  assert (Hcx : y * (c - 1) < x <= y * c).
  { unfold c. pose proof (Z.div_mod (x + y - 1) y ltac:(lia)). pose proof (Z.mod_pos_bound (x + y - 1) y). lia. }
  pose proof (pow2_pos k Hk) as HP. apply int_Ceil_unique; [done |]. set (P := 2 ^ k) in *.
  (* the common factor of the fraction goes away *)
  assert (Hb' : 2 ^ 52 * y <= x * P) by nia.
  assert (Hc' : 2 * Z.abs (m * y - x * P) <= y).
  { assert (m * (y * M) - x * M * P = (m * y - x * P) * M) as E by ring.
    rewrite E, Z.abs_mul, (Z.abs_eq M) in Hc by lia. nia. }
  clear Hb Hc HM. assert (HyP : y < 2 * P) by nia. split.
  - assert (y * (P * (c - 1) + P) - y * P + P <= x * P) by nia. nia.
  - assert (x * P <= y * (P * c)) by nia. nia.
Qed.
