(* ===== verification/Pagination.v ===== *)
(** [pkg/pagination]: page requests, their bounds and the query they become, and
    the page arithmetic of [response.Paginated] (pkg/response/response.go).

    [int] is 64 bits wide; [Offset] is computed with its wrap-around. *)

From stdpp Require Import base list strings.
From Stdlib Require Import ZArith Lia String.
From S2P Require Import Prelude Float64.

Definition defaultPage : Z := 1.
Definition defaultSize : Z := 20.
Definition maxSize : Z := 100.
Definition defaultSortCol : string := "created_at".
Definition defaultOrder : string := "desc".

Record Request : Type := MkRequest { Page : Z; Size : Z; Sort : string; Order : string }.

Definition PageNum (r : Request) : Z := if Page r <? 1 then defaultPage else Page r.

Definition PageSize (r : Request) : Z :=
  if Size r <? 1 then defaultSize else if maxSize <? Size r then maxSize else Size r.

Definition SortColumn (r : Request) : string :=
  if bool_decide (Sort r = "") then defaultSortCol else Sort r.

Definition SortOrder (r : Request) : string :=
  if bool_decide (Order r = "asc") then "asc" else defaultOrder.

Definition Offset (r : Request) : Z := wrap64 (wrap64 (PageNum r - 1) * PageSize r).

(** What [Scope] adds to a query. *)
Record scope : Type := MkScope { orderBy : string; limit : Z; offset : Z }.

Definition Scope (r : Request) : scope :=
  MkScope (SortColumn r ++ " " ++ SortOrder r) (PageSize r) (Offset r).

(** [PageMeta] of response.Paginated. *)
Record PageMeta : Type := MkMeta { page : Z; per_page : Z; total : Z; total_pages : Z }.

Definition Paginated_meta (page perPage total : Z) : PageMeta :=
  let totalPages :=
    if 0 <? perPage then Z.quot (wrap64 (wrap64 (total + perPage) - 1)) perPage else 0 in
  MkMeta page perPage total totalPages.

(** [Result] of pagination.NewResult: its page count is computed in floats. *)
Record Result (A : Type) : Type := MkResult {
  Data : list A; ResultPage : Z; ResultSize : Z; Total : Z; TotalPages : Z
}.
Arguments MkResult {A} _ _ _ _ _.
Arguments TotalPages {A} _.

Definition NewResult {A} (data : list A) (total : Z) (req : Request) : Result A :=
  let totalPages := int_Ceil (float_div (float_of_int total) (float_of_int (PageSize req))) in
  let totalPages := if totalPages <? 1 then 0 else totalPages in
  MkResult data (PageNum req) (PageSize req) total totalPages.

(** [FromQuery]: what fiber's QueryParser made of the query; its error is dropped. *)
Definition FromQuery (parsed : Request * option error) : Request := parsed.1.

(** The rows a query with a LIMIT and an OFFSET selects, in order; a negative
    offset is no offset. *)
Definition select {A} (s : scope) (rows : list A) : list A :=
  take (Z.to_nat (limit s)) (drop (Z.to_nat (offset s)) rows).

Lemma PageSize_bounds r : 1 <= PageSize r <= 100.
Proof.
  unfold PageSize, defaultSize, maxSize. destruct (Size r <? 1) eqn:E1; [lia |].
  destruct (100 <? Size r) eqn:E2; lia.
Qed.

Lemma PageNum_pos r : 1 <= PageNum r.
Proof. unfold PageNum, defaultPage. destruct (Page r <? 1) eqn:E; lia. Qed.

Lemma Offset_exact r :
  in_int64 (Page r) -> (PageNum r - 1) * PageSize r < 2 ^ 63 ->
  Offset r = (PageNum r - 1) * PageSize r.
Proof.
  intros Hp Hb. pose proof (PageSize_bounds r). pose proof (PageNum_pos r).
  unfold Offset, in_int64 in *. rewrite (wrap64_id (PageNum r - 1)).
  - apply wrap64_id. unfold in_int64. nia.
  - unfold in_int64. unfold PageNum, defaultPage in *. destruct (Page r <? 1); lia.
Qed.

Lemma total_pages_spec pg size total :
  1 <= size <= 100 -> 0 <= total < 2 ^ 62 ->
  let tp := total_pages (Paginated_meta pg size total) in
  0 <= tp /\ (tp - 1) * size < total <= tp * size \/ tp = 0 /\ total = 0.
Proof.
  intros Hs Ht. unfold Paginated_meta. cbn [total_pages].
  assert ((0 <? size) = true) as -> by lia.
  rewrite (wrap64_id (total + size)) by (unfold in_int64; lia).
  rewrite wrap64_id by (unfold in_int64; lia).
  rewrite Z.quot_div_nonneg by lia.
  pose proof (Z.div_mod (total + size - 1) size ltac:(lia)).
  pose proof (Z.mod_pos_bound (total + size - 1) size ltac:(lia)).
  destruct (decide (total = 0)) as [-> | Hne].
  - right. rewrite Z.div_small by lia. lia.
  - left. split; [apply Z.div_pos; lia |]. nia.
Qed.

(** The two page counts of the program agree: the one [NewResult] computes with float
    division and ceiling is the one [response.Paginated] computes with integers, the
    number of pages, as long as the total is below 2^53, where floats are exact. *)
Theorem page_counts_agree {A} (data : list A) (total : Z) (r : Request) :
  0 <= total < 2 ^ 53 ->
  TotalPages (NewResult data total r) = total_pages (Paginated_meta (PageNum r) (PageSize r) total) /\
  TotalPages (NewResult data total r) = (total + PageSize r - 1) / PageSize r.
Proof.
  intros Ht. pose proof (PageSize_bounds r) as Hs. unfold NewResult. cbn [TotalPages].
  rewrite ceil_div_exact by lia. unfold Paginated_meta. cbn [total_pages].
  assert ((0 <? PageSize r) = true) as -> by lia.
  rewrite (wrap64_id (total + PageSize r)) by (unfold in_int64; lia).
  rewrite wrap64_id by (unfold in_int64; lia). rewrite Z.quot_div_nonneg by lia.
  assert (0 <= (total + PageSize r - 1) / PageSize r) by (apply Z.div_pos; lia).
  destruct (Z.ltb_spec ((total + PageSize r - 1) / PageSize r) 1); lia.
Qed.

Lemma page_counts_agree_witness :
  TotalPages (NewResult ["a"; "b"]%string 41 (MkRequest 2 20 "" "")) = 3.
Proof.
  etransitivity; [apply (page_counts_agree ["a"; "b"]%string 41 (MkRequest 2 20 "" "")); lia |].
  vm_compute. reflexivity.
Defined.

(** Above, the float count loses a page. *)
Example page_count_rounded :
  TotalPages (NewResult [] (2 ^ 53 + 1) (MkRequest 1 1 "" "") : Result string) = 2 ^ 53 /\
  total_pages (Paginated_meta 1 1 (2 ^ 53 + 1)) = 2 ^ 53 + 1.
Proof. vm_compute. done. Qed.

(** Pages partition the table: with the page size of the request and the
    page count of the response, every one of the [total] records is on exactly
    one page, whose number lies between 1 and the page count, at an index below
    the page size; and a page past the count is empty. *)
Theorem pages_partition (r : Request) (total i : Z) :
  0 <= total < 2 ^ 62 -> 0 <= i < total ->
  let size := PageSize r in
  let count := total_pages (Paginated_meta (PageNum r) size total) in
  exists p, 1 <= p <= count /\
    (forall q, (q - 1) * size <= i < (q - 1) * size + size <-> q = p) /\
    (forall q, count < q -> total <= (q - 1) * size).
Proof.
  intros Ht Hi size count. pose proof (PageSize_bounds r) as Hs. fold size in Hs.
  pose proof (total_pages_spec (PageNum r) size total Hs Ht) as Hc. fold count in Hc.
  simpl in Hc. destruct Hc as [[Hc0 Hc] | [_ Hc]]; [| lia].
  pose proof (Z.div_mod i size ltac:(lia)). pose proof (Z.mod_pos_bound i size ltac:(lia)).
  exists (i / size + 1). split; [| split].
  - split; [pose proof (Z.div_pos i size); lia |]. nia.
  - intros q. split; [intros Hq; nia | intros ->; nia].
  - intros q Hq. nia.
Qed.

Lemma pages_partition_witness :
  exists p, 1 <= p <= 3 /\
    (forall q, (q - 1) * 20 <= 45 < (q - 1) * 20 + 20 <-> q = p) /\
    (forall q, 3 < q -> 46 <= (q - 1) * 20).
Proof. apply (pages_partition (MkRequest 0 0 "" "") 46 45); lia. Defined.

(** The query of a page: as long as the product of page and size stays in
    the width of [int], the limit lies between 1 and 100, the offset is that of
    the page, and the rows selected are the size rows that follow those of the
    pages before. *)
Theorem scope_selects_page {A} (r : Request) (rows : list A) (k : nat) :
  in_int64 (Page r) -> (PageNum r - 1) * PageSize r < 2 ^ 63 ->
  (Z.of_nat k < PageSize r) ->
  select (Scope r) rows !! k = rows !! (Z.to_nat ((PageNum r - 1) * PageSize r) + k)%nat /\
  (List.length (select (Scope r) rows) <= Z.to_nat (PageSize r))%nat.
Proof.
  intros Hp Hb Hk. unfold select, Scope. cbn [limit offset]. rewrite Offset_exact by done.
  split.
  - rewrite lookup_take_lt by lia. by rewrite lookup_drop.
  - rewrite length_take. lia.
Qed.

Lemma scope_selects_page_witness :
  select (Scope (MkRequest 2 2 "name" "asc")) ["a"; "b"; "c"; "d"; "e"] !! 1%nat = Some "d".
Proof.
  apply (scope_selects_page (MkRequest 2 2 "name" "asc") ["a"; "b"; "c"; "d"; "e"] 1);
    vm_compute; done.
Defined.

(** Wrap-around of the offset: for every page size above one there is a
    page number, a positive 64-bit integer, whose offset is negative, so the
    query has no offset and answers the first page under another page number. *)
Theorem offset_wraps (size : Z) (sort order : string) :
  2 <= size <= 100 ->
  exists n, in_int64 n /\ 1 < n /\
    let r := MkRequest n size sort order in
    PageNum r = n /\ Offset r < 0 /\
    forall (rows : list string), select (Scope r) rows = take (Z.to_nat size) rows.
Proof.
  intros Hs. exists (2 ^ 63 / size + 2).
  pose proof (Z.div_mod (2 ^ 63) size ltac:(lia)) as Hd.
  pose proof (Z.mod_pos_bound (2 ^ 63) size ltac:(lia)) as Hm.
  set (q := 2 ^ 63 / size) in *. assert (0 < q) by nia. assert (q + 2 < 2 ^ 63) by nia.
  assert (PageNum (MkRequest (q + 2) size sort order) = q + 2) as Hn
    by (unfold PageNum; simpl; assert ((q + 2 <? 1) = false) as -> by lia; reflexivity).
  assert (PageSize (MkRequest (q + 2) size sort order) = size) as Hz.
  { unfold PageSize, maxSize. simpl. assert ((size <? 1) = false) as -> by lia.
    by assert ((100 <? size) = false) as -> by lia. }
  assert (Offset (MkRequest (q + 2) size sort order) < 0) as Ho.
  { unfold Offset. rewrite Hn, Hz. rewrite (wrap64_id (q + 2 - 1)) by (unfold in_int64; lia).
    unfold wrap64. replace ((q + 2 - 1) * size + 2 ^ 63) with (size - 2 ^ 63 mod size + 1 * 2 ^ 64) by lia.
    rewrite Z.mod_add by lia. rewrite Z.mod_small by lia. lia. }
  split; [unfold in_int64; lia |]. split; [lia |]. split; [exact Hn |]. split; [exact Ho |].
  intros rows. unfold select, Scope. cbn [limit offset]. rewrite Hz.
  replace (Z.to_nat (Offset _)) with 0%nat by lia. by rewrite drop_0.
Qed.

Lemma offset_wraps_witness :
  exists n, in_int64 n /\ 1 < n /\
    let r := MkRequest n 20 "" "" in
    PageNum r = n /\ Offset r < 0 /\
    forall (rows : list string), select (Scope r) rows = take 20 rows.
Proof. apply (offset_wraps 20 "" ""). lia. Defined.
