(* ===== verification/User.v ===== *)
(** The user aggregate and its persistence: [internal/domain/entity/user.go],
    [internal/domain/repository/user_repository.go] (the interface) and
    [internal/repository/db/user_repository.go] (its implementation over gorm).

    The database behind gorm is not part of the program: the queries the
    repository makes are parameters ([GormDB]) and [GormLaws] states what a query
    that succeeds has done. [Table] instantiates them. *)

From stdpp Require Import base gmap strings list fin_maps.
From Stdlib Require Import ZArith Lia String.
From S2P Require Import Prelude Pagination Jwt.

(** [uuid.UUID]: 128 bits; [uuid.Nil] is zero. The textual form belongs to the
    uuid library. *)
Notation UUID := Z (only parsing).
Definition uuid_Nil : UUID := 0.

Class UuidLib : Type := {
  uuid_String : UUID -> string;
  uuid_Parse : string -> result UUID;
  uuid_New : nat -> UUID            (* the n-th identifier generated *)
}.

Class UuidLaws `{UuidLib} : Prop := {
  uuid_parse_string : forall u, 0 <= u < 2 ^ 128 -> uuid_Parse (uuid_String u) = Ok u;
  uuid_parse_range : forall s u, uuid_Parse s = Ok u -> 0 <= u < 2 ^ 128;
  uuid_new_range : forall n, 0 < uuid_New n < 2 ^ 128
}.

Lemma uuid_string_inj `{UuidLib, !UuidLaws} u v :
  0 <= u < 2 ^ 128 -> 0 <= v < 2 ^ 128 -> uuid_String u = uuid_String v -> u = v.
Proof.
  intros Hu Hv Heq. apply uuid_parse_string in Hu, Hv. rewrite Heq in Hu. congruence.
Qed.

Record User : Type := MkUser {
  ID : UUID;
  Name : string;
  Email : string;
  Password : string;        (* the hash *)
  CreatedAt : Z;
  UpdatedAt : Z;
  DeletedAt : option Z
}.

#[export] Instance user_eq_dec : EqDecision User.
Proof. solve_decision. Defined.

Definition set_Name (v : string) (u : User) : User :=
  MkUser (ID u) v (Email u) (Password u) (CreatedAt u) (UpdatedAt u) (DeletedAt u).
Definition set_Email (v : string) (u : User) : User :=
  MkUser (ID u) (Name u) v (Password u) (CreatedAt u) (UpdatedAt u) (DeletedAt u).
Definition set_Password (v : string) (u : User) : User :=
  MkUser (ID u) (Name u) (Email u) v (CreatedAt u) (UpdatedAt u) (DeletedAt u).

(** [BeforeCreate]: a random identifier when none is set. *)
Definition BeforeCreate (fresh : UUID) (u : User) : User :=
  if ID u =? uuid_Nil
  then MkUser fresh (Name u) (Email u) (Password u) (CreatedAt u) (UpdatedAt u) (DeletedAt u)
  else u.

(** Equal but for the timestamps the database maintains. *)
Definition same_data (u v : User) : Prop :=
  ID u = ID v /\ Name u = Name v /\ Email u = Email v /\ Password u = Password v.

(** ** The interface *)

(** The operations take the state of the store; [Create] and [Update] also give
    back the entity they were passed a pointer to. [Create] is given the
    identifier drawn for a new row. *)
Class UserRepository (U : Type) : Type := {
  FindByID : UUID -> U -> result User * U;
  FindAll : U -> result (list User) * U;
  FindAllPaged : Pagination.Request -> U -> result (list User * Z) * U;
  Create : UUID -> User -> U -> (option error * User) * U;
  Update : User -> U -> (option error * User) * U;
  Delete : UUID -> U -> option error * U;
  ExistsByEmail : string -> U -> result bool * U;
  FindByEmail : string -> U -> result User * U
}.

(** What a client relies on. [rows] holds the users that exist; addresses are
    compared by the collation of the database ([same_email]). *)
Class UserRepositoryLaws (U : Type) `{UserRepository U} : Type := {
  rows : U -> gmap UUID User;
  same_email : string -> string -> bool;
  same_email_refl : forall e, same_email e e = true;
  rows_id : forall d i u, rows d !! i = Some u -> ID u = i /\ 0 <= i < 2 ^ 128;
  FindByID_spec : forall i d, rows (FindByID i d).2 = rows d /\
    match (FindByID i d).1 with
    | Ok u => rows d !! i = Some u
    | Err e => errors_is e ErrRecordNotFound = true -> rows d !! i = None
    end;
  FindByEmail_spec : forall e d, rows (FindByEmail e d).2 = rows d /\
    match (FindByEmail e d).1 with
    | Ok u => rows d !! ID u = Some u /\ same_email (Email u) e = true
    | Err err => errors_is err ErrRecordNotFound = true ->
        forall i u, rows d !! i = Some u -> same_email (Email u) e = false
    end;
  ExistsByEmail_spec : forall e d, rows (ExistsByEmail e d).2 = rows d /\
    match (ExistsByEmail e d).1 with
    | Ok b => b = true <-> exists i u, rows d !! i = Some u /\ same_email (Email u) e = true
    | Err _ => True
    end;
  FindAll_spec : forall d, rows (FindAll d).2 = rows d /\
    match (FindAll d).1 with
    | Ok us => forall u, u ∈ us <-> rows d !! ID u = Some u
    | Err _ => True
    end;
  FindAllPaged_spec : forall r d, rows (FindAllPaged r d).2 = rows d /\
    match (FindAllPaged r d).1 with
    | Ok (us, total) => total = Z.of_nat (size (rows d)) /\ (Z.of_nat (List.length us) <= PageSize r) /\
        forall u, u ∈ us -> rows d !! ID u = Some u
    | Err _ => True
    end;
  Create_spec : forall fresh u d, 0 < fresh < 2 ^ 128 -> ID u = uuid_Nil ->
    match Create fresh u d with
    | (None, u', d') => rows d !! fresh = None /\ rows d' = <[fresh := u']> (rows d) /\
        same_data u' (BeforeCreate fresh u) /\
        (forall i v, rows d !! i = Some v -> same_email (Email v) (Email u) = false)
    | (Some _, _, d') => rows d' = rows d
    end;
  Update_spec : forall u d, 0 <= ID u < 2 ^ 128 ->
    match Update u d with
    | (None, u', d') => rows d' = <[ID u := u']> (rows d) /\ same_data u' u
    | (Some _, _, d') => rows d' = rows d
    end;
  Delete_spec : forall i d,
    match Delete i d with
    | (None, d') => rows d' = delete i (rows d)
    | (Some _, d') => rows d' = rows d
    end
}.

(** ** The implementation over gorm *)

(** The queries, in gorm's vocabulary. *)
Class GormDB (D : Type) : Type := {
  First_by_id : UUID -> D -> result User * D;            (* First(&user, "id = ?", id) *)
  First_by_email : string -> D -> result User * D;       (* Where("email = ?").First(&user) *)
  Find : D -> result (list User) * D;                    (* Find(&users) *)
  Count : D -> result Z * D;                             (* Model(&User{}).Count *)
  Count_by_email : string -> D -> result Z * D;
  Find_scope : scope -> D -> result (list User) * D;     (* Scopes(...).Find(&users) *)
  Insert : User -> D -> (option error * User) * D;       (* Create(user), after its hook *)
  Save : User -> D -> (option error * User) * D;
  Delete_by_id : UUID -> D -> option error * D
}.

(** What a query that succeeds has done. [table] holds the rows that are not
    soft-deleted; [collate] is the equality of the e-mail column. A query that
    fails has changed nothing. *)
Class GormLaws (D : Type) `{GormDB D} : Type := {
  table : D -> gmap UUID User;
  collate : string -> string -> bool;
  collate_refl : forall e, collate e e = true;
  table_id : forall d i u, table d !! i = Some u -> ID u = i /\ 0 <= i < 2 ^ 128;
  First_by_id_spec : forall i d, table (First_by_id i d).2 = table d /\
    match (First_by_id i d).1 with
    | Ok u => table d !! i = Some u
    | Err e => errors_is e ErrRecordNotFound = true -> table d !! i = None
    end;
  First_by_email_spec : forall e d, table (First_by_email e d).2 = table d /\
    match (First_by_email e d).1 with
    | Ok u => table d !! ID u = Some u /\ collate (Email u) e = true
    | Err err => errors_is err ErrRecordNotFound = true ->
        forall i u, table d !! i = Some u -> collate (Email u) e = false
    end;
  Find_spec : forall d, table (Find d).2 = table d /\
    match (Find d).1 with
    | Ok us => forall u, u ∈ us <-> table d !! ID u = Some u
    | Err _ => True
    end;
  Count_spec : forall d, table (Count d).2 = table d /\
    match (Count d).1 with Ok n => n = Z.of_nat (size (table d)) | Err _ => True end;
  Count_by_email_spec : forall e d, table (Count_by_email e d).2 = table d /\
    match (Count_by_email e d).1 with
    | Ok n => 0 <= n /\ (0 < n <-> exists i u, table d !! i = Some u /\ collate (Email u) e = true)
    | Err _ => True
    end;
  Find_scope_spec : forall sc d, table (Find_scope sc d).2 = table d /\
    match (Find_scope sc d).1 with
    | Ok us => (Z.of_nat (List.length us) <= Z.max 0 (limit sc)) /\
        forall u, u ∈ us -> table d !! ID u = Some u
    | Err _ => True
    end;
  (* the e-mail column has a unique index *)
  Insert_spec : forall u d, 0 < ID u < 2 ^ 128 ->
    match Insert u d with
    | (None, u', d') => table d !! ID u = None /\ table d' = <[ID u := u']> (table d) /\
        same_data u' u /\
        (forall i v, table d !! i = Some v -> collate (Email v) (Email u) = false)
    | (Some _, _, d') => table d' = table d
    end;
  Save_spec : forall u d, 0 <= ID u < 2 ^ 128 ->
    match Save u d with
    | (None, u', d') => table d' = <[ID u := u']> (table d) /\ same_data u' u
    | (Some _, _, d') => table d' = table d
    end;
  Delete_by_id_spec : forall i d,
    match Delete_by_id i d with
    | (None, d') => table d' = delete i (table d)
    | (Some _, d') => table d' = table d
    end
}.

Module Db.
Section Repository.
Context {D : Type} `{GormDB D}.

Record userRepository : Type := MkRepository { db : D }.

Definition NewUserRepository (db : D) : userRepository := MkRepository db.

Definition FindByID (id : UUID) (r : userRepository) : result User * userRepository :=
  let '(res, d) := First_by_id id (db r) in
  (match res with
   | Err e => if errors_is e ErrRecordNotFound then Err (Sentinel ErrRecordNotFound)
              else Err (errorf "find user by id: " e)
   | Ok user => Ok user
   end, MkRepository d).

Definition FindAll (r : userRepository) : result (list User) * userRepository :=
  let '(res, d) := Find (db r) in
  (match res with Err e => Err (errorf "find all users: " e) | Ok users => Ok users end,
   MkRepository d).

Definition FindAllPaged (req : Pagination.Request) (r : userRepository)
  : result (list User * Z) * userRepository :=
  let '(total, d) := Count (db r) in
  match total with
  | Err e => (Err (errorf "count users: " e), MkRepository d)
  | Ok total =>
      let '(res, d) := Find_scope (Scope req) d in
      (match res with
       | Err e => Err (errorf "find all users paged: " e)
       | Ok users => Ok (users, total)
       end, MkRepository d)
  end.

Definition Create (fresh : UUID) (user : User) (r : userRepository)
  : (option error * User) * userRepository :=
  let '((e, user), d) := Insert (BeforeCreate fresh user) (db r) in
  (match e with Some e => Some (errorf "create user: " e) | None => None end, user,
   MkRepository d).

Definition Update (user : User) (r : userRepository)
  : (option error * User) * userRepository :=
  let '((e, user), d) := Save user (db r) in
  (match e with Some e => Some (errorf "update user: " e) | None => None end, user,
   MkRepository d).

Definition Delete (id : UUID) (r : userRepository) : option error * userRepository :=
  let '(e, d) := Delete_by_id id (db r) in
  (match e with Some e => Some (errorf "delete user: " e) | None => None end, MkRepository d).

Definition ExistsByEmail (email : string) (r : userRepository) : result bool * userRepository :=
  let '(res, d) := Count_by_email email (db r) in
  (match res with
   | Err e => Err (errorf "check email existence: " e)
   | Ok count => Ok (0 <? count)
   end, MkRepository d).

Definition FindByEmail (email : string) (r : userRepository) : result User * userRepository :=
  let '(res, d) := First_by_email email (db r) in
  (match res with
   | Err e => if errors_is e ErrRecordNotFound then Err (Sentinel ErrRecordNotFound)
              else Err (errorf "find user by email: " e)
   | Ok user => Ok user
   end, MkRepository d).

#[export] Instance db_repository : UserRepository userRepository := {|
  User.FindByID := FindByID; User.FindAll := FindAll; User.FindAllPaged := FindAllPaged;
  User.Create := Create; User.Update := Update; User.Delete := Delete;
  User.ExistsByEmail := ExistsByEmail; User.FindByEmail := FindByEmail
|}.

Context `{!GormLaws D}.

#[export] Instance db_repository_laws : UserRepositoryLaws userRepository.
Proof.
  refine {| rows r := table (db r); same_email := collate |}.
  - apply collate_refl.
  - intros d i u. apply table_id.
  - intros i r. simpl. unfold FindByID. pose proof (First_by_id_spec i (db r)) as [Ht Hr].
    destruct (First_by_id i (db r)) as [[u | e] d]; simpl in *; [done |]. split; [done |].
    destruct (errors_is e ErrRecordNotFound) eqn:E; simpl; rewrite ?E; auto.
  - intros e r. simpl. unfold FindByEmail.
    pose proof (First_by_email_spec e (db r)) as [Ht Hr].
    destruct (First_by_email e (db r)) as [[u | err] d]; simpl in *; [done |]. split; [done |].
    destruct (errors_is err ErrRecordNotFound) eqn:E; simpl; rewrite ?E; auto.
  - intros e r. simpl. unfold ExistsByEmail.
    pose proof (Count_by_email_spec e (db r)) as [Ht Hr].
    destruct (Count_by_email e (db r)) as [[n | err] d]; simpl in *; [| done]. split; [done |].
    destruct Hr as [Hn <-]. lia.
  - intros r. simpl. unfold FindAll. pose proof (Find_spec (db r)) as [Ht Hr].
    by destruct (Find (db r)) as [[us | err] d].
  - intros req r. simpl. unfold FindAllPaged. pose proof (Count_spec (db r)) as [Ht Hr].
    destruct (Count (db r)) as [[n | err] d]; simpl in *; [| done].
    pose proof (Find_scope_spec (Scope req) d) as [Ht' Hr'].
    destruct (Find_scope (Scope req) d) as [[us | err] d']; simpl in *; [| by rewrite Ht', Ht].
    rewrite Ht', Ht. split; [done |]. split; [done |]. rewrite Ht in Hr'.
    pose proof (PageSize_bounds req). split; [lia | by apply Hr'].
  - intros fresh u r Hf Hid. simpl. unfold Create.
    assert (ID (BeforeCreate fresh u) = fresh) as Hfr by (unfold BeforeCreate; by rewrite Hid).
    assert (Email (BeforeCreate fresh u) = Email u) as He
      by (unfold BeforeCreate; by destruct (ID u =? uuid_Nil)).
    pose proof (Insert_spec (BeforeCreate fresh u) (db r)) as Hi. rewrite Hfr, He in Hi.
    specialize (Hi Hf). by destruct (Insert _ (db r)) as [[[e |] u'] d].
  - intros u r Hu. simpl. unfold Update. pose proof (Save_spec u (db r) Hu) as Hs.
    by destruct (Save u (db r)) as [[[e |] u'] d].
  - intros i r. simpl. unfold Delete. pose proof (Delete_by_id_spec i (db r)) as Hs.
    by destruct (Delete_by_id i (db r)) as [[e |] d].
Defined.

(** What the repository tells its callers: a look-up that finds nothing
    answers exactly gorm's ErrRecordNotFound, and any other failure of the
    database is answered with an error that is not ErrRecordNotFound and that
    names the operation, so a caller can tell absence from failure. *)
Theorem repository_not_found (id : UUID) (email : string) (r : userRepository) :
  (forall e, (FindByID id r).1 = Err e ->
     (e = Sentinel ErrRecordNotFound /\ table (db r) !! id = None) \/
     (errors_is e ErrRecordNotFound = false /\ exists e', e = errorf "find user by id: " e')) /\
  (forall e, (FindByEmail email r).1 = Err e ->
     (e = Sentinel ErrRecordNotFound /\
        forall i u, table (db r) !! i = Some u -> collate (Email u) email = false) \/
     (errors_is e ErrRecordNotFound = false /\ exists e', e = errorf "find user by email: " e')).
Proof.
  split; intros e.
  - unfold FindByID. pose proof (First_by_id_spec id (db r)) as [_ Hr].
    destruct (First_by_id id (db r)) as [[u | e0] d]; simpl in *; [done |].
    destruct (errors_is e0 ErrRecordNotFound) eqn:E; intros [= <-]; [left; split; [done | by apply Hr] | right].
    rewrite errors_is_wrap, E. eauto.
  - unfold FindByEmail. pose proof (First_by_email_spec email (db r)) as [_ Hr].
    destruct (First_by_email email (db r)) as [[u | e0] d]; simpl in *; [done |].
    destruct (errors_is e0 ErrRecordNotFound) eqn:E; intros [= <-]; [left; split; [done | by apply Hr] | right].
    rewrite errors_is_wrap, E. eauto.
Qed.
End Repository.
Arguments userRepository D : clear implicits.
End Db.

(** ** A database that always answers, to instantiate the parameters with *)
Module Table.

Record state : Type := MkState { now : Z; rows : gmap UUID User }.

Definition stamp (t : Z) (u : User) : User :=
  MkUser (ID u) (Name u) (Email u) (Password u) (CreatedAt u) t (DeletedAt u).

Definition by_email (e : string) (m : gmap UUID User) : list User :=
  filter (fun u => Email u = e) (map_to_list m).*2.

(** Rows whose identifier is not the key they are under do not exist. *)
Definition live_rows (s : state) : gmap UUID User :=
  filter (fun kv => ID kv.2 = kv.1 /\ 0 <= kv.1 < 2 ^ 128) (rows s).

#[export] Instance table_db : GormDB state := {|
  First_by_id i s := (match live_rows s !! i with
                      | Some u => Ok u | None => Err (Sentinel ErrRecordNotFound) end, s);
  First_by_email e s := (match by_email e (live_rows s) with
                         | u :: _ => Ok u | [] => Err (Sentinel ErrRecordNotFound) end, s);
  Find s := (Ok (map_to_list (live_rows s)).*2, s);
  Count s := (Ok (Z.of_nat (size (live_rows s))), s);
  Count_by_email e s := (Ok (Z.of_nat (List.length (by_email e (live_rows s)))), s);
  Find_scope sc s := (Ok (select sc (map_to_list (live_rows s)).*2), s);
  Insert u s :=
    match live_rows s !! ID u, by_email (Email u) (live_rows s) with
    | None, [] => (None, u, MkState (now s) (<[ID u := u]> (rows s)))
    | _, _ => (Some (Fresh "duplicate key value violates unique constraint"), u, s)
    end;
  Save u s := let u := stamp (now s) u in (None, u, MkState (now s) (<[ID u := u]> (rows s)));
  Delete_by_id i s := (None, MkState (now s) (delete i (rows s)))
|}.

Lemma elem_by_email e m u : u ∈ by_email e m <-> (exists i, m !! i = Some u) /\ Email u = e.
Proof.
  unfold by_email. rewrite list_elem_of_filter. split.
  - intros [He Hu]. split; [| done]. apply list_elem_of_fmap_1 in Hu as ([i v] & -> & Hin).
    exists i. by apply elem_of_map_to_list.
  - intros [[i Hi] He]. split; [done |]. apply (list_elem_of_fmap_2 snd _ (i, u)).
    by apply elem_of_map_to_list.
Qed.

Lemma live_id s i u : live_rows s !! i = Some u -> ID u = i /\ 0 <= i < 2 ^ 128.
Proof. unfold live_rows. by intros [_ H]%map_lookup_filter_Some. Qed.

Lemma elem_rows s u : u ∈ (map_to_list (live_rows s)).*2 <-> live_rows s !! ID u = Some u.
Proof.
  split.
  - intros ([i v] & -> & Hin)%list_elem_of_fmap_1. apply elem_of_map_to_list in Hin. simpl.
    by destruct (live_id _ _ _ Hin) as [-> _].
  - intros Hu. apply (list_elem_of_fmap_2 snd _ (ID u, u)). by apply elem_of_map_to_list.
Qed.

Lemma live_rows_insert s t u :
  0 <= ID u < 2 ^ 128 ->
  live_rows (MkState t (<[ID u := u]> (rows s))) = <[ID u := u]> (live_rows s).
Proof. intros Hu. unfold live_rows. simpl. by rewrite map_filter_insert_True. Qed.

#[export] Instance table_laws : GormLaws state.
Proof.
  refine {| table := live_rows; collate e e' := bool_decide (e = e') |}.
  - intros e. by apply bool_decide_eq_true.
  - apply live_id.
  - intros i d. simpl. split; [done |]. by destruct (live_rows d !! i).
  - intros e d. simpl. split; [done |]. destruct (by_email e (live_rows d)) as [| u l] eqn:E.
    + intros _ i u Hu. apply bool_decide_eq_false. intros He.
      assert (u ∈ by_email e (live_rows d)) as Hin by (apply elem_by_email; eauto).
      rewrite E in Hin. by apply not_elem_of_nil in Hin.
    + assert (u ∈ by_email e (live_rows d)) as Hin by (rewrite E; by left).
      apply elem_by_email in Hin as [[i Hi] He]. destruct (live_id _ _ _ Hi) as [-> _].
      split; [done |]. by apply bool_decide_eq_true.
  - intros d. simpl. split; [done |]. apply elem_rows.
  - done.
  - intros e d. simpl. split; [done |]. split; [lia |]. split.
    + destruct (by_email e (live_rows d)) as [| u l] eqn:E; [simpl; lia |]. intros _.
      assert (u ∈ by_email e (live_rows d)) as Hin by (rewrite E; by left).
      apply elem_by_email in Hin as [[i Hi] He]. exists i, u. split; [done |].
      by apply bool_decide_eq_true.
    + intros (i & u & Hi & He%bool_decide_eq_true).
      assert (u ∈ by_email e (live_rows d)) as Hin by (apply elem_by_email; eauto).
      destruct (by_email e (live_rows d)); [by apply not_elem_of_nil in Hin | simpl; lia].
  - intros sc d. simpl. split; [done |]. unfold select. split; [rewrite length_take; lia |].
    intros u Hu. apply elem_rows. eapply elem_of_subseteq; [| exact Hu].
    intros v Hv. eapply sublist_subseteq; [| exact Hv].
    etransitivity; [apply sublist_take | apply sublist_drop].
  - intros u d Hu. simpl. destruct (live_rows d !! ID u) eqn:E1; [done |].
    destruct (by_email (Email u) (live_rows d)) as [| u0 l] eqn:E2; [| done].
    split; [done |]. split; [by apply live_rows_insert; lia |]. split; [done |].
    intros i v Hv. apply bool_decide_eq_false. intros He.
    assert (v ∈ by_email (Email u) (live_rows d)) as Hin by (apply elem_by_email; eauto).
    rewrite E2 in Hin. by apply not_elem_of_nil in Hin.
  - intros u d Hu. simpl. split; [| done].
    change (ID u) with (ID (stamp (now d) u)). by apply live_rows_insert.
  - intros i d. simpl. unfold live_rows. simpl. by rewrite map_filter_delete.
Defined.
End Table.

(** Identifiers written in binary, to instantiate the uuid library with. *)
Module BinaryUuid.

#[export] Instance binary_uuid : UuidLib := {|
  uuid_String u := TokenCodec.date_str (Some u);
  uuid_Parse s :=
    match TokenCodec.str_date s with
    | Some u => if (0 <=? u) && (u <? 2 ^ 128) then Ok u else Err (Fresh "invalid UUID length")
    | None => Err (Fresh "invalid UUID format")
    end;
  uuid_New n := 1 + Z.min (Z.of_nat n) (2 ^ 128 - 2)
|}.

#[export] Instance binary_uuid_laws : UuidLaws.
Proof.
  split; simpl.
  - intros u Hu. assert (TokenCodec.str_date (TokenCodec.date_str (Some u)) = Some u) as Hs
      by apply TokenCodec.str_date_str. simpl in Hs. rewrite Hs.
    assert ((0 <=? u) && (u <? 2 ^ 128) = true) as -> by lia. done.
  - intros s u. destruct (TokenCodec.str_date s) as [v |]; [| done].
    destruct ((0 <=? v) && (v <? 2 ^ 128)) eqn:E; [| done]. intros [= <-]. lia.
  - intros n. lia.
Qed.
End BinaryUuid.
