(* ===== verification/World.v ===== *)
(** The state the handlers and use cases of the API share: the cache, the token
    blacklist, the user repository, the rate limiters, the clock and the random
    source. Each component operation is one atomic action on it.

    Every reading of the clock may find that time has passed: the [n]-th reading
    advances the clock by the [n]-th entry of [pace], a list of natural numbers,
    so the statements hold for every pace. Draws from the random source are
    numbered. *)

From stdpp Require Import base gmap strings list fin_maps.
From Stdlib Require Import ZArith Lia String.
From S2P Require Import Prelude Prog Expiring Json Cache Blacklist User RateLimit.

(** [Limiter] of pkg/ratelimit/limiter.go: one [Allow] at a clock reading. *)
Class Limiter (L : Type) : Type := Allow : Z -> string -> L -> result Result * L.

#[export] Instance memory_limiter : Limiter Memory.MemoryLimiter :=
  fun now key l => let '(r, l') := Memory.Allow now key l in (Ok r, l').

Record World (C B U G : Type) : Type := MkWorld {
  cache : C;
  blacklist : option B;                       (* nil when no blacklist is given *)
  repo : U;
  global_limiter : G;                         (* the limiter of every request *)
  login_limiter : Memory.MemoryLimiter;       (* of the auth routes *)
  write_limiter : Memory.MemoryLimiter;       (* of the mutating user routes *)
  clock : Z;
  pace : list N;
  drawn : nat
}.
Arguments MkWorld {C B U G} _ _ _ _ _ _ _ _ _.
Arguments cache {C B U G} _.
Arguments blacklist {C B U G} _.
Arguments repo {C B U G} _.
Arguments global_limiter {C B U G} _.
Arguments login_limiter {C B U G} _.
Arguments write_limiter {C B U G} _.
Arguments clock {C B U G} _.
Arguments pace {C B U G} _.
Arguments drawn {C B U G} _.

Section World.
Context {C B U G : Type}.
Notation W := (World C B U G).

Definition set_cache (x : C) (w : W) : W :=
  MkWorld x (blacklist w) (repo w) (global_limiter w) (login_limiter w) (write_limiter w)
    (clock w) (pace w) (drawn w).
Definition set_blacklist (x : option B) (w : W) : W :=
  MkWorld (cache w) x (repo w) (global_limiter w) (login_limiter w) (write_limiter w)
    (clock w) (pace w) (drawn w).
Definition set_repo (x : U) (w : W) : W :=
  MkWorld (cache w) (blacklist w) x (global_limiter w) (login_limiter w) (write_limiter w)
    (clock w) (pace w) (drawn w).
Definition set_global (x : G) (w : W) : W :=
  MkWorld (cache w) (blacklist w) (repo w) x (login_limiter w) (write_limiter w)
    (clock w) (pace w) (drawn w).
Definition set_login (x : Memory.MemoryLimiter) (w : W) : W :=
  MkWorld (cache w) (blacklist w) (repo w) (global_limiter w) x (write_limiter w)
    (clock w) (pace w) (drawn w).
Definition set_write (x : Memory.MemoryLimiter) (w : W) : W :=
  MkWorld (cache w) (blacklist w) (repo w) (global_limiter w) (login_limiter w) x
    (clock w) (pace w) (drawn w).

(** [time.Now()]. *)
Definition tick (w : W) : Z * W :=
  match pace w with
  | [] => (clock w, w)
  | d :: p =>
      let t := clock w + Z.of_N d in
      (t, MkWorld (cache w) (blacklist w) (repo w) (global_limiter w) (login_limiter w)
            (write_limiter w) t p (drawn w))
  end.
Definition time_Now : prog W Z := act tick.

(** The number of the next draw from the random source. *)
Definition draw : prog W nat :=
  act (fun w => (drawn w, MkWorld (cache w) (blacklist w) (repo w) (global_limiter w)
                            (login_limiter w) (write_limiter w) (clock w) (pace w)
                            (S (drawn w)))).

Section Services.
Context `{!Cacher C} `{!Blacklist B}.

(** A call of the cache or the blacklist reads the clock for expiries. *)
Definition cacher_Get {A} `{Json A} (key : string) : prog W (result A) :=
  let! now := time_Now in act (lift cache set_cache (Get now key)).
Definition cacher_Set {A} `{Json A} (key : string) (value : A) (ttl : Z) : prog W (option error) :=
  let! now := time_Now in act (lift cache set_cache (Set_ now key value ttl)).
Definition cacher_Del (keys : list string) : prog W (option error) :=
  let! now := time_Now in act (lift cache set_cache (Del now keys)).

Definition on_blacklist {X} (nil : X) (f : B -> X * B) (w : W) : X * W :=
  match blacklist w with
  | None => (nil, w)
  | Some b => let '(x, b') := f b in (x, set_blacklist (Some b') w)
  end.
Definition bl_Revoke (jti : string) (ttl : Z) : prog W (option error) :=
  let! now := time_Now in act (on_blacklist None (Revoke now jti ttl)).
Definition bl_IsRevoked (jti : string) : prog W (result bool) :=
  let! now := time_Now in act (on_blacklist (Ok false) (IsRevoked now jti)).
End Services.

Definition on_repo {X} (f : U -> X * U) : prog W X := act (lift repo set_repo f).

(** *** What the actions leave alone *)

Lemma tick_eq w t w' :
  tick w = (t, w') ->
  cache w' = cache w /\ blacklist w' = blacklist w /\ repo w' = repo w /\
  drawn w' = drawn w /\ clock w' = t /\ clock w <= t.
Proof.
  unfold tick. destruct (pace w) as [| d p]; intros [= <- <-]; simpl; [by auto with lia |].
  repeat split; lia.
Qed.

Lemma wp_tick (Q : Z -> W -> Prop) (w : W) :
  (forall w', cache w' = cache w -> blacklist w' = blacklist w -> repo w' = repo w ->
     drawn w' = drawn w -> clock w <= clock w' -> Q (clock w') w') ->
  wp time_Now Q w.
Proof.
  intros H. apply wp_act. intros t w' E.
  destruct (tick_eq _ _ _ E) as (? & ? & ? & ? & <- & ?). by apply H.
Qed.

Lemma wp_draw (Q : nat -> W -> Prop) (w : W) :
  (forall w', cache w' = cache w -> blacklist w' = blacklist w -> repo w' = repo w ->
     drawn w' = S (drawn w) -> clock w' = clock w -> Q (drawn w) w') ->
  wp draw Q w.
Proof. intros H. apply wp_act. intros n w' [= <- <-]. by apply H. Qed.

Lemma wp_repo {X} (f : U -> X * U) (Q : X -> W -> Prop) (w : W) :
  (forall x d w', f (repo w) = (x, d) -> repo w' = d -> cache w' = cache w ->
     blacklist w' = blacklist w -> drawn w' = drawn w -> clock w' = clock w -> Q x w') ->
  wp (on_repo f) Q w.
Proof. intros H. apply wp_lift. intros x d E. by eapply H. Qed.

Section CacheActions.
Context `{!Cacher C} `{!CacherLaws C} `{!Blacklist B}.

(** The values seen in the cache from an instant on are the same. *)
Definition same_view (t : Z) (c c' : C) : Prop :=
  forall u k, t <= u -> view c' u k = view c u k.

(** A read of the cache: what is stored, or a miss; nothing else moves. *)
Lemma wp_Get {A} `{Json A} key (Q : result A -> W -> Prop) (w : W) :
  (forall (r : result A) w',
     r = reply_of (view (cache w) (clock w') key) \/ r = Err (Sentinel ErrCacheMiss) ->
     same_view (clock w') (cache w) (cache w') ->
     blacklist w' = blacklist w -> repo w' = repo w -> drawn w' = drawn w ->
     clock w <= clock w' -> Q r w') ->
  wp (cacher_Get key) Q w.
Proof.
  intros H0. apply wp_bind, wp_tick. intros w1 Hc Hb Hr Hd Ht. apply wp_lift.
  intros r c E. apply H0; simpl; try done.
  - pose proof (get_sound (C := C) A (clock w1) key (cache w1)) as Hs.
    rewrite E in Hs. rewrite <- Hc. exact Hs.
  - intros u k Hu. pose proof (get_frame (C := C) A (clock w1) key (cache w1) u k Hu) as Hf.
    rewrite E in Hf. rewrite <- Hc. exact Hf.
Qed.

(** A write touches its key only; when it answers nil the value is there for
    its lifetime. *)
Lemma wp_Set {A} `{Json A} key (v : A) ttl (Q : option error -> W -> Prop) (w : W) :
  (forall r w',
     (forall u k, clock w' <= u -> k <> key -> view (cache w') u k = view (cache w) u k) ->
     (forall j, zero_time < clock w -> 0 <= ttl -> (Millisecond | ttl) -> marshal v = Ok j ->
        r = None -> forall u, clock w' <= u ->
        view (cache w') u key = if lives (clock w') ttl u then Some j else None) ->
     blacklist w' = blacklist w -> repo w' = repo w -> drawn w' = drawn w ->
     clock w <= clock w' -> Q r w') ->
  wp (cacher_Set key v ttl) Q w.
Proof.
  intros H0. apply wp_bind, wp_tick. intros w1 Hc Hb Hr Hd Ht.
  apply wp_lift. intros r c E. apply H0; simpl; try done.
  - intros u k Hu Hk. pose proof (set_frame A (clock w1) key v ttl (cache w1) u k Hu Hk) as Hf.
    by rewrite E, Hc in Hf.
  - intros j Hz Httl Hms Hj -> u Hu. assert (zero_time < clock w1) as Hz1 by lia.
    by rewrite (set_ok A _ _ _ _ _ _ j Hz1 Httl Hms E Hj u Hu).
Qed.

Lemma wp_Del keys (Q : option error -> W -> Prop) (w : W) :
  (forall r w',
     (forall u k, clock w' <= u -> k ∉ keys -> view (cache w') u k = view (cache w) u k) ->
     (r = None -> forall u k, clock w' <= u -> k ∈ keys -> view (cache w') u k = None) ->
     blacklist w' = blacklist w -> repo w' = repo w -> drawn w' = drawn w ->
     clock w <= clock w' -> Q r w') ->
  wp (cacher_Del keys) Q w.
Proof.
  intros H0. apply wp_bind, wp_tick. intros w1 Hc Hb Hr Hd Ht.
  apply wp_lift. intros r c E. apply H0; simpl; try done.
  - intros u k Hu Hk. pose proof (del_frame (clock w1) keys (cache w1) u k Hu Hk) as Hf.
    by rewrite E, Hc in Hf.
  - intros -> u k Hu. by apply (del_ok _ _ _ _ E).
Qed.

(** With a cache that is always there. *)
Context `{!CacherReliable C}.

Lemma wp_Get_reliable {A} `{Json A} key (Q : result A -> W -> Prop) (w : W) :
  (forall w', same_view (clock w') (cache w) (cache w') ->
     blacklist w' = blacklist w -> repo w' = repo w -> drawn w' = drawn w ->
     clock w <= clock w' -> Q (reply_of (view (cache w) (clock w') key)) w') ->
  wp (cacher_Get key) Q w.
Proof.
  intros H0. apply wp_bind, wp_tick. intros w1 Hc Hb Hr Hd Ht. apply wp_lift.
  intros r c E. pose proof (get_ok A (clock w1) key (cache w1)) as Hg. rewrite E in Hg.
  simpl in Hg. rewrite Hg, Hc. apply (H0 (set_cache c w1)); simpl; try done.
  intros u k Hu. pose proof (get_frame (C := C) A (clock w1) key (cache w1) u k Hu) as Hf.
  rewrite E in Hf. rewrite <- Hc. exact Hf.
Qed.

Lemma wp_Set_reliable {A} `{Json A} key (v : A) ttl j (Q : option error -> W -> Prop) (w : W) :
  marshal v = Ok j ->
  (forall w',
     (forall u k, clock w' <= u -> k <> key -> view (cache w') u k = view (cache w) u k) ->
     (zero_time < clock w -> 0 <= ttl -> (Millisecond | ttl) -> forall u, clock w' <= u ->
        view (cache w') u key = if lives (clock w') ttl u then Some j else None) ->
     blacklist w' = blacklist w -> repo w' = repo w -> drawn w' = drawn w ->
     clock w <= clock w' -> Q None w') ->
  wp (cacher_Set key v ttl) Q w.
Proof.
  intros Hj H0. apply wp_bind, wp_tick. intros w1 Hc Hb Hr Hd Ht. apply wp_lift.
  intros r c E. pose proof (set_total A (clock w1) key v ttl (cache w1) j Hj) as Hn.
  rewrite E in Hn. simpl in Hn. subst r. apply (H0 (set_cache c w1)); simpl; try done.
  - intros u k Hu Hk. pose proof (set_frame A (clock w1) key v ttl (cache w1) u k Hu Hk) as Hf.
    by rewrite E, Hc in Hf.
  - intros Hz Httl Hms u Hu. assert (zero_time < clock w1) as Hz1 by lia.
    by rewrite (set_ok A _ _ _ _ _ _ j Hz1 Httl Hms E Hj u Hu).
Qed.

Lemma wp_Del_reliable keys (Q : option error -> W -> Prop) (w : W) :
  (forall w',
     (forall u k, clock w' <= u -> k ∉ keys -> view (cache w') u k = view (cache w) u k) ->
     (forall u k, clock w' <= u -> k ∈ keys -> view (cache w') u k = None) ->
     blacklist w' = blacklist w -> repo w' = repo w -> drawn w' = drawn w ->
     clock w <= clock w' -> Q None w') ->
  wp (cacher_Del keys) Q w.
Proof.
  intros H0. apply wp_bind, wp_tick. intros w1 Hc Hb Hr Hd Ht. apply wp_lift.
  intros r c E. pose proof (del_total (clock w1) keys (cache w1)) as Hn. rewrite E in Hn.
  simpl in Hn. subst r. apply (H0 (set_cache c w1)); simpl; try done.
  - intros u k Hu Hk. pose proof (del_frame (clock w1) keys (cache w1) u k Hu Hk) as Hf.
    by rewrite E, Hc in Hf.
  - intros u k Hu. by apply (del_ok _ _ _ _ E).
Qed.
End CacheActions.
End World.
