(* ===== verification/UserUseCase.v ===== *)
(** [internal/usecase/user_usecase.go]: the business operations on users, as
    programs over the shared world; each repository call is one atomic action. *)

From stdpp Require Import base gmap strings list fin_maps relations.
From Stdlib Require Import ZArith Lia String.
From S2P Require Import Prelude Prog Json Cache Blacklist Pagination User World RateLimit.


(** bcrypt, a library: hashing draws a salt, named by the number of the draw. *)
Class BcryptLib : Type := {
  GenerateFromPassword : nat -> string -> Z -> result string;
  CompareHashAndPassword : string -> string -> option error
}.

Class BcryptLaws `{BcryptLib} : Prop := {
  bcrypt_match : forall n pw cost h,
    GenerateFromPassword n pw cost = Ok h -> CompareHashAndPassword h pw = None;
  (* a password of at most 72 bytes can be hashed at a cost the library accepts *)
  (* bcrypt.ErrPasswordTooLong *)
  bcrypt_limit : forall n pw cost, 72 < Z.of_nat (String.length pw) ->
    exists msg, GenerateFromPassword n pw cost = Err (Fresh msg);
  bcrypt_total : forall n pw cost, Z.of_nat (String.length pw) <= 72 -> 4 <= cost <= 31 ->
    is_ok (GenerateFromPassword n pw cost) = true
}.

Definition DefaultCost : Z := 10.

Record CreateUserRequest : Type := MkCreate { cName : string; cEmail : string; cPassword : string }.
Record UpdateUserRequest : Type := MkUpdate { uName : string; uEmail : string }.

Section UserUseCase.
Context `{BcryptLib, UuidLib} {C B U G : Type} `{!UserRepository U}.
Notation W := (World C B U G).

Definition parseUUID (id : string) : result UUID :=
  match uuid_Parse id with
  | Err _ => Err (Sentinel ErrInvalidUUID)
  | Ok uid => Ok uid
  end.

Definition GetUser (id : string) : prog W (result User) :=
  match parseUUID id with
  | Err err => Ret (Err err)
  | Ok uid =>
      let! found := on_repo (FindByID uid) in
      match found with
      | Err err =>
          if errors_is err ErrRecordNotFound then Ret (Err (Sentinel ErrNotFound))
          else Ret (Err (errorf "get user: " err))
      | Ok user => Ret (Ok user)
      end
  end.

Definition ListUsers : prog W (result (list User)) :=
  let! users := on_repo FindAll in
  match users with
  | Err err => Ret (Err (errorf "list users: " err))
  | Ok users => Ret (Ok users)
  end.

Definition ListUsersPaged (req : Pagination.Request) : prog W (result (list User * Z)) :=
  let! page := on_repo (FindAllPaged req) in
  match page with
  | Err err => Ret (Err (errorf "list users paged: " err))
  | Ok (users, total) => Ret (Ok (users, total))
  end.

Definition CreateUser (req : CreateUserRequest) : prog W (result User) :=
  let! exists_ := on_repo (ExistsByEmail (cEmail req)) in
  match exists_ with
  | Err err => Ret (Err (errorf "check email: " err))
  | Ok true => Ret (Err (Sentinel ErrEmailConflict))
  | Ok false =>
      let! salt := draw in
      match GenerateFromPassword salt (cPassword req) DefaultCost with
      | Err err => Ret (Err (errorf "hashing password: " err))
      | Ok hash =>
          let user := MkUser uuid_Nil (cName req) (cEmail req) hash zero_time zero_time None in
          let! n := draw in
          let! created := on_repo (Create (uuid_New n) user) in
          match created with
          | (Some err, _) => Ret (Err (errorf "create user: " err))
          | (None, user) => Ret (Ok user)
          end
      end
  end.

Definition UpdateUser (id : string) (req : UpdateUserRequest) : prog W (result User) :=
  match parseUUID id with
  | Err err => Ret (Err err)
  | Ok uid =>
      let! found := on_repo (FindByID uid) in
      match found with
      | Err err =>
          if errors_is err ErrRecordNotFound then Ret (Err (Sentinel ErrNotFound))
          else Ret (Err (errorf "find user: " err))
      | Ok user =>
          let user := if bool_decide (uName req = "") then user else set_Name (uName req) user in
          let! checked :=
            if bool_decide (uEmail req = "") || bool_decide (uEmail req = Email user)
            then Ret (Ok user)
            else
              let! exists_ := on_repo (ExistsByEmail (uEmail req)) in
              match exists_ with
              | Err err => Ret (Err (errorf "check email: " err))
              | Ok true => Ret (Err (Sentinel ErrEmailConflict))
              | Ok false => Ret (Ok (set_Email (uEmail req) user))
              end in
          match checked with
          | Err err => Ret (Err err)
          | Ok user =>
              let! updated := on_repo (Update user) in
              match updated with
              | (Some err, _) => Ret (Err (errorf "update user: " err))
              | (None, user) => Ret (Ok user)
              end
          end
      end
  end.

Definition DeleteUser (id : string) : prog W (option error) :=
  match parseUUID id with
  | Err err => Ret (Some err)
  | Ok uid =>
      let! found := on_repo (FindByID uid) in
      match found with
      | Err err =>
          if errors_is err ErrRecordNotFound then Ret (Some (Sentinel ErrNotFound))
          else Ret (Some (errorf "find user: " err))
      | Ok _ =>
          let! deleted := on_repo (Delete uid) in
          match deleted with
          | Some err => Ret (Some (errorf "delete user: " err))
          | None => Ret None
          end
      end
  end.

Context `{!BcryptLaws, !UuidLaws, !UserRepositoryLaws U}.

Notation users w := (rows (repo w)).

(** Creating a user: on success exactly one row is added, under a new
    identifier, with the requested name and address and a hash the password
    matches, and no existing user had the address; on any error the table is
    unchanged, and ErrEmailConflict is answered only when the address is taken. *)
Theorem create_user_spec (req : CreateUserRequest) (w : W) :
  let '(r, w') := run (CreateUser req) w in
  match r with
  | Ok u =>
      users w !! ID u = None /\ users w' = <[ID u := u]> (users w) /\
      Name u = cName req /\ Email u = cEmail req /\
      CompareHashAndPassword (Password u) (cPassword req) = None /\
      (forall i v, users w !! i = Some v -> same_email (Email v) (cEmail req) = false)
  | Err e =>
      users w' = users w /\
      (e = Sentinel ErrEmailConflict ->
       exists i v, users w !! i = Some v /\ same_email (Email v) (cEmail req) = true)
  end.
Proof.
  apply run_wp.
  unfold CreateUser. apply wp_bind, wp_repo. intros ex d w1 Eex Hr1 _ _ _ _.
  pose proof (ExistsByEmail_spec (cEmail req) (repo w)) as [Hro Hex]. rewrite Eex in Hro, Hex.
  simpl in Hro, Hex. destruct ex as [[|] | err].
  - apply wp_ret. split; [by rewrite Hr1 | intros _; by apply Hex].
  - apply wp_bind, wp_draw. intros w2 _ _ Hr2 _ _.
    destruct (GenerateFromPassword _ _ _) as [h | err] eqn:Eh;
      [| apply wp_ret; split; [by rewrite Hr2, Hr1 | done]].
    apply wp_bind, wp_draw. intros w3 _ _ Hr3 _ _.
    apply wp_bind, wp_repo. intros [e u] d' w4 Ec Hr4 _ _ _ _.
    pose proof (Create_spec _ (MkUser uuid_Nil (cName req) (cEmail req) h zero_time zero_time None)
                  (repo w3) (uuid_new_range (drawn w2)) eq_refl) as Hc.
    rewrite Ec, Hr3, Hr2, Hr1, Hro in Hc. destruct e as [err |].
    + apply wp_ret. split; [by rewrite Hr4 | done].
    + destruct Hc as (Hn & Hrows & (Hid & Hnm & Hem & Hpw) & Hu). apply wp_ret.
      simpl in Hid, Hnm, Hem, Hpw. rewrite Hid, Hr4, Hpw. split; [done |]. split; [done |].
      do 2 (split; [done |]). split; [by eapply bcrypt_match | done].
  - apply wp_ret. split; [by rewrite Hr1 | done].
Qed.

(** Updating a user: on success the row of the identifier, and no other, is
    replaced; its password is untouched, an empty field of the request keeps
    the old value, a non-empty one replaces it, and the new address, when it
    changes, belonged to nobody. On any error the table is unchanged. *)
Theorem update_user_spec (id : string) (req : UpdateUserRequest) (w : W) :
  let '(r, w') := run (UpdateUser id req) w in
  match r with
  | Ok u =>
      exists uid old, uuid_Parse id = Ok uid /\ users w !! uid = Some old /\
      users w' = <[uid := u]> (users w) /\ ID u = uid /\ Password u = Password old /\
      Name u = (if decide (uName req = "") then Name old else uName req) /\
      Email u = (if decide (uEmail req = "") then Email old else uEmail req) /\
      (Email u <> Email old ->
       forall i v, users w !! i = Some v -> same_email (Email v) (Email u) = false)
  | Err e => users w' = users w
  end.
Proof.
  apply run_wp.
  unfold UpdateUser, parseUUID. destruct (uuid_Parse id) as [uid | err] eqn:Ep; [| by apply wp_ret].
  apply wp_bind, wp_repo. intros found d w1 Ef Hr1 _ _ _ _.
  pose proof (FindByID_spec uid (repo w)) as [Hro Hf]. rewrite Ef in Hro, Hf. simpl in Hro, Hf.
  destruct found as [old | err];
    [| destruct (errors_is err ErrRecordNotFound); apply wp_ret; by rewrite Hr1].
  destruct (rows_id _ _ _ Hf) as [Hold Hrange].
  set (user1 := if bool_decide (uName req = "") then old else set_Name (uName req) old).
  assert (Email user1 = Email old) as He1 by (unfold user1; by destruct (bool_decide _)).
  assert (ID user1 = uid) as Hi1 by (unfold user1; by destruct (bool_decide _)).
  assert (Password user1 = Password old) as Hp1 by (unfold user1; by destruct (bool_decide _)).
  assert (Name user1 = if decide (uName req = "") then Name old else uName req) as Hn1.
  { unfold user1. destruct (decide (uName req = "")) as [Hu | Hu];
      [by rewrite bool_decide_eq_true_2 | by rewrite bool_decide_eq_false_2]. }
  clearbody user1. apply wp_bind.
  apply (wp_mono _ (fun checked w2 => users w2 = users w /\
    match checked with
    | Ok u2 => ID u2 = uid /\ Password u2 = Password old /\ Name u2 = Name user1 /\
        Email u2 = (if decide (uEmail req = "") then Email old else uEmail req) /\
        (Email u2 <> Email old ->
         forall i v, users w !! i = Some v -> same_email (Email v) (Email u2) = false)
    | Err _ => True
    end)).
  - destruct (bool_decide (uEmail req = "") || bool_decide (uEmail req = Email user1)) eqn:Eb.
    + apply wp_ret. split; [by rewrite Hr1 |]. do 3 (split; [done |]).
      apply orb_true_iff in Eb as [Eb%bool_decide_eq_true | Eb%bool_decide_eq_true].
      * rewrite decide_True, He1 by done. split; [done | by intros []].
      * rewrite Eb, He1. split; [by destruct (decide (Email old = "")) | by intros []].
    + apply orb_false_iff in Eb as [Eb1%bool_decide_eq_false Eb2%bool_decide_eq_false].
      apply wp_bind, wp_repo. intros ex d' w2 Eex Hr2 _ _ _ _.
      pose proof (ExistsByEmail_spec (uEmail req) (repo w1)) as [Hro2 Hex].
      rewrite Eex, Hr1, Hro in Hro2, Hex. simpl in Hro2, Hex.
      destruct ex as [[|] | err]; apply wp_ret; rewrite Hr2; try done.
      split; [done |]. do 3 (split; [done |]). rewrite decide_False by done. split; [done |].
      intros _ i v Hv. simpl. destruct (same_email (Email v) (uEmail req)) eqn:Es; [| done].
      exfalso. enough (false = true) by done. apply Hex. eauto.
  - intros [u2 | err] w2 [Hr2 Hu2]; [| by apply wp_ret].
    destruct Hu2 as (Hi2 & Hp2 & Hn2 & He2 & Hu2).
    apply wp_bind, wp_repo. intros [e u] d' w3 Eu Hr3 _ _ _ _.
    pose proof (Update_spec u2 (repo w2) ltac:(by rewrite Hi2)) as Hs. rewrite Eu in Hs.
    destruct e as [err |]; apply wp_ret; [by rewrite Hr3, Hs |].
    destruct Hs as (Hs & Hid & Hnm & Hem & Hpw). exists uid, old. rewrite Hi2 in Hs, Hid.
    rewrite Hr3, Hs, Hr2, Hid, Hpw, Hnm, Hn2, Hem, He2. repeat split; try done.
    intros Hne. rewrite <- He2 in *. by apply Hu2.
Qed.

(** Deleting a user: success means the user existed and exactly its row is
    gone; any error leaves the table unchanged, ErrInvalidUUID means the
    identifier does not parse and ErrNotFound that no such user exists. *)
Theorem delete_user_spec (id : string) (w : W) :
  let '(r, w') := run (DeleteUser id) w in
  match r with
  | None => exists uid u, uuid_Parse id = Ok uid /\ users w !! uid = Some u /\
              users w' = delete uid (users w)
  | Some e => users w' = users w /\
      (e = Sentinel ErrInvalidUUID -> is_ok (uuid_Parse id) = false) /\
      (e = Sentinel ErrNotFound -> exists uid, uuid_Parse id = Ok uid /\ users w !! uid = None)
  end.
Proof.
  apply run_wp.
  unfold DeleteUser, parseUUID. destruct (uuid_Parse id) as [uid | err] eqn:Ep; [| by apply wp_ret].
  apply wp_bind, wp_repo. intros found d w1 Ef Hr1 _ _ _ _.
  pose proof (FindByID_spec uid (repo w)) as [Hro Hf]. rewrite Ef in Hro, Hf. simpl in Hro, Hf.
  destruct found as [u | err].
  - apply wp_bind, wp_repo. intros del d' w2 Ed Hr2 _ _ _ _.
    pose proof (Delete_spec uid (repo w1)) as Hd. rewrite Ed in Hd.
    destruct del as [err |]; apply wp_ret; [by rewrite Hr2, Hd, Hr1, Hro |].
    exists uid, u. by rewrite Hr2, Hd, Hr1, Hro.
  - destruct (errors_is err ErrRecordNotFound) eqn:Ee; apply wp_ret;
      (split; [by rewrite Hr1 |]); split; try done. intros _. exists uid. auto.
Qed.

(** *** Two registrations of one address at the same time *)

Definition taken (email : string) (w : W) : Prop :=
  exists i v, users w !! i = Some v /\ same_email (Email v) email = true.

(** [fits email ok m]: the residual program [m] makes the address taken only
    when it was not, at most once, and answers a user only after it did
    ([ok]: it already has). *)
Fixpoint fits (email : string) (ok : bool) (m : prog W (result User)) : Prop :=
  match m with
  | Ret r => is_ok r = true -> ok = true
  | Act f k => forall w, let '(x, w') := f w in
      (taken email w -> taken email w') /\
      (fits email ok (k x) \/
       (~ taken email w /\ taken email w' /\ ok = false /\ fits email true (k x)))
  end.

(** Steps that only read. *)
Lemma fits_read {X} email ok (f : W -> X * W) (k : X -> prog W (result User)) :
  (forall w x w', f w = (x, w') -> users w' = users w) ->
  (forall x, fits email ok (k x)) -> fits email ok (bind (act f) k).
Proof.
  intros Hf Hk. simpl. intros w. destruct (f w) as [x w'] eqn:E.
  split; [| by left]. unfold taken. by rewrite (Hf w x w' E).
Qed.

Lemma fits_draw email ok (k : nat -> prog W (result User)) :
  (forall n, fits email ok (k n)) -> fits email ok (bind draw k).
Proof. apply fits_read. by intros w x w' [= <- <-]. Qed.

Lemma CreateUser_fits req : fits (cEmail req) false (CreateUser req).
Proof.
  unfold CreateUser. apply fits_read.
  { intros w x w'. unfold lift. pose proof (ExistsByEmail_spec (cEmail req) (repo w)) as [Hro _].
    destruct (ExistsByEmail (cEmail req) (repo w)) as [y d]. by intros [= <- <-]. }
  intros [[|] | err]; [done | | done]. apply fits_draw. intros salt.
  destruct (GenerateFromPassword _ _ _) as [h |]; [| done]. apply fits_draw. intros n.
  cbn [on_repo act bind fits]. intros w. unfold lift.
  pose proof (Create_spec _ (MkUser uuid_Nil (cName req) (cEmail req) h zero_time zero_time None)
                (repo w) (uuid_new_range n) eq_refl) as Hc.
  destruct (Create (uuid_New n) _ (repo w)) as [[e u] d]. unfold taken. cbn [repo set_repo].
  destruct e as [err |]; [rewrite Hc; split; [done | by left] |].
  destruct Hc as (Hn & Hrows & (_ & _ & Hem & _) & Hu). rewrite Hrows. split.
  - intros (i & v & Hi & Hv). exists i, v. split; [| done].
    rewrite lookup_insert_ne; [done |]. intros Heq. subst i. congruence.
  - right. repeat split.
    + intros (i & v & Hi & Hv). simpl in Hu. by rewrite (Hu i v Hi) in Hv.
    + exists (uuid_New n), u. rewrite lookup_insert_eq. split; [done |]. rewrite Hem.
      apply same_email_refl.
Qed.

Definition exclusive (email : string) (c : par W (result User) (result User)) : Prop :=
  exists b1 b2, fits email b1 (left_prog c) /\ fits email b2 (right_prog c) /\
    (b1 && b2) = false /\ ((b1 || b2) = true -> taken email (world c)).

Lemma exclusive_step email c1 c2 : exclusive email c1 -> par_step c1 c2 -> exclusive email c2.
Proof.
  intros (b1 & b2 & Hl & Hr & Hx & Ht) Hs. destruct Hs as [X f k q w x w' E | X f p k w x w' E].
  - cbn [left_prog right_prog world fits] in *. specialize (Hl w). rewrite E in Hl.
    destruct Hl as [Hm [Hk | (Hn & Ht' & -> & Hk)]].
    + exists b1, b2. split; [exact Hk |]. split; [exact Hr |]. split; [exact Hx | tauto].
    + exists true, b2. destruct b2; [by exfalso; apply Hn, Ht |].
      split; [exact Hk |]. split; [exact Hr |]. split; [done | tauto].
  - cbn [left_prog right_prog world fits] in *. specialize (Hr w). rewrite E in Hr.
    destruct Hr as [Hm [Hk | (Hn & Ht' & -> & Hk)]].
    + exists b1, b2. split; [exact Hl |]. split; [exact Hk |]. split; [exact Hx | tauto].
    + exists b1, true. destruct b1; [by exfalso; apply Hn, Ht |].
      split; [exact Hl |]. split; [exact Hk |]. split; [done | tauto].
Qed.

(** Two registrations of one address that run at the same time, however
    their steps interleave, do not both succeed: the check before the insertion
    does not exclude it, the unique index of the table does. *)
Theorem concurrent_registration (r1 r2 : CreateUserRequest) (w w' : W)
    (a b : result User) :
  cEmail r1 = cEmail r2 ->
  rtc par_step (Par (CreateUser r1) (CreateUser r2) w) (Par (Ret a) (Ret b) w') ->
  is_ok a = true -> is_ok b = true -> False.
Proof.
  intros He Hr Ha Hb.
  assert (exclusive (cEmail r1) (Par (Ret a) (Ret b) w')) as (b1 & b2 & Hl & Hrr & Hx & _).
  { eapply (par_invariant (exclusive (cEmail r1))); [apply exclusive_step | exact Hr |].
    exists false, false. cbn [left_prog right_prog world]. split; [apply CreateUser_fits |].
    split; [rewrite He; apply CreateUser_fits | done]. }
  simpl in Hl, Hrr. rewrite (Hl Ha), (Hrr Hb) in Hx. done.
Qed.
End UserUseCase.

(** A hash that can be told from its input, to instantiate bcrypt with. *)
Module PlainHash.

#[export] Instance plain_bcrypt : BcryptLib := {|
  GenerateFromPassword _ pw cost :=
    if 72 <? Z.of_nat (String.length pw) then Err (Fresh "bcrypt: password length exceeds 72 bytes")
    else Ok ("$2a$" ++ pw)%string;
  CompareHashAndPassword h pw :=
    if String.eqb h ("$2a$" ++ pw) then None
    else Some (Fresh "hashedPassword is not the hash of the given password")
|}.

#[export] Instance plain_bcrypt_laws : BcryptLaws.
Proof.
  split; simpl.
  - intros n pw cost h. destruct (72 <? _); [done |]. intros [= <-]. by rewrite String.eqb_refl.
  - intros n pw cost Hl. assert ((72 <? Z.of_nat (String.length pw)) = true) as -> by lia. by eexists.
  - intros n pw cost Hl _. by assert ((72 <? Z.of_nat (String.length pw)) = false) as -> by lia.
Qed.
End PlainHash.

(** ** Witnesses *)
Module UserWitness.
Import PlainHash BinaryUuid.
#[local] Existing Instances Table.table_db Table.table_laws Db.db_repository
  Db.db_repository_laws.

(** An application with an in-memory cache and one registered user. *)
Definition alice : User := MkUser 7 "Alice" "alice@example.com" "$2a$correct horse" 0 0 None.

Definition app : Type :=
  World Memory.Cacher MemoryBlacklist.MemoryBlacklist (Db.userRepository Table.state)
    RateLimit.Memory.MemoryLimiter.

Definition start : app :=
  MkWorld (Memory.New "wapgo") (Some MemoryBlacklist.NewMemoryBlacklist)
    (Db.NewUserRepository (Table.MkState 0 {[7 := alice]}))
    (RateLimit.Memory.NewMemory 100 Minute) (RateLimit.Memory.NewMemory 10 Minute)
    (RateLimit.Memory.NewMemory 20 Minute) Hour [] 0.

Definition bob : CreateUserRequest := MkCreate "Bob" "bob@example.com" "hunter2hunter2".

(** Both registrations pass the check; the second insertion is refused. *)
Definition race : list bool := [true; false; true; true; true; false; false; false].
Definition race_end : par app (result User) (result User) :=
  exec race (Par (CreateUser bob) (CreateUser bob) start).
Definition refused : error :=
  errorf "create user: " (errorf "create user: "
    (Fresh "duplicate key value violates unique constraint")).

Lemma concurrent_registration_witness :
  exists u, finished (left_prog race_end) = Some (Ok u) /\
    finished (right_prog race_end) = Some (Err refused) /\
    forall w', ~ rtc par_step (Par (CreateUser bob) (CreateUser bob) start)
                   (Par (Ret (Ok u)) (Ret (Ok u)) w').
Proof.
  eexists. split; [vm_compute; reflexivity |]. split; [vm_compute; reflexivity |].
  intros w' Hr. exact (concurrent_registration bob bob start w' _ _ eq_refl Hr eq_refl eq_refl).
Defined.

Lemma create_user_spec_witness :
  exists u w', run (CreateUser bob) start = (Ok u, w') /\
    rows (repo start) !! ID u = None /\ rows (repo w') = <[ID u := u]> (rows (repo start)) /\
    CompareHashAndPassword (Password u) "hunter2hunter2" = None.
Proof.
  pose proof (create_user_spec bob start) as Hs.
  assert (is_ok (run (CreateUser bob) start).1 = true) as Hok by (vm_compute; reflexivity).
  destruct (run (CreateUser bob) start) as [[u | e] w']; [| discriminate Hok].
  exists u, w'. destruct Hs as (? & ? & _ & _ & ? & _). auto.
Defined.

Definition rename : UpdateUserRequest := MkUpdate "Alicia" "".
Definition alice_id : string := uuid_String 7.

Lemma update_user_spec_witness :
  exists u w', run (UpdateUser alice_id rename) start = (Ok u, w') /\
    rows (repo w') = <[ID u := u]> (rows (repo start)) /\
    Name u = "Alicia" /\ Email u = "alice@example.com" /\ Password u = "$2a$correct horse".
Proof.
  pose proof (update_user_spec alice_id rename start) as Hs.
  assert (is_ok (run (UpdateUser alice_id rename) start).1 = true) as Hok by (vm_compute; reflexivity).
  destruct (run (UpdateUser alice_id rename) start) as [[u | e] w']; [| discriminate Hok].
  exists u, w'. destruct Hs as (uid & old & Hp & Ho & Hr & Hi & Hpw & Hn & He & _).
  assert (uid = 7) as -> by (vm_compute in Hp; congruence).
  assert (rows (repo start) !! 7 = Some alice) as Ha by (vm_compute; reflexivity).
  assert (old = alice) as -> by congruence.
  split; [done |]. split; [by rewrite Hi |]. auto.
Defined.

Lemma delete_user_spec_witness :
  (run (DeleteUser alice_id) start).1 = None /\
  exists uid, rows (repo (run (DeleteUser alice_id) start).2) = delete uid (rows (repo start)).
Proof.
  pose proof (delete_user_spec alice_id start) as Hs.
  assert ((run (DeleteUser alice_id) start).1 = None) as Hok by (vm_compute; reflexivity).
  split; [exact Hok |]. destruct (run (DeleteUser alice_id) start) as [r w'].
  simpl in Hok. rewrite Hok in Hs. destruct Hs as (uid & u & _ & _ & Hr). exists uid. exact Hr.
Defined.
End UserWitness.
