(* ===== verification/AuthUseCase.v ===== *)
(** [internal/usecase/auth_usecase.go]: login, refresh, logout and password
    reset, as programs over the shared world. The cache holds three families of
    keys: refresh sessions, reset tokens and the per-user password version. *)

From stdpp Require Import base gmap strings list fin_maps relations.
From Stdlib Require Import ZArith Lia String.
From S2P Require Import Prelude Prog GoStrings Expiring Json Cache Blacklist Jwt User World UserUseCase.

Record LoginRequest : Type := MkLogin { lEmail : string; lPassword : string }.
Record LoginResponse : Type := MkTokens { AccessToken : string; RefreshToken : string; ExpiresIn : Z }.
Record RefreshRequest : Type := MkRefresh { rRefreshToken : string }.
Record ForgotPasswordRequest : Type := MkForgot { fEmail : string }.
Record ResetPasswordRequest : Type := MkReset { sToken : string; sPassword : string }.

Definition refreshKeyPrefix : string := "auth:refresh:".
Definition resetKeyPrefix : string := "auth:reset:".
Definition versionKeyPrefix : string := "auth:ver:".
Definition resetTTL : Z := 15 * Minute.
Definition versionTTL : Z := 90 * 24 * Hour.

(** The value stored for each active refresh session. *)
Record refreshSession : Type := MkSession { sSubject : string; sVersion : Z }.

#[export] Instance json_session : Json refreshSession := {|
  marshal s := Ok (JObj [("sub", JStr (sSubject s)); ("ver", JNum (sVersion s))]);
  unmarshal j :=
    match j with
    | JNull => Ok (MkSession "" 0)
    | JObj l =>
        match field_or "" "sub" l with
        | Err e => Err e
        | Ok sub => match field_or 0 "ver" l with
                    | Err e => Err e
                    | Ok ver => Ok (MkSession sub ver)
                    end
        end
    | _ => type_error
    end
|}.

Lemma session_roundtrip s j :
  in_int64 (sVersion s) -> marshal s = Ok j -> unmarshal j = Ok s.
Proof.
  intros Hv [= <-]. destruct s as [sub ver]. simpl. unfold field_or.
  cbn [field String.eqb Ascii.eqb Bool.eqb]. pose proof (json_int_roundtrip ver Hv) as Hr.
  unfold unmarshal in *. simpl in *. by rewrite Hr.
Qed.

(** The configuration of the use case; the blacklist, when there is one, is in
    the world. *)
Record authUseCase : Type := MkAuth { jwtCfg : Config; refreshCfg : Config; bcryptCost : Z }.

Definition NewAuthUseCase (jwtCfg : Config) (refreshExpiry bcryptCost : Z) : authUseCase :=
  let bcryptCost := if bcryptCost <? 10 then DefaultCost else bcryptCost in
  let refreshCfg := {| Secret := Secret jwtCfg; Issuer := Issuer jwtCfg;
                       Audience := Audience jwtCfg; Expiry := refreshExpiry |} in
  MkAuth jwtCfg refreshCfg bcryptCost.

(** A refresh configuration made by [NewAuthUseCase]. *)
Definition wf_auth (a : authUseCase) : Prop :=
  Secret (refreshCfg a) = Secret (jwtCfg a) /\ Issuer (refreshCfg a) = Issuer (jwtCfg a) /\
  Audience (refreshCfg a) = Audience (jwtCfg a).

Section AuthUseCase.
Context {jwt : JwtLib} {bcrypt : BcryptLib} {uuid : UuidLib} {C B U G : Type}.
Context `{!Cacher C, !Blacklist B, !UserRepository U}.
(* the sixteen bytes of the n-th read from crypto/rand *)
Context (random : nat -> string).
Context (a : authUseCase).
Notation W := (World C B U G).

Definition auth_Sign (subject : string) (roles : list string) (ty : string) (cfg : Config)
  : prog W (result (string * string)) :=
  let! now := time_Now in
  let! n := draw in
  Ret (Sign now (random n) subject roles ty cfg).

Definition auth_Verify (tok : string) (cfg : Config) : prog W (result Claims) :=
  let! now := time_Now in Ret (Verify now tok cfg).

(** [time.Until(exp)] of a token that has an expiry; the others were refused. *)
Definition time_Until (exp : option Z) : prog W Z :=
  let! now := time_Now in
  Ret (match exp with Some e => e - now | None => 0 end).

(** Reading the password version: any error counts as version zero. *)
Definition current_version (subject : string) : prog W Z :=
  let! v := cacher_Get (A := Z) (versionKeyPrefix ++ subject) in
  Ret (match v with Ok v => v | Err _ => 0 end).

Definition issueTokenPair (subject : string) (_ : string) : prog W (result LoginResponse) :=
  let! access := auth_Sign subject [] "access" (jwtCfg a) in
  match access with
  | Err err => Ret (Err (errorf "sign access token: " err))
  | Ok (accessToken, _) =>
      let! refresh := auth_Sign subject [] "refresh" (refreshCfg a) in
      match refresh with
      | Err err => Ret (Err (errorf "sign refresh token: " err))
      | Ok (refreshToken, refreshJTI) =>
          let! pwVersion := current_version subject in
          let sessionKey := (refreshKeyPrefix ++ refreshJTI)%string in
          let! stored := cacher_Set sessionKey (MkSession subject pwVersion)
                           (Expiry (refreshCfg a)) in
          match stored with
          | Some err => Ret (Err (errorf "store refresh session: " err))
          | None => Ret (Ok (MkTokens accessToken refreshToken (seconds_int (Expiry (jwtCfg a)))))
          end
      end
  end.

Definition Login (req : LoginRequest) : prog W (result LoginResponse) :=
  let! found := on_repo (FindByEmail (lEmail req)) in
  match found with
  | Err err =>
      if errors_is err ErrRecordNotFound then Ret (Err (Sentinel ErrInvalidCredentials))
      else Ret (Err (errorf "login find user: " err))
  | Ok user =>
      match CompareHashAndPassword (Password user) (lPassword req) with
      | Some _ => Ret (Err (Sentinel ErrInvalidCredentials))
      | None => issueTokenPair (uuid_String (User.ID user)) (Email user)
      end
  end.

Definition Refresh (req : RefreshRequest) : prog W (result LoginResponse) :=
  let! verified := auth_Verify (rRefreshToken req) (refreshCfg a) in
  match verified with
  | Err _ => Ret (Err (Sentinel ErrInvalidToken))
  | Ok claims =>
      let sessionKey := (refreshKeyPrefix ++ Jwt.ID claims)%string in
      let! got := cacher_Get (A := refreshSession) sessionKey in
      match got with
      | Err err =>
          if errors_is err ErrCacheMiss then Ret (Err (Sentinel ErrInvalidToken))
          else Ret (Err (errorf "refresh session lookup: " err))
      | Ok session =>
          if negb (bool_decide (sSubject session = Subject claims))
          then Ret (Err (Sentinel ErrInvalidToken))
          else
            let! currentVersion := current_version (Subject claims) in
            if sVersion session <? currentVersion then
              do! cacher_Del [sessionKey] in Ret (Err (Sentinel ErrInvalidToken))
            else
              do! cacher_Del [sessionKey] in
              match uuid_Parse (Subject claims) with
              | Err _ => Ret (Err (Sentinel ErrInvalidToken))
              | Ok userID =>
                  let! found := on_repo (FindByID userID) in
                  match found with
                  | Err _ => Ret (Err (Sentinel ErrInvalidToken))
                  | Ok _ => issueTokenPair (Subject claims) ""
                  end
              end
      end
  end.

(** The revocation of a token that has an identifier and some life left. *)
Definition revoke_rest (claims : Claims) : prog W (option error) :=
  let! bl := reads blacklist in
  if negb (bool_decide (Jwt.ID claims = "")) && bool_decide (is_Some bl) then
    let! remaining := time_Until (ExpiresAt claims) in
    if 0 <? remaining then bl_Revoke (Jwt.ID claims) remaining else Ret None
  else Ret None.

Definition Logout (accessToken refreshToken : string) : prog W (option error) :=
  let! verified := auth_Verify accessToken (jwtCfg a) in
  match verified with
  | Err _ => Ret (Some (Sentinel ErrInvalidToken))
  | Ok accessClaims =>
      let! revoked := revoke_rest accessClaims in
      match revoked with
      | Some err => Ret (Some (errorf "revoke access token: " err))
      | None =>
          if bool_decide (refreshToken = "") then Ret None
          else
            let! verified := auth_Verify refreshToken (refreshCfg a) in
            match verified with
            | Err _ => Ret None
            | Ok refreshClaims =>
                do! cacher_Del [(refreshKeyPrefix ++ Jwt.ID refreshClaims)%string] in
                do! revoke_rest refreshClaims in
                Ret None
            end
      end
  end.

Definition ForgotPassword (req : ForgotPasswordRequest) : prog W (result string) :=
  let! found := on_repo (FindByEmail (fEmail req)) in
  match found with
  | Err err =>
      if errors_is err ErrRecordNotFound then Ret (Ok "")
      else Ret (Err (errorf "forgot password: " err))
  | Ok user =>
      let! n := draw in
      let token := uuid_String (uuid_New n) in
      let key := (resetKeyPrefix ++ token)%string in
      let! stored := cacher_Set key (Email user) resetTTL in
      match stored with
      | Some err => Ret (Err (errorf "store reset token: " err))
      | None => Ret (Ok token)
      end
  end.

Definition ResetPassword (req : ResetPasswordRequest) : prog W (option error) :=
  let key := (resetKeyPrefix ++ sToken req)%string in
  let! got := cacher_Get (A := string) key in
  match got with
  | Err err =>
      if errors_is err ErrCacheMiss then Ret (Some (Sentinel ErrInvalidToken))
      else Ret (Some (errorf "reset password lookup: " err))
  | Ok email =>
      let! found := on_repo (FindByEmail email) in
      match found with
      | Err err => Ret (Some (errorf "reset password find user: " err))
      | Ok user =>
          let! salt := draw in
          match GenerateFromPassword salt (sPassword req) (bcryptCost a) with
          | Err err => Ret (Some (errorf "hashing password: " err))
          | Ok hash =>
              let! updated := on_repo (Update (set_Password hash user)) in
              match updated with
              | (Some err, _) => Ret (Some (errorf "update password: " err))
              | (None, user) =>
                  do! cacher_Del [key] in
                  let subject := uuid_String (User.ID user) in
                  let! currentVersion := current_version subject in
                  do! cacher_Set (versionKeyPrefix ++ subject) (wrap64 (currentVersion + 1)) versionTTL in
                  Ret None
              end
          end
      end
  end.

(** ** Lemmas *)

Lemma refresh_inj j j' : (refreshKeyPrefix ++ j = refreshKeyPrefix ++ j')%string -> j = j'.
Proof. intros Heq. by apply (inj (String.append refreshKeyPrefix)) in Heq. Qed.

Lemma refresh_not_version j u : (refreshKeyPrefix ++ j <> versionKeyPrefix ++ u)%string.
Proof. done. Qed.
Lemma refresh_not_reset j t : (refreshKeyPrefix ++ j <> resetKeyPrefix ++ t)%string.
Proof. done. Qed.
Lemma reset_not_version t u : (resetKeyPrefix ++ t <> versionKeyPrefix ++ u)%string.
Proof. done. Qed.

Lemma version_in_int64 (v : option json) n : reply_of (A := Z) v = Ok n -> in_int64 n.
Proof.
  unfold reply_of. destruct v as [[| b | z | str | l | l] |]; simpl; try done.
  - intros [= <-]. unfold in_int64. lia.
  - destruct ((- 2 ^ 63 <=? z) && (z <? 2 ^ 63)) eqn:E; [| done].
    intros [= <-]. unfold in_int64. lia.
Qed.

Context {jwtl : JwtLaws} {bcl : BcryptLaws} {uul : UuidLaws}.
Context `{!CacherLaws C, !UserRepositoryLaws U}.

Notation users w := (rows (repo w)).
Notation session_key jti := (refreshKeyPrefix ++ jti)%string.
Notation reset_key token := (resetKeyPrefix ++ token)%string.
Notation version_key subject := (versionKeyPrefix ++ subject)%string.

(** The password version stored for a user, zero when there is none. *)
Definition version_at (c : C) (t : Z) (subject : string) : Z :=
  match reply_of (A := Z) (view c t (version_key subject)) with Ok v => v | Err _ => 0 end.

Lemma version_at_int64 c t subject : in_int64 (version_at c t subject).
Proof.
  unfold version_at. destruct (reply_of (A := Z) _) as [z |] eqn:Ez.
  - exact (version_in_int64 _ _ Ez).
  - unfold in_int64. lia.
Qed.

Lemma wp_version subject (Q : Z -> W -> Prop) (w : W) :
  (forall v w', in_int64 v -> v = version_at (cache w) (clock w') subject \/ v = 0 ->
     same_view (clock w') (cache w) (cache w') ->
     blacklist w' = blacklist w -> repo w' = repo w -> drawn w' = drawn w ->
     clock w <= clock w' -> Q v w') ->
  wp (current_version subject) Q w.
Proof.
  intros HQ. apply wp_bind, wp_Get. intros r w' Hr Hv Hb Hrp Hd Ht. apply wp_ret.
  assert (in_int64 0) as Hz by (unfold in_int64; lia).
  destruct r as [v | e]; apply HQ; try done; try (by right).
  - destruct Hr as [Hr | Hr]; [| done]. by eapply version_in_int64.
  - destruct Hr as [Hr | Hr]; [| done]. left. unfold version_at. by rewrite <- Hr.
Qed.

(** What [issueTokenPair] has done when it answers a pair: two tokens signed for
    the subject, and one session stored under the identifier of the second. *)
Record issued_pair (subject : string) (w w' : W) (resp : LoginResponse) : Prop := {
  ip_access : exists t n, clock w <= t <= clock w' /\
    (drawn w <= n)%nat /\
    Sign t (random n) subject [] "access" (jwtCfg a) = Ok (AccessToken resp, newJTI (random n));
  ip_refresh : exists t n v, clock w <= t <= clock w' /\
    (drawn w <= n)%nat /\ in_int64 v /\
    Sign t (random n) subject [] "refresh" (refreshCfg a) = Ok (RefreshToken resp, newJTI (random n)) /\
    (forall u k, clock w' <= u -> k <> session_key (newJTI (random n)) ->
       view (cache w') u k = view (cache w) u k) /\
    (zero_time < clock w -> 0 <= Expiry (refreshCfg a) -> (Millisecond | Expiry (refreshCfg a)) ->
     forall u, clock w' <= u ->
       view (cache w') u (session_key (newJTI (random n)))
       = if lives (clock w') (Expiry (refreshCfg a)) u
         then Some (JObj [("sub", JStr subject); ("ver", JNum v)]) else None) /\
    (v = 0 \/ exists u, clock w <= u <= clock w' /\ v = version_at (cache w) u subject);
  ip_expires : ExpiresIn resp = seconds_int (Expiry (jwtCfg a));
  ip_repo : repo w' = repo w;
  ip_blacklist : blacklist w' = blacklist w;
  ip_clock : clock w <= clock w';
  ip_drawn : (drawn w < drawn w')%nat
}.

Lemma wp_Sign subject roles ty cfg (Q : result (string * string) -> W -> Prop) (w : W) :
  (forall r w', r = Sign (clock w') (random (drawn w)) subject roles ty cfg ->
     cache w' = cache w -> blacklist w' = blacklist w -> repo w' = repo w ->
     drawn w' = S (drawn w) -> clock w <= clock w' -> Q r w') ->
  wp (auth_Sign subject roles ty cfg) Q w.
Proof.
  intros HQ. apply wp_bind, wp_tick. intros w1 Hc Hb Hr Hd Ht. apply wp_bind, wp_draw.
  intros w2 Hc2 Hb2 Hr2 Hd2 Ht2. apply wp_ret. apply HQ; congruence.
Qed.

Lemma wp_Verify tok cfg (Q : result Claims -> W -> Prop) (w : W) :
  (forall w', cache w' = cache w -> blacklist w' = blacklist w -> repo w' = repo w ->
     drawn w' = drawn w -> clock w <= clock w' -> Q (Verify (clock w') tok cfg) w') ->
  wp (auth_Verify tok cfg) Q w.
Proof. intros HQ. apply wp_bind, wp_tick. intros w1 ? ? ? ? ?. apply wp_ret. by apply HQ. Qed.

(** Any answer of [issueTokenPair]: at most the session key is written. *)
Lemma wp_issue subject email (Q : result LoginResponse -> W -> Prop) (w : W) :
  (forall r w',
     (forall resp, r = Ok resp -> issued_pair subject w w' resp) ->
     (forall e, r = Err e -> exists ctx e', e = errorf ctx e') ->
     (forall u k, clock w' <= u ->
        (forall n, (drawn w <= n)%nat -> k <> session_key (newJTI (random n))) ->
        view (cache w') u k = view (cache w) u k) ->
     repo w' = repo w -> blacklist w' = blacklist w -> clock w <= clock w' ->
     (drawn w <= drawn w')%nat -> Q r w') ->
  wp (issueTokenPair subject email) Q w.
Proof.
  intros HQ. apply wp_bind, wp_Sign. intros r1 w1 Hr1 Hc1 Hb1 Hrp1 Hd1 Ht1.
  destruct r1 as [[acc accj] | e]; [| apply wp_ret; apply HQ; rewrite ?Hc1, ?Hd1; eauto; try lia; try done; intros ? [= <-]; eauto].
  symmetry in Hr1. pose proof (Sign_inv _ _ _ _ _ _ _ _ Hr1) as (_ & -> & _).
  apply wp_bind, wp_Sign. intros r2 w2 Hr2 Hc2 Hb2 Hrp2 Hd2 Ht2.
  destruct r2 as [[ref refj] | e];
    [| apply wp_ret; apply HQ; rewrite ?Hc2, ?Hc1, ?Hd2, ?Hd1; try congruence; try lia; try done; intros ? [= <-]; eauto].
  symmetry in Hr2. pose proof (Sign_inv _ _ _ _ _ _ _ _ Hr2) as (_ & -> & _).
  apply wp_bind, wp_version. intros v w3 Hvi Hv Hs3 Hb3 Hrp3 Hd3 Ht3.
  apply wp_bind, wp_Set. intros r4 w4 Hf4 Hs4 Hb4 Hrp4 Hd4 Ht4.
  assert (forall u k, clock w4 <= u -> k <> session_key (newJTI (random (drawn w1))) ->
            view (cache w4) u k = view (cache w) u k) as Hframe.
  { intros u k Hu Hk. rewrite Hf4, Hs3, Hc2, Hc1; try done; lia. }
  destruct r4 as [e |]; apply wp_ret; apply HQ; try congruence; try lia.
  - intros ? [= <-]. eauto.
  - intros u k Hu Hk. apply Hframe; [done |]. apply Hk. lia.
  - intros resp [= <-]. split; cbn [AccessToken RefreshToken ExpiresIn]; try congruence; try lia.
    + exists (clock w1), (drawn w). repeat split; try lia. exact Hr1.
    + exists (clock w2), (drawn w1), v. split; [lia |]. split; [lia |]. split; [done |].
      split; [exact Hr2 |]. split; [exact Hframe |]. split.
      * intros Hz Httl Hms u Hu. apply Hs4; try done; lia.
      * destruct Hv as [-> | ->]; [right | by left]. exists (clock w3). split; [lia |].
        by rewrite Hc2, Hc1.
  - intros u k Hu Hk. apply Hframe; [done |]. apply Hk. lia.
Qed.

(** ** Login *)

(** C8. Who gets in: a pair of tokens is answered only when a stored user has the
    address and the password matches its hash, and both tokens then carry that
    user's identifier as subject, no role, and the types access and refresh; no
    user is changed; and ErrInvalidCredentials is answered only when no stored
    user has the address or the password of the one found does not match. *)
Theorem login_spec (req : LoginRequest) (w : W) :
  let '(r, w') := run (Login req) w in
  users w' = users w /\
  match r with
  | Ok resp =>
      exists user, users w !! User.ID user = Some user /\
        same_email (Email user) (lEmail req) = true /\
        CompareHashAndPassword (Password user) (lPassword req) = None /\
        (forall t c, Verify t (AccessToken resp) (jwtCfg a) = Ok c ->
           Subject c = uuid_String (User.ID user) /\ TokenType c = "access" /\ Roles c = []) /\
        (forall t c, Verify t (RefreshToken resp) (refreshCfg a) = Ok c ->
           Subject c = uuid_String (User.ID user) /\ TokenType c = "refresh" /\ Roles c = [])
  | Err e =>
      e = Sentinel ErrInvalidCredentials ->
      (forall i u, users w !! i = Some u -> same_email (Email u) (lEmail req) = false) \/
      (exists user, users w !! User.ID user = Some user /\
         same_email (Email user) (lEmail req) = true /\
         CompareHashAndPassword (Password user) (lPassword req) <> None)
  end.
Proof.
  apply run_wp. unfold Login. apply wp_bind, wp_repo. intros found d w1 Ef Hr1 Hc1 Hb1 Hd1 Ht1.
  pose proof (FindByEmail_spec (lEmail req) (repo w)) as [Hro Hf]. rewrite Ef in Hro, Hf.
  simpl in Hro, Hf. destruct found as [user | err].
  - destruct Hf as [Hrow Hem].
    destruct (CompareHashAndPassword (Password user) (lPassword req)) as [e |] eqn:Ecmp.
    + apply wp_ret. split; [by rewrite Hr1 |]. intros _. right. exists user.
      split; [done |]. split; [done |]. by rewrite Ecmp.
    + apply wp_issue. intros r w' Hok Herr _ Hr _ _ _. split; [by rewrite Hr, Hr1 |].
      destruct r as [resp | e].
      * destruct (Hok resp eq_refl) as [(t & n & _ & _ & Hs) (t' & n' & v & _ & _ & _ & Hs' & _) _ _ _ _ _].
        exists user. do 3 (split; [done |]). split; intros u c Hv.
        -- destruct (Verify_claims _ _ _ _ _ _ _ _ _ _ _ Hs Hv) as (_ & ? & ? & ? & _). done.
        -- destruct (Verify_claims _ _ _ _ _ _ _ _ _ _ _ Hs' Hv) as (_ & ? & ? & ? & _). done.
      * intros ->. by destruct (Herr _ eq_refl) as (ctx & e' & ?).
  - destruct (errors_is err ErrRecordNotFound) eqn:Ee; apply wp_ret.
    + split; [by rewrite Hr1 |]. intros _. left. by apply Hf.
    + split; [by rewrite Hr1 | done].
Qed.

(** ** Refresh *)
Section Reliable.
Context `{!CacherReliable C}.

Lemma wp_version_reliable subject (Q : Z -> W -> Prop) (w : W) :
  (forall w', same_view (clock w') (cache w) (cache w') ->
     blacklist w' = blacklist w -> repo w' = repo w -> drawn w' = drawn w ->
     clock w <= clock w' -> Q (version_at (cache w) (clock w') subject) w') ->
  wp (current_version subject) Q w.
Proof.
  intros HQ. apply wp_bind, wp_Get_reliable. intros w1 Hv Hb Hr Hd Ht. apply wp_ret.
  by apply HQ.
Qed.

(** A key is gone: no reader from now on finds it. *)
Definition gone (k : string) (w : W) : Prop :=
  forall u, clock w <= u -> view (cache w) u k = None.

(** The key of a session or a reset token that no later draw of the random
    sources leads to. *)
Definition fresh (k : string) (w : W) : Prop :=
  (forall n, (drawn w <= n)%nat ->
     k <> session_key (newJTI (random n)) /\ k <> reset_key (uuid_String (uuid_New n))) /\
  (forall subject, k <> version_key subject).

(** What holds when a refresh is answered with a pair. *)
Record refreshed (tok : string) (w w' : W) (resp : LoginResponse) (c : Claims) : Prop := {
  rf_verified : exists t, clock w <= t <= clock w' /\ Verify t tok (refreshCfg a) = Ok c;
  rf_session : exists s t u, clock w <= t <= clock w' /\ clock w <= u <= clock w' /\
    reply_of (view (cache w) t (session_key (Jwt.ID c))) = Ok s /\
    sSubject s = Subject c /\ version_at (cache w) u (Subject c) <= sVersion s;
  rf_user : exists uid user, uuid_Parse (Subject c) = Ok uid /\ users w !! uid = Some user;
  rf_tokens : forall t, (forall d, Verify t (AccessToken resp) (jwtCfg a) = Ok d ->
                 Subject d = Subject c /\ TokenType d = "access") /\
              (forall d, Verify t (RefreshToken resp) (refreshCfg a) = Ok d ->
                 Subject d = Subject c /\ TokenType d = "refresh");
  rf_gone : fresh (session_key (Jwt.ID c)) w -> gone (session_key (Jwt.ID c)) w'
}.

Lemma wp_Refresh tok (Q : result LoginResponse -> W -> Prop) (w : W) :
  (forall r w',
     match r with
     | Ok resp => exists c, refreshed tok w w' resp c
     | Err e => e = Sentinel ErrInvalidToken \/ exists ctx e', e = errorf ctx e'
     end ->
     users w' = users w -> (drawn w <= drawn w')%nat -> Q r w') ->
  wp (Refresh (MkRefresh tok)) Q w.
Proof.
  intros HQ. apply wp_bind, wp_Verify. intros w1 Hc1 Hb1 Hr1 Hd1 Ht1. cbn [rRefreshToken].
  destruct (Verify (clock w1) tok (refreshCfg a)) as [c | e] eqn:Ev;
    [| apply wp_ret, HQ; [by left | by rewrite Hr1 | lia]].
  apply wp_bind, wp_Get_reliable. intros w2 Hv2 Hb2 Hr2 Hd2 Ht2.
  assert (repo w2 = repo w) as Hr2' by congruence.
  destruct (reply_of (view (cache w1) (clock w2) (session_key (Jwt.ID c)))) as [s | e] eqn:Es;
    [| destruct (errors_is e ErrCacheMiss); apply wp_ret, HQ;
       [by left | by rewrite Hr2' | lia | right; eauto | by rewrite Hr2' | lia]].
  destruct (bool_decide (sSubject s = Subject c)) eqn:Esub;
    [| apply wp_ret, HQ; [by left | by rewrite Hr2' | lia]].
  apply bool_decide_eq_true in Esub. cbn [negb].
  apply wp_bind, wp_version_reliable. intros w3 Hv3 Hb3 Hr3 Hd3 Ht3.
  destruct (sVersion s <? version_at (cache w2) (clock w3) (Subject c)) eqn:Ever.
  all: apply wp_bind, wp_Del_reliable; intros w4 Hf4 Hk4 Hb4 Hr4 Hd4 Ht4.
  all: assert (repo w4 = repo w) as Hr4' by congruence.
  { apply wp_ret, HQ; [by left | by rewrite Hr4' | lia]. }
  destruct (uuid_Parse (Subject c)) as [uid | e] eqn:Ep;
    [| apply wp_ret, HQ; [by left | by rewrite Hr4' | lia]].
  apply wp_bind, wp_repo. intros found d w5 Ef Hr5 Hc5 Hb5 Hd5 Ht5.
  pose proof (FindByID_spec uid (repo w4)) as [Hro Hf]. rewrite Ef in Hro, Hf. simpl in Hro, Hf.
  destruct found as [user | e]; [| apply wp_ret, HQ; [by left | by rewrite Hr5, Hro, Hr4' | lia]].
  apply wp_issue. intros r w6 Hok Herr Hf6 Hr6 Hb6 Ht6 Hd6.
  apply HQ; [| by rewrite Hr6, Hr5, Hro, Hr4' | lia].
  destruct r as [resp | e]; [| right; by apply Herr]. exists c.
  destruct (Hok resp eq_refl) as [(t & n & _ & _ & Hs) (t' & n' & v & _ & _ & _ & Hs' & _) _ _ _ _ _].
  split.
  - exists (clock w1). split; [lia | done].
  - exists s, (clock w2), (clock w3). split; [lia |]. split; [lia |]. rewrite <- Hc1.
    split; [done |]. split; [done |].
    assert (version_at (cache w1) (clock w3) (Subject c)
            = version_at (cache w2) (clock w3) (Subject c)) as ->; [| lia].
    unfold version_at. by rewrite Hv2 by lia.
  - exists uid, user. rewrite <- Hr4'. done.
  - intros u. split; intros d0 Hv.
    + destruct (Verify_claims _ _ _ _ _ _ _ _ _ _ _ Hs Hv) as (_ & ? & _ & ? & _). done.
    + destruct (Verify_claims _ _ _ _ _ _ _ _ _ _ _ Hs' Hv) as (_ & ? & _ & ? & _). done.
  - intros [Hfr _] u Hu. rewrite Hf6; [| done |].
    + rewrite Hc5. apply Hk4; [lia | by left].
    + intros m Hm. apply Hfr. lia.
Qed.


(** *** A session that is gone stays gone *)

(** Programs that bring no key back that is gone, nor move the clock back. *)
Definition moves (w w' : W) : Prop :=
  clock w <= clock w' /\ forall k, gone k w -> fresh k w -> gone k w' /\ fresh k w'.

Definition advances {A} (m : prog W A) : Prop := forall w, wp m (fun _ w' => moves w w') w.

Lemma moves_refl w : moves w w.
Proof. split; [lia | done]. Qed.

Lemma moves_trans w1 w2 w3 : moves w1 w2 -> moves w2 w3 -> moves w1 w3.
Proof.
  intros [Ht1 H1] [Ht2 H2]. split; [lia |]. intros k Hg Hf.
  destruct (H1 k Hg Hf). by apply H2.
Qed.

(** A step after which the cache shows the same under the fresh keys. *)
Lemma moves_step (w w' : W) :
  clock w <= clock w' -> (drawn w <= drawn w')%nat ->
  (forall u k, clock w' <= u -> fresh k w -> view (cache w') u k = view (cache w) u k) ->
  moves w w'.
Proof.
  intros Ht Hd Hv. split; [done |]. intros k Hg Hf.
  split; [intros u Hu; rewrite Hv by done; apply Hg; lia |].
  destruct Hf as [Hf Hver]. split; [intros n Hn; apply Hf; lia | done].
Qed.

Lemma advances_ret {A} (x : A) : advances (Ret x).
Proof. intros w. apply wp_ret, moves_refl. Qed.

Lemma advances_bind {A A'} (m : prog W A) (f : A -> prog W A') :
  advances m -> (forall x, advances (f x)) -> advances (bind m f).
Proof.
  intros Hm Hk w. apply wp_bind. eapply wp_mono; [by apply Hm |].
  intros x w1 H1. eapply wp_mono; [by apply Hk |].
  intros y w2 H2. eapply moves_trans; [exact H1 | exact H2].
Qed.

Lemma advances_now : advances (@time_Now C B U G).
Proof.
  intros w. apply wp_tick. intros w' Hc _ _ Hd Ht. apply moves_step; [done | lia |].
  by rewrite Hc.
Qed.

Lemma advances_draw : advances (@draw C B U G).
Proof.
  intros w. apply wp_draw. intros w' Hc _ _ Hd Ht. apply moves_step; [lia | lia |].
  by rewrite Hc.
Qed.

Lemma advances_repo {A} (f : U -> A * U) : advances (@on_repo C B U G _ f).
Proof.
  intros w. apply wp_repo. intros x d w' _ _ Hc _ Hd Ht. apply moves_step; [lia | lia |].
  by rewrite Hc.
Qed.

Lemma advances_reads {A} (f : W -> A) : advances (reads f).
Proof. intros w. apply wp_reads, moves_refl. Qed.

Lemma advances_Get {A} `{Json A} key : advances (@cacher_Get C B U G _ A _ key).
Proof.
  intros w. apply wp_Get. intros r w' _ Hv _ _ Hd Ht. apply moves_step; [done | lia | auto].
Qed.

Lemma advances_version {A} `{Json A} subject (v : A) ttl :
  advances (@cacher_Set C B U G _ A _ (version_key subject) v ttl).
Proof.
  intros w. apply wp_Set. intros r w' Hv _ _ _ Hd Ht. apply moves_step; [done | lia |].
  intros u k Hu [_ Hk]. by apply Hv.
Qed.

Lemma advances_Del keys : advances (@cacher_Del C B U G _ keys).
Proof.
  intros w. apply wp_Del_reliable. intros w' Hv Hn _ _ Hd Ht. split; [done |].
  intros k Hg [Hf Hver]. split; [| split; [intros n Hdn; apply Hf; lia | done]].
  intros u Hu. destruct (decide (k ∈ keys)); [by apply Hn |].
  rewrite Hv by done. apply Hg. lia.
Qed.

Lemma advances_Revoke jti ttl : advances (@bl_Revoke C B U G _ jti ttl).
Proof.
  apply advances_bind; [apply advances_now |]. intros now w. apply wp_act.
  intros r w'. unfold on_blacklist. destruct (blacklist w) as [b |].
  - destruct (Revoke now jti ttl b) as [e b']. intros [= <- <-]. by apply moves_step.
  - intros [= <- <-]. apply moves_refl.
Qed.

(** Storing a reset token under a new identifier. *)
Lemma advances_reset {A} (v : string) ttl (f : nat -> option error -> prog W A) :
  (forall n r, advances (f n r)) ->
  advances (let! n := draw in
         let! r := cacher_Set (reset_key (uuid_String (uuid_New n))) v ttl in f n r).
Proof.
  intros Hk w. apply wp_bind, wp_draw. intros w1 Hc1 _ _ Hd1 Ht1.
  apply wp_bind, wp_Set. intros r w2 Hv _ _ _ Hd2 Ht2.
  eapply wp_mono; [by apply Hk |]. intros x w3 H3. eapply moves_trans; [| exact H3].
  apply moves_step; [lia | lia |]. intros u k Hu Hf. rewrite Hv, Hc1; [done | done |].
  by apply Hf.
Qed.

Lemma advances_issue subject email : advances (issueTokenPair subject email).
Proof.
  intros w. apply wp_issue. intros r w' _ _ Hv _ _ Ht Hd.
  apply moves_step; [done | done |]. intros u k Hu Hf. apply Hv; [done |].
  intros n Hn. by apply Hf.
Qed.

Create HintDb advances discriminated.
#[local] Hint Resolve advances_ret advances_now advances_draw advances_repo advances_reads advances_Get
  advances_version advances_Del advances_Revoke advances_issue : advances.
(** Walk through a program, one construct at a time. *)
Ltac advances :=
  repeat match goal with
    | |- forall _, _ => intros ?
    | |- advances (bind draw (fun n => bind (cacher_Set _ _ _) _)) => apply advances_reset
    | |- advances (bind _ _) => apply advances_bind
    | |- advances (match ?x with _ => _ end) => destruct x
    | |- advances _ => solve [eauto 2 with advances]
    | |- advances _ => progress cbv zeta
    end.

Lemma advances_Login req : advances (Login req).
Proof. unfold Login. advances. Qed.
Lemma advances_Refresh req : advances (Refresh req).
Proof. unfold Refresh, auth_Verify, current_version. advances. Qed.
Lemma advances_revoke_rest c : advances (revoke_rest c).
Proof. unfold revoke_rest, time_Until. advances. Qed.
#[local] Hint Resolve advances_revoke_rest : advances.
Lemma advances_Logout acc ref : advances (Logout acc ref).
Proof. unfold Logout, auth_Verify. advances. Qed.
Lemma advances_ForgotPassword req : advances (ForgotPassword req).
Proof. unfold ForgotPassword. cbv zeta. advances. Qed.
Lemma advances_ResetPassword req : advances (ResetPassword req).
Proof. unfold ResetPassword, current_version. advances. Qed.

(** The operations of the use case. *)
Inductive auth_op : Type :=
| OLogin (req : LoginRequest)
| ORefresh (req : RefreshRequest)
| OLogout (accessToken refreshToken : string)
| OForgot (req : ForgotPasswordRequest)
| OReset (req : ResetPasswordRequest).

Definition do_op (o : auth_op) : prog W unit :=
  match o with
  | OLogin req => do! Login req in Ret tt
  | ORefresh req => do! Refresh req in Ret tt
  | OLogout acc ref => do! Logout acc ref in Ret tt
  | OForgot req => do! ForgotPassword req in Ret tt
  | OReset req => do! ResetPassword req in Ret tt
  end.

(** [later w w']: the application got from [w] to [w'] by operations of the use
    case, in any number and order, by whatever else the rest of it does without
    touching the cache, and by time passing. *)
Inductive later : W -> W -> Prop :=
| later_refl w : later w w
| later_op w w1 o : later w w1 -> later w (run (do_op o) w1).2
| later_other w w1 w2 : later w w1 -> cache w2 = cache w1 -> clock w1 <= clock w2 ->
    (drawn w1 <= drawn w2)%nat -> later w w2.

Lemma advances_op o : advances (do_op o).
Proof.
  destruct o; apply advances_bind; try (intros; apply advances_ret);
    [apply advances_Login | apply advances_Refresh | apply advances_Logout
    | apply advances_ForgotPassword | apply advances_ResetPassword].
Qed.

Lemma later_gone k w w' : later w w' -> gone k w -> fresh k w -> gone k w' /\ fresh k w'.
Proof.
  intros Hl Hg Hf. induction Hl as [w | w w1 o _ IH | w w1 w2 _ IH Hc Ht Hd]; [done | |].
  - destruct (IH Hg Hf) as [Hg1 Hf1]. by apply (advances_op o w1).
  - destruct (IH Hg Hf) as [Hg1 Hf1].
    assert (moves w1 w2) as [_ Hm] by (apply moves_step; [done | done |]; by rewrite Hc).
    by apply Hm.
Qed.

Lemma drawn_fresh k (w w' : W) : (drawn w <= drawn w')%nat -> fresh k w -> fresh k w'.
Proof. intros Hd [Hf Hv]. split; [intros n Hn; apply Hf; lia | done]. Qed.

Lemma refresh_refused tok c t w :
  Verify t tok (refreshCfg a) = Ok c -> gone (session_key (Jwt.ID c)) w ->
  (run (Refresh (MkRefresh tok)) w).1 = Err (Sentinel ErrInvalidToken).
Proof.
  intros Hv Hg.
  enough (wp (Refresh (MkRefresh tok)) (fun r _ => r = Err (Sentinel ErrInvalidToken)) w) by done.
  apply wp_bind, wp_Verify. intros w1 Hc1 _ _ _ Ht1. cbn [rRefreshToken].
  destruct (Verify (clock w1) tok (refreshCfg a)) as [c' | e] eqn:Ev; [| by apply wp_ret].
  rewrite (Verify_stable _ _ _ _ _ _ Ev Hv).
  apply wp_bind, wp_Get_reliable. intros w2 Hv2 _ _ _ Ht2.
  rewrite Hc1, Hg by lia. by apply wp_ret.
Qed.


(** ** Password reset *)

(** What a password reset has done when it answers nil. *)
Record reset_done (tok pw : string) (w w' : W) (user user' : User) : Prop := {
  rd_token : exists t email, clock w <= t /\
    reply_of (view (cache w) t (reset_key tok)) = Ok email /\
    same_email (Email user) email = true;
  rd_found : users w !! User.ID user = Some user;
  rd_rows : users w' = <[User.ID user := user']> (users w);
  rd_user : User.ID user' = User.ID user /\ Name user' = Name user /\ Email user' = Email user /\
    CompareHashAndPassword (Password user') pw = None;
  rd_gone : gone (reset_key tok) w';
  rd_frame : forall u k, clock w' <= u -> k <> reset_key tok ->
    k <> version_key (uuid_String (User.ID user)) -> view (cache w') u k = view (cache w) u k;
  rd_version : zero_time < clock w -> exists t, clock w <= t <= clock w' /\
    forall u, clock w' <= u ->
    view (cache w') u (version_key (uuid_String (User.ID user))) =
    if lives (clock w') versionTTL u
    then Some (JNum (wrap64 (version_at (cache w) t (uuid_String (User.ID user)) + 1))) else None;
  rd_clock : clock w <= clock w';
  rd_drawn : (drawn w <= drawn w')%nat
}.

Lemma wp_Reset tok pw (Q : option error -> W -> Prop) (w : W) :
  (forall r w',
     match r with
     | None => exists user user', reset_done tok pw w w' user user'
     | Some e => users w' = users w /\
         (e = Sentinel ErrInvalidToken \/ exists ctx e', e = errorf ctx e')
     end -> Q r w') ->
  wp (ResetPassword (MkReset tok pw)) Q w.
Proof.
  intros HQ. apply wp_bind, wp_Get_reliable. intros w1 Hv1 Hb1 Hr1 Hd1 Ht1.
  cbn [sToken sPassword].
  destruct (reply_of (view (cache w) (clock w1) (reset_key tok))) as [email | e] eqn:Ee;
    [| destruct (errors_is e ErrCacheMiss); apply wp_ret, HQ; (split; [by rewrite Hr1 |]); eauto].
  apply wp_bind, wp_repo. intros found d w2 Ef Hr2 Hc2 Hb2 Hd2 Ht2.
  pose proof (FindByEmail_spec email (repo w1)) as [Hro Hf]. rewrite Ef, Hr1 in Hro, Hf.
  simpl in Hro, Hf. destruct found as [user | e];
    [| apply wp_ret, HQ; split; [by rewrite Hr2 | eauto]].
  destruct Hf as [Hrow Hem]. destruct (rows_id _ _ _ Hrow) as [_ Hrange].
  apply wp_bind, wp_draw. intros w3 Hc3 Hb3 Hr3 Hd3 Ht3.
  destruct (GenerateFromPassword _ _ _) as [hash | e] eqn:Eh;
    [| apply wp_ret, HQ; split; [by rewrite Hr3, Hr2 | eauto]].
  apply wp_bind, wp_repo. intros [e user'] d' w4 Eu Hr4 Hc4 Hb4 Hd4 Ht4.
  pose proof (Update_spec (set_Password hash user) (repo w3) Hrange) as Hup.
  rewrite Eu, Hr3, Hr2, Hro in Hup.
  destruct e as [e |]; [apply wp_ret, HQ; split; [by rewrite Hr4 | eauto] |].
  destruct Hup as (Hrows & Hid & Hnm & Hmail & Hpw). simpl in Hrows, Hid, Hnm, Hmail, Hpw.
  apply wp_bind, wp_Del_reliable. intros w5 Hf5 Hk5 Hb5 Hr5 Hd5 Ht5.
  apply wp_bind, wp_version_reliable. intros w6 Hv6 Hb6 Hr6 Hd6 Ht6.
  rewrite Hid. apply wp_bind. eapply wp_Set_reliable; [done |].
  intros w7 Hf7 Hs7 Hb7 Hr7 Hd7 Ht7. apply wp_ret, HQ. exists user, user'.
  assert (forall u k, clock w5 <= u -> k <> reset_key tok ->
            view (cache w5) u k = view (cache w) u k) as Hfr.
  { intros u k Hu Hk. rewrite Hf5, Hc4, Hc3, Hc2; [| done | by intros ?%list_elem_of_singleton].
    apply Hv1. lia. }
  split.
  - exists (clock w1), email. done.
  - done.
  - by rewrite Hr7, Hr6, Hr5, Hr4.
  - do 3 (split; [done |]). rewrite Hpw. by eapply bcrypt_match.
  - intros u Hu. rewrite Hf7, Hv6 by (done || lia). apply Hk5; [lia | by left].
  - intros u k Hu Hk Hkv. rewrite Hf7, Hv6 by (done || lia). apply Hfr; [lia | done].
  - intros Hz. exists (clock w6). split; [lia |]. intros u Hu.
    rewrite Hs7; [| lia | done | by exists (90 * 24 * 3600 * 1000) | done].
    assert (version_at (cache w5) (clock w6) (uuid_String (User.ID user))
            = version_at (cache w) (clock w6) (uuid_String (User.ID user))) as ->; [| done].
    unfold version_at. by rewrite Hfr by (done || lia).
  - lia.
  - lia.
Qed.


(** A reset token is used once: after a reset with it has answered nil,
    every later reset with it is refused with ErrInvalidToken, whatever runs
    in between and however much time passes. *)
Theorem reset_single_use (tok pw pw' : string) (w w' : W) :
  fresh (reset_key tok) w ->
  (run (ResetPassword (MkReset tok pw)) w).1 = None ->
  later (run (ResetPassword (MkReset tok pw)) w).2 w' ->
  (run (ResetPassword (MkReset tok pw')) w').1 = Some (Sentinel ErrInvalidToken).
Proof.
  intros Hf Hok Hl.
  assert (wp (ResetPassword (MkReset tok pw)) (fun r w1 => r = None ->
            gone (reset_key tok) w1 /\ fresh (reset_key tok) w1) w) as Hwp.
  { apply wp_Reset. intros r w1 Hr ->. destruct Hr as (user & user' & Hr).
    split; [apply (rd_gone _ _ _ _ _ _ Hr) |].
    eapply drawn_fresh; [apply (rd_drawn _ _ _ _ _ _ Hr) | done]. }
  destruct (Hwp Hok) as [Hg Hf']. destruct (later_gone _ _ _ Hl Hg Hf') as [Hg' _].
  enough (wp (ResetPassword (MkReset tok pw')) (fun r _ => r = Some (Sentinel ErrInvalidToken)) w') by done.
  apply wp_bind, wp_Get_reliable. intros w2 Hv2 _ _ _ Ht2. cbn [sToken].
  rewrite Hg' by lia. by apply wp_ret.
Qed.

End Reliable.

(** ** Logout *)
Section Logout.
Context `{!BlacklistLaws B}.

(** The identifier is on the blacklist until [e]. *)
Definition revoked_until (e : Z) (jti : string) (w : W) : Prop :=
  exists b, blacklist w = Some b /\
  forall u, clock w <= u -> u + Millisecond <= e -> revoked b u jti = true.

Lemma revoked_until_later e jti (w w' : W) :
  blacklist w' = blacklist w -> clock w <= clock w' ->
  revoked_until e jti w -> revoked_until e jti w'.
Proof.
  intros Hb Ht (b & Hbl & Hrv). exists b. rewrite Hb. split; [done |].
  intros u Hu He. apply Hrv; lia.
Qed.

Lemma wp_revoke_rest c (Q : option error -> W -> Prop) (w : W) :
  (forall r w',
     (r = None -> forall e, Jwt.ID c <> "" -> ExpiresAt c = Some e ->
        is_Some (blacklist w) -> revoked_until e (Jwt.ID c) w') ->
     (forall e jti, jti <> Jwt.ID c -> revoked_until e jti w -> revoked_until e jti w') ->
     cache w' = cache w -> clock w <= clock w' -> Q r w') ->
  wp (revoke_rest c) Q w.
Proof.
  intros HQ. apply wp_bind, wp_reads.
  destruct (negb (bool_decide (Jwt.ID c = "")) && bool_decide (is_Some (blacklist w))) eqn:Eb;
    last first.
  { apply wp_ret, HQ; [| auto | done | lia]. intros _ e Hid _ Hs. exfalso.
    apply andb_false_iff in Eb as [Eb%negb_false_iff%bool_decide_eq_true | Eb%bool_decide_eq_false];
      done. }
  apply wp_bind, wp_bind, wp_tick. intros w1 Hc1 Hb1 Hr1 Hd1 Ht1. apply wp_ret.
  set (remaining := match ExpiresAt c with Some e => e - clock w1 | None => 0 end).
  destruct (0 <? remaining) eqn:Er; last first.
  { apply wp_ret, HQ; [| intros; by eapply revoked_until_later | done | lia].
    intros _ e _ He [b Hbl]. exists b. rewrite Hb1. split; [done |]. intros u Hu Hue.
    unfold remaining in Er. rewrite He in Er.
    unfold Millisecond, Microsecond, Nanosecond in Hue. lia. }
  apply wp_bind, wp_tick. intros w2 Hc2 Hb2 Hr2 Hd2 Ht2. apply wp_act. intros r w3.
  unfold on_blacklist. destruct (blacklist w2) as [b |] eqn:Ebl; last first.
  { intros [= <- <-]. exfalso. apply andb_true_iff in Eb as [_ Eb%bool_decide_eq_true].
    destruct Eb as [b Eb]. congruence. }
  destruct (Revoke (clock w2) (Jwt.ID c) remaining b) as [e b'] eqn:Erv.
  intros [= <- <-]. apply HQ; simpl; [| | congruence | lia].
  - intros -> e0 _ He _. exists b'. split; [done |]. simpl. intros u Hu Hue.
    assert (0 <= remaining) as Hrem by lia.
    apply (revoke_ok _ _ _ _ _ Hrem Erv); [done |].
    unfold remaining. rewrite He. lia.
  - intros e' jti Hne Hrv. apply (revoked_until_later e' jti w w2) in Hrv; [| congruence | lia].
    destruct Hrv as (b0 & Hb0 & Hrv). rewrite Ebl in Hb0. injection Hb0 as <-.
    exists b'. split; [done |]. intros u Hu Hue. simpl in Hu.
    pose proof (revoke_frame (clock w2) (Jwt.ID c) remaining b u jti Hu Hne) as Hf.
    rewrite Erv in Hf. simpl in Hf. rewrite Hf. by apply Hrv.
Qed.

(** Logging out revokes: when Logout answers nil and there is a blacklist,
    the access token verified, and from then on, until a millisecond before
    the token expires, the blacklist holds its identifier, provided the token
    has one and the refresh token passed along does not share it. *)
Theorem logout_revokes (acc ref : string) (w : W) (b : B) (c : Claims) (t : Z) (e : Z) :
  (run (Logout acc ref) w).1 = None -> blacklist w = Some b ->
  Verify t acc (jwtCfg a) = Ok c -> ExpiresAt c = Some e -> Jwt.ID c <> "" ->
  (forall u c', Verify u ref (refreshCfg a) = Ok c' -> Jwt.ID c' <> Jwt.ID c) ->
  revoked_until e (Jwt.ID c) (run (Logout acc ref) w).2.
Proof.
  intros Hok Hb Hv He Hid Hne.
  enough (wp (Logout acc ref) (fun r w' => r = None -> revoked_until e (Jwt.ID c) w') w)
    as Hwp by exact (Hwp Hok).
  clear Hok. apply wp_bind, wp_Verify. intros w1 Hc1 Hb1 _ _ Ht1.
  destruct (Verify (clock w1) acc (jwtCfg a)) as [c' | err] eqn:Ev; [| by apply wp_ret].
  rewrite (Verify_stable _ _ _ _ _ _ Ev Hv).
  apply wp_bind, wp_revoke_rest. intros r w2 Hrev _ Hc2 Ht2.
  destruct r as [err |]; [by apply wp_ret |].
  assert (revoked_until e (Jwt.ID c) w2) as Hr2 by (apply Hrev; try done; rewrite Hb1; by exists b).
  destruct (bool_decide (ref = "")); [by apply wp_ret |].
  apply wp_bind, wp_Verify. intros w3 Hc3 Hb3 _ _ Ht3.
  apply (revoked_until_later _ _ _ w3) in Hr2; [| done | done].
  destruct (Verify (clock w3) ref (refreshCfg a)) as [c'' | err] eqn:Ev'; [| by apply wp_ret].
  apply wp_bind, wp_Del. intros r4 w4 _ _ Hb4 _ _ Ht4.
  apply (revoked_until_later _ _ _ w4) in Hr2; [| done | done].
  apply wp_bind, wp_revoke_rest. intros r5 w5 _ Hfr _ _. apply wp_ret. intros _.
  apply Hfr; [| done]. intros Heq. by apply (Hne _ _ Ev').
Qed.
End Logout.
End AuthUseCase.

(** ** Witnesses *)
Module AuthWitness.
Import PlainHash BinaryUuid TokenCodec UserWitness.
#[local] Existing Instances Table.table_db Table.table_laws Db.db_repository
  Db.db_repository_laws Memory.memory_cacher Memory.memory_cacher_laws
  Memory.memory_cacher_reliable MemoryBlacklist.memory_blacklist
  MemoryBlacklist.memory_blacklist_laws.

(** Sixteen bytes, different for the first 256 reads. *)
Definition random (n : nat) : string :=
  String (Ascii.ascii_of_nat (Nat.min n 255)) "123456789abcdef".

Definition auth : authUseCase := NewAuthUseCase JwtWitness.cfg (7 * 24 * Hour) 12.
Definition creds : LoginRequest := MkLogin "alice@example.com" "correct horse".

Definition login : result LoginResponse * app := run (Login random auth creds) start.
Definition pair : LoginResponse :=
  match login.1 with Ok p => p | Err _ => MkTokens "" "" 0 end.
Definition w1 : app := login.2.
Definition claims_of (tok : string) : Claims :=
  match Verify (clock w1) tok (refreshCfg auth) with
  | Ok c => c | Err _ => MkClaims "" "" "" [] None None None [] ""
  end.

Lemma login_spec_witness :
  is_ok login.1 = true /\
  exists user, rows (repo start) !! User.ID user = Some user /\
    CompareHashAndPassword (Password user) "correct horse" = None.
Proof.
  assert (is_ok login.1 = true) as Hok by (vm_compute; reflexivity). split; [exact Hok |].
  pose proof (login_spec random auth creds start) as Hs. unfold login in Hok.
  destruct (run (Login random auth creds) start) as [[resp | e] w']; [| discriminate Hok].
  destruct Hs as (_ & user & Hu & _ & Hc & _). exists user. auto.
Defined.

(** The first refresh with the token of the pair. *)
Definition refresh1 : result LoginResponse * app :=
  run (Refresh random auth (MkRefresh (RefreshToken pair))) w1.
Definition pair1 : LoginResponse :=
  match refresh1.1 with Ok p => p | Err _ => MkTokens "" "" 0 end.


Lemma random_fresh n m : (n < 255)%nat -> (n < m)%nat -> newJTI (random m) <> newJTI (random n).
Proof.
  intros Hn Hm Heq. apply hex_EncodeToString_inj in Heq. unfold random in Heq.
  injection Heq as Heq. apply (f_equal Ascii.nat_of_ascii) in Heq.
  rewrite !Ascii.nat_ascii_embedding in Heq by lia. lia.
Qed.

Lemma session_fresh : fresh random (refreshKeyPrefix ++ newJTI (random 1)) w1.
Proof.
  split; [| done]. intros n Hn. split; [| done]. intros Heq. apply refresh_inj in Heq.
  assert (drawn w1 = 2)%nat as Hd by (vm_compute; reflexivity). rewrite Hd in Hn.
  symmetry in Heq. revert Heq. apply random_fresh; lia.
Qed.


(** A reset token, and the reset with it. *)
Definition forgot : result string * app := run (ForgotPassword (MkForgot "alice@example.com")) w1.
Definition reset_token : string := match forgot.1 with Ok t => t | Err _ => "" end.
Definition w2 : app := forgot.2.
Definition reset : option error * app :=
  run (ResetPassword auth (MkReset reset_token "new password")) w2.


Lemma reset_token_fresh : fresh random (resetKeyPrefix ++ reset_token) w2.
Proof.
  assert (drawn w2 = 3)%nat as Hd by (vm_compute; reflexivity).
  assert (reset_token = uuid_String (uuid_New 2)) as Ht by (vm_compute; reflexivity).
  split; [| done]. intros n Hn. rewrite Hd in Hn. split; [done |]. rewrite Ht. intros Heq.
  apply (inj (String.append resetKeyPrefix)), uuid_string_inj in Heq; simpl in Heq; simpl; lia.
Qed.

Lemma reset_single_use_witness :
  (run (ResetPassword auth (MkReset reset_token "another one")) reset.2).1
  = Some (Sentinel ErrInvalidToken).
Proof.
  apply (reset_single_use random auth reset_token "new password" "another one" w2);
    [exact reset_token_fresh | vm_compute; reflexivity | apply later_refl].
Defined.

(** The session of the pair, opened before the reset. *)
Definition session : refreshSession := MkSession (uuid_String 7) 0.


(** Logging out with both tokens of the pair. *)
Lemma logout_revokes_witness :
  revoked_until (Hour + 15 * Minute) (newJTI (random 0))
    (run (Logout auth (AccessToken pair) (RefreshToken pair)) w1).2.
Proof.
  refine (logout_revokes auth (AccessToken pair) (RefreshToken pair) w1
            MemoryBlacklist.NewMemoryBlacklist (claims_of (AccessToken pair)) (clock w1)
            (Hour + 15 * Minute) _ _ _ _ _ _).
  - vm_compute. reflexivity.
  - vm_compute. reflexivity.
  - vm_compute. reflexivity.
  - vm_compute. reflexivity.
  - vm_compute. discriminate.
  - intros u c' Hv.
    assert (Verify (clock w1) (RefreshToken pair) (refreshCfg auth)
            = Ok (claims_of (RefreshToken pair))) as Hv' by (vm_compute; reflexivity).
    rewrite (Verify_stable _ _ _ _ _ _ Hv Hv'). vm_compute. discriminate.
Defined.

(** ** What the code does not prevent *)

(** Both refreshes read the session before either deletes it. *)
Definition spend : prog app (result LoginResponse) :=
  Refresh random auth (MkRefresh (RefreshToken pair)).
Definition both_read : list bool :=
  repeat true 3 ++ repeat false 3 ++ repeat true 20 ++ repeat false 20.

(** Rotation is not atomic: two refreshes with the same token that run at the
    same time can both succeed, each with a pair of its own, because the session
    is read and deleted in separate steps. *)
Theorem refresh_double_spend :
  exists (w : app) (tok : string) (p1 p2 : LoginResponse) (w' : app),
    rtc par_step (Par (Refresh random auth (MkRefresh tok)) (Refresh random auth (MkRefresh tok)) w)
                 (Par (Ret (Ok p1)) (Ret (Ok p2)) w') /\
    RefreshToken p1 <> RefreshToken p2 /\
    is_ok (run (Refresh random auth (MkRefresh (RefreshToken p1))) w').1 = true /\
    is_ok (run (Refresh random auth (MkRefresh (RefreshToken p2))) w').1 = true.
Proof.
  set (c := exec both_read (Par spend spend w1)).
  exists w1, (RefreshToken pair),
    (match finished (left_prog c) with Some (Ok p) => p | _ => pair end),
    (match finished (right_prog c) with Some (Ok p) => p | _ => pair end), (world c).
  split; [| split; [| split]].
  - apply exec_finished; vm_compute; reflexivity.
  - vm_compute. discriminate.
  - vm_compute. reflexivity.
  - vm_compute. reflexivity.
Qed.

(** Refresh tokens configured to live for 100 days. *)
Definition long : authUseCase := NewAuthUseCase JwtWitness.cfg (100 * 24 * Hour) 12.
Definition sleep (d : Z) (w : app) : app :=
  MkWorld (cache w) (blacklist w) (repo w) (global_limiter w) (login_limiter w) (write_limiter w)
    (clock w + d) (pace w) (drawn w).
Definition long_pair : result LoginResponse * app := run (Login random long creds) start.
Definition long_reset : app :=
  let w := long_pair.2 in
  let '(tok, w) := run (ForgotPassword (MkForgot "alice@example.com")) w in
  (run (ResetPassword long (MkReset (match tok with Ok t => t | Err _ => "" end) "new password")) w).2.
Definition old_refresh (w : app) : result LoginResponse :=
  (run (Refresh random long
          (MkRefresh (match long_pair.1 with Ok p => RefreshToken p | Err _ => "" end))) w).1.

(** The password version is kept for 90 days whatever the lifetime of refresh
    tokens: when that is configured longer, a session a password reset had ended
    is accepted again once the version has expired. *)
Theorem reset_forgotten_after_version_ttl :
  Expiry (refreshCfg long) = 100 * 24 * Hour /\
  old_refresh (sleep (89 * 24 * Hour) long_reset) = Err (Sentinel ErrInvalidToken) /\
  is_ok (old_refresh (sleep versionTTL long_reset)) = true.
Proof. split; [| split]; vm_compute; reflexivity. Qed.
End AuthWitness.
