(* ===== verification/Http.v ===== *)
(** The HTTP surface shared by the handlers: the parts of a fiber context they
    read and write, the response envelopes ([pkg/response/response.go]), the
    error handler of the application ([cmd/api/main.go]) and the small
    middlewares (security.go, logger.go, router.go).

    A handler takes the context and gives back the error it returns and the
    context; [c.Next()] is the handler it is built over. *)

From stdpp Require Import base list strings.
From Stdlib Require Import ZArith Lia String.
From S2P Require Import Prelude Prog GoStrings Json Jwt Pagination.

(** What a handler reads of the request. *)
Record Request : Type := MkReq {
  method : string;
  path : string;
  id_param : string;                     (* c.Params("id") *)
  req_headers : list (string * string);
  req_body : string;
  ip : string                            (* c.IP() *)
}.

(** The context: the request, the response so far, and what the middlewares
    leave in it for the handlers behind them. *)
Record Ctx : Type := MkCtx {
  request : Request;
  status : Z;
  resp_headers : list (string * string);
  resp_body : option json;
  claims_local : option Claims;          (* c.Locals("jwt_claims") *)
  request_id : option string             (* of the user context *)
}.

(** A response before any handler ran. *)
Definition fresh_ctx (r : Request) : Ctx := MkCtx r 200 [] None None None.

Definition handler (W : Type) : Type := Ctx -> prog W (option error * Ctx).

(** [c.Get(name)]: header names are case-insensitive; "" when absent. *)
Fixpoint header (name : string) (hs : list (string * string)) : string :=
  match hs with
  | [] => ""
  | (k, v) :: hs' => if EqualFold k name then v else header name hs'
  end.
Definition c_Get (name : string) (c : Ctx) : string := header name (req_headers (request c)).

(** [c.Set(name, value)] replaces the header. *)
Definition c_Set (name value : string) (c : Ctx) : Ctx :=
  MkCtx (request c) (status c)
    ((name, value) :: filter (fun kv => EqualFold kv.1 name = false) (resp_headers c))
    (resp_body c) (claims_local c) (request_id c).

(** [c.Status(code).JSON(body)]. *)
Definition c_JSON (code : Z) (body : json) (c : Ctx) : option error * Ctx :=
  (None, MkCtx (request c) code (resp_headers c) (Some body) (claims_local c) (request_id c)).

Definition set_claims (cl : Claims) (c : Ctx) : Ctx :=
  MkCtx (request c) (status c) (resp_headers c) (resp_body c) (Some cl) (request_id c).
Definition set_request_id (i : string) (c : Ctx) : Ctx :=
  MkCtx (request c) (status c) (resp_headers c) (resp_body c) (claims_local c) (Some i).

(** The errors fiber predefines. *)
Definition ErrUnauthorized : error := FiberErr 401.
Definition ErrForbidden : error := FiberErr 403.
Definition fiber_ErrNotFound : error := FiberErr 404.

(** ** Envelopes *)
Module Response.

Definition envelope (st : bool) (message : string) (data : option json) : json :=
  JObj ([("status", JBool st); ("message", JStr message)]
        ++ match data with Some d => [("data", d)] | None => [] end).

(** [data] is absent when it is nil. *)
Definition Success (message : string) (data : option json) : Ctx -> option error * Ctx :=
  c_JSON 200 (envelope true message data).

Definition Created (message : string) (data : option json) : Ctx -> option error * Ctx :=
  c_JSON 201 (envelope true message data).

Definition ErrorCode : Type := string.
Definition ErrValidation : ErrorCode := "ERR_VALIDATION".
Definition ErrNotFound : ErrorCode := "ERR_NOT_FOUND".
Definition ErrConflict : ErrorCode := "ERR_CONFLICT".
Definition ErrUnauthorized : ErrorCode := "ERR_UNAUTHORIZED".
Definition ErrForbidden : ErrorCode := "ERR_FORBIDDEN".
Definition ErrInternal : ErrorCode := "ERR_INTERNAL".
Definition ErrBadRequest : ErrorCode := "ERR_BAD_REQUEST".

Definition Error (httpStatus : Z) (errCode : ErrorCode) (message : string)
  : Ctx -> option error * Ctx :=
  c_JSON httpStatus
    (JObj [("status", JBool false); ("code", JStr errCode); ("message", JStr message)]).

Definition BadRequest (message : string) := Error 400 ErrBadRequest message.
Definition ValidationError (message : string) := Error 422 ErrValidation message.
Definition NotFound (message : string) := Error 404 ErrNotFound message.
Definition Conflict (message : string) := Error 409 ErrConflict message.
Definition InternalError := Error 500 ErrInternal "internal server error".
Definition Unauthorized := Error 401 ErrUnauthorized "unauthorized".
Definition Forbidden := Error 403 ErrForbidden "forbidden".

Definition meta_json (m : PageMeta) : json :=
  JObj [("page", JNum (page m)); ("per_page", JNum (per_page m)); ("total", JNum (total m));
        ("total_pages", JNum (total_pages m))].

Definition Paginated (message : string) (data : option json) (page perPage total : Z)
  : Ctx -> option error * Ctx :=
  c_JSON 200
    (JObj ([("status", JBool true); ("message", JStr message)]
           ++ match data with Some d => [("data", d)] | None => [] end
           ++ [("pagination", meta_json (Paginated_meta page perPage total))])).
End Response.

(** ** The application's error handler *)

(** Only an error that is itself a [*fiber.Error] carries its code. *)
Definition ErrorHandler (err : error) (c : Ctx) : option error * Ctx :=
  let code := match err with FiberErr code => code | _ => 500 end in
  c_JSON code (JObj [("status", JBool false); ("message", JStr (StatusText code))]) c.

Section Middlewares.
Context {W : Type}.

(** What the client gets: a returned error goes to the error handler. *)
Definition serve (h : handler W) (r : Request) : prog W Ctx :=
  let! out := h (fresh_ctx r) in
  match out with
  | (None, c) => Ret c
  | (Some err, c) => Ret (ErrorHandler err c).2
  end.

(** A handler that answers at once. *)
Definition reply (f : Ctx -> option error * Ctx) : handler W := fun c => Ret (f c).

(** [WithBodyLimit]. *)
Definition WithBodyLimit (maxBytes : Z) (next : handler W) : handler W := fun c =>
  if maxBytes <? len (req_body (request c)) then
    Ret (c_JSON 413 (JObj [("status", JBool false); ("code", JStr "ERR_PAYLOAD_TOO_LARGE");
                           ("message", JStr "request body too large")]) c)
  else next c.

(** [RequestID]: the identifier of the request's header, or a new one. *)
Definition RequestID (new_id : prog W string) (next : handler W) : handler W := fun c =>
  let id := c_Get "X-Request-ID" c in
  let! id := if bool_decide (id = "") then new_id else Ret id in
  let c := c_Set "X-Request-ID" id c in
  next (set_request_id id c).

(** [prodGuard]: 404 in production. *)
Definition prodGuard (appEnv : string) (next : handler W) : handler W := fun c =>
  if bool_decide (appEnv = "production") then Ret (Some fiber_ErrNotFound, c) else next c.

(** [welcomeHandler]. *)
Definition welcomeHandler (appEnv : string) : handler W :=
  let links := [("health", JStr "/health")]
    ++ (if bool_decide (appEnv = "production") then []
        else [("docs", JStr "/docs/index.html"); ("metrics", JStr "/metrics")]) in
  reply (c_JSON 200 (JObj [("service", JStr "wapgo"); ("version", JStr "1.0.0");
                           ("env", JStr appEnv); ("links", JObj links)])).
End Middlewares.
