(* ===== verification/Hardening.v ===== *)
(** The middlewares that hand a configuration to one of fiber's: CORS, the security
    headers and panic recovery (internal/delivery/http/middleware/cors.go, security.go,
    recover.go). What fiber's middlewares do with it is a parameter. *)

From stdpp Require Import base list strings.
From Stdlib Require Import ZArith String.
From S2P Require Import Prelude Prog Http.

Record CorsConfig : Type := MkCors {
  AllowOrigins : string; AllowMethods : string; AllowHeaders : string; ExposeHeaders : string;
  AllowCredentials : bool; MaxAge : Z
}.

Record HelmetConfig : Type := MkHelmet {
  XSSProtection : string; ContentTypeNosniff : string; XFrameOptions : string; HSTSMaxAge : Z;
  HSTSExcludeSubdomains : bool; HSTSPreloadEnabled : bool; ContentSecurityPolicy : string;
  ReferrerPolicy : string; PermissionPolicy : string
}.

Record RecoverConfig : Type := MkRecover { EnableStackTrace : bool }.

Section Hardening.
Context {W : Type} (cors_New : CorsConfig -> handler W -> handler W).
Context (helmet_New : HelmetConfig -> handler W -> handler W) (recover_New : RecoverConfig -> handler W -> handler W).

Definition cors_config (allowedOrigins : string) : CorsConfig :=
  let allowedOrigins := if String.eqb allowedOrigins "" then "http://localhost:3000"%string else allowedOrigins in
  MkCors allowedOrigins "GET,POST,PUT,DELETE,OPTIONS" "Origin,Content-Type,Accept,Authorization,X-Request-ID"
    "X-Request-ID" false 300.

Definition CORS (allowedOrigins : string) : handler W -> handler W := cors_New (cors_config allowedOrigins).

Definition SecurityHeaders : handler W -> handler W :=
  helmet_New (MkHelmet "1; mode=block" "nosniff" "DENY" 31536000 false false "default-src 'self'"
    "strict-origin-when-cross-origin" "geolocation=(), microphone=(), camera=()").

Definition Recover : handler W -> handler W := recover_New (MkRecover false).

(** Credentials are never allowed, whatever the origins, and without any the local
    front end's is the only one. *)
Lemma cors_never_credentials origins : AllowCredentials (cors_config origins) = false.
Proof. reflexivity. Qed.

Lemma cors_default_origin origins :
  AllowOrigins (cors_config origins) = "*"%string -> origins = "*"%string.
Proof. unfold cors_config. simpl. by destruct (String.eqb origins ""). Qed.
End Hardening.
