(* ===== verification/Middleware.v ===== *)
(** The middlewares that decide whether a request goes on: authentication and
    roles ([pkg/auth/middleware.go]) and rate limiting
    ([internal/delivery/http/middleware/ratelimit.go]). *)

From stdpp Require Import base gmap strings list fin_maps.
From Stdlib Require Import ZArith Lia String.
From S2P Require Import Prelude Prog GoStrings GoTime Json Cache Blacklist RateLimit Jwt User World UserUseCase AuthUseCase Http.

Definition bearer : string := "Bearer ".

(** [GetClaims]. *)
Definition GetClaims (c : Ctx) : option Claims := claims_local c.

(** ** Authentication *)
Section Auth.
Context {jwt : JwtLib} {C B U G : Type} `{!Blacklist B}.
Notation W := (World C B U G).

(** [auth.Middleware]; there is a blacklist when the world has one. *)
Definition Middleware (cfg : Config) (next : handler W) : handler W := fun c =>
  let raw := c_Get "Authorization" c in
  if negb (HasPrefix raw bearer) then Ret (Some ErrUnauthorized, c)
  else
    let! now := time_Now in
    match Verify now (TrimPrefix raw bearer) cfg with
    | Err _ => Ret (Some ErrUnauthorized, c)
    | Ok claims =>
        if negb (bool_decide (TokenType claims = "")) && negb (bool_decide (TokenType claims = "access"))
        then Ret (Some ErrUnauthorized, c)
        else
          let! bl := reads blacklist in
          let! revoked :=
            if bool_decide (is_Some bl) && negb (bool_decide (Jwt.ID claims = ""))
            then
              let! r := bl_IsRevoked (Jwt.ID claims) in
              Ret (match r with Err _ => false (* logged: fail open *) | Ok b => b end)
            else Ret false in
          if revoked then Ret (Some ErrUnauthorized, c)
          else next (set_claims claims c)
    end.

(** [auth.RequireRole]. *)
Definition RequireRole (roles : list string) (next : handler W) : handler W := fun c =>
  match GetClaims c with
  | None => Ret (Some ErrUnauthorized, c)
  | Some claims =>
      if existsb (fun r => bool_decide (r ∈ roles)) (Roles claims) then next c
      else Ret (Some ErrForbidden, c)
  end.

Context `{!BlacklistLaws B}.

(** The state a request that is let through meets: the same but for the time and
    what looking at the blacklist may tidy up. *)
Definition same_state (w w' : W) : Prop :=
  cache w' = cache w /\ repo w' = repo w /\ drawn w' = drawn w /\ clock w <= clock w' /\
  (blacklist w = None <-> blacklist w' = None) /\
  forall b b', blacklist w = Some b -> blacklist w' = Some b' ->
    forall u j, clock w' <= u -> revoked b' u j = revoked b u j.

Lemma same_state_tick (w w' : W) :
  cache w' = cache w -> blacklist w' = blacklist w -> repo w' = repo w -> drawn w' = drawn w ->
  clock w <= clock w' -> same_state w w'.
Proof. intros Hc Hb Hr Hd Ht. unfold same_state. rewrite Hb. naive_solver. Qed.

Lemma same_state_trans (w1 w2 w3 : W) :
  same_state w1 w2 -> same_state w2 w3 -> same_state w1 w3.
Proof.
  intros (Hc1 & Hr1 & Hd1 & Ht1 & Hn1 & Hb1) (Hc2 & Hr2 & Hd2 & Ht2 & Hn2 & Hb2).
  unfold same_state. do 3 (split; [congruence |]). split; [lia |]. split; [by rewrite Hn1, Hn2 |].
  intros b b' Hb Hb' u j Hu. destruct (blacklist w2) as [b2 |] eqn:E2.
  - rewrite (Hb2 b2 b' eq_refl Hb' u j Hu). apply (Hb1 b b2 Hb eq_refl). lia.
  - destruct Hn1 as [_ Hn1]. rewrite Hn1 in Hb by done. done.
Qed.

(** The answer of [IsRevoked] in a world with a blacklist. *)
Lemma wp_IsRevoked jti (Q : result bool -> W -> Prop) (w : W) :
  (forall r w', same_state w w' ->
     (forall b, blacklist w = Some b -> r = (IsRevoked (clock w') jti b).1) -> Q r w') ->
  wp (bl_IsRevoked jti) Q w.
Proof.
  intros HQ. apply wp_bind, wp_tick. intros w1 Hc Hb Hr Hd Ht. apply wp_act. intros r w2.
  unfold on_blacklist. rewrite Hb. destruct (blacklist w) as [b |] eqn:E.
  - destruct (IsRevoked (clock w1) jti b) as [x b'] eqn:Ei. intros [= <- <-]. apply HQ.
    + unfold same_state. cbn [cache repo drawn clock blacklist set_blacklist]. rewrite E.
      do 4 (split; [done |]). split; [by split |]. intros b0 b1 [= <-] [= <-] u j Hu.
      exact (is_revoked_frame _ _ _ _ _ Ei u j Hu).
    + simpl. intros b0 [= <-]. by rewrite Ei.
  - intros [= <- <-]. apply HQ; [apply same_state_tick; congruence |]. done.
Qed.

(** A blacklist that answers every question. *)
Definition answers (b : B) : Prop := forall now jti, is_ok (IsRevoked now jti b).1 = true.

(** Two ways out of the middleware: 401, or the next handler on a verified token. *)
Definition admitted (cfg : Config) (raw : string) (w w' : W) (claims : Claims) : Prop :=
  HasPrefix raw bearer = true /\
  (exists t, clock w <= t <= clock w' /\ Verify t (TrimPrefix raw bearer) cfg = Ok claims) /\
  (TokenType claims = "" \/ TokenType claims = "access").

Lemma wp_Middleware cfg next c (Q : option error * Ctx -> W -> Prop) (w : W) :
  (forall w', same_state w w' -> Q (Some ErrUnauthorized, c) w') ->
  (forall w' claims, same_state w w' -> admitted cfg (c_Get "Authorization" c) w w' claims ->
     (forall b, blacklist w = Some b -> Jwt.ID claims <> "" -> answers b ->
        exists u, clock w <= u <= clock w' /\ revoked b u (Jwt.ID claims) = false) ->
     wp (next (set_claims claims c)) Q w') ->
  wp (Middleware cfg next c) Q w.
Proof.
  intros Hno Hyes. unfold Middleware. destruct (HasPrefix (c_Get "Authorization" c) bearer) eqn:Ep;
    cbn [negb]; [| apply wp_ret, Hno; by apply same_state_tick].
  apply wp_bind, wp_tick. intros w1 Hc Hb Hr Hd Ht.
  assert (same_state w w1) as H1 by (by apply same_state_tick).
  destruct (Verify (clock w1) _ cfg) as [claims | e] eqn:Ev; [| by apply wp_ret, Hno].
  destruct (negb (bool_decide (TokenType claims = "")) && negb (bool_decide (TokenType claims = "access")))
    eqn:Et; [by apply wp_ret, Hno |].
  assert (TokenType claims = "" \/ TokenType claims = "access") as Htype.
  { apply andb_false_iff in Et as [Et | Et]; apply negb_false_iff, bool_decide_eq_true in Et; auto. }
  apply wp_bind, wp_reads.
  destruct (bool_decide (is_Some (blacklist w1)) && negb (bool_decide (Jwt.ID claims = ""))) eqn:Eb.
  - apply andb_true_iff in Eb as [_ Hj%negb_true_iff%bool_decide_eq_false].
    apply wp_bind, wp_bind, wp_IsRevoked. intros r w2 H2 Hrev. apply wp_ret.
    pose proof (same_state_trans _ _ _ H1 H2) as H12.
    destruct (match r with Err _ => false | Ok b => b end) eqn:Er; [by apply wp_ret, Hno |].
    apply Hyes; [done | split; [done |]; split; [| done] |].
    + exists (clock w1). destruct H2 as (_ & _ & _ & ? & _). split; [lia | done].
    + intros b Hbl _ Hans. exists (clock w2). destruct H12 as (_ & _ & _ & ? & _). split; [lia |].
      specialize (Hrev b ltac:(congruence)). specialize (Hans (clock w2) (Jwt.ID claims)).
      destruct (IsRevoked (clock w2) (Jwt.ID claims) b) as [x b'] eqn:Ei. simpl in Hrev. subst r.
      destruct x as [v |]; [| done]. by rewrite <- (is_revoked_ok _ _ _ _ _ Ei Hj).
  - apply wp_bind, wp_ret. apply Hyes; [done | split; [done |]; split; [| done] |].
    + exists (clock w1). split; [lia | done].
    + intros b Hbl Hj. exfalso. apply andb_false_iff in Eb as [Eb | Eb].
      * apply bool_decide_eq_false in Eb. apply Eb. rewrite Hb, Hbl. by eexists.
      * apply negb_false_iff, bool_decide_eq_true in Eb. done.
Qed.


(** What passes: when the clock stands still during the request, a bearer
    token that verifies, is typed access or not at all, and is not reported as
    revoked, reaches the next handler; a blacklist that fails to answer is
    treated as one that does not hold the token. *)
Theorem middleware_admits (cfg : Config) (next : handler W) (c : Ctx) (w : W) (claims : Claims) :
  pace w = [] -> HasPrefix (c_Get "Authorization" c) bearer = true ->
  Verify (clock w) (TrimPrefix (c_Get "Authorization" c) bearer) cfg = Ok claims ->
  TokenType claims = "" \/ TokenType claims = "access" ->
  (forall b, blacklist w = Some b -> Jwt.ID claims <> "" ->
     (IsRevoked (clock w) (Jwt.ID claims) b).1 <> Ok true) ->
  exists w1, same_state w w1 /\
    run (Middleware cfg next c) w = run (next (set_claims claims c)) w1.
Proof.
  intros Hp Hb Hv Ht Hr.
  assert (same_state w w) as Hrefl by (by apply same_state_tick).
  assert (tick w = (clock w, w)) as Htk by (unfold tick; by rewrite Hp).
  unfold Middleware. rewrite Hb. cbn [negb]. rewrite run_bind. unfold time_Now at 1.
  rewrite run_act, Htk, Hv.
  assert (negb (bool_decide (TokenType claims = "")) && negb (bool_decide (TokenType claims = "access"))
          = false) as -> by (destruct Ht as [-> | ->]; done).
  rewrite run_bind. unfold reads. rewrite run_act, run_bind.
  destruct (bool_decide (is_Some (blacklist w)) && negb (bool_decide (Jwt.ID claims = ""))) eqn:Eb;
    [| exists w; done].
  apply andb_true_iff in Eb as [[b Hbl]%bool_decide_eq_true Hj%negb_true_iff%bool_decide_eq_false].
  specialize (Hr b Hbl Hj). rewrite run_bind. unfold bl_IsRevoked. rewrite run_bind.
  unfold time_Now. rewrite run_act, Htk, run_act. unfold on_blacklist. rewrite Hbl.
  destruct (IsRevoked (clock w) (Jwt.ID claims) b) as [r b'] eqn:Ei. simpl in Hr.
  exists (set_blacklist (Some b') w). split.
  - unfold same_state. cbn [cache repo drawn clock blacklist set_blacklist]. rewrite Hbl.
    do 3 (split; [done |]). split; [lia |]. split; [by split |].
    intros b0 b1 [= <-] [= <-] u j Hu. exact (is_revoked_frame _ _ _ _ _ Ei u j Hu).
  - destruct r as [[|] | e]; [done | |]; reflexivity.
Qed.

(** Roles: behind RequireRole the next handler runs exactly when the verified
    claims carry one of the allowed roles; otherwise the answer is 403, or 401
    when no claims were stored. *)
Theorem require_role_spec (roles : list string) (next : handler W) (c : Ctx) (w : W) :
  run (RequireRole roles next c) w =
  match claims_local c with
  | None => ((Some ErrUnauthorized, c), w)
  | Some claims =>
      if decide (List.Exists (fun r => r ∈ roles) (Roles claims)) then run (next c) w
      else ((Some ErrForbidden, c), w)
  end.
Proof.
  unfold RequireRole, GetClaims. destruct (claims_local c) as [claims |]; [| done].
  destruct (existsb _ (Roles claims)) eqn:E.
  - rewrite decide_True; [done |]. apply existsb_exists in E as (r & Hr & Hin%bool_decide_eq_true).
    apply List.Exists_exists. by exists r.
  - rewrite decide_False; [done |]. intros (r & Hr & Hin)%List.Exists_exists.
    apply not_true_iff_false in E. apply E.
    apply existsb_exists. exists r. split; [done | by apply bool_decide_eq_true].
Qed.

End Auth.

(** ** Rate limiting *)
Section Limit.
Context {C B U G : Type}.
Notation W := (World C B U G).

Definition maxInt (a b : Z) : Z := if b <? a then a else b.

(** [defaultLimiter]: the environment variables override the defaults when they
    parse to something positive. *)
Definition defaultLimiter (rate_limit_max rate_limit_window : string) : Memory.MemoryLimiter :=
  let max := match Atoi rate_limit_max with
             | (n, true) => if negb (bool_decide (rate_limit_max = "")) && (0 <? n) then n else 100
             | _ => 100
             end in
  let window := match ParseDuration rate_limit_window with
                | Some d => if negb (bool_decide (rate_limit_window = "")) && (0 <? d) then d else Minute
                | None => Minute
                end in
  Memory.NewMemory max window.

(** The answer to a request over the quota. *)
Definition too_many : json :=
  JObj [("status", JBool false); ("code", JStr "ERR_RATE_LIMIT");
        ("message", JStr "too many requests, please slow down")].

(** [RateLimiterWith] over a limiter of the world. *)
Definition RateLimiterWith {L} `{Limiter L} (get : W -> L) (put : L -> W -> W)
    (next : handler W) : handler W := fun c =>
  let! now := time_Now in
  let! allowed := act (lift get put (Allow now (ip (request c)))) in
  match allowed with
  | Err _ => next c            (* logged: fail open *)
  | Ok res =>
      let c := c_Set "X-RateLimit-Remaining" (Itoa (maxInt (Remaining res) 0)) c in
      if negb (Allowed res) then
        let retryAfter := seconds_int (RetryAfter res) in
        let retryAfter := if retryAfter <? 1 then 1 else retryAfter in
        Ret (c_JSON 429 too_many (c_Set "Retry-After" (Itoa retryAfter) c))
      else next c
  end.

(** [StrictRateLimiter]: over a memory limiter of its own. *)
Definition StrictRateLimiter (max window : Z) : Memory.MemoryLimiter := Memory.NewMemory max window.

(** The rate limiter decides and nothing else: it asks the limiter once, for
    the client's address; when the limiter fails or allows the request, the next
    handler runs on the state the limiter left; when it refuses, the answer is
    429 with a Retry-After of at least one second, never more than the limiter's
    own wait, and no handler behind it runs. *)
Theorem rate_limiter_spec {L} `{Limiter L} (get : W -> L) (put : L -> W -> W)
    (next : handler W) (c : Ctx) (w : W) :
  let '(now, w1) := tick w in
  let '(allowed, l) := Allow now (ip (request c)) (get w1) in
  let w2 := put l w1 in
  match allowed with
  | Ok res =>
      let c' := c_Set "X-RateLimit-Remaining" (Itoa (maxInt (Remaining res) 0)) c in
      if Allowed res then run (RateLimiterWith get put next c) w = run (next c') w2
      else exists c'' secs, run (RateLimiterWith get put next c) w = ((None, c''), w2) /\
        status c'' = 429 /\ resp_body c'' = Some too_many /\
        header "Retry-After" (resp_headers c'') = Itoa secs /\
        1 <= secs /\ (Second <= RetryAfter res -> secs * Second <= RetryAfter res)
  | Err _ => run (RateLimiterWith get put next c) w = run (next c) w2
  end.
Proof.
  unfold RateLimiterWith. rewrite run_bind. unfold time_Now. rewrite run_act.
  destruct (tick w) as [now w1]. rewrite run_bind, run_act. unfold lift.
  destruct (Allow now (ip (request c)) (get w1)) as [[res | e] l]; [| done].
  destruct (Allowed res) eqn:Ea; cbn [negb]; [done |].
  eexists _, _. split; [reflexivity |]. do 2 (split; [done |]). split; [reflexivity |].
  set (r := seconds_int (RetryAfter res)). split; [destruct (r <? 1) eqn:E; lia |].
  intros Hs. unfold r, seconds_int, Second, Millisecond, Microsecond, Nanosecond in *.
  rewrite Z.quot_div_nonneg by lia.
  pose proof (Z.div_mod (RetryAfter res) (1000 * (1000 * (1000 * 1))) ltac:(lia)).
  pose proof (Z.mod_pos_bound (RetryAfter res) (1000 * (1000 * (1000 * 1))) ltac:(lia)).
  destruct (_ <? 1) eqn:E; lia.
Qed.
End Limit.
