(* ===== verification/Validator.v ===== *)
(** [pkg/validator]: validation of request structs and the messages it answers.

    The struct tags are data; whether one value satisfies one tag is decided by
    the go-playground library, a parameter ([tag_ok]) with its documented
    behaviour ([ValidatorLaws]). Fields are checked in the order they are
    declared; of each field the first tag that fails is reported. *)

From stdpp Require Import base list strings.
From Stdlib Require Import ZArith Lia String.
From S2P Require Import Prelude GoStrings.

(** The tags the program's structs use. *)
Inductive tag : Type := required | omitempty | email | min (n : Z) | max (n : Z) | uuid4.

Definition Tag (t : tag) : string :=
  match t with
  | required => "required" | omitempty => "omitempty" | email => "email"
  | min _ => "min" | max _ => "max" | uuid4 => "uuid4"
  end.

Definition Param (t : tag) : string :=
  match t with min n | max n => Itoa n | _ => "" end.

(** A field: its name in JSON, its value and its tags. *)
Record field : Type := MkField { name : string; value : string; tags : list tag }.

Record FieldError : Type := MkFieldError { Field : string; failed : tag }.

Class ValidatorLib : Type := {
  tag_ok : tag -> string -> bool;
  rune_count : string -> Z             (* utf8.RuneCountInString *)
}.

Class ValidatorLaws `{ValidatorLib} : Prop := {
  required_ok : forall s, tag_ok required s = negb (bool_decide (s = ""));
  min_ok : forall n s, tag_ok (min n) s = (n <=? rune_count s);
  max_ok : forall n s, tag_ok (max n) s = (rune_count s <=? n);
  rune_count_bounds : forall s, 0 <= rune_count s <= Z.of_nat (String.length s)
}.

(** The name [New] gives the fields of a struct: that of the json tag, without its options; the
    library falls back on the Go name for the empty one. *)
Definition tag_name (json_tag : string) : string :=
  let name := hd ""%string (SplitN json_tag (Ascii.ascii_of_nat 44) 2) in
  if String.eqb name "-" then "" else name.

(** [msgForTag]. *)
Definition msgForTag (fe : FieldError) : string :=
  let tag := Tag (failed fe) in
  if String.eqb tag "required" then "is required"
  else if String.eqb tag "email" then "must be a valid email"
  else if String.eqb tag "min" then "must be at least " ++ Param (failed fe) ++ " characters"
  else if String.eqb tag "max" then "must be at most " ++ Param (failed fe) ++ " characters"
  else if String.eqb tag "uuid4" then "must be a valid UUID"
  else "is invalid".

(** A field is reported under the name it has in JSON, whatever options follow; a field kept out
    of JSON, under none. *)
Lemma tag_name_spec (name options : string) :
  str_forall (fun c => negb (Ascii.eqb c (Ascii.ascii_of_nat 44))) name = true ->
  tag_name name = (if String.eqb name "-" then "" else name) /\
  tag_name (name ++ "," ++ options) = (if String.eqb name "-" then "" else name).
Proof.
  intros Hn. unfold tag_name, SplitN.
  assert (forall tail cur, tail = ""%string \/ (exists o, tail = String (Ascii.ascii_of_nat 44) o) ->
    hd ""%string (splitn_acc (Ascii.ascii_of_nat 44) 2 cur (name ++ tail)) = (str_rev cur ++ name)%string) as H.
  { revert Hn. induction name as [| c name IH]; intros Hn tail cur Ht.
    - rewrite append_nil, append_nil_r. by destruct Ht as [-> | [o ->]].
    - cbn in Hn. apply andb_true_iff in Hn as [Hc Hn]. rewrite append_cons. cbn.
      apply negb_true_iff in Hc. rewrite Hc, IH by done. by rewrite str_rev_cons, append_assoc. }
  pose proof (H "" "" ltac:(by left))%string as H1. rewrite append_nil_r in H1. rewrite H1.
  rewrite (H ("," ++ options)%string ""%string) by (right; by eexists). done.
Qed.

Section Validate.
Context `{ValidatorLib}.

(** The first tag of a field that fails; [omitempty] ends the checks of an empty
    value. *)
Fixpoint first_failed (s : string) (ts : list tag) : option tag :=
  match ts with
  | [] => None
  | omitempty :: ts' => if bool_decide (s = "") then None else first_failed s ts'
  | t :: ts' => if tag_ok t s then first_failed s ts' else Some t
  end.

(** [v.Struct(i)]. *)
Fixpoint Struct (fs : list field) : list FieldError :=
  match fs with
  | [] => []
  | f :: fs' =>
      match first_failed (value f) (tags f) with
      | Some t => MkFieldError (name f) t :: Struct fs'
      | None => Struct fs'
      end
  end.

(** [Validate]. *)
Definition Validate (fs : list field) : option error :=
  match Struct fs with
  | [] => None
  | ve => Some (Fresh (Join (map (fun fe => (Field fe ++ ": " ++ msgForTag fe)%string) ve) "; "))
  end.

(** A request passes validation exactly when every field satisfies every one
    of its tags, an empty value being excused from those after omitempty. *)
Theorem validate_spec (fs : list field) :
  Validate fs = None <->
  Forall (fun f => first_failed (value f) (tags f) = None) fs.
Proof.
  unfold Validate. induction fs as [| f fs IH]; simpl; [by split |].
  destruct (first_failed (value f) (tags f)) as [t |] eqn:E.
  - split; [done |]. intros Hf. apply Forall_cons in Hf as [Hf _]. congruence.
  - rewrite Forall_cons, E. destruct (Struct fs); naive_solver.
Qed.
End Validate.

Lemma first_failed_none `{ValidatorLib} s ts :
  (forall t, t ∈ ts -> t <> omitempty) ->
  first_failed s ts = None <-> Forall (fun t => tag_ok t s = true) ts.
Proof.
  induction ts as [| t ts IH]; intros Ho; [by split |].
  rewrite Forall_cons, <- IH by (intros t' Ht'; apply Ho; by right).
  assert (t <> omitempty) as Ht by (apply Ho; by left).
  destruct t; simpl; try done; destruct (tag_ok _ s) eqn:E; naive_solver.
Qed.

(** A validator to instantiate the library with: runes are counted by their
    first bytes, an address is anything with an at sign. *)
Module PlainValidator.

Definition continuation (c : Ascii.ascii) : bool := (128 <=? byte_of c) && (byte_of c <? 192).

Fixpoint runes (s : string) : Z :=
  match s with
  | EmptyString => 0
  | String c s' => (if continuation c then 0 else 1) + runes s'
  end.

#[export] Instance plain_validator : ValidatorLib := {|
  tag_ok t s :=
    match t with
    | required => negb (bool_decide (s = ""))
    | email => Contains s "@"
    | min n => n <=? runes s
    | max n => runes s <=? n
    | omitempty | uuid4 => true
    end;
  rune_count := runes
|}.

#[export] Instance plain_validator_laws : ValidatorLaws.
Proof.
  split; try done. intros s. simpl. induction s as [| c s IH]; simpl; [lia |].
  destruct (continuation c); lia.
Qed.
End PlainValidator.
