(* ===== verification/Handlers.v ===== *)
(** The HTTP handlers: [internal/delivery/http/handler/auth_handler.go] and
    [user_handler.go], over the use cases, the validator and the response
    envelopes.

    Parsing a request body into a struct is fiber's: a parameter ([Parsers]). *)

From stdpp Require Import base gmap strings list fin_maps.
From Stdlib Require Import ZArith Lia String.
From S2P Require Import Prelude Prog GoStrings Json Cache Blacklist Jwt Pagination User World UserUseCase AuthUseCase Http Middleware Validator.

(** [c.BodyParser], [c.QueryParser] and the JSON of a time. *)
Class Parsers : Type := {
  parse_login : Request -> result LoginRequest;
  parse_refresh : Request -> result RefreshRequest;
  parse_logout : Request -> string;               (* the refresh token; errors are ignored *)
  parse_forgot : Request -> result ForgotPasswordRequest;
  parse_reset : Request -> result ResetPasswordRequest;
  parse_create : Request -> result CreateUserRequest;
  parse_update : Request -> result UpdateUserRequest;
  parse_page : Request -> Pagination.Request;     (* errors are ignored *)
  time_json : Z -> json
}.

(** The tags of the request structs. *)
Definition login_fields (r : LoginRequest) : list field :=
  [MkField "email" (lEmail r) [required; email]; MkField "password" (lPassword r) [required]].
Definition refresh_fields (r : RefreshRequest) : list field :=
  [MkField "refresh_token" (rRefreshToken r) [required]].
Definition forgot_fields (r : ForgotPasswordRequest) : list field :=
  [MkField "email" (fEmail r) [required; email]].
Definition reset_fields (r : ResetPasswordRequest) : list field :=
  [MkField "token" (sToken r) [required]; MkField "password" (sPassword r) [required; min 8; max 72]].
Definition create_fields (r : CreateUserRequest) : list field :=
  [MkField "name" (cName r) [required; min 2; max 100]; MkField "email" (cEmail r) [required; email];
   MkField "password" (cPassword r) [required; min 8; max 72]].
Definition update_fields (r : UpdateUserRequest) : list field :=
  [MkField "name" (uName r) [omitempty; min 2; max 100]; MkField "email" (uEmail r) [omitempty; email]].

Section Handlers.
Context {jwt : JwtLib} {bcrypt : BcryptLib} {uuid : UuidLib} {val : ValidatorLib} {prs : Parsers}.
Context {C B U G : Type} `{!Cacher C, !Blacklist B, !UserRepository U}.
Context (random : nat -> string) (a : authUseCase).
Notation W := (World C B U G).

(** The answer to a body that does not parse or validate, or the rest. *)
Definition with_body {A} (parsed : result A) (fields : A -> list field) (c : Ctx)
    (k : A -> prog W (option error * Ctx)) : prog W (option error * Ctx) :=
  match parsed with
  | Err _ => Ret (Response.BadRequest "invalid request body" c)
  | Ok req =>
      match Validate (fields req) with
      | Some err => Ret (Response.BadRequest (error_text err) c)
      | None => k req
      end
  end.

(** ** Authentication *)
(** [mapError] of the auth handler. *)
Definition auth_mapError (err : error) (c : Ctx) : option error * Ctx :=
  if errors_is err ErrInvalidCredentials then Response.Unauthorized c
  else if errors_is err ErrInvalidToken then Response.Unauthorized c
  else Response.InternalError c.

Definition tokens_json (p : LoginResponse) : json :=
  JObj [("access_token", JStr (AccessToken p)); ("refresh_token", JStr (RefreshToken p));
        ("expires_in", JNum (ExpiresIn p))].

Definition handle_Login : handler W := fun c =>
  with_body (parse_login (request c)) login_fields c (fun req =>
    let! r := Login random a req in
    Ret (match r with
         | Err err => auth_mapError err c
         | Ok resp => Response.Success "login successful" (Some (tokens_json resp)) c
         end)).

Definition handle_Refresh : handler W := fun c =>
  with_body (parse_refresh (request c)) refresh_fields c (fun req =>
    let! r := Refresh random a req in
    Ret (match r with
         | Err err => auth_mapError err c
         | Ok resp => Response.Success "token refreshed" (Some (tokens_json resp)) c
         end)).

Definition handle_Logout : handler W := fun c =>
  let raw := c_Get "Authorization" c in
  if negb (HasPrefix raw bearer) then Ret (Response.Unauthorized c)
  else
    let accessToken := TrimPrefix raw bearer in
    let! r := Logout a accessToken (parse_logout (request c)) in
    Ret (match r with
         | Some err => auth_mapError err c
         | None => Response.Success "logged out" None c
         end).

Definition handle_ForgotPassword (env : string) : handler W := fun c =>
  with_body (parse_forgot (request c)) forgot_fields c (fun req =>
    let! r := ForgotPassword req in
    Ret (match r with
         | Err _ => Response.InternalError c
         | Ok token =>
             let data :=
               [("message", JStr "if the email is registered you will receive a reset token")]
               ++ (if negb (bool_decide (token = "")) && negb (bool_decide (env = "production"))
                   then [("reset_token", JStr token)] else []) in
             Response.Success "password reset requested" (Some (JObj data)) c
         end)).

Definition handle_ResetPassword : handler W := fun c =>
  with_body (parse_reset (request c)) reset_fields c (fun req =>
    let! r := ResetPassword a req in
    Ret (match r with
         | Some err => auth_mapError err c
         | None => Response.Success "password reset successful" None c
         end)).

(** ** Users *)
(** [mapError] of the user handler. *)
Definition user_mapError (err : error) (c : Ctx) : option error * Ctx :=
  if errors_is err Prelude.ErrNotFound then Response.NotFound "user not found" c
  else if errors_is err ErrEmailConflict then Response.Conflict "email already in use" c
  else if errors_is err ErrInvalidUUID then Response.BadRequest "invalid id format" c
  else Response.InternalError c.

(** The JSON of a user: neither the hash nor the deletion mark is in it. *)
Definition user_json (u : User) : json :=
  JObj [("id", JStr (uuid_String (User.ID u))); ("name", JStr (Name u)); ("email", JStr (Email u));
        ("created_at", time_json (CreatedAt u)); ("updated_at", time_json (UpdatedAt u))].

Definition handle_GetUser : handler W := fun c =>
  let! r := GetUser (id_param (request c)) in
  Ret (match r with
       | Err err => user_mapError err c
       | Ok user => Response.Success "user retrieved" (Some (user_json user)) c
       end).

Definition handle_ListUsers : handler W := fun c =>
  let req := parse_page (request c) in
  let! r := ListUsersPaged req in
  Ret (match r with
       | Err _ => Response.InternalError c
       | Ok (users, total) =>
           Response.Paginated "users retrieved" (Some (JArr (map user_json users)))
             (PageNum req) (PageSize req) total c
       end).

Definition handle_CreateUser : handler W := fun c =>
  with_body (parse_create (request c)) create_fields c (fun req =>
    let! r := CreateUser req in
    Ret (match r with
         | Err err => user_mapError err c
         | Ok user => Response.Created "user created" (Some (user_json user)) c
         end)).

Definition handle_UpdateUser : handler W := fun c =>
  with_body (parse_update (request c)) update_fields c (fun req =>
    let! r := UpdateUser (id_param (request c)) req in
    Ret (match r with
         | Err err => user_mapError err c
         | Ok user => Response.Success "user updated" (Some (user_json user)) c
         end)).

Definition handle_DeleteUser : handler W := fun c =>
  let! r := DeleteUser (id_param (request c)) in
  Ret (match r with
       | Some err => user_mapError err c
       | None => Response.Success "user deleted" None c
       end).

(** ** Properties *)

(** The body of a password-reset request that was accepted, in production. *)
Definition forgot_generic : json :=
  Response.envelope true "password reset requested"
    (Some (JObj [("message", JStr "if the email is registered you will receive a reset token")])).

(** In production a password-reset request does not tell whether the address
    is registered: every answer is one of three fixed ones (the generic
    confirmation, the request's own validation error, the internal error), and
    the confirmation is the same byte for byte for known and unknown addresses;
    outside production only a registered address adds the token to it. *)
Theorem forgot_no_enumeration (c : Ctx) (w : W) :
  let out := (run (handle_ForgotPassword "production" c) w).1 in
  out.1 = None /\
  ((status out.2 = 200 /\ resp_body out.2 = Some forgot_generic) \/
   out = Response.InternalError c \/
   out = Response.BadRequest "invalid request body" c \/
   exists req err, parse_forgot (request c) = Ok req /\ Validate (forgot_fields req) = Some err /\
     out = Response.BadRequest (error_text err) c).
Proof.
  cbv zeta. unfold handle_ForgotPassword, with_body.
  destruct (parse_forgot (request c)) as [req | e] eqn:Ep; [| cbn; auto].
  destruct (Validate (forgot_fields req)) as [err |] eqn:Ev.
  { simpl. split; [done |]. right. right. right. eauto. }
  rewrite run_bind. destruct (run (ForgotPassword req) w) as [[token | err] w']; simpl; [| by auto].
  split; [done |]. left. split; [done |]. by rewrite andb_false_r.
Qed.

(** The statuses the user endpoints answer with. *)
Lemma user_mapError_status err c :
  (user_mapError err c).1 = None /\
  (status (user_mapError err c).2 = 404 \/ status (user_mapError err c).2 = 409 \/
   status (user_mapError err c).2 = 400 \/ status (user_mapError err c).2 = 500).
Proof.
  unfold user_mapError. destruct (errors_is err Prelude.ErrNotFound); [simpl; auto |].
  destruct (errors_is err ErrEmailConflict); [simpl; auto |].
  destruct (errors_is err ErrInvalidUUID); simpl; auto.
Qed.

Context {bcl : BcryptLaws} {uul : UuidLaws} {vall : ValidatorLaws} `{!UserRepositoryLaws U}.

(** The validator counts characters and bcrypt counts bytes: a registration
    whose password has at most 72 characters but more than 72 bytes passes
    validation and, when the address is free, is answered 500. *)
Theorem long_password_internal_error (c : Ctx) (w : W) (req : CreateUserRequest) :
  parse_create (request c) = Ok req -> Validate (create_fields req) = None ->
  72 < Z.of_nat (String.length (cPassword req)) ->
  (ExistsByEmail (cEmail req) (repo w)).1 = Ok false ->
  rune_count (cPassword req) <= 72 /\
  (run (handle_CreateUser c) w).1 = Response.InternalError c.
Proof.
  intros Hp Hv Hl Hex. split.
  - apply validate_spec in Hv. unfold create_fields in Hv. rewrite !Forall_cons in Hv.
    destruct Hv as (_ & _ & Hv & _). cbn [value tags] in Hv.
    apply first_failed_none in Hv; [| set_solver].
    rewrite !Forall_cons in Hv. destruct Hv as (_ & _ & Hm & _). rewrite max_ok in Hm. lia.
  - unfold handle_CreateUser, with_body. rewrite Hp, Hv, run_bind.
    assert (wp (CreateUser req) (fun r _ => exists msg, r = Err (errorf "hashing password: " (Fresh msg))) w) as Hwp.
    { unfold CreateUser. apply wp_bind, wp_repo. intros ex d w1 Eex _ _ _ _ _.
      rewrite Eex in Hex. simpl in Hex. subst ex. apply wp_bind, wp_draw. intros w2 _ _ _ _ _.
      destruct (bcrypt_limit (drawn w1) (cPassword req) DefaultCost Hl) as [msg Hb].
      rewrite Hb. apply wp_ret. by exists msg. }
    destruct Hwp as [msg He]. destruct (run (CreateUser req) w) as [r w']. simpl in He. by subst r.
Qed.

Notation users w := (rows (repo w)).

(** What an endpoint that may change users promises: it answers itself, a status
    of success (200 or 201) or one of the documented failures, and a request that
    is not answered with success has changed no user. *)
Definition success_or_unchanged (w : W) (out : option error * Ctx) (w' : W) : Prop :=
  out.1 = None /\
  (status out.2 = 200 \/ status out.2 = 201 \/
   (users w' = users w /\
    (status out.2 = 404 \/ status out.2 = 409 \/ status out.2 = 400 \/ status out.2 = 500))).

Lemma with_body_spec {A} (parsed : result A) fields c (k : A -> prog W (option error * Ctx)) w :
  (forall req, wp (k req) (success_or_unchanged w) w) ->
  wp (with_body parsed fields c k) (success_or_unchanged w) w.
Proof.
  intros Hk. unfold with_body, success_or_unchanged.
  destruct parsed as [req | e]; [| apply wp_ret; simpl; tauto].
  destruct (Validate (fields req)); [apply wp_ret; simpl; tauto | apply Hk].
Qed.

(** Users change only with a success: each of the three endpoints that write
    users answers every request itself, and unless the answer is 200 or 201 the
    table is what it was before the request. *)
Theorem user_endpoints_atomic (h : handler W) (c : Ctx) (w : W) :
  h ∈ [handle_CreateUser; handle_UpdateUser; handle_DeleteUser] ->
  let '(out, w') := run (h c) w in success_or_unchanged w out w'.
Proof.
  intros Hh. apply run_wp. rewrite !elem_of_cons, elem_of_nil in Hh.
  destruct Hh as [-> | [-> | [-> | []]]].
  - apply with_body_spec. intros req. apply wp_bind. unfold wp.
    pose proof (create_user_spec req w) as Hs. destruct (run (CreateUser req) w) as [[u | e] w'];
      simpl; [split; [done | by auto] |].
    destruct Hs as [Hs _]. destruct (user_mapError_status e c) as [? ?]. split; [done | tauto].
  - apply with_body_spec. intros req. apply wp_bind. unfold wp.
    pose proof (update_user_spec (id_param (request c)) req w) as Hs.
    destruct (run (UpdateUser _ req) w) as [[u | e] w']; simpl; [split; [done | by auto] |].
    destruct (user_mapError_status e c) as [? ?]. split; [done | tauto].
  - apply wp_bind. unfold wp. pose proof (delete_user_spec (id_param (request c)) w) as Hs.
    destruct (run (DeleteUser _) w) as [[e |] w']; simpl; [| split; [done | by auto]].
    destruct Hs as [Hs _]. destruct (user_mapError_status e c) as [? ?]. split; [done | tauto].
Qed.
End Handlers.
