(* ===== verification/Health.v ===== *)
(** The health endpoint ([internal/delivery/http/handler/health_handler.go]):
    a mandatory database ping and the registered probes. *)

From stdpp Require Import base list strings gmap.
From Stdlib Require Import ZArith Lia String.
From S2P Require Import Prelude Prog GoStrings GoTime Json Http.

Section Health.
Context {W : Type}.

(** A probe returns "ok", "down", or "not_configured". *)
Definition Checker : Type := prog W string.

Record HealthHandler : Type := MkHealth {
  db_ping : Z -> prog W (option error);   (* db.PingContext under a deadline *)
  extras : gmap string Checker;
  startTime : Z;
  version : string;
  probeTimeout : Z
}.

Definition NewHealthHandler (db : Z -> prog W (option error)) (startTime : Z) (version : string)
    (probeTimeout : Z) : HealthHandler :=
  MkHealth db ∅ startTime version (if probeTimeout <=? 0 then 2 * Second else probeTimeout).

Definition AddChecker (name : string) (fn : Checker) (h : HealthHandler) : HealthHandler :=
  MkHealth (db_ping h) (<[name := fn]> (extras h)) (startTime h) (version h) (probeTimeout h).

(** What the probes leave: the map of answers, the overall word and the code. *)
Definition verdict : Type := gmap string string * string * Z.

Definition note (name result : string) (v : verdict) : verdict :=
  let '(services, overall, code) := v in
  let services := <[name := result]> services in
  if String.eqb result "down" then (services, "degraded", 503) else (services, overall, code).

(** The loop over the probes, in the order Go's map iteration picks. *)
Fixpoint probes (order : list (string * Checker)) (v : verdict) : prog W verdict :=
  match order with
  | [] => Ret v
  | (name, check) :: rest => let! result := check in probes rest (note name result v)
  end.

Definition Check (now : prog W Z) (h : HealthHandler) (order : list (string * Checker)) : handler W :=
  fun c =>
  let! err := db_ping h (probeTimeout h) in
  let v := match err with
           | Some _ => ({["database" := "down"]}, "degraded", 503)
           | None => ({["database" := "ok"]}, "ok", 200)
           end in
  let! v := probes order v in
  let! t := now in
  let '(services, overall, code) := v in
  Ret (c_JSON code
         (JObj [("status", JStr overall);
                ("services", JObj (map (fun kv => (kv.1, JStr kv.2)) (map_to_list services)));
                ("version", JStr (version h));
                ("uptime", JStr (Duration_String (Round (wrap64 (t - startTime h)) Second)))]) c).

(** The answers of the probes run one after the other. *)
Fixpoint answers (order : list (string * Checker)) (w : W) : list (string * string) * W :=
  match order with
  | [] => ([], w)
  | (name, check) :: rest =>
      let '(result, w) := run check w in
      let '(l, w) := answers rest w in ((name, result) :: l, w)
  end.

Lemma run_probes order v w :
  run (probes order v) w =
  (fold_left (fun v nr => note nr.1 nr.2 v) (answers order w).1 v, (answers order w).2).
Proof.
  revert v w. induction order as [| [name check] rest IH]; intros v w; simpl; [done |].
  rewrite run_bind. destruct (run check w) as [result w1]. rewrite IH.
  by destruct (answers rest w1) as [l w2].
Qed.

Lemma answers_names order w : map fst (answers order w).1 = map fst order.
Proof.
  revert w. induction order as [| [name check] rest IH]; intros w; simpl; [done |].
  destruct (run check w) as [result w1]. specialize (IH w1).
  destruct (answers rest w1) as [l w2]. simpl in *. by rewrite IH.
Qed.

(** The word and the code after a list of answers. *)
Lemma fold_note l services overall code :
  fold_left (fun v nr => note nr.1 nr.2 v) l (services, overall, code) =
  (fold_left (fun m nr => <[nr.1 := nr.2]> m) l services,
   if existsb (fun nr => String.eqb nr.2 "down") l then "degraded" else overall,
   if existsb (fun nr => String.eqb nr.2 "down") l then 503 else code).
Proof.
  revert services overall code. induction l as [| [name result] l IH]; intros; simpl; [done |].
  destruct (String.eqb result "down"); simpl; rewrite IH; [| done].
  by destruct (existsb _ l).
Qed.

Lemma fold_insert_absent (l : list (string * string)) (m : gmap string string) k :
  k ∉ map fst l -> fold_left (fun m nr => <[nr.1 := nr.2]> m) l m !! k = m !! k.
Proof.
  revert m. induction l as [| [n r] l IH]; intros m H; simpl; [done |].
  simpl in H. rewrite not_elem_of_cons in H. destruct H as [H1 H2].
  rewrite IH by done. by apply lookup_insert_ne.
Qed.

Lemma fold_insert_lookup (l : list (string * string)) (m : gmap string string) k r :
  NoDup (map fst l) -> (k, r) ∈ l ->
  fold_left (fun m nr => <[nr.1 := nr.2]> m) l m !! k = Some r.
Proof.
  revert m. induction l as [| [n r'] l IH]; intros m Hnd Hin; simpl; [by apply not_elem_of_nil in Hin |].
  simpl in Hnd. apply NoDup_cons in Hnd as [Hn Hnd].
  apply elem_of_cons in Hin as [[= <- <-] | Hin]; [| by apply IH].
  rewrite fold_insert_absent by done. by rewrite lookup_insert_eq.
Qed.

Lemma fold_insert_dom (l : list (string * string)) (m : gmap string string) :
  dom (fold_left (fun m nr => <[nr.1 := nr.2]> m) l m) = dom m ∪ list_to_set (map fst l).
Proof.
  revert m. induction l as [| [n r] l IH]; intros m; simpl; [set_solver |].
  rewrite IH, dom_insert_L. set_solver.
Qed.

Lemma dom_order (order : list (string * Checker)) h :
  order ≡ₚ map_to_list (extras h) ->
  NoDup (map fst order) /\ list_to_set (map fst order) = (dom (extras h) : gset string).
Proof.
  intros H. split.
  - rewrite H. apply NoDup_fst_map_to_list.
  - apply set_eq. intros k. rewrite elem_of_list_to_set, H, elem_of_dom.
    change (map fst (map_to_list (extras h))) with ((map_to_list (extras h)).*1).
    rewrite list_elem_of_fmap. split.
    + intros ([k' f] & -> & Hin). apply elem_of_map_to_list in Hin. by exists f.
    + intros [f Hf]. exists (k, f). split; [done |]. by apply elem_of_map_to_list.
Qed.

Lemma existsb_down (l : list (string * string)) :
  existsb (fun nr => String.eqb nr.2 "down") l = true <-> exists n, (n, "down") ∈ l.
Proof.
  rewrite existsb_exists. split.
  - intros ([n r] & Hin & Hr%String.eqb_eq). simpl in Hr. subst. exists n. by apply list_elem_of_In.
  - intros [n Hin]. exists (n, "down"). split; [by apply list_elem_of_In | apply String.eqb_refl].
Qed.

Definition db_word (err : option error) : string :=
  match err with Some _ => "down" | None => "ok" end.

Lemma Check_spec (now : prog W Z) (h : HealthHandler) (order : list (string * Checker))
    (c : Ctx) (w : W)
    (Horder : order ≡ₚ map_to_list (extras h)) (Hname : extras h !! "database" = None) :
  let '(err, w1) := run (db_ping h (probeTimeout h)) w in
  let '(l, w2) := answers order w1 in
  let '((res, c'), _) := run (Check now h order c) w in
  exists services rest,
    res = None /\
    (status c' = 503 <-> err <> None \/ exists n, (n, "down") ∈ l) /\
    (status c' = 503 \/ status c' = 200) /\
    resp_body c' =
      Some (JObj (("status", JStr (if status c' =? 200 then "ok" else "degraded"))
                  :: ("services", JObj (map (fun kv => (kv.1, JStr kv.2)) (map_to_list services)))
                  :: rest)) /\
    dom services = {["database"]} ∪ dom (extras h) /\
    services !! "database" = Some (db_word err) /\
    (forall n r, (n, r) ∈ l -> services !! n = Some r).
Proof.
  destruct (run (db_ping h (probeTimeout h)) w) as [err w1] eqn:Eping.
  destruct (answers order w1) as [l w2] eqn:El.
  unfold Check. rewrite run_bind, Eping, run_bind, run_probes, El. cbn [fst snd].
  destruct (dom_order _ _ Horder) as [Hnd Hdom].
  assert (Hfst : map fst l = map fst order) by (rewrite <- (answers_names order w1), El; done).
  assert (Hdb : "database" ∉ map fst l).
  { rewrite Hfst. intros Hin. apply (elem_of_list_to_set (C := gset string)) in Hin.
    rewrite Hdom in Hin. apply elem_of_dom in Hin as [f Hf]. congruence. }
  assert (Hv : forall word code,
    fold_left (fun v nr => note nr.1 nr.2 v) l
      (match err with
       | Some _ => ({["database" := "down"]}, "degraded", 503)
       | None => ({["database" := "ok"]}, word, code)
       end) =
    (fold_left (fun m nr => <[nr.1 := nr.2]> m) l {["database" := db_word err]},
     if existsb (fun nr => String.eqb nr.2 "down") l then "degraded"
     else match err with Some _ => "degraded" | None => word end,
     if existsb (fun nr => String.eqb nr.2 "down") l then 503
     else match err with Some _ => 503 | None => code end)).
  { intros. by destruct err; rewrite fold_note. }
  rewrite Hv. clear Hv. rewrite run_bind. destruct (run now w2) as [t w3]. cbn [fst snd run c_JSON status resp_body].
  eexists _, _. split; [reflexivity |].
  pose proof (existsb_down l) as Hdown.
  split; [| split; [| split; [| split; [| split]]]].
  - destruct (existsb _ l), err; intuition (try congruence; eauto).
  - destruct (existsb _ l), err; auto.
  - destruct (existsb _ l), err; reflexivity.
  - rewrite fold_insert_dom, dom_singleton_L, Hfst, Hdom. done.
  - rewrite fold_insert_absent by done. by apply lookup_singleton_eq.
  - intros n r Hin. apply fold_insert_lookup; [by rewrite Hfst | done].
Qed.

(** The endpoint never fails, in whatever order the probes run: it answers
    503 "degraded" exactly when the database ping fails or some probe answers
    the very word "down", and 200 "ok" otherwise; its "services" object has the
    database and every registered dependency, each once, with what it answered. *)
Theorem health_spec (now : prog W Z) (h : HealthHandler) (order : list (string * Checker))
    (c : Ctx) (w : W)
    (Horder : order ≡ₚ map_to_list (extras h)) (Hname : extras h !! "database" = None) :
  let '(err, w1) := run (db_ping h (probeTimeout h)) w in
  let '(l, w2) := answers order w1 in
  let '((res, c'), _) := run (Check now h order c) w in
  exists services rest,
    res = None /\
    (status c' = 503 <-> err <> None \/ exists n, (n, "down") ∈ l) /\
    (status c' = 503 \/ status c' = 200) /\
    resp_body c' =
      Some (JObj (("status", JStr (if status c' =? 200 then "ok" else "degraded"))
                  :: ("services", JObj (map (fun kv => (kv.1, JStr kv.2)) (map_to_list services)))
                  :: rest)) /\
    dom services = {["database"]} ∪ dom (extras h) /\
    services !! "database" = Some (db_word err) /\
    (forall n r, (n, r) ∈ l -> services !! n = Some r).
Proof. by apply Check_spec. Qed.
End Health.
