(* ===== verification/Routes.v ===== *)
(** The route table: [internal/delivery/http/route] (auth_route.go,
    user_route.go, router.go), with the handler chain of every endpoint. *)

From stdpp Require Import base gmap strings list fin_maps.
From Stdlib Require Import ZArith Lia String.
From S2P Require Import Prelude Prog GoStrings Json Cache Blacklist RateLimit Jwt Pagination User World UserUseCase AuthUseCase Http Middleware Validator Handlers.

Section Routes.
Context {jwt : JwtLib} {bcrypt : BcryptLib} {uuid : UuidLib} {val : ValidatorLib} {prs : Parsers}.
Context {C B U G : Type} `{!Cacher C, !Blacklist B, !UserRepository U}.
Context (random : nat -> string) (a : authUseCase) (appEnv : string).
Notation W := (World C B U G).

Record route : Type := MkRoute { r_method : string; r_path : string; r_handler : handler W }.

(** The limiters the two files create; their state is in the world. *)
Definition loginLimiter_init : Memory.MemoryLimiter := StrictRateLimiter 10 Minute.
Definition writeLimiter_init : Memory.MemoryLimiter := StrictRateLimiter 20 Minute.
Definition loginLimiter : handler W -> handler W := RateLimiterWith login_limiter set_login.
Definition writeLimiter : handler W -> handler W := RateLimiterWith write_limiter set_write.

(** [RegisterAuthRoutes]. *)
Definition RegisterAuthRoutes : list route :=
  [MkRoute "POST" "/api/v1/auth/login" (loginLimiter (handle_Login random a));
   MkRoute "POST" "/api/v1/auth/refresh" (loginLimiter (handle_Refresh random a));
   MkRoute "POST" "/api/v1/auth/logout" (Middleware (jwtCfg a) (handle_Logout a));
   MkRoute "POST" "/api/v1/auth/forgot-password" (loginLimiter (handle_ForgotPassword appEnv));
   MkRoute "POST" "/api/v1/auth/reset-password" (loginLimiter (handle_ResetPassword a))].

(** [RegisterUserRoutes]: the group's middleware comes first. *)
Definition delete_chain : handler W := writeLimiter (RequireRole ["admin"] handle_DeleteUser).
Definition RegisterUserRoutes : list route :=
  let authMW := Middleware (jwtCfg a) in
  [MkRoute "GET" "/api/v1/users/" (authMW handle_ListUsers);
   MkRoute "GET" "/api/v1/users/:id" (authMW handle_GetUser);
   MkRoute "POST" "/api/v1/users/" (authMW (writeLimiter handle_CreateUser));
   MkRoute "PUT" "/api/v1/users/:id" (authMW (writeLimiter handle_UpdateUser));
   MkRoute "DELETE" "/api/v1/users/:id" (authMW delete_chain)].

(** [Setup]: the metrics and documentation handlers are libraries'. *)
Definition Setup (health metrics swagger : handler W) : list route :=
  [MkRoute "GET" "/" (welcomeHandler appEnv);
   MkRoute "GET" "/health" health;
   MkRoute "GET" "/metrics" (prodGuard appEnv metrics);
   MkRoute "GET" "/docs/*" (prodGuard appEnv swagger)]
  ++ RegisterAuthRoutes ++ RegisterUserRoutes.

Context `{!BlacklistLaws B}.

(** A request that carries no token the middleware accepts. *)
Definition no_token (r : Request) : Prop :=
  let raw := header "Authorization" (req_headers r) in
  HasPrefix raw bearer = false \/
  forall t c, Verify t (TrimPrefix raw bearer) (jwtCfg a) = Ok c ->
    TokenType c <> "" /\ TokenType c <> "access".

(** Behind the middleware such a request meets nothing. *)
Lemma wp_no_token next c (Q : option error * Ctx -> W -> Prop) (w : W) :
  no_token (request c) -> (forall w', same_state w w' -> Q (Some ErrUnauthorized, c) w') ->
  wp (Middleware (jwtCfg a) next c) Q w.
Proof.
  intros Hn HQ. apply wp_Middleware; [exact HQ |].
  intros w' claims _ (Hp & (t & _ & Hv) & Ht) _. exfalso. unfold c_Get in *.
  destruct Hn as [Hn | Hn]; [congruence |]. destruct (Hn t claims Hv) as [H1 H2]. tauto.
Qed.

(** The routes behind the middleware. *)
Lemma guarded_by_middleware (r : route) :
  r ∈ RegisterUserRoutes \/ r_path r = "/api/v1/auth/logout" /\ r ∈ RegisterAuthRoutes ->
  exists next, r_handler r = Middleware (jwtCfg a) next.
Proof.
  intros [Hr | [Hp Hr]].
  - unfold RegisterUserRoutes in Hr. rewrite !elem_of_cons, elem_of_nil in Hr.
    destruct Hr as [-> | [-> | [-> | [-> | [-> | []]]]]]; by eexists.
  - unfold RegisterAuthRoutes in Hr. rewrite !elem_of_cons, elem_of_nil in Hr.
    destruct Hr as [-> | [-> | [-> | [-> | [-> | []]]]]]; try discriminate Hp. by eexists.
Qed.

(** The user routes and the logout route are closed to a request without a
    valid access token: whatever the request, it is answered 401 and the cache,
    the users and the random source are untouched. *)
Theorem guarded_routes (r : route) (q : Request) (w : W) :
  r ∈ RegisterUserRoutes \/ r_path r = "/api/v1/auth/logout" /\ r ∈ RegisterAuthRoutes ->
  no_token q ->
  let '(c, w') := run (serve (r_handler r) q) w in
  status c = 401 /\ same_state w w' /\
  resp_body c = Some (JObj [("status", JBool false); ("message", JStr "Unauthorized")]).
Proof.
  intros Hr Hn. destruct (guarded_by_middleware r Hr) as [next ->]. apply run_wp. unfold serve.
  apply wp_bind, wp_no_token; [done |]. intros w' Hs. by apply wp_ret.
Qed.

(** Internal endpoints do not exist in production: the metrics and the
    documentation are answered 404, whatever stands behind the guard. *)
Theorem production_hides_internals (health metrics swagger : handler W) (r : route)
    (q : Request) (w : W) :
  appEnv = "production" -> r ∈ Setup health metrics swagger ->
  r_path r = "/metrics" \/ r_path r = "/docs/*" ->
  let '(c, w') := run (serve (r_handler r) q) w in status c = 404 /\ w' = w.
Proof.
  intros He Hr Hp. unfold Setup in Hr. rewrite elem_of_app in Hr. destruct Hr as [Hr | Hr].
  - rewrite !elem_of_cons, elem_of_nil in Hr. simpl in Hr.
    destruct Hr as [-> | [-> | [-> | [-> | []]]]]; simpl in Hp; try (destruct Hp; discriminate);
      unfold prodGuard; simpl; by rewrite He.
  - exfalso. unfold RegisterAuthRoutes, RegisterUserRoutes in Hr. simpl in Hr.
    rewrite !elem_of_cons, elem_of_nil in Hr.
    destruct Hr as [-> | [-> | [-> | [-> | [-> | [-> | [-> | [-> | [-> | [-> | []]]]]]]]]]];
      simpl in Hp; destruct Hp; discriminate.
Qed.

Context {jwtl : JwtLaws} {bcl : BcryptLaws} {uul : UuidLaws} `{!CacherLaws C, !UserRepositoryLaws U}.

(** The delete chain refuses claims without a role. *)
Lemma delete_chain_refuses c (w : W) :
  (forall cl, claims_local c = Some cl -> Roles cl = []) ->
  repo (run (delete_chain c) w).2 = repo w.
Proof.
  intros Hc. unfold delete_chain, writeLimiter, RateLimiterWith. rewrite run_bind.
  unfold time_Now. rewrite run_act. destruct (tick w) as [now w1] eqn:Et.
  apply tick_eq in Et as (_ & _ & Hr & _). rewrite run_bind, run_act. unfold lift.
  destruct (Allow now (ip (request c)) (write_limiter w1)) as [[res | e] l].
  - destruct (negb (Allowed res)); [by rewrite run_ret |].
    rewrite require_role_spec. cbn [claims_local c_Set]. destruct (claims_local c) as [cl |]; [| done].
    rewrite (Hc cl eq_refl), decide_False; [done |]. intros Hx. inversion Hx.
  - rewrite require_role_spec. destruct (claims_local c) as [cl |]; [| done].
    rewrite (Hc cl eq_refl), decide_False; [done |]. intros Hx. inversion Hx.
Qed.

(** Nobody who logs in through the API can delete users: the tokens Login
    answers carry no role, and behind the role guard of the delete route such a
    token never changes the user table, at any time and in any state. *)
Theorem login_cannot_delete (req : LoginRequest) (resp : LoginResponse) (w w2 : W)
    (q : Request) :
  (run (Login random a req) w).1 = Ok resp ->
  header "Authorization" (req_headers q) = (bearer ++ AccessToken resp)%string ->
  repo (run (serve (Middleware (jwtCfg a) delete_chain) q) w2).2 = repo w2.
Proof.
  intros Hl Hq. pose proof (login_spec random a req w) as Hs.
  destruct (run (Login random a req) w) as [r w1]. simpl in Hl. subst r.
  destruct Hs as (_ & user & _ & _ & _ & Hacc & _).
  enough (wp (serve (Middleware (jwtCfg a) delete_chain) q) (fun _ w3 => repo w3 = repo w2) w2) by done.
  unfold serve. apply wp_bind, wp_Middleware.
  - intros w3 (_ & Hr & _). by apply wp_ret.
  - intros w3 claims (_ & Hr & _) (_ & (t & _ & Hv) & _) _.
    unfold c_Get in Hv. cbn [request fresh_ctx] in Hv. rewrite Hq, TrimPrefix_app in Hv.
    destruct (Hacc t claims Hv) as (_ & _ & Hroles). unfold wp.
    pose proof (delete_chain_refuses (set_claims claims (fresh_ctx q)) w3) as Hd.
    destruct (run (delete_chain _) w3) as [[e c'] w4]. simpl in *.
    destruct e as [e |]; cbn [run fst snd]; rewrite Hd, <- Hr; try done; by intros cl [= <-].
Qed.
End Routes.
