(* ===== verification/Envelopes.v ===== *)
(** The shape of what the API answers: every response of the authentication and user
    routes is a well-typed envelope. *)

From stdpp Require Import base gmap strings list fin_maps.
From Stdlib Require Import ZArith Lia String.
From S2P Require Import Prelude Prog GoStrings Json Cache Blacklist RateLimit Jwt Pagination User World UserUseCase AuthUseCase Http Middleware Validator Handlers Routes.

(** What a program can answer, from any world. *)
Definition answers {W A} (m : prog W A) (Q : A -> Prop) : Prop := forall w, Q (run m w).1.

Lemma answers_ret {W A} (a : A) (Q : A -> Prop) : Q a -> answers (W := W) (Ret a) Q.
Proof. by intros H w. Qed.

Lemma answers_bind {W A B} (m : prog W A) (f : A -> prog W B) (Q : B -> Prop) :
  (forall a, answers (f a) Q) -> answers (bind m f) Q.
Proof. intros H w. rewrite run_bind. destruct (run m w) as [a w']. apply H. Qed.

Lemma answers_bind_post {W A B} (m : prog W A) (f : A -> prog W B) (P : A -> Prop) (Q : B -> Prop) :
  answers m P -> (forall a, P a -> answers (f a) Q) -> answers (bind m f) Q.
Proof.
  intros Hm H w. rewrite run_bind. specialize (Hm w). destruct (run m w) as [a w']. by apply H.
Qed.

(** The codes of the envelope, by HTTP status. *)
Definition code_of (status : Z) : option string :=
  match status with
  | 400 => Some Response.ErrBadRequest | 401 => Some Response.ErrUnauthorized
  | 403 => Some Response.ErrForbidden | 404 => Some Response.ErrNotFound
  | 409 => Some Response.ErrConflict | 422 => Some Response.ErrValidation
  | 429 => Some "ERR_RATE_LIMIT"%string | 500 => Some Response.ErrInternal
  | _ => None
  end.

(** The bodies that go with a status: a success with its message, its data when there are
    any and the page when it is one of a list; an error of a handler with the code of its
    status; an error the error handler answered. *)
Inductive typed (status : Z) : json -> Prop :=
| typed_success message data page :
    status = 200 \/ status = 201 ->
    typed status (JObj ([("status", JBool true); ("message", JStr message)]
       ++ match data with Some d => [("data", d)] | None => [] end
       ++ match page with Some m => [("pagination", Response.meta_json m)] | None => [] end))
| typed_error code message :
    code_of status = Some code ->
    typed status (JObj [("status", JBool false); ("code", JStr code); ("message", JStr message)])
| typed_refused :
    status = 401 \/ status = 403 ->
    typed status (JObj [("status", JBool false); ("message", JStr (StatusText status))]).

Definition answered (c : Ctx) : Prop := exists body, resp_body c = Some body /\ typed (status c) body.

(** What a handler may end with: an answer, or an error that becomes one. *)
Definition settles (out : option error * Ctx) : Prop :=
  match out with
  | (None, c) => answered c
  | (Some e, _) => e = ErrUnauthorized \/ e = ErrForbidden
  end.

Lemma settles_success m d c : settles (Response.Success m d c).
Proof. eexists. split; [reflexivity |]. destruct d as [d |]; [apply (typed_success _ m (Some d) None) | apply (typed_success _ m None None)]; by left. Qed.
Lemma settles_created m d c : settles (Response.Created m d c).
Proof. eexists. split; [reflexivity |]. destruct d as [d |]; [apply (typed_success _ m (Some d) None) | apply (typed_success _ m None None)]; by right. Qed.
Lemma settles_page m d p s t c : settles (Response.Paginated m d p s t c).
Proof. eexists. split; [reflexivity |]. apply (typed_success _ m d (Some _)). by left. Qed.
Lemma settles_error st code m c : code_of st = Some code -> settles (Response.Error st code m c).
Proof. intros H. eexists. split; [reflexivity |]. by apply typed_error. Qed.
Lemma settles_unauthorized c : settles (Some ErrUnauthorized, c).
Proof. by left. Qed.
Lemma settles_forbidden c : settles (Some ErrForbidden, c).
Proof. by right. Qed.

Create HintDb envelopes.
#[export] Hint Resolve settles_success settles_created settles_page settles_unauthorized settles_forbidden : envelopes.
#[export] Hint Extern 2 (settles (_ _ _)) => apply settles_error; reflexivity : envelopes.
#[export] Hint Extern 2 (settles (_ _)) => apply settles_error; reflexivity : envelopes.

(** A handler all of whose answers settle. *)
Definition well_typed {W} (h : handler W) : Prop := forall c, answers (h c) settles.

(** Go through a program: its calls may answer anything. *)
Ltac settle := repeat
  first [ apply answers_bind; intros ?
        | apply answers_ret
        | match goal with |- settles (match ?x with _ => _ end) => destruct x end
        | match goal with |- answers (match ?x with _ => _ end) _ => destruct x end
        | solve [eauto with envelopes] ].

Section Envelopes.
Context {jwt : JwtLib} {bcrypt : BcryptLib} {uuid : UuidLib} {val : ValidatorLib} {prs : Parsers}.
Context {C B U G : Type} `{!Cacher C, !Blacklist B, !UserRepository U}.
Context (random : nat -> string) (a : authUseCase) (appEnv : string).
Notation W := (World C B U G).

Lemma settles_auth_mapError e c : settles (auth_mapError e c).
Proof. unfold auth_mapError. settle. Qed.
Lemma settles_user_mapError e c : settles (user_mapError e c).
Proof. unfold user_mapError. settle. Qed.
Hint Resolve settles_auth_mapError settles_user_mapError : envelopes.

Lemma answers_with_body {A} (parsed : result A) fields c (k : A -> prog W (option error * Ctx)) :
  (forall req, answers (k req) settles) -> answers (with_body parsed fields c k) settles.
Proof. intros H. unfold with_body. settle. Qed.

Lemma typed_Middleware cfg (next : handler W) : well_typed next -> well_typed (Middleware cfg next).
Proof. intros H c. unfold Middleware. settle. Qed.
Lemma typed_RequireRole roles (next : handler W) : well_typed next -> well_typed (RequireRole roles next).
Proof. intros H c. unfold RequireRole. settle. Qed.
Lemma typed_RateLimiter {L} `{Limiter L} (get : W -> L) (put : L -> W -> W) (next : handler W) :
  well_typed next -> well_typed (RateLimiterWith get put next).
Proof.
  intros Hn c. unfold RateLimiterWith. settle.
Qed.

Lemma typed_handlers :
  Forall (well_typed (W := W))
    [handle_Login random a; handle_Refresh random a; handle_Logout a; handle_ForgotPassword appEnv;
     handle_ResetPassword a; handle_GetUser; handle_ListUsers; handle_CreateUser; handle_UpdateUser; handle_DeleteUser].
Proof.
  repeat constructor; intros c;
    unfold handle_Login, handle_Refresh, handle_Logout, handle_ForgotPassword, handle_ResetPassword, handle_GetUser,
      handle_ListUsers, handle_CreateUser, handle_UpdateUser, handle_DeleteUser;
    try (apply answers_with_body; intros ?); settle.
Qed.

(** C12. Every answer of the authentication and user routes is a well-typed envelope: whatever the
    request and the state, the body is an object whose status field says whether the
    HTTP status is a success, with a message; on a success its data and page; on an error
    the code that belongs to the HTTP status, unless a guard refused the request. No other
    status is ever answered. *)
Theorem responses_typed :
  Forall (fun r => forall q (w : W), answered (run (serve (r_handler r) q) w).1)
    (RegisterAuthRoutes random a appEnv ++ RegisterUserRoutes a).
Proof.
  pose proof typed_handlers as H. rewrite !Forall_cons in H.
  destruct H as (H1 & H2 & H3 & H4 & H5 & H6 & H7 & H8 & H9 & H10 & _).
  assert (S : forall h : handler W, well_typed h -> forall q w, answered (run (serve h q) w).1).
  { intros h Hh q w. unfold serve. rewrite run_bind. specialize (Hh (fresh_ctx q) w).
    destruct (run (h (fresh_ctx q)) w) as [[[e |] c] w']; cbn in Hh |- *; [| done].
    eexists. split; [reflexivity |]. destruct Hh as [-> | ->]; apply typed_refused; auto. }
  unfold RegisterAuthRoutes, RegisterUserRoutes, loginLimiter, writeLimiter, delete_chain.
  repeat constructor; cbn [r_handler]; apply S;
    repeat first [assumption | apply typed_Middleware | apply typed_RateLimiter | apply typed_RequireRole].
Qed.
End Envelopes.
