(* ===== verification/ApiWitness.v ===== *)
(** The theorems of [Middleware], [Handlers] and [Routes] at concrete requests,
    on the application of [AuthUseCase.AuthWitness]: one registered user, an
    in-memory cache and blacklist, a pair of tokens issued to the user. *)

From stdpp Require Import base gmap strings list fin_maps.
From Stdlib Require Import ZArith Lia String.
From S2P Require Import Prelude Prog GoStrings Json Cache Blacklist RateLimit Jwt Pagination User World UserUseCase AuthUseCase Http Middleware Validator Handlers Routes.

Module ApiWitness.
Import PlainHash BinaryUuid TokenCodec UserWitness AuthWitness PlainValidator.
#[local] Existing Instances Table.table_db Table.table_laws Db.db_repository
  Db.db_repository_laws Memory.memory_cacher Memory.memory_cacher_laws
  Memory.memory_cacher_reliable MemoryBlacklist.memory_blacklist
  MemoryBlacklist.memory_blacklist_laws.

(** Bodies are not parsed: the structs they would become are constants. *)
Definition long_password : string :=
  let e := String (Ascii.ascii_of_nat 195) (String (Ascii.ascii_of_nat 169) "") in  (* e acute *)
  Repeat e 40.
Definition carol : CreateUserRequest := MkCreate "Carol" "carol@example.com" long_password.
#[local] Instance parsers : Parsers := {|
  parse_login _ := Ok creds;
  parse_refresh _ := Ok (MkRefresh "");
  parse_logout _ := "";
  parse_forgot _ := Ok (MkForgot "alice@example.com");
  parse_reset _ := Err (Fresh "no body");
  parse_create r := if String.eqb (req_body r) "carol" then Ok carol else Ok bob;
  parse_update _ := Ok rename;
  parse_page _ := Pagination.MkRequest 1 20 "" "";
  time_json t := JNum t
|}.

Definition with_token (tok body : string) : Request :=
  MkReq "POST" "/api/v1/users/" alice_id [("authorization"%string, (bearer ++ tok)%string)] body "10.0.0.1".
Definition get : Request := with_token (AccessToken pair) "bob".
Definition refresh_as_access : Request := with_token (RefreshToken pair) "bob".

(** A handler that answers 204. *)
Definition ok_handler : handler app := reply (c_JSON 204 JNull).

Lemma answers_memory b : @answers MemoryBlacklist.MemoryBlacklist _ b.
Proof.
  intros now jti. simpl. unfold MemoryBlacklist.IsRevoked. destruct (bool_decide _); [done |].
  destruct (MemoryBlacklist.m b !! jti) as [e |]; [| done].
  by destruct (MemoryBlacklist.dead now e).
Qed.


Lemma middleware_admits_witness :
  exists w', same_state w1 w' /\
    run (Middleware JwtWitness.cfg ok_handler (fresh_ctx get)) w1
    = run (ok_handler (set_claims (claims_of (AccessToken pair)) (fresh_ctx get))) w'.
Proof.
  apply middleware_admits; try (vm_compute; reflexivity).
  - right. vm_compute. reflexivity.
  - intros b Hb _. assert (b = MemoryBlacklist.NewMemoryBlacklist) as ->
      by (vm_compute in Hb; injection Hb as <-; reflexivity).
    vm_compute. discriminate.
Defined.

Definition logged_out : app := (run (Logout auth (AccessToken pair) "") w1).2.


(** The header check of the rate limiter at the eleventh request in a window. *)
Definition burst : app :=
  Nat.iter 10 (fun w => (run (RateLimiterWith login_limiter set_login ok_handler (fresh_ctx get)) w).2) start.

Lemma rate_limited : exists c, (run (RateLimiterWith login_limiter set_login ok_handler (fresh_ctx get)) burst).1 = (None, c)
  /\ status c = 429 /\ header "retry-after" (resp_headers c) = "60".
Proof. eexists. split; [vm_compute; reflexivity | split; vm_compute; reflexivity]. Qed.

Lemma long_password_internal_error_witness :
  rune_count long_password <= 72 /\
  (run (handle_CreateUser (fresh_ctx (with_token "" "carol"))) w1).1
  = Response.InternalError (fresh_ctx (with_token "" "carol")).
Proof.
  apply (long_password_internal_error (fresh_ctx (with_token "" "carol")) w1 carol);
    vm_compute; reflexivity.
Defined.

Lemma user_endpoints_atomic_witness :
  status (run (handle_CreateUser (fresh_ctx get)) w1).1.2 = 201 /\
  let '(out, w') := run (handle_CreateUser (fresh_ctx get)) w1 in success_or_unchanged w1 out w'.
Proof.
  split; [vm_compute; reflexivity |].
  apply (user_endpoints_atomic handle_CreateUser (fresh_ctx get) w1). by left.
Defined.

Lemma guarded_routes_witness :
  let '(c, w') := run (serve (Middleware (jwtCfg auth) handle_ListUsers) refresh_as_access) w1 in
  status c = 401 /\ same_state w1 w' /\
  resp_body c = Some (JObj [("status"%string, JBool false); ("message"%string, JStr "Unauthorized")]).
Proof.
  apply (guarded_routes random auth "production"
           (MkRoute "GET" "/api/v1/users/" (Middleware (jwtCfg auth) handle_ListUsers))).
  - left. left.
  - right. intros t c Hv.
    assert (TrimPrefix (header "Authorization" (req_headers refresh_as_access)) bearer = RefreshToken pair)
      as Htok by (vm_compute; reflexivity).
    rewrite Htok in Hv.
    assert (Verify (clock w1) (RefreshToken pair) (jwtCfg auth) = Ok (claims_of (RefreshToken pair))) as Hv'
      by (vm_compute; reflexivity).
    rewrite (Verify_stable _ _ _ _ _ _ Hv Hv'). split; vm_compute; discriminate.
Defined.

Lemma production_hides_internals_witness :
  let '(c, w') := run (serve (prodGuard "production" ok_handler) get) w1 in status c = 404 /\ w' = w1.
Proof.
  apply (production_hides_internals random auth "production" ok_handler ok_handler ok_handler
           (MkRoute "GET" "/metrics" (prodGuard "production" ok_handler)) get w1).
  - reflexivity.
  - right. right. left.
  - left. reflexivity.
Defined.

Lemma login_cannot_delete_witness :
  repo (run (serve (Middleware (jwtCfg auth) delete_chain) get) w1).2 = repo w1.
Proof.
  apply (login_cannot_delete random auth creds pair start w1 get); vm_compute; reflexivity.
Defined.
End ApiWitness.
