(* ===== verification/Broker.v ===== *)
(** What the two message brokers' clients share: the environment a long-running
    loop talks to, the exponential back-off and the header carriers.

    A consumer loop never ends by itself, so it is modelled with the history of
    the calls it made: a [Trace] keeps every call with its answer, newest first,
    and the environment is a family of functions from that history to the next
    answer. The theorems quantify over every environment. *)

From stdpp Require Import base list strings.
From Stdlib Require Import ZArith Lia String.
From S2P Require Import Prelude Prog.

Section Trace.
Context {E : Type}.

(** A call answered by [answer], which sees the calls made before it. *)
Definition call {X} (answer : list E -> X) (event : X -> E) : prog (list E) X :=
  act (fun h => let x := answer h in (x, event x :: h)).

Lemma run_call {X} (answer : list E -> X) (event : X -> E) h :
  run (call answer event) h = (answer h, event (answer h) :: h).
Proof. reflexivity. Qed.
End Trace.

(** ** Back-off: 1 s, doubled after each wait, 30 s at most *)

Definition bo_init : Z := Second.
Definition bo_next (bo : Z) : Z :=
  if bo <? 30 * Second then
    let bo := wrap64 (bo * 2) in if 30 * Second <? bo then 30 * Second else bo
  else bo.

(** The wait after [n] waits in a row. *)
Definition backoff (n : nat) : Z := Z.min (2 ^ Z.of_nat n * Second) (30 * Second).

Lemma backoff_0 : backoff 0 = bo_init.
Proof. reflexivity. Qed.

Lemma backoff_S n : backoff (S n) = bo_next (backoff n).
Proof.
  unfold backoff, bo_next. rewrite Nat2Z.inj_succ, Z.pow_succ_r by lia.
  pose proof (Z.pow_pos_nonneg 2 (Z.of_nat n)) as Hp.
  assert (Hs : Second = 1000000000) by reflexivity. rewrite Hs.
  destruct (decide (2 ^ Z.of_nat n < 30)) as [Hlt | Hge].
  - rewrite (Z.min_l (2 ^ Z.of_nat n * 1000000000)) by lia.
    rewrite (proj2 (Z.ltb_lt _ _)) by lia. rewrite wrap64_id by (unfold in_int64; lia).
    destruct (Z.ltb_spec (30 * 1000000000) (2 ^ Z.of_nat n * 1000000000 * 2)); lia.
  - rewrite (Z.min_r (2 ^ Z.of_nat n * 1000000000)) by lia. rewrite Z.ltb_irrefl. lia.
Qed.

Lemma backoff_range n : Second <= backoff n <= 30 * Second.
Proof.
  unfold backoff. pose proof (Z.pow_pos_nonneg 2 (Z.of_nat n)).
  assert (Second = 1000000000) by reflexivity. lia.
Qed.

(** ** Loops

    [iterate turn n s]: at most [n] turns of a loop. A turn gives the next loop
    state, or what the loop returns. *)
Fixpoint iterate {W S R} (turn : S -> prog W (S + R)) (n : nat) (s : S) : prog W (S + R) :=
  match n with
  | O => Ret (inl s)
  | S k => let! r := turn s in match r with inl s' => iterate turn k s' | inr x => Ret (inr x) end
  end.

(** The invariant [I] of the loop head and the postcondition [J]. *)
Definition holds {W S R} (I : S -> W -> Prop) (J : R -> W -> Prop) (r : S + R) (w : W) : Prop :=
  match r with inl s => I s w | inr x => J x w end.

(** An invariant of the turns holds of the loop. *)
Lemma iterate_invariant {W S R} (turn : S -> prog W (S + R)) (I : S -> W -> Prop) (J : R -> W -> Prop)
    (Hturn : forall s w, I s w -> wp (turn s) (holds I J) w) :
  forall n s w, I s w -> wp (iterate turn n s) (holds I J) w.
Proof.
  induction n as [| n IH]; intros s w Hs; simpl; [by apply wp_ret |].
  apply wp_bind. eapply wp_mono; [by apply Hturn |]. intros [s' | x] w' H.
  - by apply IH.
  - by apply wp_ret.
Qed.

(** A loop whose every turn decreases a bound returns. *)
Lemma iterate_returns {W S R} (turn : S -> prog W (S + R)) (m : W -> nat)
    (Hturn : forall s w, wp (turn s) (holds (fun _ w' => (m w' < m w)%nat) (fun _ _ => True)) w) :
  forall n s w, (m w < n)%nat -> exists x, (run (iterate turn n s) w).1 = inr x.
Proof.
  induction n as [| n IH]; intros s w Hm; [lia |]. simpl. rewrite run_bind.
  pose proof (run_wp _ _ _ (Hturn s w)) as H. destruct (run (turn s) w) as [[s' | x] w'].
  - simpl in H. apply IH. lia.
  - by exists x.
Qed.

Lemma keeps_iterate {W S R} (J : W -> Prop) (turn : S -> prog W (S + R)) :
  (forall s, keeps J (turn s)) -> forall n s, keeps J (iterate turn n s).
Proof.
  intros Hturn. induction n as [| n IH]; intros s; simpl; [done |].
  apply keeps_bind; [apply Hturn |]. by intros [s' | x].
Qed.
