(* ===== verification/Kafka.v ===== *)
(** Kafka messaging ([pkg/messaging/kafka]): carriers, producer, consumer loop
    and health probe. The kafka-go reader and writer are the environment. *)

From stdpp Require Import base list strings.
From Stdlib Require Import ZArith Lia Ascii String.
From S2P Require Import Prelude Prog GoStrings Broker.

(** [kafkago.Header], [kafkago.Message] (without its time) and the program's own [Message]. *)
Record Header : Type := MkHeader { hKey : string; hValue : string }.
Record kMessage : Type := MkKMessage {
  kTopic : string; kPartition : Z; kOffset : Z; kKey : string; kValue : string; kHeaders : list Header
}.
Record Message : Type := MkMessage {
  Topic : string; Key : string; Value : string; RequestID : string
}.

(** ** Carriers *)

(** [kafkaHeaderCarrier.Get] and [ExtractCarrier.Get]. *)
Fixpoint carrier_Get (headers : list Header) (key : string) : string :=
  match headers with
  | [] => ""
  | h :: hs => if String.eqb (hKey h) key then hValue h else carrier_Get hs key
  end.

(** [kafkaHeaderCarrier.Set]: overwrites the first header of that key, or appends. *)
Fixpoint carrier_Set (headers : list Header) (key val : string) : list Header :=
  match headers with
  | [] => [MkHeader key val]
  | h :: hs => if String.eqb (hKey h) key then MkHeader (hKey h) val :: hs
               else h :: carrier_Set hs key val
  end.

Definition carrier_Keys (headers : list Header) : list string := map hKey headers.

(** [ExtractCarrier.Set] is read-only. *)
Definition ExtractCarrier_Set (headers : list Header) (_ _ : string) : list Header := headers.

Lemma carrier_Get_Set headers k k' v :
  carrier_Get (carrier_Set headers k v) k' = if String.eqb k k' then v else carrier_Get headers k'.
Proof.
  induction headers as [| [k0 v0] hs IH]; simpl.
  - by destruct (String.eqb k k').
  - destruct (String.eqb_spec k0 k) as [-> | Hne]; simpl.
    + by destruct (String.eqb k k').
    + destruct (String.eqb_spec k0 k') as [-> | Hne']; [| exact IH].
      by rewrite (proj2 (String.eqb_neq k k')).
Qed.

(** A second header of a key is never added. *)
Lemma carrier_Set_Keys headers k v :
  carrier_Keys (carrier_Set headers k v) =
  if existsb (String.eqb k) (carrier_Keys headers) then carrier_Keys headers
  else carrier_Keys headers ++ [k].
Proof.
  induction headers as [| [k0 v0] hs IH]; simpl; [done |].
  rewrite String.eqb_sym. destruct (String.eqb_spec k k0) as [-> | Hne]; simpl; [done |].
  rewrite IH. by destruct (existsb _ _).
Qed.

(** ** Producer *)

(** [extractRequestID]. *)
Fixpoint extractRequestID (headers : list Header) : string :=
  match headers with
  | [] => ""
  | h :: hs => if String.eqb (hKey h) "x-request-id" then hValue h else extractRequestID hs
  end.

Lemma extractRequestID_Get headers : extractRequestID headers = carrier_Get headers "x-request-id".
Proof. induction headers as [| h hs IH]; simpl; [done |]. by rewrite IH. Qed.

(** The propagator's [Inject] sets fields on the carrier it is given: [fields]
    are the pairs it sets for the trace of the caller's context. *)
Definition Inject (fields : list (string * string)) (headers : list Header) : list Header :=
  fold_left (fun hs kv => carrier_Set hs kv.1 kv.2) fields headers.

Section Producer.
Context {W : Type} (WriteMessages : kMessage -> prog W (option error)).

(** What [Publish] hands to the writer; [ctx_rid] is the request identifier of
    the caller's context. *)
Definition publish_headers (ctx_rid : string) (fields : list (string * string)) (msg : Message)
  : list Header :=
  let rid := if String.eqb (RequestID msg) "" then ctx_rid else RequestID msg in
  Inject fields [MkHeader "x-request-id" rid; MkHeader "content-type" "application/json"].

Definition Publish (ctx_rid : string) (fields : list (string * string)) (msg : Message)
  : prog W (option error) :=
  let km := MkKMessage (Topic msg) 0 0 (Key msg) (Value msg) (publish_headers ctx_rid fields msg) in
  let! err := WriteMessages km in
  match err with
  | Some e => Ret (Some (errorf ("kafka publish topic=" ++ Topic msg ++ ": ") e))
  | None => Ret None
  end.

(** [Close] of the producer and of the consumer: that of what they wrap. *)
Definition Close (w_Close : prog W (option error)) : prog W (option error) := w_Close.
End Producer.

(** [NewProducer]. *)
Record WriterConfig : Type := MkWriterConfig {
  wAddr : list string; wWriteTimeout : Z; wReadTimeout : Z; wRequiredAcks : Z; wMaxAttempts : Z
}.
Definition RequireOne : Z := 1.
Definition NewProducer (brokers : string) : WriterConfig :=
  MkWriterConfig (Split brokers ","%char) (10 * Second) (10 * Second) RequireOne 3.

(** ** Consumer *)

Record ConsumerConfig : Type := MkConsumerConfig {
  Brokers : string; GroupID : string; HeartbeatInterval : Z; SessionTimeout : Z; RebalanceTimeout : Z
}.

(** The reader's configuration. *)
Record ReaderConfig : Type := MkReaderConfig {
  rBrokers : list string; rGroupID : string; rTopic : string; rMinBytes : Z; rMaxBytes : Z;
  rMaxWait : Z; rStartOffset : Z; rCommitInterval : Z; rHeartbeatInterval : Z;
  rSessionTimeout : Z; rRebalanceTimeout : Z
}.

Definition LastOffset : Z := -1.

(** [NewConsumer]. *)
Definition NewConsumer (cfg : ConsumerConfig) (topic : string) : ReaderConfig :=
  let hi := if HeartbeatInterval cfg =? 0 then 3 * Second else HeartbeatInterval cfg in
  let st := if SessionTimeout cfg =? 0 then 30 * Second else SessionTimeout cfg in
  let rt := if RebalanceTimeout cfg =? 0 then 30 * Second else RebalanceTimeout cfg in
  MkReaderConfig (Split (Brokers cfg) (","%char)) (GroupID cfg) topic 10000 10000000 (500 * Millisecond)
    LastOffset 0 hi st rt.

(** The calls of [Start], with their answers. *)
Inductive event : Type :=
| Fetched (r : result kMessage)
| Cancelled (b : bool)                             (* ctx.Err() != nil *)
| Waited (d : Z) (b : bool)                        (* the timer fired (true) or ctx.Done() *)
| Handled (m : Message) (r : option error)
| Logged (m : kMessage) (rid status : string) (err : option string)
| Committed (m : kMessage) (r : option error).

(** The answers of the reader, the context, the timer and the handler. *)
Record Env : Type := MkEnv {
  env_fetch : list event -> result kMessage;
  env_cancelled : list event -> bool;
  env_timer : list event -> bool;
  env_handler : list event -> Message -> option error;
  env_commit : list event -> kMessage -> option error
}.

Section Consumer.
Context (env : Env).
Notation go := (prog (list event)).

Definition FetchMessage : go (result kMessage) := call (env_fetch env) Fetched.
Definition ctx_Err : go bool := call (env_cancelled env) Cancelled.
(** The select between ctx.Done() and time.After(bo). *)
Definition wait (bo : Z) : go bool := call (env_timer env) (Waited bo).
Definition handler (m : Message) : go (option error) :=
  call (fun h => env_handler env h m) (Handled m).
Definition CommitMessages (m : kMessage) : go (option error) :=
  call (fun h => env_commit env h m) (Committed m).

(** [logConsumed]: one line of consumer.log (journal, latency and trace left out). *)
Definition logConsumed (m : kMessage) (rid : string) (herr : option error) : go unit :=
  let status := match herr with Some _ => "error" | None => "ok" end in
  call (fun _ => tt) (fun _ => Logged m rid status (option_map error_text herr)).

(** One turn of the loop of [Start]; the loop state is the back-off, and the loop
    returns an error or nil. *)
Definition Start_turn (bo : Z) : go (Z + option error) :=
  let! r := FetchMessage in
  match r with
  | Err _ =>
      let! cancelled := ctx_Err in
      if cancelled then Ret (inr None)
      else
        let! fired := wait bo in
        if fired then Ret (inl (bo_next bo)) else Ret (inr None)
  | Ok m =>
      let rid := extractRequestID (kHeaders m) in
      let! herr := handler (MkMessage (kTopic m) (kKey m) (kValue m) rid) in
      do! logConsumed m rid herr in
      match herr with
      | Some _ => Ret (inl bo_init)
      | None => do! CommitMessages m in Ret (inl bo_init)
      end
  end.

(** [Start], followed for [n] turns. *)
Definition Start (n : nat) : go (Z + option error) := iterate Start_turn n bo_init.
End Consumer.

(** *** What a history says *)

Fixpoint fetches (h : list event) : list kMessage :=
  match h with
  | [] => []
  | Fetched (Ok m) :: h' => m :: fetches h'
  | _ :: h' => fetches h'
  end.

Fixpoint commits (h : list event) : list kMessage :=
  match h with
  | [] => []
  | Committed m _ :: h' => m :: commits h'
  | _ :: h' => commits h'
  end.

(** The commits the broker accepted. *)
Fixpoint acknowledged (h : list event) : list kMessage :=
  match h with
  | [] => []
  | Committed m None :: h' => m :: acknowledged h'
  | _ :: h' => acknowledged h'
  end.

(** The messages given to the handler and its verdicts. *)
Fixpoint verdicts (h : list event) : list (Message * option error) :=
  match h with
  | [] => []
  | Handled m r :: h' => (m, r) :: verdicts h'
  | _ :: h' => verdicts h'
  end.

Definition decode (m : kMessage) : Message :=
  MkMessage (kTopic m) (kKey m) (kValue m) (extractRequestID (kHeaders m)).

(** Failed fetches since the last message. *)
Fixpoint failures (h : list event) : nat :=
  match h with
  | Fetched (Err _) :: h' => S (failures h')
  | Fetched (Ok _) :: _ => 0
  | _ :: h' => failures h'
  | [] => 0
  end.

(** Every wait lasts what the back-off prescribes after the failures before it. *)
Fixpoint paced (h : list event) : Prop :=
  match h with
  | [] => True
  | Waited d _ :: h' => (exists n, failures h' = S n /\ d = backoff n) /\ paced h'
  | _ :: h' => paced h'
  end.

(** The messages of a history whose handler gave no error, newest first. *)
Definition accepted (ms : list kMessage) (vs : list (Message * option error)) : list kMessage :=
  map fst (filter (fun mv : kMessage * (Message * option error) => mv.2.2 = None) (zip ms vs)).

(** At the head of the loop. *)
Definition loop_inv (bo : Z) (h : list event) : Prop :=
  bo = backoff (failures h) /\ paced h /\
  map fst (verdicts h) = map decode (fetches h) /\
  commits h = accepted (fetches h) (verdicts h).

Lemma accepted_cons m ms d r vs :
  accepted (m :: ms) ((d, r) :: vs) =
  match r with None => m :: accepted ms vs | Some _ => accepted ms vs end.
Proof. unfold accepted. simpl. rewrite filter_cons. by destruct r. Qed.

Lemma accepted_cons_ok m ms d vs :
  accepted (m :: ms) ((d, None) :: vs) = m :: accepted ms vs.
Proof. apply accepted_cons. Qed.

Lemma accepted_cons_err m ms d e vs :
  accepted (m :: ms) ((d, Some e) :: vs) = accepted ms vs.
Proof. apply accepted_cons. Qed.

Lemma Start_turn_inv env bo h :
  loop_inv bo h ->
  wp (Start_turn env bo) (holds loop_inv (fun r h' => r = None /\ exists b, loop_inv b h')) h.
Proof.
  intros (-> & Hp & Hv & Hc). unfold wp, Start_turn.
  rewrite run_bind. unfold FetchMessage. rewrite run_call.
  destruct (env_fetch env h) as [m | e].
  - rewrite run_bind. unfold handler. rewrite run_call.
    set (h1 := Fetched (Ok m) :: h). destruct (env_handler env h1 _) as [err |] eqn:Eh; simpl.
    + split; [done |]. split; [done |]. simpl. split; [by rewrite Hv |].
      by rewrite accepted_cons_err.
    + split; [done |]. split; [done |]. simpl. split; [by rewrite Hv |].
      by rewrite accepted_cons_ok, Hc.
  - rewrite run_bind. unfold ctx_Err. rewrite run_call.
    set (h1 := Fetched (Err e) :: h). destruct (env_cancelled env h1) eqn:Ec; simpl.
    + split; [done |]. exists (backoff (S (failures h))). by repeat split.
    + destruct (env_timer env _) eqn:Et; simpl.
      * split; [by rewrite <- backoff_S |]. split; [| by split]. simpl. split; [| done].
        by exists (failures h).
      * split; [done |]. exists (backoff (S (failures h))). split; [done |]. split; [| by split]. simpl.
        split; [| done]. by exists (failures h).
Qed.

Lemma Start_inv (env : Env) (n : nat) :
  wp (Start env n) (holds loop_inv (fun r h => r = None /\ exists bo, loop_inv bo h)) [].
Proof. apply iterate_invariant; [apply Start_turn_inv |]. by repeat split. Qed.

Lemma Start_loop_inv (env : Env) (n : nat) : exists bo, loop_inv bo (run (Start env n) []).2.
Proof.
  pose proof (run_wp _ _ _ (Start_inv env n)) as H.
  destruct (run _ []) as [[bo | r] h]; simpl in *; [by exists bo | by destruct H].
Qed.

(** C14. The consumer loop, against any broker, handler, timer and context: every
    message fetched goes to the handler exactly once and in order, with the
    request identifier of its headers; the offsets committed are those of the
    messages the handler accepted, in the same order and nothing else; and every
    pause lasts min(2^n, 30) seconds, n being the failed fetches in a row before
    the one it follows. *)
Theorem consumer_exact (env : Env) (n : nat) :
  let h := (run (Start env n) []).2 in
  map fst (verdicts h) = map decode (fetches h) /\
  commits h = accepted (fetches h) (verdicts h) /\
  paced h.
Proof. by destruct (Start_loop_inv env n) as (bo & _ & ? & ? & ?). Qed.

(** Once the context stays cancelled and the reader fails, as it does under a
    cancelled context, [Start] returns, and it returns nil: within as many turns
    as the calls made before. *)
Theorem consumer_shutdown (env : Env) (N : nat)
    (Hdone : forall h : list event, (N <= List.length h)%nat ->
       env_cancelled env h = true /\ is_ok (env_fetch env h) = false) :
  (run (Start env (S N)) []).1 = inr None.
Proof.
  destruct (iterate_returns (Start_turn env) (fun h => N - List.length h)%nat) with
    (n := S N) (s := bo_init) (w := @nil event) as [x Hx]; [| simpl; lia |].
  - intros bo h. unfold wp, Start_turn. rewrite run_bind. unfold FetchMessage. rewrite run_call.
    destruct (decide (N <= List.length h)%nat) as [Hle | Hgt].
    + destruct (Hdone h Hle) as [_ Hf]. destruct (env_fetch env h) as [m | e]; [done |].
      rewrite run_bind. unfold ctx_Err. rewrite run_call.
      destruct (Hdone (Fetched (Err e) :: h)) as [-> _]; [simpl; lia | done].
    + destruct (env_fetch env h) as [m | e].
      * rewrite run_bind. unfold handler. rewrite run_call.
        destruct (env_handler env _ _); simpl; lia.
      * rewrite run_bind. unfold ctx_Err. rewrite run_call.
        destruct (env_cancelled env _); simpl; [done |].
        destruct (env_timer env _); simpl; [lia | done].
  - pose proof (run_wp _ _ _ (Start_inv env (S N))) as H. unfold Start in *.
    destruct (run _ []) as [r h]. simpl in Hx. subst r. by destruct H as [-> _].
Qed.

(** *** Redelivery

    The position a consumer group keeps for the partition: a restarted consumer
    fetches from it. Committing a message stores the offset after it. *)
Definition position (h : list event) : Z :=
  fold_right Z.max 0 (map (fun m => kOffset m + 1) (acknowledged h)).

Lemma position_le (ms : list kMessage) (o : Z) :
  0 <= o ->
  (fold_right Z.max 0 (map (fun m => kOffset m + 1) ms) <= o <->
   forall m, m ∈ ms -> kOffset m < o).
Proof.
  intros Ho. induction ms as [| m ms IH]; simpl.
  - split; [| lia]. intros _ m Hm. by apply not_elem_of_nil in Hm.
  - rewrite Z.max_lub_iff, IH. split.
    + intros [H1 H2] m' [-> | Hin]%elem_of_cons; [lia | by apply H2].
    + intros H. split.
      * assert (kOffset m < o); [apply H; rewrite elem_of_cons; by left | lia].
      * intros m' Hin. apply H. rewrite elem_of_cons. by right.
Qed.

Lemma acknowledged_commits (env : Env) (n : nat) :
  (forall h m, env_commit env h m = None) ->
  let h := (run (Start env n) []).2 in acknowledged h = commits h.
Proof.
  intros Hok.
  pose proof (iterate_invariant (Start_turn env) (fun _ h => acknowledged h = commits h)
                (fun _ h => acknowledged h = commits h)) as H.
  assert (Hrun : wp (Start env n) (fun _ h => acknowledged h = commits h) []).
  { eapply wp_mono; [apply H |]; [| done | by intros []]. clear H.
    intros bo h Hh. unfold wp, Start_turn. rewrite run_bind. unfold FetchMessage. rewrite run_call.
    destruct (env_fetch env h) as [m | e].
    - rewrite run_bind. unfold handler. rewrite run_call.
      destruct (env_handler env _ _); simpl; [done |]. rewrite Hok. by f_equal.
    - rewrite run_bind. unfold ctx_Err. rewrite run_call.
      destruct (env_cancelled env _); simpl; [done |]. by destruct (env_timer env _). }
  exact Hrun.
Qed.

(** What a handler error does: the message at offset [o] is behind the
    position a restarted consumer starts from unless every message of a higher
    or equal offset was refused too (with a broker that accepts every commit). A
    refused message is redelivered only as long as nothing after it was accepted. *)
Theorem redelivery (env : Env) (n : nat) (o : Z) (Ho : 0 <= o)
    (Hcommit : forall h m, env_commit env h m = None) :
  let h := (run (Start env n) []).2 in
  position h <= o <->
  forall m v, (m, v) ∈ zip (fetches h) (verdicts h) -> o <= kOffset m -> v.2 <> None.
Proof.
  intros h. destruct (Start_loop_inv env n) as (bo & _ & _ & _ & Hc). fold h in Hc.
  pose proof (acknowledged_commits env n Hcommit) as Ha. fold h in Ha.
  unfold position. rewrite position_le, Ha, Hc by done. unfold accepted. split.
  - intros H m v Hin Hge Hv.
    assert (kOffset m < o); [| lia]. apply H.
    apply list_elem_of_fmap. exists (m, v). split; [done |].
    by apply list_elem_of_filter.
  - intros H m Hm. apply list_elem_of_fmap in Hm as ([m' v] & -> & Hin).
    apply list_elem_of_filter in Hin as [Hv Hin]. simpl in *.
    destruct (Z.lt_ge_cases (kOffset m') o) as [| Hge]; [done |].
    by destruct (H m' v Hin Hge).
Qed.

(** ** Health probe *)

(** [healthCheckWithDialer]; [dial] is the connection attempt to one address. *)
Definition healthCheckWithDialer {W} (brokers : string) (dial : string -> prog W (option error))
  : prog W string :=
  if String.eqb (TrimSpace brokers) "" then Ret "not_configured"%string
  else
    let addr := TrimSpace (List.hd "" (SplitN brokers ","%char 2)) in
    let! err := dial addr in
    match err with
    | Some e => Ret ("down: " ++ error_text e)%string
    | None => Ret "ok"%string
    end.

(** ** Round trip of the headers *)

Lemma Inject_other fields headers k :
  (forall kv, kv ∈ fields -> kv.1 <> k) ->
  carrier_Get (Inject fields headers) k = carrier_Get headers k.
Proof.
  unfold Inject. revert headers. induction fields as [| [k' v] fs IH]; intros headers H; simpl; [done |].
  rewrite IH by (intros kv Hkv; apply H; rewrite elem_of_cons; by right).
  rewrite carrier_Get_Set. simpl.
  rewrite (proj2 (String.eqb_neq k' k)); [done |]. apply (H (k', v)). rewrite elem_of_cons. by left.
Qed.

Lemma Inject_Get fields headers k v :
  (k, v) ∈ fields -> NoDup (map fst fields) -> carrier_Get (Inject fields headers) k = v.
Proof.
  unfold Inject. revert headers. induction fields as [| [k' v'] fs IH]; intros headers Hin Hnd; simpl.
  - by apply not_elem_of_nil in Hin.
  - simpl in Hnd. apply NoDup_cons in Hnd as [Hk Hnd].
    apply elem_of_cons in Hin as [[= <- <-] | Hin]; [| by apply IH].
    change (fold_left _ fs ?hs) with (Inject fs hs). rewrite Inject_other.
    + by rewrite carrier_Get_Set, String.eqb_refl.
    + intros [k2 v2] Hin2. simpl. intros ->. apply Hk. apply list_elem_of_fmap. by exists (k, v2).
Qed.

(** Producer to consumer: whatever trace context is injected (under keys of its
    own, each set once), the consumer of the message sees the publisher's payload
    and request identifier, the identifier of the caller's context standing in for
    an empty one, and every injected field. *)
Theorem publish_roundtrip (ctx_rid : string) (fields : list (string * string)) (msg : Message)
    (partition offset : Z)
    (Hkeys : forall kv, kv ∈ fields -> kv.1 <> "x-request-id"%string)
    (Hnd : NoDup (map fst fields)) :
  let km := MkKMessage (Topic msg) partition offset (Key msg) (Value msg)
              (publish_headers ctx_rid fields msg) in
  decode km = MkMessage (Topic msg) (Key msg) (Value msg)
                (if String.eqb (RequestID msg) "" then ctx_rid else RequestID msg) /\
  (forall k v, (k, v) ∈ fields -> carrier_Get (kHeaders km) k = v).
Proof.
  intros km. split.
  - unfold decode, km. simpl. f_equal. rewrite extractRequestID_Get.
    unfold publish_headers. by rewrite Inject_other.
  - intros k v Hin. by apply Inject_Get.
Qed.

Module KafkaWitness.

(** A reader over a partition of two messages; the handler refuses the first. *)
Definition m0 : kMessage :=
  MkKMessage "orders" 0 0 "k" "a" (publish_headers "r0" [("traceparent", "00-1")] (MkMessage "orders" "k" "a" "")).
Definition m1 : kMessage := MkKMessage "orders" 0 1 "k" "b" [].
Definition next (h : list event) : result kMessage :=
  match List.length (fetches h) with
  | O => Ok m0
  | S O => Ok m1
  | _ => Err (Sentinel CtxCanceled)
  end.
Definition env : Env :=
  MkEnv next (fun h => 2 <=? Z.of_nat (List.length (fetches h))) (fun _ => true)
    (fun _ m => if String.eqb (Value m) "a" then Some (Fresh "boom") else None) (fun _ _ => None).

(** The comment of [HandlerFunc] promises redelivery of a refused message: here
    the group's position is past it. *)
Lemma refused_message_lost :
  let h := (run (Start env 3) []).2 in
  (decode m0, Some (Fresh "boom")) ∈ verdicts h /\ kOffset m0 < position h.
Proof. vm_compute. split; [apply list_elem_of_further, list_elem_of_here | reflexivity]. Qed.

Lemma consumer_shutdown_witness :
  (run (Start (MkEnv (fun _ => Err (Sentinel CtxCanceled)) (fun _ => true) (fun _ => false)
                 (fun _ _ => None) (fun _ _ => None)) 1) []).1 = inr None.
Proof. apply (consumer_shutdown _ 0). intros h _. split; reflexivity. Defined.

Lemma redelivery_witness : ~ position (run (Start env 3) []).2 <= 0.
Proof.
  intros H. apply (redelivery env 3 0 ltac:(lia) (fun _ _ => eq_refl)) with (m := m1) (v := (decode m1, None)) in H.
  - by apply H.
  - vm_compute. apply list_elem_of_here.
  - vm_compute. discriminate.
Defined.

Lemma publish_roundtrip_witness : decode m0 = MkMessage "orders" "k" "a" "r0".
Proof.
  refine (proj1 (publish_roundtrip "r0" [("traceparent", "00-1")] (MkMessage "orders" "k" "a" "") 0 0 _ _)).
  - intros kv ->%list_elem_of_singleton. discriminate.
  - apply NoDup_singleton.
Defined.
End KafkaWitness.
