(* ===== verification/Rabbit.v ===== *)
(** RabbitMQ messaging ([pkg/messaging/rabbitmq]): the shared connection, the
    publisher, the consumer with its dead-letter topology, and the health probe.

    The broker and amqp091-go are the environment: they answer each call from
    the history of the calls before it. The program's own state, the connection
    pointer behind the lock and the publisher's channel, is in the world. *)

From stdpp Require Import base list strings gmap.
From Stdlib Require Import ZArith Lia String.
From S2P Require Import Prelude Prog GoStrings Broker.

(** A value of an [amqp.Table]: a string, or another value known by the way
    [fmt.Sprint] prints it. *)
Inductive tvalue : Type := VStr (s : string) | VOther (printed : string).
Definition Table : Type := gmap string tvalue.
Definition Sprint (v : tvalue) : string := match v with VStr s => s | VOther s => s end.

(** ** [amqpTableCarrier] *)

Definition carrier_Get (c : Table) (key : string) : string :=
  match c !! key with Some (VStr s) => s | _ => "" end.
Definition carrier_Set (c : Table) (key val : string) : Table := <[key := VStr val]> c.
Definition carrier_Keys (c : Table) : list string := (map_to_list c).*1.

Definition Inject (fields : list (string * string)) (c : Table) : Table :=
  fold_left (fun c kv => carrier_Set c kv.1 kv.2) fields c.

Record Message : Type := MkMessage { RoutingKey : string; Body : string; RequestID : string }.

(** [amqp.Publishing] (without its timestamp) and [amqp.Delivery]. *)
Record Publishing : Type := MkPublishing {
  ContentType : string; DeliveryMode : Z; pBody : string; pHeaders : Table
}.
Record Delivery : Type := MkDelivery {
  dTag : Z; dExchange : string; dRoutingKey : string; dBody : string; dHeaders : Table
}.
Definition Persistent : Z := 2.

(** What the select of [drain] finds ready. *)
Inductive ready : Type :=
| CtxDone
| ChanClosed (reason : option string)     (* None: a nil error, or a closed channel *)
| Delivered (d : Delivery)
| DeliveriesClosed.

(** The calls, with their answers. Connections and channels are numbers. *)
Inductive event : Type :=
| Dialed (dsn : string) (r : result nat)
| AskedClosed (conn : nat) (b : bool)
| ConnClosed (conn : nat) (r : option error)
| Opened (conn : nat) (r : result nat)
| NilConnection                                         (* a nil pointer dereference *)
| ExDeclared (ch : nat) (name kind : string) (durable : bool) (r : option error)
| QDeclared (ch : nat) (name : string) (durable : bool) (args : Table) (r : option error)
| QBound (ch : nat) (name key exchange : string) (r : option error)
| Consumed (ch : nat) (queue : string) (r : option error)
| Selected (ch : nat) (r : ready)
| Handled (m : Message) (r : option error)
| Acked (tag : Z)
| Nacked (tag : Z) (requeue : bool)
| ChClosed (ch : nat) (r : option error)
| Published (ch : nat) (exchange key : string) (msg : Publishing) (r : option error)
| CtxErr (b : bool)
| Slept (d : Z) (b : bool)
| Logged (routing_key rid status : string) (err : option string).

Record Env : Type := MkEnv {
  env_dial : list event -> string -> result nat;
  env_isclosed : list event -> nat -> bool;
  env_open : list event -> nat -> result nat;
  env_call : list event -> nat -> option error;         (* a declare, bind, consume or publish *)
  env_connclose : list event -> nat -> option error;
  env_select : list event -> nat -> ready;
  env_handler : list event -> Message -> option error;
  env_done : list event -> bool;
  env_timer : list event -> bool
}.

(** The program's state and the history. *)
Record World : Type := MkWorld {
  conn : option nat;                (* Connection.conn *)
  pub_ch : option nat;              (* Publisher.ch *)
  hist : list event
}.
Definition log (e : event) (w : World) : World := MkWorld (conn w) (pub_ch w) (e :: hist w).

Section Rabbit.
Context (env : Env).
Notation go := (prog World).

Definition ask {X} (answer : list event -> X) (ev : X -> event) : go X :=
  act (fun w => let x := answer (hist w) in (x, log (ev x) w)).

(** A critical section: no other goroutine moves in between. *)
Definition locked {A} (m : go A) : go A := act (run m).

(** ** Connection *)

Definition IsClosed_of (c : nat) : go bool := ask (fun h => env_isclosed env h c) (AskedClosed c).

(** [dial]: stores the new connection. *)
Definition dial (dsn : string) : go (option error) :=
  let! r := ask (fun h => env_dial env h dsn) (Dialed dsn) in
  match r with
  | Err e => Ret (Some (errorf "rabbitmq dial: " e))
  | Ok c => do! act (fun w => (tt, MkWorld (Some c) (pub_ch w) (hist w))) in Ret None
  end.

(** [c.conn] under the read lock. *)
Definition load_conn : go (option nat) := reads conn.

(** [conn == nil || conn.IsClosed()]. *)
Definition unusable (c : option nat) : go bool :=
  match c with None => Ret true | Some i => IsClosed_of i end.

Definition reconnect (dsn : string) : go (option error) :=
  locked (
    let! c := load_conn in
    let! bad := unusable c in
    if bad then dial dsn else Ret None).

(** [conn.Channel()] of amqp091-go, on a pointer that may be nil. *)
Definition open_on (c : option nat) : go (result nat) :=
  match c with
  | None => ask (fun _ => Err (Fresh "nil pointer dereference")) (fun _ => NilConnection)
  | Some i => ask (fun h => env_open env h i) (Opened i)
  end.

Definition Channel (dsn : string) : go (result nat) :=
  let! c := load_conn in
  let! bad := unusable c in
  let! r := (if bad then
               let! rerr := reconnect dsn in
               match rerr with
               | Some e => Ret (Err e)
               | None => let! c := load_conn in Ret (Ok c)
               end
             else Ret (Ok c)) in
  match r with
  | Err e => Ret (Err e)
  | Ok c =>
      let! ch := open_on c in
      match ch with
      | Ok i => Ret (Ok i)
      | Err err =>
          let! rerr := reconnect dsn in
          match rerr with
          | Some _ => Ret (Err (errorf "rabbitmq channel: " err))
          | None => let! c := load_conn in open_on c
          end
      end
  end.

(** [NewConnection]. *)
Definition NewConnection (dsn : string) : go (option error) := dial dsn.

Definition IsClosed : go bool := let! c := load_conn in unusable c.

Definition Close : go (option error) :=
  locked (
    let! c := load_conn in
    match c with
    | None => Ret None
    | Some i =>
        let! closed := IsClosed_of i in
        if closed then Ret None else ask (fun h => env_connclose env h i) (ConnClosed i)
    end).

(** ** Channel operations: one call of the broker each *)

Definition ExchangeDeclare (ch : nat) (name kind : string) (durable : bool) : go (option error) :=
  ask (fun h => env_call env h ch) (ExDeclared ch name kind durable).
Definition QueueDeclare (ch : nat) (name : string) (durable : bool) (args : Table)
  : go (option error) :=
  ask (fun h => env_call env h ch) (QDeclared ch name durable args).
Definition QueueBind (ch : nat) (name key exchange : string) : go (option error) :=
  ask (fun h => env_call env h ch) (QBound ch name key exchange).
Definition Consume (ch : nat) (queue : string) : go (option error) :=
  ask (fun h => env_call env h ch) (Consumed ch queue).
Definition ch_Close (ch : nat) : go (option error) := ask (fun h => env_call env h ch) (ChClosed ch).

(** ** Publisher *)

Definition openChannel (dsn exchange : string) : go (option error) :=
  let! r := Channel dsn in
  match r with
  | Err e => Ret (Some (errorf "rabbitmq publisher channel: " e))
  | Ok ch =>
      let! err := ExchangeDeclare ch exchange "topic" true in
      match err with
      | Some e => do! ch_Close ch in Ret (Some (errorf "rabbitmq exchange declare: " e))
      | None => do! act (fun w => (tt, MkWorld (conn w) (Some ch) (hist w))) in Ret None
      end
  end.

(** [NewPublisher] over a fresh publisher. *)
Definition NewPublisher (dsn exchange : string) : go (option error) := openChannel dsn exchange.

(** [publish]; [fields] is what the propagator injects, [ctx_rid] the request
    identifier of the context. *)
Definition publishing (ctx_rid : string) (fields : list (string * string)) (msg : Message)
  : Publishing :=
  let rid := if String.eqb (RequestID msg) "" then ctx_rid else RequestID msg in
  MkPublishing "application/json" Persistent (Body msg)
    (Inject fields {["x-request-id" := VStr rid]}).

Definition publish (ctx_rid : string) (fields : list (string * string)) (exchange : string)
    (msg : Message) : go (option error) :=
  let! ch := reads pub_ch in
  match ch with
  | None => ask (fun _ => Some (Fresh "nil pointer dereference")) (fun _ => NilConnection)
  | Some ch =>
      ask (fun h => env_call env h ch)
        (Published ch exchange (RoutingKey msg) (publishing ctx_rid fields msg))
  end.

(** [Publish]: the publisher's lock is held throughout; the connection is shared
    with other goroutines. *)
Definition Publish (ctx_rid : string) (fields : list (string * string)) (dsn exchange : string)
    (msg : Message) : go (option error) :=
  let! err := publish ctx_rid fields exchange msg in
  match err with
  | None => Ret None
  | Some err =>
      let! ch := reads pub_ch in
      do! (match ch with Some ch => ch_Close ch | None => Ret None end) in
      let! rerr := openChannel dsn exchange in
      match rerr with
      | Some rerr =>
          Ret (Some (Wrap "rabbitmq reconnect: " rerr ("; original: " ++ error_text err)))
      | None => publish ctx_rid fields exchange msg
      end
  end.

(** [Publisher.Close]. *)
Definition Publisher_Close : go (option error) :=
  let! ch := reads pub_ch in
  match ch with Some ch => ch_Close ch | None => Ret None end.

(** ** Consumer *)

Record Consumer : Type := MkConsumer { exchange : string; dlx : string }.
Definition NewConsumer (exchange : string) : Consumer := MkConsumer exchange (exchange ++ ".dlx").

Definition declareExchanges (c : Consumer) (ch : nat) : go (option error) :=
  let! err := ExchangeDeclare ch (exchange c) "topic" true in
  match err with
  | Some e => Ret (Some (errorf "rabbitmq main exchange declare: " e))
  | None =>
      let! err := ExchangeDeclare ch (dlx c) "topic" true in
      match err with
      | Some e => Ret (Some (errorf "rabbitmq dlx declare: " e))
      | None => Ret None
      end
  end.

Definition qArgs (c : Consumer) (routingKey : string) : Table :=
  {["x-dead-letter-exchange" := VStr (dlx c); "x-dead-letter-routing-key" := VStr routingKey]}.

Definition declareQueues (c : Consumer) (ch : nat) (queueName routingKey : string)
  : go (option error) :=
  let dlqName := (queueName ++ ".dlq")%string in
  let! err := QueueDeclare ch dlqName true ∅ in
  match err with
  | Some e => Ret (Some (errorf "rabbitmq dlq declare: " e))
  | None =>
  let! err := QueueBind ch dlqName routingKey (dlx c) in
  match err with
  | Some e => Ret (Some (errorf "rabbitmq dlq bind: " e))
  | None =>
  let! err := QueueDeclare ch queueName true (qArgs c routingKey) in
  match err with
  | Some e => Ret (Some (errorf "rabbitmq queue declare: " e))
  | None =>
  let! err := QueueBind ch queueName routingKey (exchange c) in
  match err with
  | Some e => Ret (Some (errorf "rabbitmq queue bind: " e))
  | None => Ret None
  end end end end.

(** [handle]; [logConsumed] is its line of consumer.log (journal and latency
    left out). *)
Definition rid_of (d : Delivery) : string :=
  match dHeaders d !! "x-request-id" with Some v => Sprint v | None => "" end.

Definition logConsumed (d : Delivery) (rid : string) (herr : option error) : go unit :=
  let status := match herr with Some _ => "error" | None => "ok" end in
  ask (fun _ => tt) (fun _ => Logged (dRoutingKey d) rid status (option_map error_text herr)).

Definition handle (d : Delivery) : go unit :=
  let rid := rid_of d in
  let msg := MkMessage (dRoutingKey d) (dBody d) rid in
  let! herr := ask (fun h => env_handler env h msg) (Handled msg) in
  do! logConsumed d rid herr in
  match herr with
  | Some _ => ask (fun _ => tt) (fun _ => Nacked (dTag d) false)
  | None => ask (fun _ => tt) (fun _ => Acked (dTag d))
  end.

(** One turn of the loop of [drain]. *)
Definition drain_turn (ch : nat) (_ : unit) : go (unit + option error) :=
  let! r := ask (fun h => env_select env h ch) (Selected ch) in
  match r with
  | CtxDone => Ret (inr None)
  | ChanClosed None => Ret (inr (Some (Fresh "channel closed")))
  | ChanClosed (Some reason) => Ret (inr (Some (Fresh ("channel closed: " ++ reason))))
  | DeliveriesClosed => Ret (inr (Some (Fresh "deliveries channel closed")))
  | Delivered d => do! handle d in Ret (inl tt)
  end.

(** [drain], followed for [n] turns of its loop. *)
Definition drain (n : nat) (ch : nat) (queueName : string) : go (unit + option error) :=
  let! err := Consume ch queueName in
  match err with
  | Some e => Ret (inr (Some (errorf "rabbitmq consume: " e)))
  | None => iterate (drain_turn ch) n tt
  end.

(** [sleepBackoff]: the next back-off, or [None] when the context was cancelled. *)
Definition sleepBackoff (bo : Z) : go (option Z) :=
  let! fired := ask (env_timer env) (Slept bo) in
  if fired then Ret (Some (bo_next bo)) else Ret None.

(** After a failed or finished turn of [Subscribe]: wait, then go round. *)
Definition retry (bo : Z) : go (Z + option (option error)) :=
  let! r := sleepBackoff bo in
  match r with Some bo => Ret (inl bo) | None => Ret (inr (Some None)) end.

Definition ctx_Err : go bool := ask (env_done env) CtxErr.

(** One turn of [Subscribe]. It returns [inr (Some err)] when [Subscribe] returns
    [err], and [inr None] when the deliveries are still flowing after [n] of
    them. *)
Definition Subscribe_turn (dsn : string) (c : Consumer) (queueName routingKey : string) (n : nat)
    (bo : Z) : go (Z + option (option error)) :=
  let! cancelled := ctx_Err in
  if cancelled then Ret (inr (Some None)) else
  let! r := Channel dsn in
  match r with
  | Err _ => retry bo
  | Ok ch =>
  let! err := declareExchanges c ch in
  match err with
  | Some _ => do! ch_Close ch in retry bo
  | None =>
  let! err := declareQueues c ch queueName routingKey in
  match err with
  | Some _ => do! ch_Close ch in retry bo
  | None =>
  let! out := drain n ch queueName in
  match out with
  | inl _ => Ret (inr None)
  | inr err =>
      do! (match err with Some _ => let! _ := ctx_Err in Ret tt | None => Ret tt end) in
      do! ch_Close ch in
      let! cancelled := ctx_Err in
      if cancelled then Ret (inr (Some None)) else retry bo_init
  end end end end.

Definition Subscribe (dsn : string) (c : Consumer) (queueName routingKey : string) (n : nat)
  : go (Z + option (option error)) :=
  iterate (Subscribe_turn dsn c queueName routingKey n) n bo_init.

(** ** Health probe *)

Definition healthCheckWithDialer {W} (dsn : string) (dial : string -> prog W (option error))
  : prog W string :=
  if String.eqb dsn "" then Ret "not_configured"%string
  else
    let! err := dial dsn in
    match err with
    | Some e => Ret ("down: " ++ error_text e)%string
    | None => Ret "ok"%string
    end.
End Rabbit.
