(* ===== verification/RabbitProps.v ===== *)
(** What the RabbitMQ client guarantees. *)

From stdpp Require Import base list strings gmap.
From Stdlib Require Import ZArith Lia String.
From S2P Require Import Prelude Prog GoStrings Broker Rabbit.

Section Props.
Context (env : Env).

Lemma wp_ask {X} (answer : list event -> X) (ev : X -> event) (Q : X -> World -> Prop) w :
  Q (answer (hist w)) (log (ev (answer (hist w))) w) -> wp (ask answer ev) Q w.
Proof. done. Qed.

(** ** One connection *)

(** Every connection ever dialled, except the stored one, is closed. *)
Definition one_open (w : World) : Prop :=
  forall dsn i, Dialed dsn (Ok i) ∈ hist w ->
    conn w = Some i \/ env_isclosed env (hist w) i = true.

(** A closed connection stays closed. *)
Definition stays_closed : Prop :=
  forall h e i, env_isclosed env h i = true -> env_isclosed env (e :: h) i = true.

Definition not_dialed (e : event) : Prop :=
  match e with Dialed _ (Ok _) => False | _ => True end.

Context (Hmono : stays_closed).

Lemma one_open_log e w : not_dialed e -> one_open w -> one_open (log e w).
Proof.
  intros He Hw dsn i Hin. apply elem_of_cons in Hin as [Hin | Hin]; [by rewrite <- Hin in He |].
  destruct (Hw dsn i Hin) as [Hc | Hc]; [by left | right]. by apply Hmono.
Qed.

Lemma keeps_ask {X} (answer : list event -> X) (ev : X -> event) :
  (forall x, not_dialed (ev x)) -> keeps one_open (ask answer ev).
Proof. intros H. apply keeps_act. intros w Hw. by apply one_open_log. Qed.

(** Dialling when the stored connection is unusable. *)
Lemma one_open_dial dsn w :
  one_open w -> (forall i, conn w = Some i -> env_isclosed env (hist w) i = true) ->
  one_open (run (dial env dsn) w).2.
Proof.
  intros Hw Hbad. unfold dial. rewrite run_bind. cbn.
  destruct (env_dial env (hist w) dsn) as [c | e]; cbn.
  - intros d i Hin. apply elem_of_cons in Hin as [[= -> ->] | Hin]; [by left |]. right.
    apply Hmono. destruct (Hw d i Hin) as [Hc | Hc]; [by apply Hbad | done].
  - by apply one_open_log.
Qed.

Lemma keeps_reconnect dsn : keeps one_open (reconnect env dsn).
Proof.
  apply keeps_act. intros w Hw. unfold load_conn. rewrite run_bind. cbn [run reads act].
  destruct (conn w) as [i |] eqn:Ec; cbn.
  - destruct (env_isclosed env (hist w) i) eqn:Ei; cbn; [| by apply one_open_log].
    change (one_open (run (dial env dsn) (log (AskedClosed i true) w)).2).
    apply one_open_dial; [by apply one_open_log |]. intros j [= <-]%(eq_trans (eq_sym Ec)).
    by apply Hmono.
  - apply one_open_dial; [done |]. intros j Hj. congruence.
Qed.

Ltac keep :=
  repeat match goal with
    | |- keeps _ (bind _ _) => apply keeps_bind
    | |- keeps _ (Ret _) => exact I
    | |- keeps _ (reads _) => apply keeps_reads
    | |- keeps _ (ask _ _) => apply keeps_ask
    | |- keeps _ (reconnect _ _) => apply keeps_reconnect
    | |- keeps _ (iterate _ _ _) => apply keeps_iterate
    | |- keeps _ (match ?x with _ => _ end) => destruct x
    | |- not_dialed _ => exact I
    | |- forall _, _ => intros ?
    | |- keeps _ ((fun _ => _) _) => cbv beta
    end.

Lemma keeps_Channel dsn : keeps one_open (Channel env dsn).
Proof. unfold Channel, load_conn, open_on, unusable, IsClosed_of. keep. Qed.

Lemma keeps_set_ch (ch : nat) :
  keeps one_open (act (fun w => (tt, MkWorld (conn w) (Some ch) (hist w)))).
Proof. by apply keeps_act. Qed.

Lemma keeps_Publish ctx_rid fields dsn exchange msg :
  keeps one_open (Publish env ctx_rid fields dsn exchange msg).
Proof.
  unfold Publish, publish, openChannel, ExchangeDeclare, ch_Close.
  repeat first [apply keeps_Channel | apply keeps_set_ch | progress keep].
Qed.

Lemma keeps_Subscribe dsn c queueName routingKey n :
  keeps one_open (Subscribe env dsn c queueName routingKey n).
Proof.
  apply keeps_iterate. intros bo.
  unfold Subscribe_turn, declareExchanges, declareQueues, drain, drain_turn, handle, logConsumed,
    retry, sleepBackoff, ctx_Err, ExchangeDeclare, QueueDeclare, QueueBind, Consume, ch_Close.
  repeat first [apply keeps_Channel | progress keep].
Qed.

(** C15. One connection per process: while a publisher and a consumer that share a
    connection run concurrently, interleaved in any way and against any broker, at
    most one of the connections ever dialled is open, and it is the one they
    share. *)
Theorem single_connection ctx_rid fields dsn exchange msg c queueName routingKey n
    (pub : option nat) (cfg : par World (option error) (Z + option (option error)))
    (Hrun : rtc par_step
       (Par (Publish env ctx_rid fields dsn exchange msg)
            (Subscribe env dsn c queueName routingKey n)
            (run (NewConnection env dsn) (MkWorld None pub [])).2) cfg) :
  forall d i, Dialed d (Ok i) ∈ hist (world cfg) ->
    env_isclosed env (hist (world cfg)) i = false -> conn (world cfg) = Some i.
Proof.
  assert (H : one_open (world cfg)).
  { eapply keeps_par; [apply keeps_Publish | apply keeps_Subscribe | | exact Hrun].
    apply one_open_dial; [| done]. intros d i Hin. by apply not_elem_of_nil in Hin. }
  intros d i Hin Hopen. destruct (H d i Hin) as [| Hc]; [done | congruence].
Qed.
End Props.

(** ** Publishing *)

(** The publish attempts of a history, newest first. *)
Fixpoint attempts (h : list event) : list (string * string * Publishing * option error) :=
  match h with
  | [] => []
  | Published _ x k p r :: h' => (x, k, p, r) :: attempts h'
  | _ :: h' => attempts h'
  end.

(** An action that is no attempt. *)
Definition silent (e : event) : Prop :=
  match e with Published _ _ _ _ _ => False | _ => True end.

Lemma attempts_silent e h : silent e -> attempts (e :: h) = attempts h.
Proof. by destruct e. Qed.

Section Publish.
Context (env : Env).

Lemma keeps_silent {X} P (answer : list event -> X) (ev : X -> event) :
  (forall x, silent (ev x)) -> keeps (fun w => attempts (hist w) = P) (ask answer ev).
Proof. intros H. apply keeps_act. intros w Hw. cbn [snd hist log]. by rewrite attempts_silent. Qed.

Ltac keep_silent :=
  repeat match goal with
    | |- keeps _ (bind _ _) => apply keeps_bind
    | |- keeps _ (Ret _) => exact I
    | |- keeps _ (reads _) => apply keeps_reads
    | |- keeps _ (ask _ _) => apply keeps_silent
    | |- keeps _ (match ?x with _ => _ end) => destruct x
    | |- silent _ => exact I
    | |- forall _, _ => intros ?
    end.

Lemma attempts_reconnect dsn P : keeps (fun w => attempts (hist w) = P) (reconnect env dsn).
Proof.
  apply keeps_act. intros w Hw.
  apply (keeps_run (fun w => attempts (hist w) = P)); [| done].
  unfold load_conn, unusable, IsClosed_of, dial. keep_silent. by apply keeps_act.
Qed.

Lemma attempts_openChannel dsn exchange P :
  keeps (fun w => attempts (hist w) = P) (openChannel env dsn exchange).
Proof.
  unfold openChannel, Channel, load_conn, open_on, unusable, IsClosed_of, ExchangeDeclare, ch_Close.
  repeat first [apply attempts_reconnect | progress keep_silent | by apply keeps_act].
Qed.

(** The channel a publisher holds after a successful [openChannel] is one on
    which it has declared the exchange. *)
Lemma openChannel_declared dsn exchange w :
  wp (openChannel env dsn exchange)
    (fun r w' => r = None -> exists ch,
       pub_ch w' = Some ch /\ ExDeclared ch exchange "topic" true None ∈ hist w') w.
Proof.
  unfold openChannel. apply wp_bind. unfold wp at 1.
  destruct (run (Channel env dsn) w) as [[ch | e] w1]; cbn [fst snd]; [| by apply wp_ret].
  apply wp_bind, wp_ask. destruct (env_call env (hist w1) ch) as [e |] eqn:E.
  - apply wp_bind, wp_ask, wp_ret. by intros.
  - apply wp_bind, wp_act. intros x w2 [= _ <-]. apply wp_ret. intros _. exists ch.
    split; [done |]. apply list_elem_of_here.
Qed.

(** [Publish] makes one attempt, and a second one only after the first failed
    and a channel with the exchange declared is open again; every attempt carries
    the same persistent message under the caller's routing key. It answers nil
    exactly when the last attempt was accepted, and then no other was. *)
Theorem publish_spec ctx_rid fields dsn exchange msg w ch (Hch : pub_ch w = Some ch) :
  let '(res, w') := run (Publish env ctx_rid fields dsn exchange msg) w in
  let attempt r := (exchange, RoutingKey msg, publishing ctx_rid fields msg, r) in
  (attempts (hist w') = attempt None :: attempts (hist w) /\ res = None) \/
  (exists e, attempts (hist w') = attempt (Some e) :: attempts (hist w) /\ res <> None) \/
  (exists e ch', attempts (hist w') = attempt res :: attempt (Some e) :: attempts (hist w) /\
     ExDeclared ch' exchange "topic" true None ∈ hist w' /\ pub_ch w' = Some ch').
Proof.
  apply run_wp. unfold Publish, publish. apply wp_bind, wp_bind, wp_reads. rewrite Hch.
  apply wp_ask. destruct (env_call env (hist w) ch) as [err |] eqn:E1; [| apply wp_ret; left; by split].
  set (w1 := log _ w). apply wp_bind, wp_reads. change (pub_ch w1) with (pub_ch w). rewrite Hch.
  apply wp_bind, wp_ask. set (w2 := log _ w1). apply wp_bind.
  pose proof (openChannel_declared dsn exchange w2) as Hd.
  assert (Ha : attempts (hist (run (openChannel env dsn exchange) w2).2) = attempts (hist w2))
    by exact (keeps_run _ _ w2 (attempts_openChannel dsn exchange _) eq_refl).
  unfold wp at 1. unfold wp in Hd. destruct (run (openChannel env dsn exchange) w2) as [[rerr |] w3];
    cbn [fst snd] in *.
  - apply wp_ret. right; left. exists err. split; [exact Ha | done].
  - destruct (Hd eq_refl) as (ch' & Hch' & Hin). apply wp_bind, wp_reads. rewrite Hch'. apply wp_ask.
    right; right. exists err, ch'. split; [| split; [| done]].
    + simpl. by rewrite Ha.
    + simpl. rewrite elem_of_cons. by right.
Qed.
End Publish.

(** ** Consuming *)

Fixpoint deliveries (h : list event) : list Delivery :=
  match h with
  | [] => []
  | Selected _ (Delivered d) :: h' => d :: deliveries h'
  | _ :: h' => deliveries h'
  end.

Fixpoint verdicts (h : list event) : list (Message * option error) :=
  match h with
  | [] => []
  | Handled m r :: h' => (m, r) :: verdicts h'
  | _ :: h' => verdicts h'
  end.

(** The acknowledgements sent: tag, accepted, requeued. *)
Fixpoint settlements (h : list event) : list (Z * bool * bool) :=
  match h with
  | [] => []
  | Acked tag :: h' => (tag, true, false) :: settlements h'
  | Nacked tag requeue :: h' => (tag, false, requeue) :: settlements h'
  | _ :: h' => settlements h'
  end.

Definition message_of (d : Delivery) : Message := MkMessage (dRoutingKey d) (dBody d) (rid_of d).
Definition settlement (dv : Delivery * (Message * option error)) : Z * bool * bool :=
  (dTag dv.1, match dv.2.2 with None => true | Some _ => false end, false).

(** The queue, its dead-letter queue and their bindings, declared on the channel. *)
Definition topology (c : Consumer) (q rk : string) (ch : nat) (h : list event) : Prop :=
  ExDeclared ch (exchange c) "topic" true None ∈ h /\
  ExDeclared ch (dlx c) "topic" true None ∈ h /\
  QDeclared ch (q ++ ".dlq") true ∅ None ∈ h /\
  QBound ch (q ++ ".dlq") rk (dlx c) None ∈ h /\
  QDeclared ch q true (qArgs c rk) None ∈ h /\
  QBound ch q rk (exchange c) None ∈ h.

(** Nothing is consumed before the topology is in place. *)
Fixpoint guarded (c : Consumer) (q rk : string) (h : list event) : Prop :=
  match h with
  | [] => True
  | Consumed ch q' _ :: h' => q' = q /\ topology c q rk ch h' /\ guarded c q rk h'
  | _ :: h' => guarded c q rk h'
  end.

Definition inert (e : event) : Prop :=
  match e with
  | Selected _ (Delivered _) | Handled _ _ | Acked _ | Nacked _ _ | Consumed _ _ _ => False
  | _ => True
  end.

Section Consume.
Context (env : Env) (c : Consumer) (q rk : string).

Definition settled (w : World) : Prop :=
  map fst (verdicts (hist w)) = map message_of (deliveries (hist w)) /\
  settlements (hist w) = map settlement (zip (deliveries (hist w)) (verdicts (hist w))) /\
  guarded c q rk (hist w).

Lemma settled_log e w : inert e -> settled w -> settled (log e w).
Proof.
  unfold settled. cbn [hist log]. intros He.
  destruct e as [| | | | | | | | | ch [| | |] | | | | | | | |]; cbn in *; try done.
Qed.

Lemma keeps_inert {X} (answer : list event -> X) (ev : X -> event) :
  (forall x, inert (ev x)) -> keeps settled (ask answer ev).
Proof. intros H. apply keeps_act. intros w Hw. by apply settled_log. Qed.

Ltac keep_inert :=
  repeat match goal with
    | |- keeps _ (bind _ _) => apply keeps_bind
    | |- keeps _ (Ret _) => exact I
    | |- keeps _ (reads _) => apply keeps_reads
    | |- keeps _ (ask _ _) => apply keeps_inert
    | |- keeps _ (match ?x with _ => _ end) => destruct x
    | |- inert _ => exact I
    | |- forall _, _ => intros ?
    end.

Lemma settled_reconnect dsn : keeps settled (reconnect env dsn).
Proof.
  apply keeps_act. intros w Hw. apply keeps_run; [| done].
  unfold load_conn, unusable, IsClosed_of, dial. keep_inert. by apply keeps_act.
Qed.

Lemma settled_Channel dsn : keeps settled (Channel env dsn).
Proof.
  unfold Channel, load_conn, open_on, unusable, IsClosed_of.
  repeat first [apply settled_reconnect | progress keep_inert].
Qed.

Lemma wp_inert {X} (answer : list event -> X) (ev : X -> event) (Q : X -> World -> Prop) w :
  settled w -> (forall x, inert (ev x)) ->
  (forall x, settled (log (ev x) w) -> Q x (log (ev x) w)) -> wp (ask answer ev) Q w.
Proof. intros Hw He HQ. apply wp_ask. apply HQ. by apply settled_log. Qed.

Lemma wp_declareExchanges ch w :
  settled w ->
  wp (declareExchanges env c ch) (fun r w' => settled w' /\
    (r = None -> hist w' = ExDeclared ch (dlx c) "topic" true None
                            :: ExDeclared ch (exchange c) "topic" true None :: hist w)) w.
Proof.
  intros Hw. unfold declareExchanges, ExchangeDeclare.
  apply wp_bind, wp_inert; [done | done |]. intros [e |] H1; [by apply wp_ret |].
  apply wp_bind, wp_inert; [done | done |]. intros [e |] H2; by apply wp_ret.
Qed.

Lemma wp_declareQueues ch w :
  settled w ->
  wp (declareQueues env c ch q rk) (fun r w' => settled w' /\
    (r = None -> hist w' = QBound ch q rk (exchange c) None
                            :: QDeclared ch q true (qArgs c rk) None
                            :: QBound ch (q ++ ".dlq") rk (dlx c) None
                            :: QDeclared ch (q ++ ".dlq") true ∅ None :: hist w)) w.
Proof.
  intros Hw. unfold declareQueues, QueueDeclare, QueueBind.
  do 4 (apply wp_bind, wp_inert; [done | done |];
        let H := fresh "H" in intros [e |] H; [by apply wp_ret |]).
  by apply wp_ret.
Qed.

Lemma wp_drain_turn ch w :
  settled w -> wp (drain_turn env ch tt) (holds (fun _ => settled) (fun _ => settled)) w.
Proof.
  intros Hw. unfold drain_turn. apply wp_bind, wp_ask.
  destruct (env_select env (hist w) ch) as [| [r |] | d |];
    try (apply wp_ret; by apply settled_log).
  destruct Hw as (H1 & H2 & H3).
  apply wp_bind. unfold handle, logConsumed. apply wp_bind, wp_ask, wp_bind, wp_ask.
  destruct (env_handler env _ _) as [e |]; apply wp_ask, wp_ret; unfold settled; cbn;
    rewrite H1, H2; done.
Qed.

Lemma wp_drain n ch w :
  settled w -> topology c q rk ch (hist w) ->
  wp (drain env n ch q) (holds (fun _ => settled) (fun _ => settled)) w.
Proof.
  intros Hw Ht. unfold drain, Consume. apply wp_bind, wp_ask.
  assert (settled (log (Consumed ch q (env_call env (hist w) ch)) w)) as Hs.
  { destruct Hw as (H1 & H2 & H3). unfold settled. cbn. split; [done |]. split; [done |]. by split. }
  destruct (env_call env (hist w) ch) as [e |]; [by apply wp_ret |].
  apply (iterate_invariant _ (fun _ => settled) (fun _ => settled)); [| done].
  intros [] w' Hw'. by apply wp_drain_turn.
Qed.

Lemma settled_retry bo : keeps settled (retry env bo).
Proof. unfold retry, sleepBackoff. keep_inert. Qed.

Lemma wp_retry bo w : settled w -> wp (retry env bo) (holds (fun _ => settled) (fun _ => settled)) w.
Proof. intros Hw. apply (wp_keeps settled); [apply settled_retry | done |]. by intros []. Qed.

Lemma wp_Subscribe_turn dsn n bo w :
  settled w ->
  wp (Subscribe_turn env dsn c q rk n bo) (holds (fun _ => settled) (fun _ => settled)) w.
Proof.
  intros Hw. unfold Subscribe_turn, ctx_Err, ch_Close.
  apply wp_bind, wp_inert; [done | done |]. intros [] H1; [by apply wp_ret |].
  apply wp_bind, (wp_keeps settled); [apply settled_Channel | done |]. intros [ch | e] w2 H2;
    [| by apply wp_retry].
  apply wp_bind. eapply wp_mono; [by apply wp_declareExchanges |]. intros [e |] w3 [H3 E3].
  { apply wp_bind, wp_inert; [done | done |]. intros. by apply wp_retry. }
  apply wp_bind. eapply wp_mono; [by apply wp_declareQueues |]. intros [e |] w4 [H4 E4].
  { apply wp_bind, wp_inert; [done | done |]. intros. by apply wp_retry. }
  apply wp_bind. eapply wp_mono; [apply wp_drain; [done |] |].
  { rewrite E4, E3 by done. unfold topology. repeat split; set_solver. }
  intros [u | err] w5 H5; cbn in H5; [by apply wp_ret |].
  apply wp_bind, (wp_keeps settled); [by destruct err; keep_inert | done |]. intros ? w6 H6.
  apply wp_bind, wp_inert; [done | done |]. intros ? H7.
  apply wp_bind, wp_inert; [done | done |]. intros [] H8; [by apply wp_ret | by apply wp_retry].
Qed.

(** C16. A consumer, against any broker and handler: nothing is consumed before the
    exchanges, the queue, its dead-letter queue and their bindings are declared on
    the same channel; every delivery goes to the handler once, in order; and each
    is settled once, acknowledged when the handler accepted it and rejected without
    requeueing when it did not. *)
Theorem consumer_settles dsn n w (Hw : hist w = []) :
  let h := hist (run (Subscribe env dsn c q rk n) w).2 in
  map fst (verdicts h) = map message_of (deliveries h) /\
  settlements h = map settlement (zip (deliveries h) (verdicts h)) /\
  guarded c q rk h.
Proof.
  assert (Hi : settled w) by (unfold settled; rewrite Hw; done).
  pose proof (iterate_invariant (Subscribe_turn env dsn c q rk n) (fun _ => settled)
    (fun _ => settled) (fun bo w => wp_Subscribe_turn dsn n bo w) n bo_init w Hi) as H.
  apply run_wp in H. unfold Subscribe. destruct (run _ w) as [[bo | r] w']; exact H.
Qed.
End Consume.

(** ** Dead letters

    [matches pattern key] is the broker's topic matching. A message rejected from
    queue [q] without requeueing is republished on the queue's dead-letter
    exchange under its dead-letter routing key, to every queue bound there with a
    matching pattern. *)
Section DeadLetter.
Context (matches : string -> string -> bool).

Definition dead_letters (h : list event) (q target : string) : Prop :=
  exists ch args x key ch' pattern,
    QDeclared ch q true args None ∈ h /\
    args !! "x-dead-letter-exchange" = Some (VStr x) /\
    args !! "x-dead-letter-routing-key" = Some (VStr key) /\
    QBound ch' target pattern x None ∈ h /\ matches pattern key = true.

Lemma guarded_topology c q rk h ch q' r :
  guarded c q rk h -> Consumed ch q' r ∈ h -> q' = q /\ topology c q rk ch h.
Proof.
  assert (Hmono : forall e h, topology c q rk ch h -> topology c q rk ch (e :: h)).
  { clear. unfold topology. set_solver. }
  induction h as [| e h IH]; intros Hg Hin; [by apply not_elem_of_nil in Hin |].
  apply elem_of_cons in Hin as [<- | Hin].
  - destruct Hg as (-> & Ht & _). split; [done |]. by apply Hmono.
  - assert (Hg' : guarded c q rk h) by (destruct e; cbn in Hg; intuition).
    destruct (IH Hg' Hin) as [-> Ht]. split; [done |]. by apply Hmono.
Qed.

(** A message the handler refuses is not lost: whenever a queue is consumed,
    the broker sends what is rejected from it to the queue's own dead-letter
    queue (given only that a topic pattern matches itself). *)
Theorem dead_letter_path env c q rk dsn n w (Hw : hist w = [])
    (Hmatches : forall k, matches k k = true) :
  let h := hist (run (Subscribe env dsn c q rk n) w).2 in
  forall ch q' r, Consumed ch q' r ∈ h -> q' = q /\ dead_letters h q (q ++ ".dlq").
Proof.
  intros h ch q' r Hin.
  assert (Hg : guarded c q rk h).
  { assert (Hi : settled c q rk w) by (unfold settled; rewrite Hw; done).
    pose proof (iterate_invariant (Subscribe_turn env dsn c q rk n) (fun _ => settled c q rk)
      (fun _ => settled c q rk) (fun bo w => wp_Subscribe_turn env c q rk dsn n bo w) n bo_init w Hi)
      as H.
    apply run_wp in H. subst h. unfold Subscribe.
    destruct (run _ w) as [[bo | x] w']; apply H. }
  destruct (guarded_topology _ _ _ _ _ _ _ Hg Hin) as (-> & _ & _ & _ & Hb & Hd & _).
  split; [done |]. exists ch, (qArgs c rk), (dlx c), rk, ch, rk. unfold qArgs. by repeat split.
Qed.
End DeadLetter.

Module RabbitWitness.

(** A broker whose first channel rejects what is called on it; it delivers one
    message, then the context ends. *)
Definition order : Delivery := MkDelivery 7 "events" "order.paid" "x" {["x-request-id" := VOther "9"]}.
Definition env : Env :=
  MkEnv (fun h _ => Ok (List.length h))
    (fun h i => existsb (fun e => match e with ConnClosed j _ => Nat.eqb i j | _ => false end) h)
    (fun h _ => Ok (List.length h))
    (fun _ ch => if Nat.eqb ch 0 then Some (Fresh "channel/connection is not open") else None)
    (fun _ _ => None)
    (fun h _ => if (List.length (deliveries h) =? 0)%nat then Delivered order else CtxDone)
    (fun _ m => if String.eqb (Body m) "x" then Some (Fresh "boom") else None)
    (fun h => negb (List.length (deliveries h) =? 0)%nat)
    (fun _ => true).
Definition w0 : World := MkWorld (Some 3%nat) (Some 0%nat) [].
Definition orders : Consumer := NewConsumer "events".
Definition paid : Message := MkMessage "order.paid" "x" "r1".

Lemma env_stays_closed : stays_closed env.
Proof. intros h e i H. simpl in *. rewrite H. by rewrite orb_true_r. Qed.

Lemma single_connection_witness :
  let start := Par (Publish env "" [] "amqp://" "events" paid)
                   (Subscribe env "amqp://" orders "orders" "order.*" 2)
                   (run (NewConnection env "amqp://") (MkWorld None (Some 0%nat) [])).2 in
  conn (world (exec [true; false; true; false; true; false] start)) = Some 0%nat.
Proof.
  intros start.
  apply (single_connection env env_stays_closed "" [] "amqp://" "events" paid orders "orders"
           "order.*" 2 (Some 0%nat) _ (exec_steps [true; false; true; false; true; false] start)
           "amqp://" 0%nat).
  - vm_compute. repeat constructor.
  - vm_compute. reflexivity.
Defined.

Lemma publish_spec_witness :
  let '(res, w') := run (Publish env "" [] "amqp://" "events" paid) w0 in
  res = None /\ exists ch, ExDeclared ch "events" "topic" true None ∈ hist w' /\ pub_ch w' = Some ch.
Proof.
  pose proof (publish_spec env "" [] "amqp://" "events" paid w0 0%nat eq_refl) as H.
  assert (Hr : (run (Publish env "" [] "amqp://" "events" paid) w0).1 = None) by (vm_compute; reflexivity).
  assert (Ha : List.length (attempts (hist (run (Publish env "" [] "amqp://" "events" paid) w0).2)) = 2%nat)
    by (vm_compute; reflexivity).
  destruct (run (Publish env "" [] "amqp://" "events" paid) w0) as [res w']. simpl in *.
  split; [exact Hr |]. destruct H as [[H _] | [(e & H & _) | (e & ch & H & Hd & Hc)]].
  - rewrite H in Ha. discriminate Ha.
  - rewrite H in Ha. discriminate Ha.
  - by exists ch.
Defined.

(** The refused delivery is rejected, not requeued, and reaches its dead-letter queue. *)
Lemma consumer_settles_witness :
  settlements (hist (run (Subscribe env "amqp://" orders "orders" "order.*" 3) w0).2)
    = [(7, false, false)].
Proof.
  destruct (consumer_settles env orders "orders" "order.*" "amqp://" 3 w0 eq_refl) as (_ & H & _).
  rewrite H. vm_compute. reflexivity.
Defined.

Lemma dead_letter_path_witness :
  dead_letters String.eqb (hist (run (Subscribe env "amqp://" orders "orders" "order.*" 3) w0).2)
    "orders" "orders.dlq".
Proof.
  apply (dead_letter_path String.eqb env orders "orders" "order.*" "amqp://" 3 w0 eq_refl
           String.eqb_refl 2%nat "orders" None).
  vm_compute. repeat first [apply list_elem_of_here | apply list_elem_of_further].
Defined.

(** Two queues of one exchange with the same routing key: what is rejected from
    the first also lands in the dead-letter queue of the second. *)
Definition quiet : Env :=
  MkEnv (env_dial env) (env_isclosed env) (env_open env) (fun _ _ => None) (env_connclose env)
    (fun _ _ => CtxDone) (env_handler env)
    (fun h => match h with ChClosed _ _ :: _ => true | _ => false end) (env_timer env).
Lemma dead_letters_cross :
  let h := hist (run (Subscribe quiet "amqp://" orders "audit" "order.*" 3)
                   (run (Subscribe quiet "amqp://" orders "orders" "order.*" 3) w0).2).2 in
  dead_letters String.eqb h "orders" "orders.dlq" /\ dead_letters String.eqb h "orders" "audit.dlq".
Proof.
  intros h.
  assert (Hq : QDeclared 2%nat "orders" true (qArgs orders "order.*") None ∈ h)
    by (vm_compute; repeat first [apply list_elem_of_here | apply list_elem_of_further]).
  split; exists 2%nat, (qArgs orders "order.*"), "events.dlx"%string, "order.*"%string.
  - exists 2%nat, "order.*"%string. repeat split; [exact Hq |].
    vm_compute; repeat first [apply list_elem_of_here | apply list_elem_of_further].
  - exists 15%nat, "order.*"%string. repeat split; [exact Hq |].
    vm_compute; repeat first [apply list_elem_of_here | apply list_elem_of_further].
Qed.
End RabbitWitness.
