(* ===== verification/Config.v ===== *)
(** Configuration ([config/config.go]): what the program tells viper (the
    bindings, the defaults, the flags) and the structure it decodes the answer
    into. Viper's lookup and mapstructure's weak decoding are a parameter with
    their documented laws. *)

From stdpp Require Import base list strings gmap.
From Stdlib Require Import ZArith Lia Ascii String.
From S2P Require Import Prelude GoStrings.

(** A configuration value of a file or a default. *)
Inductive value : Type := VStr (s : string) | VInt (z : Z) | VBool (b : bool).

#[export] Instance value_eq_dec : EqDecision value.
Proof. solve_decision. Defined.

Record AppConfig : Type := MkAppConfig {
  App_Env : string; App_Port : string; App_Name : string; App_CORSAllowedOrigins : string;
  App_TrustedProxies : string; App_BcryptCost : Z
}.
Record DBConfig : Type := MkDBConfig {
  DB_Driver : string; DB_Host : string; DB_Port : string; DB_Name : string; DB_User :
  string; DB_Password : string; DB_MaxOpenConns : Z; DB_MaxIdleConns : Z; DB_ConnMaxLife :
  string; DB_AutoMigrate : bool; DB_SSLMode : string; DB_QueryTimeout : string
}.
Record RedisConfig : Type := MkRedisConfig {
  Redis_URL : string; Redis_Password : string; Redis_DB : Z; Redis_PoolSize : Z;
  Redis_MinIdleConns : Z; Redis_DialTimeout : string; Redis_ReadTimeout : string;
  Redis_WriteTimeout : string; Redis_MaxRetries : Z
}.
Record KafkaConfig : Type := MkKafkaConfig {
  Kafka_Brokers : string; Kafka_GroupID : string; Kafka_HeartbeatInterval : string;
  Kafka_SessionTimeout : string; Kafka_RebalanceTimeout : string
}.
Record RabbitMQConfig : Type := MkRabbitMQConfig {
  RabbitMQ_DSN : string; RabbitMQ_Exchange : string
}.
Record LogConfig : Type := MkLogConfig {
  Log_Level : string; Log_ToFile : bool; Log_FilePath : string; Log_Dir : string;
  Log_Rotation : string; Log_MaxAgeDays : Z; Log_BodyMaxBytes : Z; Log_HTTPBodies : bool
}.
Record ServiceURLs : Type := MkServiceURLs {
  Services_UserURL : string; Services_OrderURL : string
}.
Record JWTConfig : Type := MkJWTConfig {
  JWT_Secret : string; JWT_Issuer : string; JWT_Audience : string; JWT_Expiry : string;
  JWT_RefreshExpiry : string
}.
Record ObservabilityConfig : Type := MkObservabilityConfig {
  Obs_Provider : string; Obs_TracingEnabled : bool; Obs_OTLPEndpoint : string
}.
Record HealthConfig : Type := MkHealthConfig {
  Health_ProbeTimeout : string
}.
Record RateLimitConfig : Type := MkRateLimitConfig {
  RL_Backend : string; RL_Max : Z; RL_Window : string; RL_Prefix : string
}.
Record SMTPConfig : Type := MkSMTPConfig {
  SMTP_Host : string; SMTP_Port : Z; SMTP_Username : string; SMTP_Password : string;
  SMTP_From : string; SMTP_Timeout : string
}.
Record FirebaseConfig : Type := MkFirebaseConfig {
  Firebase_CredentialsJSON : string
}.
Record NotificationConfig : Type := MkNotificationConfig {
  Notif_SMTP : SMTPConfig; Notif_Firebase : FirebaseConfig
}.
Record Config : Type := MkConfig {
  cfg_App : AppConfig; cfg_DB : DBConfig; cfg_Redis : RedisConfig; cfg_Kafka : KafkaConfig;
  cfg_RabbitMQ : RabbitMQConfig; cfg_Log : LogConfig; cfg_Services : ServiceURLs; cfg_JWT :
  JWTConfig; cfg_Observability : ObservabilityConfig; cfg_Health : HealthConfig;
  cfg_RateLimit : RateLimitConfig; cfg_Notification : NotificationConfig
}.

(** [RedisConfig.Enabled]. *)
Definition Enabled (c : RedisConfig) : bool := negb (String.eqb (TrimSpace (Redis_URL c)) "").

(** What the calls of [Load] leave in the viper instance. *)
Record Setup : Type := MkSetup {
  allow_empty_env : bool;
  env_key_replacer : string -> string;
  automatic_env : bool;
  bound : list (string * string);
  defaults : list (string * value)
}.

Definition bindings : list (string * string) :=
  [("app.env", "APP_ENV");
   ("app.port", "APP_PORT");
   ("app.name", "APP_NAME");
   ("app.cors_allowed_origins", "APP_CORS_ALLOWED_ORIGINS");
   ("db.driver", "DB_DRIVER");
   ("db.host", "DB_HOST");
   ("db.port", "DB_PORT");
   ("db.name", "DB_NAME");
   ("db.user", "DB_USER");
   ("db.password", "DB_PASSWORD");
   ("db.max_open_conns", "DB_MAX_OPEN_CONNS");
   ("db.max_idle_conns", "DB_MAX_IDLE_CONNS");
   ("db.conn_max_life", "DB_CONN_MAX_LIFE");
   ("db.auto_migrate", "DB_AUTO_MIGRATE");
   ("db.sslmode", "DB_SSL_MODE");
   ("redis.url", "REDIS_URL");
   ("redis.password", "REDIS_PASSWORD");
   ("redis.db", "REDIS_DB");
   ("redis.pool_size", "REDIS_POOL_SIZE");
   ("redis.min_idle_conns", "REDIS_MIN_IDLE_CONNS");
   ("redis.dial_timeout", "REDIS_DIAL_TIMEOUT");
   ("redis.read_timeout", "REDIS_READ_TIMEOUT");
   ("redis.write_timeout", "REDIS_WRITE_TIMEOUT");
   ("redis.max_retries", "REDIS_MAX_RETRIES");
   ("kafka.brokers", "KAFKA_BROKERS");
   ("kafka.group_id", "KAFKA_GROUP_ID");
   ("kafka.heartbeat_interval", "KAFKA_HEARTBEAT_INTERVAL");
   ("kafka.session_timeout", "KAFKA_SESSION_TIMEOUT");
   ("kafka.rebalance_timeout", "KAFKA_REBALANCE_TIMEOUT");
   ("rabbitmq.dsn", "RABBITMQ_DSN");
   ("rabbitmq.exchange", "RABBITMQ_EXCHANGE");
   ("log.level", "LOG_LEVEL");
   ("log.to_file", "LOG_TO_FILE");
   ("log.file_path", "LOG_FILE_PATH");
   ("log.dir", "LOG_DIR");
   ("log.rotation", "LOG_ROTATION");
   ("log.max_age_days", "LOG_MAX_AGE_DAYS");
   ("log.body_max_bytes", "LOG_BODY_MAX_BYTES");
   ("log.http_bodies", "LOG_HTTP_BODIES");
   ("services.user_url", "USER_SERVICE_URL");
   ("services.order_url", "ORDER_SERVICE_URL");
   ("jwt.secret", "JWT_SECRET");
   ("jwt.issuer", "JWT_ISSUER");
   ("jwt.audience", "JWT_AUDIENCE");
   ("jwt.expiry", "JWT_EXPIRY");
   ("jwt.refresh_expiry", "JWT_REFRESH_EXPIRY");
   ("app.trusted_proxies", "APP_TRUSTED_PROXIES");
   ("app.bcrypt_cost", "BCRYPT_COST");
   ("db.query_timeout", "DB_QUERY_TIMEOUT");
   ("observability.provider", "OBSERVABILITY_PROVIDER");
   ("observability.tracing_enabled", "OTEL_TRACING_ENABLED");
   ("observability.otlp_endpoint", "OTEL_EXPORTER_OTLP_ENDPOINT");
   ("health.probe_timeout", "HEALTH_PROBE_TIMEOUT");
   ("rate_limit.backend", "RATE_LIMIT_BACKEND");
   ("rate_limit.max", "RATE_LIMIT_MAX");
   ("rate_limit.window", "RATE_LIMIT_WINDOW");
   ("rate_limit.prefix", "RATE_LIMIT_PREFIX");
   ("notification.smtp.host", "SMTP_HOST");
   ("notification.smtp.port", "SMTP_PORT");
   ("notification.smtp.username", "SMTP_USERNAME");
   ("notification.smtp.password", "SMTP_PASSWORD");
   ("notification.smtp.from", "SMTP_FROM");
   ("notification.smtp.timeout", "SMTP_TIMEOUT");
   ("notification.firebase.credentials_json", "FIREBASE_CREDENTIALS_JSON")].

Definition default_values : list (string * value) :=
  [("app.env", VStr "development");
   ("app.port", VStr "8080");
   ("app.name", VStr "wapgo-service");
   ("app.cors_allowed_origins", VStr "http://localhost:3000");
   ("db.driver", VStr "mysql");
   ("db.host", VStr "localhost");
   ("db.port", VStr "3306");
   ("db.max_open_conns", VInt 25);
   ("db.max_idle_conns", VInt 5);
   ("db.conn_max_life", VStr "5m");
   ("db.auto_migrate", VBool false);
   ("db.sslmode", VStr "disable");
   ("redis.url", VStr "");
   ("redis.db", VInt 0);
   ("redis.pool_size", VInt 20);
   ("redis.min_idle_conns", VInt 5);
   ("redis.dial_timeout", VStr "5s");
   ("redis.read_timeout", VStr "3s");
   ("redis.write_timeout", VStr "3s");
   ("redis.max_retries", VInt 3);
   ("log.level", VStr "info");
   ("log.to_file", VBool false);
   ("log.file_path", VStr "logs/app.log");
   ("log.dir", VStr "logs");
   ("log.rotation", VStr "size");
   ("log.max_age_days", VInt 30);
   ("log.body_max_bytes", VInt 16384);
   ("log.http_bodies", VBool true);
   ("jwt.issuer", VStr "wapgo-service");
   ("jwt.audience", VStr "wapgo-api");
   ("jwt.expiry", VStr "15m");
   ("jwt.refresh_expiry", VStr "168h");
   ("app.bcrypt_cost", VInt 12);
   ("db.query_timeout", VStr "5s");
   ("observability.provider", VStr "elastic_apm");
   ("observability.tracing_enabled", VBool false);
   ("health.probe_timeout", VStr "2s");
   ("rate_limit.backend", VStr "memory");
   ("rate_limit.max", VInt 100);
   ("rate_limit.window", VStr "1m");
   ("rate_limit.prefix", VStr "wapgo:rl");
   ("notification.smtp.port", VInt 587);
   ("notification.smtp.timeout", VStr "10s");
   ("kafka.heartbeat_interval", VStr "3s");
   ("kafka.session_timeout", VStr "30s");
   ("kafka.rebalance_timeout", VStr "30s")].

(** [strings.NewReplacer(".", "_")]. *)
Definition replacer (key : string) : string := ReplaceAll key "." "_".

Definition setup : Setup := MkSetup true replacer true bindings default_values.

(** The environment and the configuration file as [ReadInConfig] finds it. *)
Definition Environ : Type := string -> option string.
Inductive config_file : Type :=
| FileNotFound
| FileError (e : error)
| FileContents (m : gmap string value).

Class Viper : Type := {
  find : Setup -> Environ -> gmap string value -> string -> option value;
  as_string : value -> result string;
  as_int : value -> result Z;
  as_bool : value -> result bool
}.

(** The environment variable [AutomaticEnv] consults for a key. *)
Definition auto_name (s : Setup) (key : string) : string :=
  str_map to_upper_char (env_key_replacer s key).

(** An environment variable counts when it is set, and is not empty unless empty
    ones are allowed. *)
Definition env_value (s : Setup) (env : Environ) (name : string) : option string :=
  match env name with
  | Some v => if allow_empty_env s || negb (String.eqb v "") then Some v else None
  | None => None
  end.

Definition assoc {A} (k : string) (l : list (string * A)) : option A :=
  option_map snd (List.find (fun kv => String.eqb kv.1 k) l).

(** Viper's precedence: environment, file, default. *)
Definition precedence (s : Setup) (env : Environ) (file : gmap string value) (key : string)
  : option value :=
  match (if automatic_env s then env_value s env (auto_name s key) else None) with
  | Some v => Some (VStr v)
  | None =>
      match (match assoc key (bound s) with Some name => env_value s env name | None => None end) with
      | Some v => Some (VStr v)
      | None => match file !! key with Some v => Some v | None => assoc key (defaults s) end
      end
  end.

Class ViperLaws `{Viper} : Prop := {
  find_precedence s env file key : find s env file key = precedence s env file key;
  as_string_str s : as_string (VStr s) = Ok s;
  as_int_int z : as_int (VInt z) = Ok z;
  as_bool_bool b : as_bool (VBool b) = Ok b
}.

Section Load.
Context {viper : Viper}.

(** [Unmarshal]: every field is decoded, the missing ones stay at their zero
    values; one failure fails the whole. *)
Section Unmarshal.
Context (get : string -> option value).

Definition decoded {A} (zero : A) (f : value -> result A) (key : string) : result A :=
  match get key with Some v => f v | None => Ok zero end.
Definition or_zero {A} (zero : A) (r : result A) : A :=
  match r with Ok a => a | Err _ => zero end.
Definition str (key : string) : string := or_zero "" (decoded "" as_string key).
Definition int (key : string) : Z := or_zero 0 (decoded 0 as_int key).
Definition boo (key : string) : bool := or_zero false (decoded false as_bool key).

Definition decode : Config :=
  
    (MkConfig 
    (MkAppConfig (str "app.env") (str "app.port") (str "app.name")
       (str "app.cors_allowed_origins") (str "app.trusted_proxies") (int "app.bcrypt_cost")) 
    (MkDBConfig (str "db.driver") (str "db.host") (str "db.port")
       (str "db.name") (str "db.user") (str "db.password")
       (int "db.max_open_conns") (int "db.max_idle_conns") (str "db.conn_max_life")
       (boo "db.auto_migrate") (str "db.sslmode") (str "db.query_timeout")) 
    (MkRedisConfig (str "redis.url") (str "redis.password") (int "redis.db")
       (int "redis.pool_size") (int "redis.min_idle_conns") (str "redis.dial_timeout")
       (str "redis.read_timeout") (str "redis.write_timeout") (int "redis.max_retries"))
       
    (MkKafkaConfig (str "kafka.brokers") (str "kafka.group_id") (str "kafka.heartbeat_interval")
       (str "kafka.session_timeout") (str "kafka.rebalance_timeout")) 
    (MkRabbitMQConfig (str "rabbitmq.dsn") (str "rabbitmq.exchange")) 
    (MkLogConfig (str "log.level") (boo "log.to_file") (str "log.file_path")
       (str "log.dir") (str "log.rotation") (int "log.max_age_days")
       (int "log.body_max_bytes") (boo "log.http_bodies"))
       
    (MkServiceURLs (str "services.user_url") (str "services.order_url")) 
    (MkJWTConfig (str "jwt.secret") (str "jwt.issuer") (str "jwt.audience")
       (str "jwt.expiry") (str "jwt.refresh_expiry")) 
    (MkObservabilityConfig (str "observability.provider") (boo "observability.tracing_enabled") (str "observability.otlp_endpoint"))
       
    (MkHealthConfig (str "health.probe_timeout")) 
    (MkRateLimitConfig (str "rate_limit.backend") (int "rate_limit.max") (str "rate_limit.window")
       (str "rate_limit.prefix")) 
    (MkNotificationConfig 
    (MkSMTPConfig (str "notification.smtp.host") (int "notification.smtp.port") (str "notification.smtp.username")
       (str "notification.smtp.password") (str "notification.smtp.from") (str "notification.smtp.timeout")) 
    (MkFirebaseConfig (str "notification.firebase.credentials_json")))).
End Unmarshal.

(** The fields of the structure by their keys. *)
Definition string_fields : list (string * (Config -> string)) :=
  [("app.env", fun c => App_Env (cfg_App c));
   ("app.port", fun c => App_Port (cfg_App c));
   ("app.name", fun c => App_Name (cfg_App c));
   ("app.cors_allowed_origins", fun c => App_CORSAllowedOrigins (cfg_App c));
   ("app.trusted_proxies", fun c => App_TrustedProxies (cfg_App c));
   ("db.driver", fun c => DB_Driver (cfg_DB c));
   ("db.host", fun c => DB_Host (cfg_DB c));
   ("db.port", fun c => DB_Port (cfg_DB c));
   ("db.name", fun c => DB_Name (cfg_DB c));
   ("db.user", fun c => DB_User (cfg_DB c));
   ("db.password", fun c => DB_Password (cfg_DB c));
   ("db.conn_max_life", fun c => DB_ConnMaxLife (cfg_DB c));
   ("db.sslmode", fun c => DB_SSLMode (cfg_DB c));
   ("db.query_timeout", fun c => DB_QueryTimeout (cfg_DB c));
   ("redis.url", fun c => Redis_URL (cfg_Redis c));
   ("redis.password", fun c => Redis_Password (cfg_Redis c));
   ("redis.dial_timeout", fun c => Redis_DialTimeout (cfg_Redis c));
   ("redis.read_timeout", fun c => Redis_ReadTimeout (cfg_Redis c));
   ("redis.write_timeout", fun c => Redis_WriteTimeout (cfg_Redis c));
   ("kafka.brokers", fun c => Kafka_Brokers (cfg_Kafka c));
   ("kafka.group_id", fun c => Kafka_GroupID (cfg_Kafka c));
   ("kafka.heartbeat_interval", fun c => Kafka_HeartbeatInterval (cfg_Kafka c));
   ("kafka.session_timeout", fun c => Kafka_SessionTimeout (cfg_Kafka c));
   ("kafka.rebalance_timeout", fun c => Kafka_RebalanceTimeout (cfg_Kafka c));
   ("rabbitmq.dsn", fun c => RabbitMQ_DSN (cfg_RabbitMQ c));
   ("rabbitmq.exchange", fun c => RabbitMQ_Exchange (cfg_RabbitMQ c));
   ("log.level", fun c => Log_Level (cfg_Log c));
   ("log.file_path", fun c => Log_FilePath (cfg_Log c));
   ("log.dir", fun c => Log_Dir (cfg_Log c));
   ("log.rotation", fun c => Log_Rotation (cfg_Log c));
   ("services.user_url", fun c => Services_UserURL (cfg_Services c));
   ("services.order_url", fun c => Services_OrderURL (cfg_Services c));
   ("jwt.secret", fun c => JWT_Secret (cfg_JWT c));
   ("jwt.issuer", fun c => JWT_Issuer (cfg_JWT c));
   ("jwt.audience", fun c => JWT_Audience (cfg_JWT c));
   ("jwt.expiry", fun c => JWT_Expiry (cfg_JWT c));
   ("jwt.refresh_expiry", fun c => JWT_RefreshExpiry (cfg_JWT c));
   ("observability.provider", fun c => Obs_Provider (cfg_Observability c));
   ("observability.otlp_endpoint", fun c => Obs_OTLPEndpoint (cfg_Observability c));
   ("health.probe_timeout", fun c => Health_ProbeTimeout (cfg_Health c));
   ("rate_limit.backend", fun c => RL_Backend (cfg_RateLimit c));
   ("rate_limit.window", fun c => RL_Window (cfg_RateLimit c));
   ("rate_limit.prefix", fun c => RL_Prefix (cfg_RateLimit c));
   ("notification.smtp.host", fun c => SMTP_Host (Notif_SMTP (cfg_Notification c)));
   ("notification.smtp.username", fun c => SMTP_Username (Notif_SMTP (cfg_Notification c)));
   ("notification.smtp.password", fun c => SMTP_Password (Notif_SMTP (cfg_Notification c)));
   ("notification.smtp.from", fun c => SMTP_From (Notif_SMTP (cfg_Notification c)));
   ("notification.smtp.timeout", fun c => SMTP_Timeout (Notif_SMTP (cfg_Notification c)));
   ("notification.firebase.credentials_json", fun c => Firebase_CredentialsJSON (Notif_Firebase (cfg_Notification c)))].
Definition int_fields : list (string * (Config -> Z)) :=
  [("app.bcrypt_cost", fun c => App_BcryptCost (cfg_App c));
   ("db.max_open_conns", fun c => DB_MaxOpenConns (cfg_DB c));
   ("db.max_idle_conns", fun c => DB_MaxIdleConns (cfg_DB c));
   ("redis.db", fun c => Redis_DB (cfg_Redis c));
   ("redis.pool_size", fun c => Redis_PoolSize (cfg_Redis c));
   ("redis.min_idle_conns", fun c => Redis_MinIdleConns (cfg_Redis c));
   ("redis.max_retries", fun c => Redis_MaxRetries (cfg_Redis c));
   ("log.max_age_days", fun c => Log_MaxAgeDays (cfg_Log c));
   ("log.body_max_bytes", fun c => Log_BodyMaxBytes (cfg_Log c));
   ("rate_limit.max", fun c => RL_Max (cfg_RateLimit c));
   ("notification.smtp.port", fun c => SMTP_Port (Notif_SMTP (cfg_Notification c)))].
Definition bool_fields : list (string * (Config -> bool)) :=
  [("db.auto_migrate", fun c => DB_AutoMigrate (cfg_DB c));
   ("log.to_file", fun c => Log_ToFile (cfg_Log c));
   ("log.http_bodies", fun c => Log_HTTPBodies (cfg_Log c));
   ("observability.tracing_enabled", fun c => Obs_TracingEnabled (cfg_Observability c))].

Definition first_error (get : string -> option value) : option error :=
  let errs := map (fun kf => is_ok (decoded get "" as_string kf.1)) string_fields
              ++ map (fun kf => is_ok (decoded get 0 as_int kf.1)) int_fields
              ++ map (fun kf => is_ok (decoded get false as_bool kf.1)) bool_fields in
  if forallb id errs then None else Some (Fresh "decoding failed").

Definition Unmarshal (get : string -> option value) : result Config :=
  match first_error get with Some e => Err e | None => Ok (decode get) end.

Definition Load (env : Environ) (file : config_file) : result Config :=
  let contents := match file with
                  | FileNotFound => Ok ∅
                  | FileError e => Err (errorf "reading config: " e)
                  | FileContents m => Ok m
                  end in
  match contents with
  | Err e => Err e
  | Ok m =>
      match Unmarshal (find setup env m) with
      | Err e => Err (errorf "unmarshalling config: " e)
      | Ok cfg => Ok cfg
      end
  end.
End Load.

Section Precedence.
Context {viper : Viper} {laws : ViperLaws}.

(** The value a field ends up with: the zero value when nothing gives one, the
    value itself when it has the field's type. *)
Definition string_of (v : option value) : string :=
  match v with
  | None => ""
  | Some (VStr s) => s
  | Some v => or_zero "" (as_string v)
  end.
Definition int_of (v : option value) : Z :=
  match v with None => 0 | Some (VInt z) => z | Some v => or_zero 0 (as_int v) end.
Definition bool_of (v : option value) : bool :=
  match v with None => false | Some (VBool b) => b | Some v => or_zero false (as_bool v) end.

Lemma str_precedence env m key :
  str (find setup env m) key = string_of (precedence setup env m key).
Proof.
  unfold str, decoded. rewrite find_precedence.
  by destruct (precedence setup env m key) as [[s | z | b] |]; simpl; rewrite ?as_string_str.
Qed.

Lemma int_precedence env m key :
  int (find setup env m) key = int_of (precedence setup env m key).
Proof.
  unfold int, decoded. rewrite find_precedence.
  by destruct (precedence setup env m key) as [[s | z | b] |]; simpl; rewrite ?as_int_int.
Qed.

Lemma bool_precedence env m key :
  boo (find setup env m) key = bool_of (precedence setup env m key).
Proof.
  unfold boo, decoded. rewrite find_precedence.
  by destruct (precedence setup env m key) as [[s | z | b] |]; simpl; rewrite ?as_bool_bool.
Qed.

(** Every key of the structure is bound to a variable. *)
Definition field_keys : list string :=
  map fst string_fields ++ map fst int_fields ++ map fst bool_fields.
Lemma every_field_bound key : key ∈ field_keys -> key ∈ map fst bindings.
Proof.
  assert (H : forallb (fun k => existsb (String.eqb k) (map fst bindings)) field_keys = true)
    by (vm_compute; reflexivity).
  rewrite forallb_forall in H. intros Hk%list_elem_of_In%H.
  apply existsb_exists in Hk as (k & Hin & ->%String.eqb_eq). by apply list_elem_of_In.
Qed.

(** The structure field by field. *)
Lemma string_decode get :
  Forall (fun kf => kf.2 (decode get) = str get kf.1) string_fields.
Proof. repeat (apply Forall_cons; split; [reflexivity |]). apply Forall_nil. exact I. Qed.
Lemma int_decode get : Forall (fun kf => kf.2 (decode get) = int get kf.1) int_fields.
Proof. repeat (apply Forall_cons; split; [reflexivity |]). apply Forall_nil. exact I. Qed.
Lemma bool_decode get : Forall (fun kf => kf.2 (decode get) = boo get kf.1) bool_fields.
Proof. repeat (apply Forall_cons; split; [reflexivity |]). apply Forall_nil. exact I. Qed.

Lemma field_key {A} (l : list (string * A)) key f :
  (key, f) ∈ l -> map fst l ⊆ field_keys -> key ∈ map fst bindings.
Proof.
  intros Hin Hl. apply every_field_bound, Hl. apply list_elem_of_fmap. by exists (key, f).
Qed.

Definition contents (file : config_file) : gmap string value :=
  match file with FileContents m => m | _ => ∅ end.

Lemma Load_decode env file cfg :
  Load env file = Ok cfg -> cfg = decode (find setup env (contents file)).
Proof.
  unfold Load, Unmarshal. destruct file as [| e | m]; simpl; [| done |];
    destruct (first_error _); by intros [= <-].
Qed.


(** [REDIS_URL=] switches Redis off whatever the file says. *)
Lemma redis_switched_off env file cfg v :
  Load env file = Ok cfg -> env "REDIS_URL" = Some v -> TrimSpace v = "" ->
  Enabled (cfg_Redis cfg) = false.
Proof.
  intros HLoad Hv Hblank. apply Load_decode in HLoad. subst cfg. unfold Enabled.
  change (Redis_URL _) with (str (find setup env (contents file)) "redis.url").
  rewrite str_precedence. unfold precedence.
  replace (env_value setup env (auto_name setup "redis.url")) with (Some v); simpl.
  - by rewrite Hblank.
  - unfold env_value. change (auto_name setup "redis.url") with "REDIS_URL"%string. by rewrite Hv.
Qed.
End Precedence.

(** A lookup with the documented precedence, for the witnesses. *)
Module MapViper.
#[export] Instance map_viper : Viper := {|
  find := precedence;
  as_string v := match v with
                 | VStr s => Ok s
                 | VInt z => Ok (Itoa z)
                 | VBool b => Ok (if b then "1" else "0")%string
                 end;
  as_int v := match v with
              | VInt z => Ok z
              | VBool b => Ok (if b then 1 else 0)
              | VStr s => match Atoi s with (n, true) => Ok n | _ => Err (Fresh "cannot parse as int") end
              end;
  as_bool v := match v with
               | VBool b => Ok b
               | VInt z => Ok (negb (z =? 0))
               | VStr s => if String.eqb s "true" then Ok true
                           else if String.eqb s "false" then Ok false
                           else Err (Fresh "cannot parse as bool")
               end
|}.
#[export] Instance map_viper_laws : ViperLaws.
Proof. by split. Qed.
End MapViper.

Module ConfigWitness.
Import MapViper.
(** The variables of a deployment without Redis, over a file that has it. *)
Definition env : Environ := fun name =>
  if String.eqb name "REDIS_URL" then Some ""%string
  else if String.eqb name "RATE_LIMIT_MAX" then Some "7"%string
  else None.
Definition file : config_file :=
  FileContents {["redis.url" := VStr "redis://cache:6379"; "app.port" := VInt 9000;
                 "db.auto_migrate" := VBool true]}.

Definition env_getter : string -> option value := find setup env (contents file).

End ConfigWitness.
