(* ===== verification/Database.v ===== *)
(** The database connection ([pkg/database]): the data source name and the pool
    settings (database.go), and the plugin that gives every statement a deadline
    (timeout.go). gorm, its drivers and database/sql are the environment. *)

From stdpp Require Import base list strings gmap.
From Stdlib Require Import ZArith Lia Ascii String.
From S2P Require Import Prelude Prog GoStrings GoTime Broker Config.

(** ** Opening a connection *)

Inductive Dialector : Type := MySQL (dsn : string) | Postgres (dsn : string).

#[export] Instance dialector_eq_dec : EqDecision Dialector.
Proof. solve_decision. Defined.

Definition or_default (s d : string) : string := if String.eqb s "" then d else s.

(** The two formats of [buildDialector]. *)
Definition mysql_dsn (cfg : DBConfig) : string :=
  (DB_User cfg ++ ":" ++ DB_Password cfg ++ "@tcp(" ++ DB_Host cfg ++ ":" ++
   or_default (DB_Port cfg) "3306" ++ ")/" ++ DB_Name cfg ++
   "?charset=utf8mb4&parseTime=True&loc=UTC&tls=" ++
   (if String.eqb (DB_SSLMode cfg) "require" then "true" else "false"))%string.

Definition postgres_dsn (cfg : DBConfig) : string :=
  ("postgres://" ++ DB_User cfg ++ ":" ++ DB_Password cfg ++ "@" ++ DB_Host cfg ++ ":" ++
   or_default (DB_Port cfg) "5432" ++ "/" ++ DB_Name cfg ++ "?sslmode=" ++
   or_default (DB_SSLMode cfg) "disable" ++ "&TimeZone=UTC")%string.

Definition buildDialector (cfg : DBConfig) : result Dialector :=
  if negb (bool_decide (DB_Driver cfg ∈ ["mysql"; "postgres"; ""]%string))
  then Err (Fresh ("unsupported DB driver: " ++ Quote (DB_Driver cfg)))
  else if String.eqb (DB_Host cfg) "" then Err (Fresh "DB_HOST is required but not set")
  else if String.eqb (DB_Name cfg) "" then Err (Fresh "DB_NAME is required but not set")
  else if String.eqb (DB_User cfg) "" then Err (Fresh "DB_USER is required but not set")
  else if String.eqb (DB_Driver cfg) "mysql" then Ok (MySQL (mysql_dsn cfg))
  else Ok (Postgres (postgres_dsn cfg)).

(** The calls made while opening, with their answers. *)
Inductive open_event : Type :=
| GormOpened (d : Dialector) (r : option error)
| GotSqlDB (r : option error)
| SetMaxOpenConns (n : Z)
| SetMaxIdleConns (n : Z)
| SetConnMaxLifetime (d : Z).

Section Open.
Context (env_open : Dialector -> option error) (env_db : option error).
Context (duration_error : string -> error).   (* what time.ParseDuration reports *)
Notation go := (prog (list open_event)).

Definition emit (e : open_event) : go unit := call (fun _ => tt) (fun _ => e).

Definition configurePool (cfg : DBConfig) : go (option error) :=
  do! (if 0 <? DB_MaxOpenConns cfg then emit (SetMaxOpenConns (DB_MaxOpenConns cfg)) else Ret tt) in
  do! (if 0 <? DB_MaxIdleConns cfg then emit (SetMaxIdleConns (DB_MaxIdleConns cfg)) else Ret tt) in
  if String.eqb (DB_ConnMaxLife cfg) "" then Ret None
  else match ParseDuration (DB_ConnMaxLife cfg) with
       | None => Ret (Some (errorf ("invalid conn_max_life " ++ Quote (DB_ConnMaxLife cfg) ++ ": ")
                              (duration_error (DB_ConnMaxLife cfg))))
       | Some d => do! emit (SetConnMaxLifetime d) in Ret None
       end.

Definition openWithDialector (dialector : Dialector) (cfg : DBConfig) : go (option error) :=
  let! err := call (fun _ => env_open dialector) (GormOpened dialector) in
  match err with
  | Some e => Ret (Some (errorf "opening db connection: " e))
  | None =>
      let! err := call (fun _ => env_db) GotSqlDB in
      match err with
      | Some e => Ret (Some (errorf "getting underlying sql.DB: " e))
      | None => configurePool cfg
      end
  end.

Definition NewConnection (cfg : DBConfig) : go (option error) :=
  match buildDialector cfg with
  | Err e => Ret (Some e)
  | Ok dialector => openWithDialector dialector cfg
  end.
End Open.

(** ** The query deadline

    A context is what the caller passed (with its own deadline, or none), wrapped
    any number of times. The plugin wraps it in a timer and a value: the cancel
    function of that timer under a key of its own. Timers are numbered. *)

Inductive context : Type :=
| Caller (deadline : option Z)
| WithTimeout (parent : context) (deadline : Z) (timer : nat)
| WithCancelKey (parent : context) (timer : nat).

Definition Background : context := Caller None.

Definition earliest (a b : option Z) : option Z :=
  match a, b with Some x, Some y => Some (Z.min x y) | Some x, None => Some x | None, y => y end.

(** [ctx.Deadline()] and [ctx.Value(cancelKey{})]. *)
Fixpoint Deadline (ctx : context) : option Z :=
  match ctx with
  | Caller d => d
  | WithTimeout p d _ => earliest (Some d) (Deadline p)
  | WithCancelKey p _ => Deadline p
  end.
Fixpoint cancel_value (ctx : context) : option nat :=
  match ctx with
  | Caller _ => None
  | WithTimeout p _ _ => cancel_value p
  | WithCancelKey _ timer => Some timer
  end.

(** The timers made and those stopped. *)
Record Timers : Type := MkTimers { made : nat; cancelled : gset nat }.

(** [db.Statement]: nil, or a statement with its context, which may be nil. *)
Notation Statement := (option (option context)).

Record QueryTimeoutPlugin : Type := MkPlugin { timeout : Z }.

Definition NewQueryTimeoutPlugin (timeout : Z) : QueryTimeoutPlugin :=
  MkPlugin (if timeout <=? 0 then 5 * Second else timeout).

Definition before (now : Z) (p : QueryTimeoutPlugin) (stmt : Statement) (w : Timers)
  : Statement * Timers :=
  match stmt with
  | None => (stmt, w)
  | Some ctx =>
      let base := match ctx with None => Background | Some c => c end in
      match Deadline base with
      | Some _ => (stmt, w)
      | None =>
          let timer := made w in
          (Some (Some (WithCancelKey (WithTimeout base (now + timeout p) timer) timer)),
           MkTimers (S timer) (cancelled w))
      end
  end.

(** [after] dereferences the context: [None] is the panic on a nil one. *)
Definition after (stmt : Statement) (w : Timers) : option Timers :=
  match stmt with
  | None => Some w
  | Some None => None
  | Some (Some ctx) =>
      match cancel_value ctx with
      | Some timer => Some (MkTimers (made w) ({[timer]} ∪ cancelled w))
      | None => Some w
      end
  end.

(** [Initialize]: the callbacks registered, as (gorm processor, position, name). *)
Inductive position : Type := Before (callback : string) | After (callback : string).

#[export] Instance position_eq_dec : EqDecision position.
Proof. solve_decision. Defined.

Definition Initialize : list (string * position * string) :=
  [("Query", Before "gorm:query", "qt:before:query");
   ("Query", After "gorm:query", "qt:after:query");
   ("Create", Before "gorm:create", "qt:before:create");
   ("Create", After "gorm:create", "qt:after:create");
   ("Update", Before "gorm:update", "qt:before:update");
   ("Update", After "gorm:update", "qt:after:update");
   ("Delete", Before "gorm:delete", "qt:before:delete");
   ("Delete", After "gorm:delete", "qt:after:delete");
   ("Row", Before "gorm:row", "qt:before:row");
   ("Row", After "gorm:row", "qt:after:row");
   ("Raw", Before "gorm:raw", "qt:before:raw");
   ("Raw", After "gorm:raw", "qt:after:raw")]%string.

(** gorm runs one of its main callbacks, with those registered around it. *)
Definition registered (processor : string) (at_ : position) : bool :=
  existsb (fun c => bool_decide (c.1 = (processor, at_))) Initialize.

Definition execute (processor callback : string) (now : Z) (p : QueryTimeoutPlugin)
    (body : Statement -> Timers -> Timers) (stmt : Statement) (w : Timers) : option Timers :=
  let '(stmt, w) := if registered processor (Before callback) then before now p stmt w else (stmt, w) in
  let w := body stmt w in
  if registered processor (After callback) then after stmt w else Some w.

(** gorm's main callbacks, each with its processor. *)
Definition processors : list (string * string) :=
  [("Create", "gorm:create"); ("Query", "gorm:query"); ("Update", "gorm:update");
   ("Delete", "gorm:delete"); ("Row", "gorm:row"); ("Raw", "gorm:raw")]%string.

(** ** What opening a connection does *)

(** A data source is built for the two drivers only (the empty name is Postgres),
    and only when host, database and user are given. *)
Theorem buildDialector_spec (cfg : DBConfig) :
  match buildDialector cfg with
  | Ok d =>
      DB_Host cfg <> "" /\ DB_Name cfg <> "" /\ DB_User cfg <> "" /\
      ((DB_Driver cfg = "mysql" /\ d = MySQL (mysql_dsn cfg)) \/
       ((DB_Driver cfg = "postgres" \/ DB_Driver cfg = "") /\ d = Postgres (postgres_dsn cfg)))
  | Err _ =>
      DB_Driver cfg ∉ ["mysql"; "postgres"; ""] \/ DB_Host cfg = "" \/ DB_Name cfg = "" \/
      DB_User cfg = ""
  end%string.
Proof.
  unfold buildDialector. case_bool_decide as Hd; simpl; [| by left].
  destruct (String.eqb_spec (DB_Host cfg) ""); [tauto |].
  destruct (String.eqb_spec (DB_Name cfg) ""); [tauto |].
  destruct (String.eqb_spec (DB_User cfg) ""); [tauto |].
  destruct (String.eqb_spec (DB_Driver cfg) "mysql") as [Hm | Hm].
  - repeat split; auto.
  - repeat split; try done. right. split; [| done].
    apply elem_of_cons in Hd as [? | [? | [? | []%not_elem_of_nil]%elem_of_cons]%elem_of_cons]; tauto.
Qed.

(** Opening, in order: the driver is opened once for the configured source, then
    the pool gets each limit that is positive and the connection lifetime, and nothing
    else; a lifetime that does not parse is an error, after the limits were set. *)
Theorem open_spec (env_open : Dialector -> option error) (env_db : option error)
    (duration_error : string -> error) (cfg : DBConfig) :
  let '(err, h) := run (NewConnection env_open env_db duration_error cfg) [] in
  let limits :=
    (if 0 <? DB_MaxOpenConns cfg then [SetMaxOpenConns (DB_MaxOpenConns cfg)] else []) ++
    (if 0 <? DB_MaxIdleConns cfg then [SetMaxIdleConns (DB_MaxIdleConns cfg)] else []) in
  match buildDialector cfg with
  | Err e => err = Some e /\ h = []
  | Ok d =>
      match env_open d, env_db with
      | Some e, _ => err = Some (errorf "opening db connection: " e) /\ h = [GormOpened d (Some e)]
      | None, Some e => err = Some (errorf "getting underlying sql.DB: " e) /\
          rev h = [GormOpened d None; GotSqlDB (Some e)]
      | None, None =>
          match DB_ConnMaxLife cfg with
          | EmptyString => err = None /\ rev h = [GormOpened d None; GotSqlDB None] ++ limits
          | life =>
              match ParseDuration life with
              | Some t => err = None /\
                  rev h = [GormOpened d None; GotSqlDB None] ++ limits ++ [SetConnMaxLifetime t]
              | None => err <> None /\ rev h = [GormOpened d None; GotSqlDB None] ++ limits
              end
          end
      end
  end.
Proof.
  unfold NewConnection. destruct (buildDialector cfg) as [d | e]; [| done].
  unfold openWithDialector. rewrite run_bind, run_call. destruct (env_open d) as [e |]; [done |].
  rewrite run_bind, run_call. destruct env_db as [e |]; [done |].
  unfold configurePool, emit.
  destruct (0 <? DB_MaxOpenConns cfg), (0 <? DB_MaxIdleConns cfg);
    destruct (DB_ConnMaxLife cfg) as [| c s]; simpl; try done;
    destruct (ParseDuration (String c s)); simpl; done.
Qed.

(** ** The data source name determines the configuration, for plain fields *)

Fixpoint mentions (c : ascii) (s : string) : bool :=
  match s with EmptyString => false | String x s' => Ascii.eqb x c || mentions c s' end.

Lemma split_at (c : ascii) (a b x y : string) :
  mentions c a = false -> mentions c b = false ->
  (a ++ String c x)%string = (b ++ String c y)%string -> a = b /\ x = y.
Proof.
  revert b. induction a as [| d a IH]; intros [| e b]; simpl; intros Ha Hb H.
  - by injection H.
  - injection H as -> _. by rewrite Ascii.eqb_refl in Hb.
  - injection H as -> _. by rewrite Ascii.eqb_refl in Ha.
  - injection H as -> H. apply orb_false_elim in Ha as [_ Ha], Hb as [_ Hb].
    destruct (IH b Ha Hb H) as [-> ->]. done.
Qed.

Lemma app_inj_l (a x y : string) : (a ++ x)%string = (a ++ y)%string -> x = y.
Proof. induction a as [| c a IH]; simpl; [done |]. intros H. injection H as H. by apply IH. Qed.

(** The fields of a Postgres source name hold none of the characters that end them. *)
Definition plain_fields (cfg : DBConfig) : Prop :=
  mentions ":" (DB_User cfg) = false /\ mentions "@" (DB_Password cfg) = false /\
  mentions ":" (DB_Host cfg) = false /\ mentions "/" (or_default (DB_Port cfg) "5432") = false /\
  mentions "?" (DB_Name cfg) = false /\ mentions "&" (or_default (DB_SSLMode cfg) "disable") = false.

(** Two configurations with plain fields and one Postgres source name connect to the
    same database: same user, password, host, port, name and TLS mode. *)
Theorem postgres_dsn_injective (c1 c2 : DBConfig) :
  plain_fields c1 -> plain_fields c2 -> postgres_dsn c1 = postgres_dsn c2 ->
  DB_User c1 = DB_User c2 /\ DB_Password c1 = DB_Password c2 /\ DB_Host c1 = DB_Host c2 /\
  or_default (DB_Port c1) "5432" = or_default (DB_Port c2) "5432" /\ DB_Name c1 = DB_Name c2 /\
  or_default (DB_SSLMode c1) "disable" = or_default (DB_SSLMode c2) "disable".
Proof.
  intros (U1 & P1 & H1 & O1 & N1 & S1) (U2 & P2 & H2 & O2 & N2 & S2) E.
  unfold postgres_dsn in E. apply app_inj_l in E.
  apply (split_at ":") in E as [-> E]; [| done | done].
  apply (split_at "@") in E as [-> E]; [| done | done].
  apply (split_at ":") in E as [-> E]; [| done | done].
  apply (split_at "/") in E as [-> E]; [| done | done].
  apply (split_at "?") in E as [-> E]; [| done | done].
  apply (app_inj_l "sslmode=") in E.
  apply (split_at "&") in E as [-> _]; done.
Qed.

(** ** What the plugin does to a statement *)

Lemma timeout_positive d : 0 < timeout (NewQueryTimeoutPlugin d).
Proof. unfold NewQueryTimeoutPlugin, timeout. destruct (Z.leb_spec d 0); [done | lia]. Qed.

Lemma hooked processor callback :
  (processor, callback) ∈ processors ->
  registered processor (Before callback) = true /\ registered processor (After callback) = true.
Proof.
  intros H. unfold processors in H.
  repeat (apply elem_of_cons in H as [[= -> ->] | H]; [split; reflexivity |]).
  by apply not_elem_of_nil in H.
Qed.

(** The timers after [before], and after [after], for a caller's context. *)
Lemma before_spec now p ctx w :
  let base := default Background ctx in
  exists c w1, before now p (Some ctx) w = (Some (Some c), w1) /\
    (match Deadline base with
     | Some _ => c = base /\ w1 = w
     | None => c = WithCancelKey (WithTimeout base (now + timeout p) (made w)) (made w) /\
               w1 = MkTimers (S (made w)) (cancelled w)
     end).
Proof.
  destruct ctx as [ctx |]; simpl; [| by eauto].
  destruct (Deadline ctx) as [d |] eqn:E; simpl; eauto.
Qed.

(** Every statement, of each of gorm's six kinds, runs its body under a deadline: the
    caller's when there is one, and otherwise now plus the plugin's positive timeout.
    Once it has run, the timer made for it, and no other, is stopped; a caller's context is
    passed on as it is. *)
Theorem statement_deadline (processor callback : string) (now d : Z) (body : Statement -> Timers -> Timers)
    (ctx : option context) (w : Timers)
    (Hop : (processor, callback) ∈ processors)
    (Hctx : cancel_value (default Background ctx) = None) :
  let p := NewQueryTimeoutPlugin d in
  let base := default Background ctx in
  exists c w1, before now p (Some ctx) w = (Some (Some c), w1) /\
    Deadline c = Some (default (now + timeout p) (Deadline base)) /\ 0 < timeout p /\
    let w2 := body (Some (Some c)) w1 in
    execute processor callback now p body (Some ctx) w =
      Some (MkTimers (made w2)
              (match Deadline base with
               | Some _ => cancelled w2
               | None => {[made w]} ∪ cancelled w2
               end)).
Proof.
  intros p base. destruct (before_spec now p ctx w) as (c & w1 & Eb & Hc). exists c, w1.
  split; [done |]. destruct (hooked _ _ Hop) as [Hb Ha]. unfold execute. rewrite Hb, Ha, Eb.
  fold base in Hc, Hctx. destruct (Deadline base) as [t |] eqn:E; destruct Hc as [-> ->].
  - simpl. rewrite Hctx. split_and!; [done | apply timeout_positive | by destruct (body _ _)].
  - simpl. rewrite E. split_and!; [done | apply timeout_positive | done].
Qed.

(** ** Timers are released *)

(** A statement of a program: what it is, when it runs and the caller's context. *)
Definition statement : Type := (string * string) * Z * option context.

Fixpoint run_statements (p : QueryTimeoutPlugin) (l : list statement) (w : Timers) : option Timers :=
  match l with
  | [] => Some w
  | (op, now, ctx) :: rest =>
      match execute op.1 op.2 now p (fun _ w => w) (Some ctx) w with
      | Some w' => run_statements p rest w'
      | None => None
      end
  end.

(** C33. No timer leaks: after any sequence of statements under callers' contexts, every
    timer the plugin made is stopped. *)
Theorem timers_released (p : QueryTimeoutPlugin) (l : list statement) (w : Timers)
    (Hl : Forall (fun s => s.1.1 ∈ processors /\ cancel_value (default Background s.2) = None) l)
    (Hw : cancelled w = set_seq 0 (made w)) :
  exists w', run_statements p l w = Some w' /\ cancelled w' = set_seq 0 (made w').
Proof.
  revert w Hw. induction l as [| [[op now] ctx] rest IH]; intros w Hw; simpl; [by exists w |].
  apply Forall_cons in Hl as [[Hop Hctx] Hl]. simpl in Hop, Hctx.
  destruct op as [processor callback]. destruct (hooked _ _ Hop) as [Hb Ha].
  unfold execute. simpl fst; simpl snd. rewrite Hb, Ha.
  destruct (before_spec now p ctx w) as (c & w1 & -> & Hc).
  destruct (Deadline (default Background ctx)); destruct Hc as [-> ->]; simpl.
  - rewrite Hctx. by apply IH.
  - apply (IH Hl). cbn [cancelled made]. by rewrite Hw, set_seq_S_end_union_L.
Qed.

(** A statement made from the context of a statement still running, such as one of a
    model hook, gets no timer of its own, and on its way out stops the timer of the outer
    one: from then on the outer statement's context is cancelled. *)
Theorem nested_statement_cancels_outer (p : QueryTimeoutPlugin) (ctx : option context) (now : Z)
    (w : Timers) (op : string * string) (Hop : op ∈ processors)
    (Hno : Deadline (default Background ctx) = None) :
  let '(stmt, w1) := before now p (Some ctx) w in
  exists c, stmt = Some (Some c) /\ cancel_value c = Some (made w) /\
    forall now' , exists w2, execute op.1 op.2 now' p (fun _ w => w) stmt w1 = Some w2 /\
      made w2 = made w1 /\ made w ∈ cancelled w2.
Proof.
  destruct (before_spec now p ctx w) as (c & w1 & -> & Hc). rewrite Hno in Hc. destruct Hc as [-> ->].
  eexists. split; [done |]. split; [done |]. intros now'. destruct op as [processor callback].
  destruct (hooked _ _ Hop) as [Hb Ha]. unfold execute. simpl fst; simpl snd. rewrite Hb, Ha.
  simpl. rewrite Hno. simpl. eexists. split; [done |]. split; [done |]. simpl. set_solver.
Qed.

Module DatabaseWitness.

Definition config (user password : string) : DBConfig :=
  MkDBConfig "postgres" "db" "" "app" user password 0 0 "" false "" "".

(** Two configurations with one source name: a password is not escaped, and an ["@"] in it
    moves the boundary of the host. *)
Theorem dsn_ambiguous :
  exists c1 c2, DB_Password c1 <> DB_Password c2 /\ DB_Host c1 <> DB_Host c2 /\
    buildDialector c1 = buildDialector c2 /\ is_ok (buildDialector c1) = true.
Proof.
  exists (MkDBConfig "postgres" "db" "" "app" "root" "secret@10.0.0.9" 0 0 "" false "" ""),
         (MkDBConfig "postgres" "10.0.0.9@db" "" "app" "root" "secret" 0 0 "" false "" "").
  split_and!; by vm_compute.
Qed.

Lemma postgres_dsn_injective_witness :
  let c1 := config "root" "pw" in
  plain_fields c1 /\ DB_User c1 = "root"%string.
Proof.
  assert (H : plain_fields (config "root" "pw")) by (unfold plain_fields; split_and!; reflexivity).
  split; [exact H |].
  exact (proj1 (postgres_dsn_injective (config "root" "pw") (config "root" "pw") H H eq_refl)).
Defined.

Lemma statement_deadline_witness :
  exists c w1, before 7 (NewQueryTimeoutPlugin 0) (Some (Some (Caller (Some 9)))) (MkTimers 0 ∅) = (Some (Some c), w1)
    /\ Deadline c = Some 9.
Proof.
  destruct (statement_deadline "Query" "gorm:query" 7 0 (fun _ w => w) (Some (Caller (Some 9))) (MkTimers 0 ∅))
    as (c & w1 & E & D & _).
  - unfold processors. apply elem_of_cons; right. apply elem_of_cons; left. reflexivity.
  - reflexivity.
  - exists c, w1. split; [exact E | exact D].
Defined.

Lemma timers_released_witness :
  exists w', run_statements (NewQueryTimeoutPlugin 0)
      [(("Create", "gorm:create"), 1, None); (("Query", "gorm:query"), 2, Some (Caller None))]%string
      (MkTimers 0 ∅) = Some w' /\ cancelled w' = set_seq 0 (made w').
Proof.
  apply (timers_released (NewQueryTimeoutPlugin 0)
      [(("Create", "gorm:create"), 1, None); (("Query", "gorm:query"), 2, Some (Caller None))]%string
      (MkTimers 0 ∅)); [| reflexivity].
  repeat constructor; unfold processors; set_solver.
Defined.
End DatabaseWitness.
