(* ===== verification/Migrate.v ===== *)
(** The migration command ([cmd/migrate/main.go]): how the configuration becomes a
    data source name, how the migrator is assembled, and what each action of the
    command line does. golang-migrate, database/sql, the drivers and viper are the
    environment; the library calls are answered from the history before them. *)

From stdpp Require Import base list strings sets.
From Stdlib Require Import ZArith Lia Ascii String.
From S2P Require Import Prelude Prog GoStrings Broker Config Database.

(** ** [net/url]: percent encoding

    [escape_with stays s]: the bytes [stays] keeps are copied, the others become
    ["%XX"]. *)

Definition hex_upper (n : nat) : ascii :=
  match String.get n "0123456789ABCDEF" with Some c => c | None => "0"%char end.
Definition percent (c : ascii) : string :=
  String "%" (String (hex_upper (Nat.div (nat_of_ascii c) 16))
    (String (hex_upper (Nat.modulo (nat_of_ascii c) 16)) EmptyString)).

Fixpoint escape_with (stays : ascii -> bool) (s : string) : string :=
  match s with
  | EmptyString => EmptyString
  | String c s' =>
      ((if stays c then String c EmptyString else percent c) ++ escape_with stays s')%string
  end.

Definition one_of (cs : string) (c : ascii) : bool := mentions c cs.

Definition unreserved (c : ascii) : bool :=
  is_upper c || is_lower c || is_digit c || one_of "-_.~" c.
(** The modes [encodeUserPassword], [encodeHost], [encodePath], [encodeQueryComponent]. *)
Definition stays_userinfo (c : ascii) : bool := unreserved c || one_of "$&+,;=" c.
Definition stays_host (c : ascii) : bool :=
  unreserved c || one_of "!$&'()*+,;=:[]<>" c || (byte_of c =? 34).
Definition stays_path (c : ascii) : bool := unreserved c || one_of "$&+,/:;=@" c.
(** A blank becomes ["+"] in a query. *)
Definition query_byte (c : ascii) : string :=
  if byte_of c =? 32 then "+" else if unreserved c then String c EmptyString else percent c.
Fixpoint QueryEscape (s : string) : string :=
  match s with
  | EmptyString => EmptyString
  | String c s' => (query_byte c ++ QueryEscape s')%string
  end.

(** [net.JoinHostPort]: an address with colons goes into brackets. *)
Definition JoinHostPort (host port : string) : string :=
  if mentions ":" host then ("[" ++ host ++ "]:" ++ port)%string else (host ++ ":" ++ port)%string.

(** [(&url.URL{...}).String()] of an absolute path. *)
Definition url_String (scheme user password host path rawQuery : string) : string :=
  (scheme ++ "://" ++ escape_with stays_userinfo user ++ ":" ++ escape_with stays_userinfo password ++
   "@" ++ escape_with stays_host host ++ escape_with stays_path path ++ "?" ++ rawQuery)%string.

(** The fields of [mysql.Config] the program sets. *)
Record MysqlConfig : Type := MkMysqlConfig {
  my_User : string; my_Passwd : string; my_Net : string; my_Addr : string; my_DBName : string;
  my_ParseTime : bool; my_MultiStatements : bool
}.

Definition postgres_url (cfg : DBConfig) : string :=
  url_String "postgres" (DB_User cfg) (DB_Password cfg)
    (JoinHostPort (DB_Host cfg) (or_default (DB_Port cfg) "5432"))
    ("/" ++ DB_Name cfg)
    ("sslmode=" ++ QueryEscape (or_default (DB_SSLMode cfg) "disable")).

Definition mysql_config (cfg : DBConfig) : MysqlConfig :=
  MkMysqlConfig (DB_User cfg) (DB_Password cfg) "tcp"
    (JoinHostPort (DB_Host cfg) (or_default (DB_Port cfg) "3306")) (DB_Name cfg) true true.

Section BuildDSN.
Context (FormatDSN : MysqlConfig -> string).

Definition buildDSN (cfg : DBConfig) : result (string * string) :=
  if bool_decide (DB_Driver cfg ∈ ["postgres"; ""]%string) then Ok ("postgres"%string, postgres_url cfg)
  else if String.eqb (DB_Driver cfg) "mysql" then Ok ("mysql"%string, FormatDSN (mysql_config cfg))
  else Err (Fresh ("unsupported DB driver " ++ Quote (DB_Driver cfg) ++ " (want postgres or mysql)")).
End BuildDSN.

(** ** The command

    The calls it makes, with their answers, and the lines it prints. *)
Inductive event : Type :=
| ConfigLoaded (r : result Config)
| SourceLoaded (r : option error)
| Opened (driver dsn : string) (r : option error)
| PoolSet (maxOpen maxIdle : Z)
| Pinged (r : option error)
| DriverMade (driver : string) (r : option error)
| MigratorMade (driver : string) (r : option error)
| Closed
| Up (r : option error)
| Steps (n : Z) (r : option error)
| Force (version : Z) (r : option error)
| Version (r : result (Z * bool))
| Printed (line : string)
| Fatal (msg : string) (e : error).

Record Env : Type := MkEnv {
  env_config : result Config;
  env_FormatDSN : MysqlConfig -> string;
  env_source : option error;
  env_open : string -> string -> option error;
  env_ping : option error;
  env_driver : string -> option error;
  env_migrator : option error;
  env_up : list event -> option error;
  env_steps : list event -> Z -> option error;
  env_force : list event -> Z -> option error;
  env_version : list event -> result (Z * bool)
}.

Section Command.
Context (env : Env).
Notation go := (prog (list event)).

Definition say (line : string) : go unit := call (fun _ => tt) (fun _ => Printed line).
Definition close : go unit := call (fun _ => tt) (fun _ => Closed).

Definition newMigrator (driver dsn : string) : go (option error) :=
  let! err := call (fun _ => env_source env) SourceLoaded in
  match err with Some e => Ret (Some (errorf "load embedded migrations: " e)) | None =>
  let! err := call (fun _ => env_open env driver dsn) (Opened driver dsn) in
  match err with Some e => Ret (Some (errorf "open database: " e)) | None =>
  do! call (fun _ => tt) (fun _ => PoolSet 1 1) in
  let! err := call (fun _ => env_ping env) Pinged in
  match err with
  | Some e => do! close in Ret (Some (errorf "database unreachable: " e))
  | None =>
  let! err := (if String.eqb driver "postgres" || String.eqb driver "mysql"
               then call (fun _ => env_driver env driver) (DriverMade driver)
               else Ret (Some (Fresh ("unsupported driver " ++ Quote driver)))) in
  match err with
  | Some e => do! close in Ret (Some (errorf "init migrate driver: " e))
  | None =>
  let! err := call (fun _ => env_migrator env) (MigratorMade driver) in
  match err with
  | Some e => do! close in Ret (Some (errorf "init migrator: " e))
  | None => Ret None
  end end end end end.

(** [report]: no change is a success. *)
Definition report (action : string) (err : option error) : go (option error) :=
  match err with
  | None => do! say (action ++ ": done") in Ret None
  | Some e =>
      if errors_is e ErrNoChange then do! say (action ++ ": no change") in Ret None else Ret (Some e)
  end.

Definition m_Steps (n : Z) : go (option error) := call (fun h => env_steps env h n) (Steps n).
Definition m_Up : go (option error) := call (env_up env) Up.
Definition m_Force (v : Z) : go (option error) := call (fun h => env_force env h v) (Force v).
Definition m_Version : go (result (Z * bool)) := call (env_version env) Version.

Definition go_bool (b : bool) : string := if b then "true" else "false".

Definition exec (dir : string) (steps target : Z) : go (option error) :=
  if String.eqb dir "up" then
    if 0 <? steps then let! err := m_Steps steps in report "up" err
    else let! err := m_Up in report "up" err
  else if String.eqb dir "down" then
    let n := if steps <=? 0 then 1 else steps in
    let! err := m_Steps (- n) in report "down" err
  else if String.eqb dir "version" then
    let! r := m_Version in
    match r with
    | Err e => if errors_is e ErrNilVersion then do! say "version: none" in Ret None else Ret (Some e)
    | Ok (v, dirty) =>
        do! say ("version: " ++ Itoa v ++ " (dirty=" ++ go_bool dirty ++ ")") in Ret None
    end
  else if String.eqb dir "force" then
    if target <? 0 then Ret (Some (Fresh "-version is required for -dir force"))
    else let! err := m_Force target in report "force" err
  else Ret (Some (Fresh ("unknown -dir " ++ Quote dir ++ " (want up, down, version, force)"))).

Definition dirty_hint (v : Z) : string :=
  (String (chr 10) ("database is dirty at version " ++ Itoa v ++
   ": repair the failed migration, then run: go run ./cmd/migrate -dir force -version " ++ Itoa v))%string.

Definition withDirtyHint (err : error) : go error :=
  let! r := m_Version in
  match r with
  | Ok (v, true) => Ret (Wrap "" err (dirty_hint v))
  | _ => Ret err
  end.

Definition run_action (dir : string) (steps target : Z) : go (option error) :=
  let! err := exec dir steps target in
  match err with
  | Some e => let! e' := withDirtyHint e in Ret (Some e')
  | None => Ret None
  end.

(** [log.Fatal]: the process ends here, and deferred calls do not run. *)
Definition fatal (msg : string) (e : error) : go unit := call (fun _ => tt) (fun _ => Fatal msg e).

Definition main (dir : string) (steps target : Z) : go unit :=
  let! r := call (fun _ => env_config env) ConfigLoaded in
  match r with
  | Err e => fatal "failed to load config" e
  | Ok cfg =>
      match buildDSN (env_FormatDSN env) (cfg_DB cfg) with
      | Err e => fatal "invalid database config" e
      | Ok (driver, dsn) =>
          let! err := newMigrator driver dsn in
          match err with
          | Some e => fatal "failed to initialise migrator" e
          | None =>
              let! err := run_action dir steps target in
              match err with
              | Some e => fatal "migration failed" e
              | None => close
              end
          end
      end
  end.
End Command.

(** ** The data source name can be read back

    A reader of such an address, in the order [url.Parse] works: authority up to the
    first slash, user information up to the at sign, then the percent decoding. *)

Fixpoint cut (c : ascii) (s : string) : option (string * string) :=
  match s with
  | EmptyString => None
  | String x s' =>
      if Ascii.eqb x c then Some (EmptyString, s')
      else match cut c s' with Some (a, b) => Some (String x a, b) | None => None end
  end.

Definition hex_val (c : ascii) : option nat := String.index 0 (String c EmptyString) "0123456789ABCDEF".

Fixpoint unescape (plus : bool) (s : string) : option string :=
  match s with
  | EmptyString => Some EmptyString
  | String c s' =>
      if Ascii.eqb c "%" then
        match s' with
        | String a (String b s'') =>
            match hex_val a, hex_val b, unescape plus s'' with
            | Some x, Some y, Some r => Some (String (ascii_of_nat (16 * x + y)) r)
            | _, _, _ => None
            end
        | _ => None
        end
      else String (if plus && Ascii.eqb c "+" then " "%char else c) <$> unescape plus s'
  end.

Definition parse_url (s : string) : option (string * string * string * string * string) :=
  '(authority, rest) ← cut "/" (TrimPrefix s "postgres://");
  '(userinfo, host) ← cut "@" authority;
  '(user, password) ← cut ":" userinfo;
  '(path, query) ← cut "?" rest;
  u ← unescape false user; p ← unescape false password; h ← unescape false host;
  n ← unescape false path; m ← unescape true (TrimPrefix query "sslmode=");
  Some (u, p, h, n, m).

Lemma mentions_app c a b : mentions c (a ++ b) = mentions c a || mentions c b.
Proof. induction a as [| x a IH]; simpl; [done |]. by rewrite IH, orb_assoc. Qed.

Lemma cut_app c a b : mentions c a = false -> cut c (a ++ String c b) = Some (a, b).
Proof.
  induction a as [| x a IH]; simpl; [by rewrite Ascii.eqb_refl |].
  intros [-> Ha]%orb_false_elim. by rewrite IH.
Qed.

Lemma hex_upper_mentioned n : mentions (hex_upper n) "0123456789ABCDEF" = true.
Proof. do 16 (destruct n as [| n]; [done |]). reflexivity. Qed.

Lemma percent_free c x :
  mentions c "%0123456789ABCDEF" = false -> mentions c (percent x) = false.
Proof.
  intros H. change (Ascii.eqb "%" c || mentions c "0123456789ABCDEF" = false) in H.
  apply orb_false_elim in H as [Hp Hh]. unfold percent.
  assert (E : forall n, Ascii.eqb (hex_upper n) c = false).
  { intros n. destruct (Ascii.eqb_spec (hex_upper n) c) as [<- |]; [| done].
    by rewrite hex_upper_mentioned in Hh. }
  cbn [mentions]. by rewrite Hp, !E.
Qed.

Lemma escape_free stays c s :
  mentions c "%0123456789ABCDEF" = false -> stays c = false ->
  mentions c (escape_with stays s) = false.
Proof.
  intros Hc Hs. induction s as [| x s IH]; [done |].
  cbn [escape_with]. rewrite mentions_app, IH, orb_false_r. destruct (stays x) eqn:E.
  - simpl. rewrite orb_false_r. destruct (Ascii.eqb_spec x c) as [-> |]; [congruence | done].
  - by apply percent_free.
Qed.

Lemma hex_val_upper n : (n < 16)%nat -> hex_val (hex_upper n) = Some n.
Proof. intros H. do 16 (destruct n as [| n]; [done |]). lia. Qed.

Lemma unescape_percent plus c s :
  unescape plus (percent c ++ s) = String c <$> unescape plus s.
Proof.
  pose proof (nat_ascii_bounded c) as Hb.
  assert (Hd : (nat_of_ascii c / 16 < 16)%nat) by (apply Nat.Div0.div_lt_upper_bound; lia).
  assert (Hm : (nat_of_ascii c mod 16 < 16)%nat) by (by apply Nat.mod_upper_bound).
  unfold percent. rewrite !append_cons, append_nil. cbn [unescape].
  rewrite !hex_val_upper by done. rewrite <- Nat.div_mod_eq, ascii_nat_embedding.
  by destruct (unescape plus s).
Qed.

Lemma unescape_escape stays s :
  stays "%"%char = false -> unescape false (escape_with stays s) = Some s.
Proof.
  intros Hp. induction s as [| c s IH]; [done |]. cbn [escape_with].
  destruct (stays c) eqn:E; [| by rewrite unescape_percent, IH].
  rewrite ?append_cons, ?append_nil; cbn [unescape]. destruct (Ascii.eqb_spec c "%") as [-> |]; [congruence |]. by rewrite IH.
Qed.

Lemma unescape_query s : unescape true (QueryEscape s) = Some s.
Proof.
  induction s as [| c s IH]; [done |]. cbn [QueryEscape]. unfold query_byte.
  destruct (Z.eqb_spec (byte_of c) 32) as [Hc | Hc].
  - rewrite ?append_cons, ?append_nil; cbn [unescape]. simpl. rewrite IH. simpl. do 2 f_equal. unfold byte_of in Hc.
    rewrite <- (ascii_nat_embedding c). by replace (nat_of_ascii c) with 32%nat by lia.
  - destruct (unreserved c) eqn:E; [| by rewrite unescape_percent, IH].
    rewrite ?append_cons, ?append_nil; cbn [unescape]. destruct (Ascii.eqb_spec c "%") as [-> |]; [by vm_compute in E |].
    destruct (Ascii.eqb_spec c "+") as [-> |]; [by vm_compute in E |]. by rewrite IH.
Qed.


(** ** What an action does *)

(** The one call of the migration library an action stands for. *)
Inductive action : Type := DoUp | DoSteps (n : Z) | DoForce (v : Z) | DoVersion.

#[export] Instance action_eq_dec : EqDecision action.
Proof. solve_decision. Defined.

Definition intended (dir : string) (steps target : Z) : option action :=
  if String.eqb dir "up" then Some (if 0 <? steps then DoSteps steps else DoUp)
  else if String.eqb dir "down" then Some (DoSteps (- Z.max 1 steps))
  else if String.eqb dir "version" then Some DoVersion
  else if String.eqb dir "force" && (0 <=? target) then Some (DoForce target)
  else None.

(** What the library answers to it: the error, if any, that is not a success. *)
Definition failure (r : option error) : option error :=
  match r with Some e => if errors_is e ErrNoChange then None else Some e | None => None end.

Definition outcome (env : Env) (h : list event) (a : action) : option error :=
  match a with
  | DoUp => failure (env_up env h)
  | DoSteps n => failure (env_steps env h n)
  | DoForce v => failure (env_force env h v)
  | DoVersion =>
      match env_version env h with
      | Err e => if errors_is e ErrNilVersion then None else Some e
      | Ok _ => None
      end
  end.

Definition called (e : event) : option action :=
  match e with
  | Up _ => Some DoUp | Steps n _ => Some (DoSteps n) | Force v _ => Some (DoForce v)
  | Version _ => Some DoVersion | _ => None
  end.
(** The calls that may change the schema. *)
Definition changes (h : list event) : list action :=
  filter (fun a => a <> DoVersion) (omap called h).

Lemma run_say line h : run (say line) h = (tt, Printed line :: h).
Proof. reflexivity. Qed.

(** An action that called the library as [e] and reports. *)
Definition performed (a : action) (h : list event) (failed err : option error) (h' : list event) : Prop :=
  err = failed /\
  exists e, called e = Some a /\
    match err with
    | None => exists line, h' = Printed line :: e :: h
    | Some _ => h' = e :: h
    end.

Lemma run_report name r a e h :
  called e = Some a ->
  let '(err, h') := run (report name r) (e :: h) in performed a h (failure r) err h'.
Proof.
  intros He. unfold report, failure, performed.
  destruct r as [x |]; [destruct (errors_is x ErrNoChange) |]; simpl; eauto 6.
Qed.

(** Each action asks the library for exactly one thing, and for nothing when the command
    line is not one of the known ones; it succeeds exactly when the library does, "no
    change" and "no version yet" being successes; and it prints a line exactly when it
    succeeds. A migration is never forced to a negative version. *)
Theorem action_spec (env : Env) (dir : string) (steps target : Z) (h : list event) :
  let '(err, h') := run (exec env dir steps target) h in
  match intended dir steps target with
  | None => is_Some err /\ h' = h
  | Some a => performed a h (outcome env h a) err h'
  end.
Proof.
  unfold exec, intended, m_Steps, m_Up, m_Force, m_Version.
  destruct (String.eqb_spec dir "up") as [-> | _].
  { destruct (0 <? steps); rewrite run_bind, run_call; by apply run_report. }
  destruct (String.eqb_spec dir "down") as [-> | _].
  { replace (if steps <=? 0 then 1 else steps) with (Z.max 1 steps)
      by (destruct (Z.leb_spec steps 0); lia).
    rewrite run_bind, run_call. by apply run_report. }
  destruct (String.eqb_spec dir "version") as [-> | _].
  { rewrite run_bind, run_call. unfold performed. simpl. destruct (env_version env h) as [[v d] | e].
    - split; [done |]. exists (Version (Ok (v, d))). eauto.
    - destruct (errors_is e ErrNilVersion); (split; [done |]); exists (Version (Err e)); simpl; eauto. }
  destruct (String.eqb_spec dir "force") as [-> | _]; [| by split].
  rewrite Z.ltb_antisym. destruct (0 <=? target); simpl; [| by split]. by apply run_report.
Qed.

(** ** The whole command *)

(** The action that succeeded or failed, with its hint, on top of any history. *)
Lemma run_action_spec (env : Env) dir steps target h :
  let '(err, h') := run (run_action env dir steps target) h in
  exists news, h' = news ++ h /\ Forall (fun e => e <> Closed /\ forall m x, e <> Fatal m x) news /\
    changes news = match intended dir steps target with
                   | Some DoVersion | None => [] | Some a => [a] end /\
    (err = None <-> match intended dir steps target with
                    | Some a => outcome env h a = None | None => False end).
Proof.
  unfold run_action. rewrite run_bind. pose proof (action_spec env dir steps target h) as H.
  destruct (run (exec env dir steps target) h) as [err h1].
  assert (Hint : forall e, exists e' r, run (withDirtyHint env e) h1 = (e', Version r :: h1)).
  { intros e. unfold withDirtyHint, m_Version. rewrite run_bind, run_call.
    destruct (env_version env h1) as [[v []] |]; simpl; eauto. }
  destruct (intended dir steps target) as [a |].
  - destruct H as (Hr & e & Ha & Hh). destruct err as [x |].
    + destruct (Hint x) as (e' & r & E). rewrite run_bind, E. simpl. subst h1.
      exists [Version r; e]. split; [done |]. rewrite <- Hr.
      split; [repeat constructor; try done; destruct e; done |].
      split; [| by split]. unfold changes. simpl. rewrite Ha. destruct a; reflexivity.
    + destruct Hh as [line ->]. simpl. exists [Printed line; e]. split; [done |].
      split; [repeat constructor; try done; destruct e; done |].
      split; [| by split]. unfold changes. simpl. rewrite Ha. destruct a; reflexivity.
  - destruct H as [[x ->] ->]. destruct (Hint x) as (e' & r & E). rewrite run_bind, E. simpl.
    exists [Version r]. repeat split; try done. repeat constructor; done.
Qed.

(** What must have succeeded before an action runs. *)
Definition ready (env : Env) (cfg : Config) (driver dsn : string) : Prop :=
  env_config env = Ok cfg /\ buildDSN (env_FormatDSN env) (cfg_DB cfg) = Ok (driver, dsn) /\
  env_source env = None /\ env_open env driver dsn = None /\ env_ping env = None /\
  env_driver env driver = None /\ env_migrator env = None.

Definition prepared (cfg : Config) (driver dsn : string) : list event :=
  [MigratorMade driver None; DriverMade driver None; Pinged None; PoolSet 1 1;
   Opened driver dsn None; SourceLoaded None; ConfigLoaded (Ok cfg)].

Lemma buildDSN_driver F cfg driver dsn :
  buildDSN F cfg = Ok (driver, dsn) -> driver = "postgres"%string \/ driver = "mysql"%string.
Proof.
  unfold buildDSN. case_bool_decide; [intros [= <- <-]; by left |].
  destruct (String.eqb_spec (DB_Driver cfg) "mysql"); [intros [= <- <-]; by right | done].
Qed.

(** A command that cannot prepare ends in a fatal message, changes nothing, and closes
    the database when it had been opened; one that can runs its action on it. *)
Lemma main_prepares (env : Env) dir steps target :
  (exists cfg driver dsn, ready env cfg driver dsn /\
     run (main env dir steps target) [] =
       (let '(err, h) := run (run_action env dir steps target) (prepared cfg driver dsn) in
        (tt, match err with Some e => Fatal "migration failed" e :: h | None => Closed :: h end))) \/
  ((forall cfg driver dsn, ~ ready env cfg driver dsn) /\
   let h := (run (main env dir steps target) []).2 in
   (exists msg e, head h = Some (Fatal msg e)) /\ changes h = [] /\
   (forall driver dsn, Opened driver dsn None ∈ h -> Closed ∈ h)).
Proof.
  unfold main. destruct env as [conf F src opn png drv mig up st fo ve]. cbn [env_config env_FormatDSN].
  rewrite run_bind, run_call. destruct conf as [cfg | e].
  2:{ right. split; [by intros c d s (? & _) |]. cbn. split; [by eauto |]. split; [done | set_solver]. }
  destruct (buildDSN F (cfg_DB cfg)) as [[driver dsn] | e] eqn:Ed.
  2:{ right. split; [intros c d s (H1 & H2 & _); injection H1 as <-; cbn in H2; congruence |].
      cbn. split; [by eauto |]. split; [done | set_solver]. }
  assert (Edr : String.eqb driver "postgres" || String.eqb driver "mysql" = true)
    by (by destruct (buildDSN_driver _ _ _ _ Ed) as [-> | ->]).
  assert (R : forall c d s, ready (MkEnv (Ok cfg) F src opn png drv mig up st fo ve) c d s ->
     d = driver /\ s = dsn /\ src = None /\ opn driver dsn = None /\ png = None /\ drv driver = None /\ mig = None).
  { intros c d s (H1 & H2 & H3). injection H1 as <-. cbn in H2, H3.
    rewrite Ed in H2. injection H2 as <- <-. done. }
  rewrite run_bind. unfold newMigrator. cbn [env_source env_open env_ping env_driver env_migrator].
  destruct src as [e |]; [| destruct (opn driver dsn) as [e |] eqn:Eo; [| destruct png as [e |];
    [| destruct (drv driver) as [e |] eqn:Ev; [| destruct mig as [e |]]]]].
  all: try (right; split; [intros c d s H; apply R in H as (_ & _ & ? & ? & ? & ? & ?); done |];
    rewrite ?Edr; cbn; rewrite ?Eo; cbn; rewrite ?Edr; cbn; rewrite ?Ev; cbn;
    split; [by eauto |]; split; [done | set_solver]).
  left. exists cfg, driver, dsn. split; [by repeat split |].
  rewrite ?Edr; cbn; rewrite ?Eo; cbn; rewrite ?Edr; cbn; rewrite ?Ev; cbn.
  rewrite run_bind. fold (prepared cfg driver dsn).
  destruct (run (run_action _ dir steps target) _) as [[e |] h]; reflexivity.
Qed.

(** C31. The command succeeds, closing the database and saying nothing fatal, exactly when the
    database could be prepared, the command line names an action and the library carried
    it out; otherwise it ends with a fatal message, and the process with a failure. The
    schema is changed by at most one call, which is the action asked for and comes after
    the database answered. *)
Theorem migrate_spec (env : Env) (dir : string) (steps target : Z) :
  let h := (run (main env dir steps target) []).2 in
  let succeeds := exists cfg driver dsn a, ready env cfg driver dsn /\
    intended dir steps target = Some a /\ outcome env (prepared cfg driver dsn) a = None in
  ((succeeds /\ head h = Some Closed /\ forall m e, Fatal m e ∉ h) \/
   (~ succeeds /\ exists m e, head h = Some (Fatal m e))) /\
  (changes h = [] \/
   exists cfg driver dsn a, ready env cfg driver dsn /\ intended dir steps target = Some a /\ changes h = [a]).
Proof.
  intros h succeeds. destruct (main_prepares env dir steps target) as [H | H].
  - destruct H as (cfg & driver & dsn & Hr & E).
    assert (Hsame : forall c d s, ready env c d s -> c = cfg /\ d = driver /\ s = dsn).
    { intros c d s (H1 & H2 & _). destruct Hr as (H3 & H4 & _). rewrite H3 in H1. injection H1 as <-.
      rewrite H4 in H2. injection H2 as <- <-. done. }
    pose proof (run_action_spec env dir steps target (prepared cfg driver dsn)) as Ha.
    destruct (run (run_action env dir steps target) (prepared cfg driver dsn)) as [err h1].
    destruct Ha as (news & -> & Hnews & Hch & Herr).
    assert (Eh : h = match err with Some e => Fatal "migration failed" e | None => Closed end
                     :: news ++ prepared cfg driver dsn) by (unfold h; rewrite E; by destruct err).
    clear E. rewrite Eh.
    assert (Hc : forall e, called e = None -> changes (e :: news ++ prepared cfg driver dsn) =
       match intended dir steps target with Some DoVersion | None => [] | Some a => [a] end).
    { intros e He. unfold changes in *. simpl. rewrite He, omap_app, filter_app, Hch. simpl.
      by rewrite app_nil_r. }
    split.
    + destruct err as [e |].
      * right. split; [| by eauto]. intros (c & d & s & a & Hr' & Hi & Ho).
        apply Hsame in Hr' as (-> & -> & ->). rewrite Hi in Herr. by destruct Herr as [_ Herr]; discriminate Herr.
      * left. destruct Herr as [Herr _]. specialize (Herr eq_refl).
        destruct (intended dir steps target) as [a |] eqn:Hi; [| done].
        split; [by exists cfg, driver, dsn, a |]. split; [done |]. intros m e Hin.
        apply elem_of_cons in Hin as [? | Hin]; [done |]. apply elem_of_app in Hin as [Hin | Hin].
        -- rewrite Forall_forall in Hnews. destruct (Hnews _ Hin) as [_ Hn]. by apply (Hn m e).
        -- unfold prepared in Hin. set_solver.
    + rewrite Hc by (by destruct err).
      destruct (intended dir steps target) as [[] |]; try (by left); right; eauto 8.
  - destruct H as (Hno & Hf & Hch & _). fold h in Hf, Hch. split; [| by left].
    right. split; [| done]. intros (c & d & s & a & Hr & _). by apply (Hno c d s).
Qed.

(** ** The recovery hint *)
(** A failed action on a database the failure left dirty is reported with the version to
    force; the error keeps its cause. *)
Lemma dirty_hint_keeps_cause (env : Env) (e : error) (h : list event) (s : sentinel) :
  errors_is (run (withDirtyHint env e) h).1 s = errors_is e s.
Proof.
  unfold withDirtyHint, m_Version. rewrite run_bind, run_call.
  by destruct (env_version env h) as [[v []] |].
Qed.
