(* ===== verification/Main.v ===== *)
(** The entry point of the service ([cmd/api/main.go]): how the configuration
    becomes the application, in which order the dependencies are opened, and how
    they are closed. *)

From stdpp Require Import base list strings gmap.
From Stdlib Require Import ZArith Lia Ascii String.
From S2P Require Import Prelude Prog GoStrings GoTime Json RateLimit Jwt Pagination User World UserUseCase AuthUseCase Http Health Broker Config.
From S2P Require Kafka Rabbit.

(** ** Helpers *)

(** [redis.Options], the fields the program sets. *)
Record RedisOptions : Type := MkRedisOptions {
  o_Addr : string; o_Password : string; o_DB : Z; o_PoolSize : Z; o_MinIdleConns : Z;
  o_MaxRetries : Z; o_DialTimeout : Z; o_ReadTimeout : Z; o_WriteTimeout : Z
}.

Definition local_redis : RedisOptions := MkRedisOptions "localhost:6379" "" 0 0 0 0 0 0 0.

(** [newRedisClient]; [ParseURL] is go-redis's. *)
Definition newRedisClient (ParseURL : string -> result RedisOptions) (cfg : RedisConfig)
  : RedisOptions :=
  let o := match ParseURL (Redis_URL cfg) with Ok o => o | Err _ => local_redis end in
  let positive z old := if 0 <? z then z else old in
  let duration s old := match ParseDuration s with Some d => d | None => old end in
  MkRedisOptions (o_Addr o)
    (if String.eqb (Redis_Password cfg) "" then o_Password o else Redis_Password cfg)
    (positive (Redis_DB cfg) (o_DB o)) (positive (Redis_PoolSize cfg) (o_PoolSize o))
    (positive (Redis_MinIdleConns cfg) (o_MinIdleConns o))
    (positive (Redis_MaxRetries cfg) (o_MaxRetries o))
    (duration (Redis_DialTimeout cfg) (o_DialTimeout o))
    (duration (Redis_ReadTimeout cfg) (o_ReadTimeout o))
    (duration (Redis_WriteTimeout cfg) (o_WriteTimeout o)).

(** [parseTrustedProxies]. *)
Definition parseTrustedProxies (raw : string) : list string :=
  if String.eqb raw "" then []
  else filter (fun t => t <> ""%string) (map TrimSpace (Split raw ","%char)).

(** ** From the configuration to the application *)

(** A duration text that does not parse, and for two of them one that is not
    positive, gives way to a default. *)
Definition queryTimeout (cfg : Config) : Z :=
  match ParseDuration (DB_QueryTimeout (cfg_DB cfg)) with
  | Some d => if d <=? 0 then 5 * Second else d
  | None => 5 * Second
  end.
Definition jwtExpiry (cfg : Config) : Z :=
  match ParseDuration (JWT_Expiry (cfg_JWT cfg)) with Some d => d | None => 15 * Minute end.
Definition refreshExpiry (cfg : Config) : Z :=
  match ParseDuration (JWT_RefreshExpiry (cfg_JWT cfg)) with Some d => d | None => 7 * 24 * Hour end.
Definition bcryptCost (cfg : Config) : Z :=
  if App_BcryptCost (cfg_App cfg) <? 10 then 12 else App_BcryptCost (cfg_App cfg).
Definition rlWindow (cfg : Config) : Z :=
  match ParseDuration (RL_Window (cfg_RateLimit cfg)) with
  | Some d => if d <=? 0 then Minute else d
  | None => Minute
  end.
(** The error is dropped: a text that does not parse is a timeout of 0. *)
Definition probe_timeout (cfg : Config) : Z :=
  match ParseDuration (Health_ProbeTimeout (cfg_Health cfg)) with Some d => d | None => 0 end.

Definition jwt_config (cfg : Config) : Jwt.Config :=
  Jwt.MkConfig (JWT_Secret (cfg_JWT cfg)) (JWT_Issuer (cfg_JWT cfg)) (JWT_Audience (cfg_JWT cfg))
    (jwtExpiry cfg).

(** The limiter of every request: shared through Redis, or this process's. *)
Inductive limiter : Type :=
| SharedLimiter (l : Redis.RedisLimiter)
| ProcessLimiter (l : Memory.MemoryLimiter).

Definition globalLimiter (cfg : Config) : limiter :=
  let rl := cfg_RateLimit cfg in
  if String.eqb (RL_Backend rl) "redis" && Enabled (cfg_Redis cfg) then
    SharedLimiter (Redis.NewRedis (RL_Prefix rl) (RL_Max rl) (rlWindow cfg))
  else ProcessLimiter (Memory.NewMemory (RL_Max rl) (rlWindow cfg)).

(** [fiber.Config]. *)
Record FiberConfig : Type := MkFiberConfig {
  AppName : string; BodyLimit : Z; ReadTimeout : Z; WriteTimeout : Z; IdleTimeout : Z;
  TrustedProxies : list string; EnableTrustedProxyCheck : bool; ProxyHeader : string
}.
Definition fiber_config (cfg : Config) : FiberConfig :=
  let trustedProxies := parseTrustedProxies (App_TrustedProxies (cfg_App cfg)) in
  MkFiberConfig (App_Name (cfg_App cfg)) (4 * 1024 * 1024) (10 * Second) (10 * Second) (120 * Second)
    trustedProxies (negb (List.length trustedProxies =? 0)%nat) "".

(** What [main] builds before it listens. *)
Record Application : Type := MkApplication {
  shared_state : bool;                 (* Redis cache and blacklist, or in-process ones *)
  auth : authUseCase;
  limits : limiter;
  fiber : FiberConfig;
  addr : string
}.

Definition application (cfg : Config) : Application :=
  MkApplication (Enabled (cfg_Redis cfg))
    (NewAuthUseCase (jwt_config cfg) (refreshExpiry cfg) (bcryptCost cfg))
    (globalLimiter cfg) (fiber_config cfg) (":" ++ App_Port (cfg_App cfg)).

(** ** The health endpoint [main] registers *)
Section MainHealth.
Context {W : Type} (db_ping redis_Ping : Z -> prog W (option error)).
Context (kafka_dial amqp_Dial : string -> prog W (option error)).

(** The Redis probe gives its ping a deadline of [probeTimeout]. *)
Definition redis_probe (probeTimeout : Z) : prog W string :=
  let! err := redis_Ping probeTimeout in
  Ret (match err with Some _ => "down"%string | None => "ok"%string end).

Definition not_configured : prog W string := Ret "not_configured"%string.

Definition health_handler (cfg : Config) (startTime : Z) (version : string) : HealthHandler :=
  let h := NewHealthHandler db_ping startTime version (probe_timeout cfg) in
  let h := if Enabled (cfg_Redis cfg) then AddChecker "redis" (redis_probe (probe_timeout cfg)) h
           else h in
  let h := AddChecker "kafka"
             (if negb (String.eqb (Kafka_Brokers (cfg_Kafka cfg)) "")
              then Kafka.healthCheckWithDialer (Kafka_Brokers (cfg_Kafka cfg)) kafka_dial
              else not_configured) h in
  AddChecker "rabbitmq"
    (if negb (String.eqb (RabbitMQ_DSN (cfg_RabbitMQ cfg)) "")
     then Rabbit.healthCheckWithDialer (RabbitMQ_DSN (cfg_RabbitMQ cfg)) amqp_Dial
     else not_configured) h.
End MainHealth.

(** ** Start and shutdown *)

Inductive event : Type :=
| ConfigLoaded (r : result Config)
| ObservabilitySet (r : option error)
| DatabaseOpened (r : option error)
| GormInstrumented (r : option error)
| QueryTimeoutSet (d : Z) (r : option error)
| SqlDBObtained (r : option error)
| AutoMigrated (r : option error)
| RedisOpened (o : RedisOptions)
| Listening (a : Application)
| SignalReceived
| HttpShutdown (r : option error)
| ObservabilityShutdown (r : option error)
| RedisClosed (r : option error)
| DatabaseClosed (r : option error)
| Fatal (msg : string).

Record Env : Type := MkEnv {
  env_config : result Config;
  env_obs : option error; env_db : option error; env_gorm : option error;
  env_plugin : option error; env_sqldb : option error; env_migrate : option error;
  env_ParseURL : string -> result RedisOptions;
  env_http_shutdown : option error; env_obs_shutdown : option error;
  env_redis_close : option error; env_db_close : option error
}.

Section Run.
Context (env : Env).
Notation go := (prog (list event)).

(** [log.Fatal]: the process ends here. *)
Definition fatal (msg : string) : go unit := call (fun _ => tt) (fun _ => Fatal msg).
Definition answered (ev : option error -> event) (r : option error) : go (option error) :=
  call (fun _ => r) ev.
Definition event_of (e : event) : go unit := call (fun _ => tt) (fun _ => e).

(** After the signal: every error is logged and the next step taken. *)
Definition shutdown (redisEnabled : bool) : go unit :=
  do! answered HttpShutdown (env_http_shutdown env) in
  do! answered ObservabilityShutdown (env_obs_shutdown env) in
  do! (if redisEnabled then answered RedisClosed (env_redis_close env) else Ret None) in
  do! answered DatabaseClosed (env_db_close env) in
  Ret tt.

Definition serve_forever (cfg : Config) : go unit :=
  do! (if Enabled (cfg_Redis cfg)
       then event_of (RedisOpened (newRedisClient (env_ParseURL env) (cfg_Redis cfg)))
       else Ret tt) in
  do! event_of (Listening (application cfg)) in
  do! event_of SignalReceived in
  shutdown (Enabled (cfg_Redis cfg)).

(** The schema, when the configuration asks for it. *)
Definition auto_migrate (cfg : Config) (next : go unit) : go unit :=
  if DB_AutoMigrate (cfg_DB cfg) then
    if String.eqb (App_Env (cfg_App cfg)) "production" then
      fatal "DB_AUTO_MIGRATE is not allowed in production; run ./cmd/migrate instead"
    else
      let! err := answered AutoMigrated (env_migrate env) in
      match err with Some _ => fatal "auto-migrate failed" | None => next end
  else next.

Definition main : go unit :=
  let! r := call (fun _ => env_config env) ConfigLoaded in
  match r with
  | Err _ => fatal "failed to load config"
  | Ok cfg =>
  let! err := answered ObservabilitySet (env_obs env) in
  match err with
  | Some _ => fatal "failed to setup observability provider"
  | None =>
  let! err := answered DatabaseOpened (env_db env) in
  match err with
  | Some _ => fatal "failed to connect to database"
  | None =>
  do! answered GormInstrumented (env_gorm env) in
  do! answered (QueryTimeoutSet (queryTimeout cfg)) (env_plugin env) in
  let! err := answered SqlDBObtained (env_sqldb env) in
  match err with
  | Some _ => fatal "failed to get underlying sql.DB"
  | None => auto_migrate cfg (serve_forever cfg)
  end end end end.
End Run.

(** ** What the wiring guarantees *)

Lemma split_parts (raw t : string) :
  t ∈ parseTrustedProxies raw -> t <> ""%string /\ exists p, p ∈ Split raw ","%char /\ t = TrimSpace p.
Proof.
  unfold parseTrustedProxies. destruct (String.eqb raw ""); [intros H; by apply not_elem_of_nil in H |].
  intros [Hne Hin]%list_elem_of_filter. split; [done |].
  apply list_elem_of_fmap in Hin as (p & -> & Hp). by exists p.
Qed.

(** Whatever the configuration says, the application runs with a positive query
    deadline, a bcrypt cost of at least 10, a rate limiter of positive quota and
    window, which is the shared one exactly when it is asked for and Redis is
    configured, and trusts a proxy header only from a non-empty list of non-empty
    entries. *)
Theorem wiring_sane (cfg : Config) :
  let a := application cfg in
  0 < queryTimeout cfg /\
  10 <= AuthUseCase.bcryptCost (auth a) /\
  match limits a with
  | SharedLimiter l =>
      RL_Backend (cfg_RateLimit cfg) = "redis"%string /\ shared_state a = true /\
      0 < Redis.max l /\ 0 < Redis.window l
  | ProcessLimiter l =>
      (RL_Backend (cfg_RateLimit cfg) <> "redis"%string \/ shared_state a = false) /\
      0 < Memory.max l /\ 0 < Memory.window l
  end /\
  (EnableTrustedProxyCheck (fiber a) = true <-> TrustedProxies (fiber a) <> []) /\
  (forall t, t ∈ TrustedProxies (fiber a) -> t <> ""%string).
Proof.
  cbn [application auth limits fiber shared_state]. split; [| split; [| split; [| split]]].
  - unfold queryTimeout. destruct (ParseDuration _) as [d |]; [| done].
    destruct (Z.leb_spec d 0); [done | lia].
  - unfold NewAuthUseCase, bcryptCost. cbn [AuthUseCase.bcryptCost].
    assert (10 <= DefaultCost) by done.
    repeat match goal with |- context [if ?x <? 10 then _ else _] => destruct (Z.ltb_spec x 10) end; lia.
  - assert (0 < Minute) by done. unfold globalLimiter. cbv zeta.
    destruct (String.eqb_spec (RL_Backend (cfg_RateLimit cfg)) "redis") as [Hb | Hb]; cbn [andb];
      [destruct (Enabled (cfg_Redis cfg)) eqn:He |];
      unfold Redis.NewRedis, Memory.NewMemory; cbn [Redis.max Redis.window Memory.max Memory.window];
      repeat match goal with |- context [if ?x <=? 0 then _ else _] => destruct (Z.leb_spec x 0) end;
      repeat split; auto; lia.
  - unfold fiber_config. cbn. destruct (parseTrustedProxies _); simpl; by split.
  - intros t Ht. apply split_parts in Ht. apply Ht.
Qed.

(** ** Start and shutdown *)

(** The dependencies open and the schema question is settled. *)
Definition can_serve (env : Env) (cfg : Config) : Prop :=
  env_config env = Ok cfg /\ env_obs env = None /\ env_db env = None /\ env_sqldb env = None /\
  (DB_AutoMigrate (cfg_DB cfg) = true ->
   App_Env (cfg_App cfg) <> "production"%string /\ env_migrate env = None).

(** The end of the history of a run that served. *)
Definition closing (env : Env) (cfg : Config) : list event :=
  DatabaseClosed (env_db_close env)
  :: (if Enabled (cfg_Redis cfg) then [RedisClosed (env_redis_close env)] else [])
  ++ [ObservabilityShutdown (env_obs_shutdown env); HttpShutdown (env_http_shutdown env);
      SignalReceived; Listening (application cfg)].


(** ** What /health reports *)
Section HealthReport.
Context {W : Type} (now : prog W Z) (db_ping redis_Ping : Z -> prog W (option error)).
Context (kafka_dial amqp_Dial : string -> prog W (option error)).
Context (cfg : Config) (startTime : Z) (version : string).

Let h := health_handler db_ping redis_Ping kafka_dial amqp_Dial cfg startTime version.

Definition kafka_probe : prog W string :=
  if negb (String.eqb (Kafka_Brokers (cfg_Kafka cfg)) "")
  then Kafka.healthCheckWithDialer (Kafka_Brokers (cfg_Kafka cfg)) kafka_dial else not_configured.
Definition rabbit_probe : prog W string :=
  if negb (String.eqb (RabbitMQ_DSN (cfg_RabbitMQ cfg)) "")
  then Rabbit.healthCheckWithDialer (RabbitMQ_DSN (cfg_RabbitMQ cfg)) amqp_Dial else not_configured.

(** The registered probes. *)
Lemma extras_cases name check :
  extras h !! name = Some check ->
  (name = "rabbitmq" /\ check = rabbit_probe) \/ (name = "kafka" /\ check = kafka_probe) \/
  (name = "redis" /\ check = redis_probe redis_Ping (probe_timeout cfg) /\ Enabled (cfg_Redis cfg) = true).
Proof.
  unfold h, health_handler. fold rabbit_probe kafka_probe. cbn [AddChecker extras].
  intros [[<- <-] | [_ [[<- <-] | [_ H]]%lookup_insert_Some]]%lookup_insert_Some; [by auto | by auto |].
  destruct (Enabled (cfg_Redis cfg)); cbn [AddChecker extras NewHealthHandler] in H; [| done].
  apply lookup_insert_Some in H as [[<- <-] | [_ H]]; [by auto | done].
Qed.

Lemma no_database_probe : extras h !! "database" = None.
Proof.
  destruct (extras h !! "database") as [check |] eqn:E; [| done].
  apply extras_cases in E as [[? _] | [[? _] | [? _]]]; done.
Qed.

Lemma h_db_ping : Health.db_ping h = db_ping.
Proof. unfold h, health_handler. by destruct (Enabled (cfg_Redis cfg)). Qed.

Lemma answered_by (order : list (string * Checker (W := W))) (w : W) n r :
  (n, r) ∈ (answers order w).1 -> exists check w', (n, check) ∈ order /\ (run check w').1 = r.
Proof.
  revert w. induction order as [| [n' check] rest IH]; intros w; simpl; [intros H; by apply not_elem_of_nil in H |].
  destruct (run check w) as [result w1] eqn:E. specialize (IH w1). destruct (answers rest w1) as [l w2].
  simpl in *. intros [[= -> ->] | Hin]%elem_of_cons.
  - exists check, w. rewrite E. split; [apply list_elem_of_here | done].
  - destruct (IH Hin) as (check' & w' & Hc & Hr). exists check', w'. split; [| done].
    by apply list_elem_of_further.
Qed.

Lemma broker_never_down w : (run kafka_probe w).1 <> "down"%string /\ (run rabbit_probe w).1 <> "down"%string.
Proof.
  unfold kafka_probe, rabbit_probe, Kafka.healthCheckWithDialer, Rabbit.healthCheckWithDialer. split.
  - destruct (negb _); [| done]. destruct (String.eqb (TrimSpace _) ""); [done |].
    rewrite run_bind. by destruct (run (kafka_dial _) w) as [[e |] w'].
  - destruct (negb _); [| done]. destruct (String.eqb _ ""); [done |].
    rewrite run_bind. by destruct (run (amqp_Dial _) w) as [[e |] w'].
Qed.

(** The service reports itself healthy (200 "ok") whenever the database answers
    and Redis, when there is one, does too: a Kafka or RabbitMQ broker that cannot
    be reached never changes the status, in whatever order the probes run. *)
Theorem broker_outage_invisible (order : list (string * Checker)) (c : Ctx) (w : W)
    (Horder : order ≡ₚ map_to_list (extras h))
    (Hdb : forall d w, (run (db_ping d) w).1 = None)
    (Hredis : Enabled (cfg_Redis cfg) = true -> forall w, (run (redis_Ping (probe_timeout cfg)) w).1 = None) :
  status (run (Check now h order c) w).1.2 = 200.
Proof.
  pose proof (Check_spec now h order c w Horder no_database_probe) as H.
  specialize (Hdb (probeTimeout h) w). destruct (run (db_ping (probeTimeout h)) w) as [err w1] eqn:Eping.
  rewrite h_db_ping, Eping in H.
  simpl in Hdb. subst err. pose proof (answered_by order w1) as Hans.
  destruct (answers order w1) as [l w2].
  destruct (run (Check now h order c) w) as [[res c'] w3].
  destruct H as (services & rest & _ & Hst & Hcode & _). destruct Hcode as [H503 | H200]; [| done].
  exfalso. apply Hst in H503 as [[] | [n Hn]]; [done |].
  destruct (Hans n "down"%string Hn) as (check & w' & Hin & Hr).
  rewrite Horder in Hin. apply elem_of_map_to_list, extras_cases in Hin.
  destruct (broker_never_down w') as [Hk Hq].
  destruct Hin as [[_ ->] | [[_ ->] | (_ & -> & He)]]; [done | done |].
  unfold redis_probe in Hr. rewrite run_bind in Hr. specialize (Hredis He w').
  destruct (run (redis_Ping (probe_timeout cfg)) w') as [[e |] w'']; [discriminate Hredis |].
  discriminate Hr.
Qed.

(** A probe timeout that does not parse: the database keeps its default budget, but
    the ping of Redis gets none, and a ping under an expired deadline fails. The
    service then reports 503 with every dependency up. *)
Theorem unparsed_probe_timeout (order : list (string * Checker)) (c : Ctx) (w : W)
    (Horder : order ≡ₚ map_to_list (extras h))
    (Hparse : ParseDuration (Health_ProbeTimeout (cfg_Health cfg)) = None)
    (Hredis : Enabled (cfg_Redis cfg) = true)
    (Hexpired : forall d w, d <= 0 -> (run (redis_Ping d) w).1 <> None) :
  probeTimeout h = 2 * Second /\ status (run (Check now h order c) w).1.2 = 503.
Proof.
  assert (Hd : probe_timeout cfg = 0) by (unfold probe_timeout; by rewrite Hparse).
  split; [unfold h, health_handler; rewrite Hd, Hredis; reflexivity |].
  pose proof (Check_spec now h order c w Horder no_database_probe) as H.
  destruct (run (Health.db_ping h (probeTimeout h)) w) as [err w1].
  assert (Hl : exists l w2, answers order w1 = (l, w2) /\ ("redis"%string, "down"%string) ∈ l).
  { assert (Hin : ("redis"%string, redis_probe redis_Ping 0) ∈ order).
    { rewrite Horder. apply elem_of_map_to_list. unfold h, health_handler. rewrite Hredis, Hd.
      cbn [AddChecker extras]. rewrite lookup_insert_ne, lookup_insert_ne by done.
      by rewrite lookup_insert_eq. }
    clear H Horder. revert w1 Hin. induction order as [| [n check] rest IH]; intros w1 Hin; simpl.
    - by apply not_elem_of_nil in Hin.
    - apply elem_of_cons in Hin as [Heq | Hin].
      + injection Heq as <- <-. specialize (Hexpired 0 w1 ltac:(lia)).
        unfold redis_probe. rewrite run_bind.
        destruct (run (redis_Ping 0) w1) as [[e |] w2]; [| done]. simpl.
        destruct (answers rest w2) as [l w3]. eexists _, _. split; [done |]. apply list_elem_of_here.
      + destruct (run check w1) as [r w2]. destruct (IH w2 Hin) as (l & w3 & El & Hl). rewrite El.
        eexists _, _. split; [done |]. by apply list_elem_of_further. }
  destruct Hl as (l & w2 & El & Hin). rewrite El in H.
  destruct (run (Check now h order c) w) as [[res c'] w3].
  destruct H as (services & rest & _ & Hst & _). simpl. apply Hst. right. by exists "redis"%string.
Qed.
End HealthReport.

Module MainWitness.
Import MapViper.

(** Redis and Kafka configured; a probe timeout with a blank in it. *)
Definition variables (timeout : string) : Environ := fun name =>
  if String.eqb name "REDIS_URL" then Some "redis://cache:6379"%string
  else if String.eqb name "KAFKA_BROKERS" then Some "kafka:9092"%string
  else if String.eqb name "HEALTH_PROBE_TIMEOUT" then Some timeout
  else None.
Definition cfg (timeout : string) : Config := decode (find setup (variables timeout) ∅).

Definition up (_ : Z) : prog unit (option error) := Ret None.
Definition redis (d : Z) : prog unit (option error) :=
  Ret (if d <=? 0 then Some (Sentinel CtxDeadlineExceeded) else None).
Definition refused (_ : string) : prog unit (option error) := Ret (Some (Fresh "connection refused")).
Definition now : prog unit Z := Ret (90 * Minute).
Definition handler_of (timeout : string) : HealthHandler :=
  health_handler up redis refused refused (cfg timeout) 0 "1.0.0".
Definition probe_order (timeout : string) := map_to_list (extras (handler_of timeout)).
Definition get_health : Ctx := fresh_ctx (MkReq "GET" "/health" "" [] "" "10.0.0.1").

Lemma broker_outage_invisible_witness :
  status (run (Check now (handler_of "2s") (probe_order "2s") get_health) tt).1.2 = 200.
Proof.
  refine (broker_outage_invisible now up redis refused refused (cfg "2s") 0 "1.0.0"
            (probe_order "2s") get_health tt (Permutation_refl _) _ _).
  - reflexivity.
  - intros _ []. vm_compute. reflexivity.
Defined.

Lemma unparsed_probe_timeout_witness :
  status (run (Check now (handler_of "2 s") (probe_order "2 s") get_health) tt).1.2 = 503.
Proof.
  refine (proj2 (unparsed_probe_timeout now up redis refused refused (cfg "2 s") 0 "1.0.0"
            (probe_order "2 s") get_health tt (Permutation_refl _) _ _ _)).
  - vm_compute. reflexivity.
  - vm_compute. reflexivity.
  - intros d [] Hd. unfold redis. simpl. by rewrite (proj2 (Z.leb_le d 0) Hd).
Defined.

(** Kafka is down and the answer shows it, with status 200. *)
Lemma health_spec_witness :
  exists services rest,
    resp_body (run (Check now (handler_of "2s") (probe_order "2s") get_health) tt).1.2 =
      Some (JObj (("status", JStr "ok")
                  :: ("services", JObj (map (fun kv => (kv.1, JStr kv.2)) (map_to_list services)))
                  :: rest)) /\
    services !! "kafka" = Some ("down: connection refused"%string).
Proof.
  pose proof (health_spec now (handler_of "2s") (probe_order "2s") get_health tt
                (Permutation_refl _) (no_database_probe _ _ _ _ _ _ _)) as H.
  assert (Hc : status (run (Check now (handler_of "2s") (probe_order "2s") get_health) tt).1.2 = 200)
    by (vm_compute; reflexivity).
  assert (Hk : ("kafka", "down: connection refused")%string ∈ (answers (probe_order "2s") tt).1).
  { vm_compute. repeat first [apply list_elem_of_here | apply list_elem_of_further]. }
  destruct (run (Check now (handler_of "2s") (probe_order "2s") get_health) tt) as [[res c'] u].
  destruct (run (Health.db_ping (handler_of "2s") _) tt) as [err []].
  destruct (answers (probe_order "2s") tt) as [l []]. simpl in Hc, Hk.
  destruct H as (services & rest & _ & _ & _ & Hb & _ & _ & Hl). rewrite Hc in Hb.
  exists services, rest. split; [exact Hb | by apply Hl].
Defined.
End MainWitness.
