(* ===== verification/Base64.v ===== *)
(** [encoding/base64]: [URLEncoding], with padding, and its decoder. *)

From stdpp Require Import base list strings.
From Stdlib Require Import ZArith Lia ZifyNat Ascii String.
From S2P Require Import Prelude GoStrings.

(** Arithmetic with the quotients and remainders of bytes. *)
Ltac byte_lia := zify; Z.to_euclidean_division_equations; lia.

(** The alphabet of RFC 4648, section 5. *)
Definition alphabet : string :=
  "ABCDEFGHIJKLMNOPQRSTUVWXYZabcdefghijklmnopqrstuvwxyz0123456789-_".
Definition encode_sextet (n : nat) : ascii :=
  match String.get n alphabet with Some c => c | None => "A"%char end.

(** The value of a character of the alphabet. *)
Definition decode_sextet (c : ascii) : option nat :=
  let b := nat_of_ascii c in
  if ((65 <=? b) && (b <=? 90))%nat then Some (b - 65)%nat
  else if ((97 <=? b) && (b <=? 122))%nat then Some (b - 71)%nat
  else if ((48 <=? b) && (b <=? 57))%nat then Some (b + 4)%nat
  else if (b =? 45)%nat then Some 62%nat
  else if (b =? 95)%nat then Some 63%nat
  else None.

Lemma decode_encode_sextet n : (n < 64)%nat -> decode_sextet (encode_sextet n) = Some n.
Proof. intros Hn. do 64 (destruct n as [| n]; [reflexivity |]). lia. Qed.

Definition pad : ascii := "="%char.
Definition b_of (c : ascii) : nat := nat_of_ascii c.
Definition c_of (n : nat) : ascii := ascii_of_nat n.

Fixpoint EncodeToString (s : string) : string :=
  match s with
  | EmptyString => EmptyString
  | String a EmptyString =>
      String (encode_sextet (b_of a / 4)) (String (encode_sextet (b_of a mod 4 * 16))
        (String pad (String pad EmptyString)))
  | String a (String b EmptyString) =>
      String (encode_sextet (b_of a / 4)) (String (encode_sextet (b_of a mod 4 * 16 + b_of b / 16))
        (String (encode_sextet (b_of b mod 16 * 4)) (String pad EmptyString)))
  | String a (String b (String c s')) =>
      String (encode_sextet (b_of a / 4)) (String (encode_sextet (b_of a mod 4 * 16 + b_of b / 16))
        (String (encode_sextet (b_of b mod 16 * 4 + b_of c / 64))
          (String (encode_sextet (b_of c mod 64)) (EncodeToString s'))))
  end.

(** Line breaks are skipped. *)
Fixpoint strip_newlines (s : string) : string :=
  match s with
  | EmptyString => EmptyString
  | String c s' =>
      if ((b_of c =? 10) || (b_of c =? 13))%nat then strip_newlines s' else String c (strip_newlines s')
  end.

(** Quanta of four characters; padding only at the very end. *)
Fixpoint decode_quanta (s : string) : option string :=
  match s with
  | EmptyString => Some EmptyString
  | String w (String x (String y (String z s'))) =>
      match decode_sextet w, decode_sextet x with
      | Some w, Some x =>
          let a := c_of (w * 4 + x / 16) in
          if Ascii.eqb y pad then
            if Ascii.eqb z pad && String.eqb s' "" then Some (String a EmptyString) else None
          else
            match decode_sextet y with
            | None => None
            | Some y =>
                let b := c_of (x mod 16 * 16 + y / 4) in
                if Ascii.eqb z pad then
                  if String.eqb s' "" then Some (String a (String b EmptyString)) else None
                else
                  match decode_sextet z, decode_quanta s' with
                  | Some z, Some rest =>
                      Some (String a (String b (String (c_of (y mod 4 * 64 + z)) rest)))
                  | _, _ => None
                  end
            end
      | _, _ => None
      end
  | _ => None
  end.

Definition DecodeString (s : string) : option string := decode_quanta (strip_newlines s).

(** ** Round trip *)

Lemma b_of_lt c : (b_of c < 256)%nat.
Proof. apply nat_ascii_bounded. Qed.

Lemma encode_sextet_not n (Hn : (n < 64)%nat) :
  Ascii.eqb (encode_sextet n) pad = false /\
  ((b_of (encode_sextet n) =? 10) || (b_of (encode_sextet n) =? 13))%nat = false.
Proof. do 64 (destruct n as [| n]; [by split |]). lia. Qed.

(** Induction three bytes at a time. *)
Lemma bytes3_ind (P : string -> Prop) :
  P "" -> (forall a, P (String a "")) -> (forall a b, P (String a (String b ""))) ->
  (forall a b c s, P s -> P (String a (String b (String c s)))) -> forall s, P s.
Proof.
  intros H0 H1 H2 H3.
  enough (H : forall n s, (String.length s <= n)%nat -> P s) by (intros s; by apply (H (String.length s))).
  induction n as [| n IH]; intros [| a [| b [| c s]]] Hs; simpl in Hs; auto; try lia.
  apply H3, IH. lia.
Qed.

Ltac sextets :=
  repeat match goal with
    | |- context [String.eqb ?x ?x] => rewrite (String.eqb_refl x)
    | |- context [Ascii.eqb (encode_sextet ?n) pad] =>
        rewrite (proj1 (encode_sextet_not n ltac:(byte_lia)))
    | |- context [decode_sextet (encode_sextet ?n)] =>
        rewrite (decode_encode_sextet n ltac:(byte_lia))
    end.

Lemma strip_sextet n s :
  (n < 64)%nat ->
  strip_newlines (String (encode_sextet n) s) = String (encode_sextet n) (strip_newlines s).
Proof. intros Hn. simpl. by rewrite (proj2 (encode_sextet_not n Hn)). Qed.

Lemma strip_encoded s : strip_newlines (EncodeToString s) = EncodeToString s.
Proof.
  induction s as [| a | a b | a b c s IH] using bytes3_ind; [done | | |];
    pose proof (b_of_lt a); try pose proof (b_of_lt b); try pose proof (b_of_lt c);
    cbn [EncodeToString];
    repeat (rewrite strip_sextet by byte_lia);
    rewrite ?IH; reflexivity.
Qed.

Lemma c_of_b n c : n = b_of c -> c_of n = c.
Proof. intros ->. apply ascii_nat_embedding. Qed.

Lemma base64_roundtrip s : DecodeString (EncodeToString s) = Some s.
Proof.
  unfold DecodeString. rewrite strip_encoded.
  induction s as [| a | a b | a b c s IH] using bytes3_ind; [done | | |];
    pose proof (b_of_lt a); try pose proof (b_of_lt b); try pose proof (b_of_lt c);
    cbn [EncodeToString decode_quanta]; sextets; rewrite ?IH; try rewrite Ascii.eqb_refl;
    cbn [andb];
    repeat match goal with
      | |- context [c_of ?n] =>
          first [ rewrite (c_of_b n a) by byte_lia
                | rewrite (c_of_b n b) by byte_lia
                | rewrite (c_of_b n c) by byte_lia ]
      end; done.
Qed.
