(* ===== verification/Crypto.v ===== *)
(** Field encryption ([pkg/crypto/crypto.go]): AES-256-GCM behind base64url. The
    cipher is [crypto/cipher]'s: an AEAD with a nonce of [NonceSize] bytes. *)

From stdpp Require Import base list strings.
From Stdlib Require Import ZArith Lia Ascii String.
From S2P Require Import Prelude GoStrings Base64.

(** AES-GCM under a 32-byte key. *)
Class Aead : Type := {
  NewGCM : string -> result string;                (* the key, as the cipher keeps it *)
  NonceSize : nat;
  Seal : string -> string -> string -> string;     (* key, nonce, plaintext *)
  Open : string -> string -> string -> option string
}.
Class AeadLaws `{Aead} : Prop := {
  NewGCM_ok k : len k = 32 -> exists g, NewGCM k = Ok g;
  Open_Seal g n p c : String.length n = NonceSize -> Open g n c = Some p <-> c = Seal g n p
}.

Section Crypto.
Context `{Aead}.

Record Encryptor : Type := MkEncryptor { gcm : string }.

Definition NewEncryptor (key : string) : result Encryptor :=
  if negb (len key =? 32) then Err (Sentinel ErrKeySize)
  else match NewGCM key with
       | Err e => Err (errorf "create cipher: " e)
       | Ok g => Ok (MkEncryptor g)
       end.

(** [random] is what the read of the random source gives: the nonce or an error. *)
Definition Encrypt (random : result string) (plaintext : string) (e : Encryptor) : result string :=
  match random with
  | Err err => Err (errorf "generate nonce: " err)
  | Ok nonce => Ok (EncodeToString (nonce ++ Seal (gcm e) nonce plaintext))
  end.

Definition Decrypt (encoded : string) (e : Encryptor) : result string :=
  match DecodeString encoded with
  | None => Err (Sentinel ErrInvalidCiphertext)
  | Some data =>
      if len data <? Z.of_nat NonceSize then Err (Sentinel ErrInvalidCiphertext)
      else
        let nonce := take_str NonceSize data in
        let ciphertext := drop_str NonceSize data in
        match Open (gcm e) nonce ciphertext with
        | None => Err (Sentinel ErrInvalidCiphertext)
        | Some plaintext => Ok plaintext
        end
  end.

Context {laws : AeadLaws}.

(** With any 32-byte key an encryptor is made, and only with one; whatever the
    nonce drawn, decrypting what was encrypted gives the text back. *)
Theorem encrypt_decrypt (key nonce plaintext : string) (Hn : String.length nonce = NonceSize) :
  (len key <> 32 -> NewEncryptor key = Err (Sentinel ErrKeySize)) /\
  (len key = 32 -> exists e, NewEncryptor key = Ok e /\
     exists c, Encrypt (Ok nonce) plaintext e = Ok c /\ Decrypt c e = Ok plaintext).
Proof.
  unfold NewEncryptor. split.
  - intros Hk. by rewrite (proj2 (Z.eqb_neq _ _) Hk).
  - intros Hk. rewrite (proj2 (Z.eqb_eq _ _) Hk). destruct (NewGCM_ok key Hk) as [g ->]. simpl.
    eexists. split; [done |]. eexists. split; [done |].
    unfold Decrypt. rewrite base64_roundtrip.
    assert (Hlt : len (nonce ++ Seal g nonce plaintext) <? Z.of_nat NonceSize = false).
    { unfold len. rewrite length_app_str, Hn. apply Z.ltb_ge. lia. }
    simpl. rewrite Hlt, <- Hn, take_str_app, drop_str_app.
    assert (Ho : Open g nonce (Seal g nonce plaintext) = Some plaintext) by (by apply Open_Seal).
    by rewrite Ho.
Qed.

(** Whatever is given to [Decrypt], it answers a text only for an authentic
    payload: the bytes are a nonce followed by the sealing of that very text under
    the key. Every other input is refused with [ErrInvalidCiphertext]. *)
Theorem decrypt_authentic (encoded : string) (e : Encryptor) :
  match Decrypt encoded e with
  | Ok plaintext =>
      exists nonce, String.length nonce = NonceSize /\
        DecodeString encoded = Some (nonce ++ Seal (gcm e) nonce plaintext)%string
  | Err err =>
      err = Sentinel ErrInvalidCiphertext /\
      forall nonce plaintext, String.length nonce = NonceSize ->
        DecodeString encoded <> Some (nonce ++ Seal (gcm e) nonce plaintext)%string
  end.
Proof.
  unfold Decrypt. destruct (DecodeString encoded) as [data |]; [| by split].
  destruct (Z.ltb_spec (len data) (Z.of_nat NonceSize)) as [Hlt | Hge].
  - split; [done |]. intros nonce p Hn [= ->]. unfold len in Hlt.
    rewrite length_app_str, Hn in Hlt. lia.
  - assert (Hl : String.length (take_str NonceSize data) = NonceSize).
    { rewrite length_take_str. unfold len in Hge. lia. }
    destruct (Open (gcm e) _ _) as [p |] eqn:E.
    + apply Open_Seal in E; [| done]. exists (take_str NonceSize data). split; [done |].
      by rewrite <- E, take_drop_str.
    + split; [done |]. intros nonce p Hn [= ->]. rewrite <- Hn, take_str_app, drop_str_app in E.
      assert (Ho : Open (gcm e) nonce (Seal (gcm e) nonce p) = Some p) by (by apply Open_Seal).
      congruence.
Qed.
End Crypto.

(** A stand-in cipher for the witnesses: the plaintext followed by the nonce. *)
Module PlainAead.
#[export] Instance plain_aead : Aead := {|
  NewGCM k := Ok k;
  NonceSize := 12;
  Seal g n p := (p ++ n)%string;
  Open g n c := if HasSuffix c n then Some (TrimSuffix c n) else None
|}.

Lemma take_full p n : take_str (String.length (p ++ n) - String.length n) (p ++ n) = p.
Proof.
  rewrite length_app_str. replace (_ + _ - _)%nat with (String.length p) by lia. apply take_str_app.
Qed.

#[export] Instance plain_laws : AeadLaws.
Proof.
  split; [by eexists |]. intros g n p c _. simpl. unfold TrimSuffix. split.
  - destruct (HasSuffix c n) eqn:E; [| done]. intros [= <-].
    unfold HasSuffix in E. apply andb_true_iff in E as [_ E%String.eqb_eq].
    rewrite <- E at 2. by rewrite take_drop_str.
  - intros ->. assert (E : HasSuffix (p ++ n) n = true).
    { unfold HasSuffix. rewrite length_app_str.
      replace (String.length p + String.length n - String.length n)%nat with (String.length p) by lia.
      rewrite drop_str_app, String.eqb_refl, andb_true_r. apply Nat.leb_le. lia. }
    by rewrite E, take_full.
Qed.
End PlainAead.

Module CryptoWitness.
Import PlainAead.
Definition key : string := "0123456789abcdef0123456789abcdef".
Definition nonce : string := "nonce-12byte".

Lemma encrypt_decrypt_witness :
  exists e c, NewEncryptor key = Ok e /\ Encrypt (Ok nonce) "alice@example.com" e = Ok c /\
    Decrypt c e = Ok "alice@example.com"%string.
Proof.
  destruct (encrypt_decrypt (laws := plain_laws) key nonce "alice@example.com" eq_refl) as [_ H].
  destruct (H eq_refl) as (e & He & c & Hc & Hd). by exists e, c.
Defined.

Lemma decrypt_authentic_witness :
  Decrypt "bm90IGF1dGhlbnRpYw==" (MkEncryptor key) = Err (Sentinel ErrInvalidCiphertext).
Proof.
  pose proof (decrypt_authentic "bm90IGF1dGhlbnRpYw==" (MkEncryptor key)) as H.
  assert (Hd : is_ok (Decrypt "bm90IGF1dGhlbnRpYw==" (MkEncryptor key)) = false) by (vm_compute; reflexivity).
  destruct (Decrypt "bm90IGF1dGhlbnRpYw==" (MkEncryptor key)) as [p | err]; [discriminate Hd |].
  by destruct H as [-> _].
Defined.
End CryptoWitness.
