(* ===== verification/Journal.v ===== *)
(** The request journal ([pkg/journal]) and the middlewares that log requests
    ([access_log.go], [RequestLogger] of logger.go). *)

From stdpp Require Import base list strings gmap.
From Stdlib Require Import ZArith Lia String.
From S2P Require Import Prelude Prog GoStrings Json Jwt Http.

(** ** Redaction *)

Definition sensitiveHeaders : gset string :=
  list_to_set ["authorization"; "proxy-authorization"; "cookie"; "set-cookie"; "x-api-key";
               "x-auth-token"].
Definition redactedMarker : string := "[redacted]".

(** [IsSensitiveHeader]. *)
Definition IsSensitiveHeader (name : string) : bool :=
  bool_decide (ToLower name ∈ sensitiveHeaders).

Definition RedactHeaders (h : gmap string string) : gmap string string :=
  map_imap (fun k v => Some (if IsSensitiveHeader k then redactedMarker else v)) h.

Definition binaryContentTypes : list string :=
  ["application/octet-stream"; "multipart/form-data"; "image/"; "video/"; "audio/";
   "application/pdf"; "application/zip"].

Definition CapBody (body contentType : string) (max : Z) : string :=
  if max <=? 0 then "[omitted]"
  else
    let ct := ToLower contentType in
    if existsb (Contains ct) binaryContentTypes then "[binary omitted]"
    else if max <? len body then take_str (Z.to_nat max) body ++ "...[truncated]"
    else body.

(** ** The journal *)

Record ThirdParty : Type := MkThirdParty {
  tName : string; tMethod : string; tURL : string; tHost : string; tStatus : Z; tLatencyMS : Z;
  tRequestBody : string; tResponseBody : string; tError : string; tStartedAt : Z
}.
Record Trace : Type := MkTrace { cName : string; cData : json; cAt : Z }.

Inductive Kind : Type := KindAPI | KindConsumer | NoKind.

(** A journal, and the child files every addition writes to. *)
Record Journal : Type := MkJournal {
  kind : Kind; requestID : string; traceID : string;
  thirdParty : list ThirdParty; traces : list Trace
}.

(** A line of thirdparty.log: request id, trace id and the call without its
    bodies; of trace.log: ids, name and data. *)
Record Files : Type := MkFiles {
  thirdparty_log : list (string * string * (string * string * string * string * Z * Z * string));
  trace_log : list (string * string * string * json)
}.

(** A [*Journal]: methods of a nil pointer do nothing. *)
Definition Start (k : Kind) : option Journal := Some (MkJournal k "" "" [] []).

Definition get_Kind (j : option Journal) : Kind := match j with Some j => kind j | None => NoKind end.
Definition RequestID (j : option Journal) : string := match j with Some j => requestID j | None => "" end.
Definition TraceID (j : option Journal) : string := match j with Some j => traceID j | None => "" end.

Definition SetRequestID (id : string) (j : option Journal) : option Journal :=
  option_map (fun j => MkJournal (kind j) id (traceID j) (thirdParty j) (traces j)) j.
Definition SetTraceID (id : string) (j : option Journal) : option Journal :=
  option_map (fun j => MkJournal (kind j) (requestID j) id (thirdParty j) (traces j)) j.

Definition AddThirdParty (tp : ThirdParty) (s : option Journal * Files) : option Journal * Files :=
  match s with
  | (None, f) => (None, f)
  | (Some j, f) =>
      (Some (MkJournal (kind j) (requestID j) (traceID j) (thirdParty j ++ [tp]) (traces j)),
       MkFiles (thirdparty_log f ++
                  [(requestID j, traceID j,
                    (tName tp, tMethod tp, tURL tp, tHost tp, tStatus tp, tLatencyMS tp, tError tp))])
               (trace_log f))
  end.

Definition AddTrace (now : Z) (name : string) (data : json) (s : option Journal * Files)
  : option Journal * Files :=
  match s with
  | (None, f) => (None, f)
  | (Some j, f) =>
      (Some (MkJournal (kind j) (requestID j) (traceID j) (thirdParty j)
               (traces j ++ [MkTrace name data now])),
       MkFiles (thirdparty_log f) (trace_log f ++ [(requestID j, traceID j, name, data)]))
  end.

Definition ThirdParties (j : option Journal) : list ThirdParty :=
  match j with Some j => thirdParty j | None => [] end.
Definition Traces (j : option Journal) : list Trace :=
  match j with Some j => traces j | None => [] end.

(** ** Theorems of the journal *)

Lemma redact_lookup (h : gmap string string) (k : string) :
  RedactHeaders h !! k = (fun v => if IsSensitiveHeader k then redactedMarker else v) <$> h !! k.
Proof. unfold RedactHeaders. rewrite map_lookup_imap. by destruct (h !! k). Qed.

(** Header redaction: no header appears or disappears, a header whose name is
    sensitive in any letter case has the marker for value, and the others keep
    theirs; redacting again changes nothing. *)
Theorem redact_headers (h : gmap string string) (k : string) :
  RedactHeaders h !! k = (fun v => if IsSensitiveHeader k then redactedMarker else v) <$> h !! k /\
  (forall k', ToLower k' = ToLower k -> IsSensitiveHeader k' = IsSensitiveHeader k) /\
  RedactHeaders (RedactHeaders h) = RedactHeaders h.
Proof.
  split; [apply redact_lookup |]. split.
  - intros k' H. unfold IsSensitiveHeader. by rewrite H.
  - apply map_eq. intros i. rewrite !redact_lookup. destruct (h !! i) as [v |]; simpl; [| done].
    by destruct (IsSensitiveHeader i).
Qed.

(** A captured body is bounded: a fixed word, or a prefix of the payload of at most
    [max] bytes, whole or followed by a mark that says it was cut. *)
Theorem cap_body (body contentType : string) (max : Z) :
  let out := CapBody body contentType max in
  out ∈ ["[omitted]"; "[binary omitted]"]%string \/
  (out = body /\ len body <= max) \/
  (exists p, out = (p ++ "...[truncated]")%string /\ HasPrefix body p = true /\ len p = max /\
     max < len body).
Proof.
  cbv zeta. unfold CapBody. destruct (Z.leb_spec max 0) as [Hm | Hm]; [left; set_solver |].
  destruct (existsb _ _); [left; set_solver |]. right.
  destruct (Z.ltb_spec max (len body)) as [Hlt | Hge]; [right | by left].
  exists (take_str (Z.to_nat max) body). split; [done |]. split; [apply HasPrefix_take |].
  split; [| done]. unfold len in *. rewrite length_take_str. lia.
Qed.

(** An operation of application code or of the HTTP client on the journal. *)
Inductive op : Type :=
| OpThirdParty (tp : ThirdParty)
| OpTrace (now : Z) (name : string) (data : json)
| OpRequestID (id : string)
| OpTraceID (id : string).

Definition apply (o : op) (s : option Journal * Files) : option Journal * Files :=
  match o with
  | OpThirdParty tp => AddThirdParty tp s
  | OpTrace now name data => AddTrace now name data s
  | OpRequestID id => (SetRequestID id s.1, s.2)
  | OpTraceID id => (SetTraceID id s.1, s.2)
  end.
Definition apply_all (os : list op) (s : option Journal * Files) : option Journal * Files :=
  fold_left (fun s o => apply o s) os s.

Definition calls_of (os : list op) : list ThirdParty :=
  omap (fun o => match o with OpThirdParty tp => Some tp | _ => None end) os.
Definition traces_of (os : list op) : list Trace :=
  omap (fun o => match o with OpTrace now name data => Some (MkTrace name data now) | _ => None end) os.
Definition summary (tp : ThirdParty) :=
  (tName tp, tMethod tp, tURL tp, tHost tp, tStatus tp, tLatencyMS tp, tError tp).

(** One record per request: whatever is added, in whatever order, the parent
    record lists every call and every trace point once and in order, and each has
    its line in the child file; with no journal in the context nothing happens. *)
Theorem journal_complete (os : list op) (k : Kind) (f : Files) :
  (let '(j, f') := apply_all os (Start k, f) in
   ThirdParties j = calls_of os /\ Traces j = traces_of os /\ get_Kind j = k /\
   map snd (thirdparty_log f') = map snd (thirdparty_log f) ++ map summary (calls_of os) /\
   map (fun l => (l.1.2, l.2)) (trace_log f') =
     map (fun l => (l.1.2, l.2)) (trace_log f) ++ map (fun t => (cName t, cData t)) (traces_of os)) /\
  apply_all os (None, f) = (None, f).
Proof.
  split; [| revert f; induction os as [| [] os IH]; intros f; simpl; done].
  unfold Start.
  assert (H : forall tps trs rid tid,
    let '(j, f') := apply_all os (Some (MkJournal k rid tid tps trs), f) in
    ThirdParties j = tps ++ calls_of os /\ Traces j = trs ++ traces_of os /\ get_Kind j = k /\
    map snd (thirdparty_log f') = map snd (thirdparty_log f) ++ map summary (calls_of os) /\
    map (fun l => (l.1.2, l.2)) (trace_log f') =
      map (fun l => (l.1.2, l.2)) (trace_log f) ++ map (fun t => (cName t, cData t)) (traces_of os));
    [| apply (H [] [])].
  revert f. induction os as [| o os IH]; intros f tps trs rid tid.
  - simpl. by rewrite !app_nil_r.
  - destruct o as [tp | now name data | id | id]; cbn [apply_all fold_left apply AddThirdParty AddTrace].
    + specialize (IH (MkFiles (thirdparty_log f ++ [(rid, tid, summary tp)]) (trace_log f))
                    (tps ++ [tp]) trs rid tid).
      unfold apply_all in IH. destruct (fold_left _ _ _) as [j f']. simpl in IH |- *.
      rewrite map_app in IH. simpl in IH. rewrite <- !app_assoc in IH. exact IH.
    + specialize (IH (MkFiles (thirdparty_log f) (trace_log f ++ [(rid, tid, name, data)]))
                    tps (trs ++ [MkTrace name data now]) rid tid).
      unfold apply_all in IH. destruct (fold_left _ _ _) as [j f']. simpl in IH |- *.
      rewrite map_app in IH. simpl in IH. rewrite <- !app_assoc in IH. exact IH.
    + apply (IH f tps trs id tid).
    + apply (IH f tps trs rid id).
Qed.

(** ** The logging middlewares *)

(** A line of the application log ([RequestLogger]) and of api.log ([AccessLog]). *)
Record request_line : Type := MkRequestLine {
  l_method : string; l_path : string; l_status : Z; l_latency : Z; l_ip : string
}.
Record access_line : Type := MkAccessLine {
  a_request_id : string; a_trace_id : string; a_client_ip : string; a_method : string;
  a_path : string; a_req_headers : gmap string string; a_req_body : string; a_status : Z;
  a_resp_headers : gmap string string; a_resp_body : string; a_latency : Z;
  a_thirdparty : list ThirdParty; a_trace : list Trace
}.
Record AccessLogOptions : Type := MkAccessLogOptions { BodyMaxBytes : Z; CaptureBodies : bool }.

Section Logging.
Context {W : Type} (now : prog W Z).

Definition RequestLogger (emit : request_line -> W -> W) (next : handler W) : handler W := fun c =>
  let! start := now in
  let! out := next c in
  let! stop := now in
  let '(err, c') := out in
  do! act (fun w => (tt, emit (MkRequestLine (method (request c')) (path (request c')) (status c')
                                 (stop - start) (ip (request c'))) w)) in
  Ret (err, c').

(** The journal of the request's context; the trace identifier the tracing library
    knows; the text of a response body; whether the response streams its body. *)
Context (get_j : W -> option Journal) (put_j : option Journal -> W -> W).
Context (current_trace : prog W string) (body_text : option json -> string).
Context (is_stream : Ctx -> bool) (emit : access_line -> W -> W).

Definition on_journal (f : option Journal -> option Journal) : prog W unit :=
  act (fun w => (tt, put_j (f (get_j w)) w)).

(** Headers in order into a Go map: the last one of a name stays. *)
Definition header_map (hs : list (string * string)) : gmap string string :=
  list_to_map (reverse hs).

Definition AccessLog (opts : AccessLogOptions) (next : handler W) : handler W := fun c =>
  let! start := now in
  do! on_journal (fun _ => Start KindAPI) in
  let rid := default "" (request_id c) in
  do! on_journal (SetRequestID rid) in
  let! tid := current_trace in
  do! on_journal (SetTraceID tid) in
  let reqHeaders := header_map (req_headers (request c)) in
  let reqBody := if CaptureBodies opts
                 then CapBody (req_body (request c)) (c_Get "Content-Type" c) (BodyMaxBytes opts)
                 else "[omitted]"%string in
  let! out := next c in
  let! stop := now in
  let! tid := (if String.eqb tid "" then
                 let! tid := current_trace in
                 do! on_journal (SetTraceID tid) in Ret tid
               else Ret tid) in
  let '(err, c') := out in
  let respHeaders := header_map (resp_headers c') in
  let respBody := if is_stream c' then "[stream]"%string
                  else if CaptureBodies opts
                  then CapBody (body_text (resp_body c')) (header "Content-Type" (resp_headers c'))
                         (BodyMaxBytes opts)
                  else "[omitted]"%string in
  let! j := reads get_j in
  do! act (fun w => (tt,
    emit (MkAccessLine rid tid (ip (request c')) (method (request c')) (path (request c'))
            (RedactHeaders reqHeaders) reqBody (status c') (RedactHeaders respHeaders) respBody
            (stop - start) (ThirdParties j) (Traces j)) w)) in
  Ret (err, c').

(** The access log is transparent and discreet: the request is handled exactly once
    and its outcome handed on unchanged; one line is written, after it; and in that
    line a sensitive header, of the request or of the response, has no value but the
    marker. *)
Theorem access_log_spec (opts : AccessLogOptions) (next : handler W) (c : Ctx) (w : W) :
  exists w1 w2 line,
    run (AccessLog opts next c) w = ((run (next c) w1).1, emit line w2) /\
    a_status line = status (run (next c) w1).1.2 /\
    (forall k v, IsSensitiveHeader k = true ->
       a_req_headers line !! k = Some v \/ a_resp_headers line !! k = Some v -> v = redactedMarker).
Proof.
  unfold AccessLog, on_journal. rewrite run_bind. destruct (run now w) as [start w0].
  do 2 (rewrite run_bind, run_act). rewrite run_bind.
  match goal with |- context [run current_trace ?x] => destruct (run current_trace x) as [tid w1] end.
  rewrite run_bind, run_act, run_bind.
  match goal with |- context [run (next c) ?x] => exists x; destruct (run (next c) x) as [[err c'] w2] end.
  rewrite run_bind. destruct (run now w2) as [stop w3]. rewrite run_bind.
  match goal with |- context [run (if _ then _ else _) ?x] =>
    destruct (run (if String.eqb tid "" then _ else _) x) as [tid' w4] end.
  rewrite run_bind. cbn [run reads act bind]. eexists w4, _. split; [reflexivity |].
  split; [reflexivity |].
  intros k v Hk [H | H]; cbn [a_req_headers a_resp_headers] in H; rewrite redact_lookup, Hk in H;
    apply fmap_Some in H as (? & _ & ->); done.
Qed.
End Logging.

(** The error handler of the application runs after the whole chain, so the
    loggers see the status from before it: a request refused with an error is
    logged as 200 and answered with the error's code. *)
Lemma refused_logged_as_200 (code : Z) (q : Request) :
  let h := RequestLogger (Ret 0) (fun line lines => line :: lines)
             (fun c => Ret (Some (FiberErr code), c)) in
  let '(c, lines) := run (serve h q) [] in
  status c = code /\ map l_status lines = [200].
Proof. by split. Qed.
