(* ===== verification/Ssrf.v ===== *)
(** Protection of outbound calls against server-side request forgery
    ([validateHost] and the address ranges of pkg/httpclient/middleware.go, and
    pkg/httpclient/ssrf_dial.go). *)

From stdpp Require Import base list strings.
From Stdlib Require Import ZArith Lia Ascii String.
From S2P Require Import Prelude Prog GoStrings Broker.

(** ** [net.IP]: 4 or 16 bytes, or nil *)

Definition IP : Type := list Z.

Definition byte (ip : IP) (i : nat) : Z := nth i ip 0.

(** [ip.To4()]: the IPv4 address, also of an IPv4-mapped IPv6 one. *)
Definition To4 (ip : IP) : option IP :=
  if (List.length ip =? 4)%nat then Some ip
  else if (List.length ip =? 16)%nat && forallb (Z.eqb 0) (take 10 ip)
          && (byte ip 10 =? 255) && (byte ip 11 =? 255) then Some (drop 12 ip)
  else None.

Record IPNet : Type := MkIPNet { net_ip : IP; net_mask : list Z }.

(** [ip & mask], byte by byte. *)
Definition Mask (ip mask : list Z) : list Z := zip_with Z.land ip mask.

(** [n.Contains(ip)], for a network in the short form [ParseCIDR] makes. *)
Definition net_Contains (n : IPNet) (ip : IP) : bool :=
  let ip := match To4 ip with Some x => x | None => ip end in
  if negb (List.length ip =? List.length (net_ip n))%nat then false
  else bool_decide (Mask (net_ip n) (net_mask n) = Mask ip (net_mask n)).

(** [net.CIDRMask(ones, 8 * n)]. *)
Fixpoint CIDRMask (ones : Z) (n : nat) : list Z :=
  match n with
  | O => []
  | S k => (if 8 <=? ones then 255 else if ones <=? 0 then 0 else 256 - 2 ^ (8 - ones))
           :: CIDRMask (ones - 8) k
  end.

(** [net.ParseCIDR] of an address given by its bytes. *)
Definition cidr (ip : IP) (ones : Z) : IPNet :=
  let mask := CIDRMask ones (List.length ip) in MkIPNet (Mask ip mask) mask.

Definition v6 (head : list Z) (last : Z) : IP := head ++ repeat 0 (15 - List.length head) ++ [last].

Definition privateRanges : list IPNet :=
  [cidr [127; 0; 0; 0] 8;         (* loopback IPv4 *)
   cidr [10; 0; 0; 0] 8;          (* private class A *)
   cidr [172; 16; 0; 0] 12;       (* private class B *)
   cidr [192; 168; 0; 0] 16;      (* private class C *)
   cidr [169; 254; 0; 0] 16;      (* link-local IPv4 *)
   cidr [100; 64; 0; 0] 10;       (* shared address space (CGNAT) *)
   cidr (v6 [] 1) 128;            (* loopback IPv6 *)
   cidr (v6 [252] 0) 7;           (* unique-local IPv6 *)
   cidr (v6 [254; 128] 0) 10].    (* link-local IPv6 *)

(** The predicates of [net.IP]. *)
Definition Equal (a b : IP) : bool :=
  match To4 a, To4 b with
  | Some x, Some y => bool_decide (x = y)
  | None, None => bool_decide (a = b)
  | _, _ => false
  end.
Definition is16 (ip : IP) : bool := (List.length ip =? 16)%nat.

Definition IsLoopback (ip : IP) : bool :=
  match To4 ip with Some x => byte x 0 =? 127 | None => Equal ip (v6 [] 1) end.
Definition IsPrivate (ip : IP) : bool :=
  match To4 ip with
  | Some x => (byte x 0 =? 10) || ((byte x 0 =? 172) && (Z.land (byte x 1) 240 =? 16))
              || ((byte x 0 =? 192) && (byte x 1 =? 168))
  | None => is16 ip && (Z.land (byte ip 0) 254 =? 252)
  end.
Definition IsLinkLocalUnicast (ip : IP) : bool :=
  match To4 ip with
  | Some x => (byte x 0 =? 169) && (byte x 1 =? 254)
  | None => is16 ip && (byte ip 0 =? 254) && (Z.land (byte ip 1) 192 =? 128)
  end.
Definition IsLinkLocalMulticast (ip : IP) : bool :=
  match To4 ip with
  | Some x => (byte x 0 =? 224) && (byte x 1 =? 0) && (byte x 2 =? 0)
  | None => is16 ip && (byte ip 0 =? 255) && (Z.land (byte ip 1) 15 =? 2)
  end.
Definition IsUnspecified (ip : IP) : bool := Equal ip [0; 0; 0; 0] || Equal ip (v6 [] 0).
Definition IsMulticast (ip : IP) : bool :=
  match To4 ip with
  | Some x => Z.land (byte x 0) 240 =? 224
  | None => is16 ip && (byte ip 0 =? 255)
  end.

(** ** The program's checks *)

(** [isInternalIP]. *)
Definition isInternalIP (ip : IP) : bool :=
  if (List.length ip =? 0)%nat then true
  else if IsLoopback ip || IsPrivate ip || IsLinkLocalUnicast ip
          || IsLinkLocalMulticast ip || IsUnspecified ip || IsMulticast ip then true
  else existsb (fun r => net_Contains r ip) privateRanges.

Section Hosts.
(** [net.ParseIP], which reads the text of an address. *)
Context (ParseIP : string -> option IP).

Definition isInternalHost (host : string) : bool :=
  let lower := ToLower host in
  if String.eqb lower "localhost" || String.eqb lower "ip6-localhost"
     || String.eqb lower "ip6-loopback" then true
  else match ParseIP host with
       | None => false
       | Some ip => existsb (fun r => net_Contains r ip) privateRanges
       end.


Definition validateHost (host : string) (allowedHosts : list string) (allowPrivate : bool)
  : option error :=
  if String.eqb host "" then Some (Fresh "httpclient: SSRF protection: empty host")
  else if negb allowPrivate && isInternalHost host then
    Some (Fresh ("httpclient: SSRF protection: host " ++ Quote host ++
                 " is internal/loopback/link-local"))
  else if (List.length allowedHosts =? 0)%nat then None
  else if existsb (EqualFold host) allowedHosts then None
  else Some (Fresh ("httpclient: SSRF protection: host " ++ Quote host ++ " not in allowlist")).

(** [ssrfCheckRedirect]; [via] is the number of requests already made. *)
Definition ssrfCheckRedirect (allowedHosts : list string) (allowPrivate : bool) (host : string)
    (via : nat) : option error :=
  if (10 <=? via)%nat then Some (Fresh "httpclient: stopped after 10 redirects")
  else validateHost host allowedHosts allowPrivate.
End Hosts.

(** ** Dialling *)

(** The resolver's answer and the connection attempts. *)
Inductive dial_event : Type :=
| Resolved (host : string) (r : result (list IP))
| DialedIP (ip : IP) (port : string) (r : result nat).

Section Dial.
Context (SplitHostPort : string -> result (string * string)).
Context (env_resolve : list dial_event -> string -> result (list IP)).
Context (env_dial : list dial_event -> IP -> string -> result nat).
Notation go := (prog (list dial_event)).

Definition lookupIPAddr (host : string) : go (result (list IP)) :=
  call (fun h => env_resolve h host) (Resolved host).
Definition dialContext (ip : IP) (port : string) : go (result nat) :=
  call (fun h => env_dial h ip port) (DialedIP ip port).

(** The addresses one after the other; the last error when all fail. *)
Fixpoint dial_first (ips : list IP) (port : string) (lastErr : error) : go (result nat) :=
  match ips with
  | [] => Ret (Err lastErr)
  | ip :: rest =>
      let! r := dialContext ip port in
      match r with Ok conn => Ret (Ok conn) | Err dialErr => dial_first rest port dialErr end
  end.

Definition guardedDialContext (allowPrivate : bool) (addr : string) : go (result nat) :=
  match SplitHostPort addr with
  | Err err =>
      Ret (Err (errorf ("httpclient: SSRF protection: invalid address " ++ Quote addr ++ ": ") err))
  | Ok (host, port) =>
      let! r := lookupIPAddr host in
      match r with
      | Err err => Ret (Err (errorf ("httpclient: resolve " ++ Quote host ++ ": ") err))
      | Ok ips =>
          if (List.length ips =? 0)%nat then
            Ret (Err (Fresh ("httpclient: SSRF protection: no addresses for " ++ Quote host)))
          else if negb allowPrivate && existsb isInternalIP ips then
            Ret (Err (Fresh ("httpclient: SSRF protection: " ++ Quote host ++
                             " resolves to internal address")))
          else dial_first ips port (Fresh "")
      end
  end.
End Dial.

(** ** Which addresses are internal *)

Definition is_byte (b : Z) : Prop := 0 <= b < 256.

(** A property of bytes checked on the 256 of them. *)
Lemma byte_check (P : Z -> bool) :
  forallb (fun n => P (Z.of_nat n)) (seq 0 256) = true -> forall b, is_byte b -> P b = true.
Proof.
  rewrite forallb_forall. intros H b Hb. rewrite <- (Z2Nat.id b) by (unfold is_byte in Hb; lia).
  apply H. apply in_seq. unfold is_byte in Hb. lia.
Qed.

Lemma land_255 b : is_byte b -> Z.land b 255 = b.
Proof.
  intros Hb. apply Z.eqb_eq. revert b Hb. apply (byte_check (fun b => Z.land b 255 =? b)).
  vm_compute. reflexivity.
Qed.

Lemma land_240 b : is_byte b ->
  (Z.land b 240 =? 16) = ((16 <=? b) && (b <? 32)) /\ (Z.land b 240 =? 224) = ((224 <=? b) && (b <? 240)).
Proof.
  intros Hb. split; apply eqb_prop; revert b Hb;
    [apply (byte_check (fun b => Bool.eqb (Z.land b 240 =? 16) ((16 <=? b) && (b <? 32))))
    |apply (byte_check (fun b => Bool.eqb (Z.land b 240 =? 224) ((224 <=? b) && (b <? 240))))];
    vm_compute; reflexivity.
Qed.

Lemma land_192 b : is_byte b -> (Z.land b 192 =? 64) = ((64 <=? b) && (b <? 128)).
Proof.
  intros Hb. apply eqb_prop. revert b Hb.
  apply (byte_check (fun b => Bool.eqb (Z.land b 192 =? 64) ((64 <=? b) && (b <? 128)))).
  vm_compute; reflexivity.
Qed.

(** The IPv4 addresses no outbound call may reach. *)
Definition internal_v4 (a b c d : Z) : Prop :=
  a = 127 \/ a = 10 \/ (a = 172 /\ 16 <= b < 32) \/ (a = 192 /\ b = 168) \/
  (a = 169 /\ b = 254) \/ (a = 100 /\ 64 <= b < 128) \/ 224 <= a < 240 \/
  (a = 0 /\ b = 0 /\ c = 0 /\ d = 0).

Definition mapped (a b c d : Z) : IP := [0; 0; 0; 0; 0; 0; 0; 0; 0; 0; 255; 255; a; b; c; d].

Lemma contains_v4 x y m1 m2 a b c d :
  net_Contains (MkIPNet [x; y; 0; 0] [m1; m2; 0; 0]) [a; b; c; d] =
  (Z.land x m1 =? Z.land a m1) && (Z.land y m2 =? Z.land b m2).
Proof.
  unfold net_Contains, Mask. cbn [To4 List.length Nat.eqb negb net_ip net_mask zip_with].
  rewrite !Z.land_0_r. apply eq_true_iff_eq.
  rewrite bool_decide_eq_true, andb_true_iff, !Z.eqb_eq. split; [by intros [= -> ->] | intros [-> ->]; done].
Qed.

Lemma contains_v6 ip m a b c d :
  List.length ip = 16%nat -> net_Contains (MkIPNet ip m) [a; b; c; d] = false.
Proof. intros H. unfold net_Contains. simpl. by rewrite H. Qed.

Lemma ranges_v4 a b c d :
  is_byte a -> is_byte b ->
  existsb (fun r => net_Contains r [a; b; c; d]) privateRanges =
  (a =? 127) || (a =? 10) || ((a =? 172) && ((16 <=? b) && (b <? 32)))
  || ((a =? 192) && (b =? 168)) || ((a =? 169) && (b =? 254)) || ((a =? 100) && ((64 <=? b) && (b <? 128))).
Proof.
  intros Ha Hb.
  assert (Hr : privateRanges = [
    MkIPNet [127; 0; 0; 0] [255; 0; 0; 0]; MkIPNet [10; 0; 0; 0] [255; 0; 0; 0];
    MkIPNet [172; 16; 0; 0] [255; 240; 0; 0]; MkIPNet [192; 168; 0; 0] [255; 255; 0; 0];
    MkIPNet [169; 254; 0; 0] [255; 255; 0; 0]; MkIPNet [100; 64; 0; 0] [255; 192; 0; 0];
    MkIPNet (v6 [] 1) (repeat 255 16); MkIPNet (v6 [252] 0) (254 :: repeat 0 15);
    MkIPNet (v6 [254; 128] 0) (255 :: 192 :: repeat 0 14)]) by (vm_compute; reflexivity).
  rewrite Hr. cbn [existsb]. rewrite !contains_v4, !contains_v6 by reflexivity.
  destruct (land_240 b Hb) as [H16 _]. rewrite !(land_255 a), !(land_255 b), !Z.land_0_r by done.
  change (Z.land 127 255) with 127. change (Z.land 10 255) with 10. change (Z.land 172 255) with 172.
  change (Z.land 192 255) with 192. change (Z.land 169 255) with 169. change (Z.land 100 255) with 100.
  change (Z.land 168 255) with 168. change (Z.land 254 255) with 254. change (Z.land 16 240) with 16.
  change (Z.land 64 192) with 64. change (0 =? 0) with true.
  rewrite (Z.eqb_sym 16), (Z.eqb_sym 64), H16, land_192 by done.
  rewrite (Z.eqb_sym 127), (Z.eqb_sym 10), (Z.eqb_sym 172), (Z.eqb_sym 192), (Z.eqb_sym 169),
    (Z.eqb_sym 100), (Z.eqb_sym 168), (Z.eqb_sym 254).
  rewrite !andb_true_r, !orb_false_r. by rewrite !orb_assoc.
Qed.

Lemma internal_v4_bytes a b c d :
  is_byte a -> is_byte b ->
  isInternalIP [a; b; c; d] = true <-> internal_v4 a b c d.
Proof.
  intros Ha Hb. unfold isInternalIP. rewrite ranges_v4 by done. unfold internal_v4.
  unfold IsLoopback, IsPrivate, IsLinkLocalUnicast, IsLinkLocalMulticast, IsUnspecified, IsMulticast.
  change (To4 [a; b; c; d]) with (Some [a; b; c; d]). cbn [List.length Nat.eqb byte nth].
  destruct (land_240 a Ha) as [_ Ha'], (land_240 b Hb) as [Hb' _]. rewrite Ha', Hb'.
  assert (Hz : Equal [a; b; c; d] [0; 0; 0; 0] = (a =? 0) && (b =? 0) && (c =? 0) && (d =? 0)).
  { apply eq_true_iff_eq. unfold Equal. cbn [To4 List.length Nat.eqb]. rewrite bool_decide_eq_true, !andb_true_iff, !Z.eqb_eq.
    split; [by intros [= -> -> -> ->] | by intros [[[-> ->] ->] ->]]. }
  rewrite Hz. change (Equal [a; b; c; d] (v6 [] 0)) with false. rewrite orb_false_r.
  match goal with |- (if ?x then true else ?y) = true <-> ?P => change (orb x y = true <-> P) end.
  rewrite !orb_true_iff, !andb_true_iff, !Z.leb_le, !Z.ltb_lt, !Z.eqb_eq.
  assert (Hm : a = 224 -> 224 <= a /\ a < 240) by lia. tauto.
Qed.

Lemma isInternalIP_mapped a b c d : isInternalIP (mapped a b c d) = isInternalIP [a; b; c; d].
Proof. reflexivity. Qed.

Definition is_v6 (ip : IP) : Prop :=
  List.length ip = 16%nat /\ To4 ip = None /\ Forall is_byte ip.

(** The IPv6 addresses no outbound call may reach. *)
Definition internal_v6 (ip : IP) : Prop :=
  ip = v6 [] 1 \/ ip = v6 [] 0 \/ 252 <= byte ip 0 < 254 \/
  (byte ip 0 = 254 /\ 128 <= byte ip 1 < 192) \/ byte ip 0 = 255.

Lemma land_254 b : is_byte b -> (Z.land b 254 =? 252) = ((252 <=? b) && (b <? 254)).
Proof.
  intros Hb. apply eqb_prop. revert b Hb.
  apply (byte_check (fun b => Bool.eqb (Z.land b 254 =? 252) ((252 <=? b) && (b <? 254)))).
  vm_compute; reflexivity.
Qed.

Lemma land_192_128 b : is_byte b -> (Z.land b 192 =? 128) = ((128 <=? b) && (b <? 192)).
Proof.
  intros Hb. apply eqb_prop. revert b Hb.
  apply (byte_check (fun b => Bool.eqb (Z.land b 192 =? 128) ((128 <=? b) && (b <? 192)))).
  vm_compute; reflexivity.
Qed.

Lemma Mask_0 ip n : n = List.length ip -> Mask ip (repeat 0 n) = repeat 0 n.
Proof.
  intros ->. unfold Mask. induction ip as [| b ip IH]; simpl; [done |]. by rewrite Z.land_0_r, IH.
Qed.

Lemma Mask_255 ip n : n = List.length ip -> Forall is_byte ip -> Mask ip (repeat 255 n) = ip.
Proof.
  intros -> H. unfold Mask. induction H as [| b ip Hb H IH]; simpl; [done |].
  by rewrite land_255, IH.
Qed.

Lemma ranges_v6 ip :
  is_v6 ip ->
  existsb (fun r => net_Contains r ip) privateRanges = true <->
  ip = v6 [] 1 \/ 252 <= byte ip 0 < 254 \/ (byte ip 0 = 254 /\ 128 <= byte ip 1 < 192).
Proof.
  intros (Hl & H4 & Hb).
  assert (Hr : privateRanges = [
    MkIPNet [127; 0; 0; 0] [255; 0; 0; 0]; MkIPNet [10; 0; 0; 0] [255; 0; 0; 0];
    MkIPNet [172; 16; 0; 0] [255; 240; 0; 0]; MkIPNet [192; 168; 0; 0] [255; 255; 0; 0];
    MkIPNet [169; 254; 0; 0] [255; 255; 0; 0]; MkIPNet [100; 64; 0; 0] [255; 192; 0; 0];
    MkIPNet (v6 [] 1) (repeat 255 16); MkIPNet (v6 [252] 0) (254 :: repeat 0 15);
    MkIPNet (v6 [254; 128] 0) (255 :: 192 :: repeat 0 14)]) by (vm_compute; reflexivity).
  rewrite Hr. unfold net_Contains. cbn [existsb net_ip net_mask List.length]. rewrite H4, Hl.
  cbn [Nat.eqb negb orb].
  assert (Hid : Mask (v6 [] 1) (repeat 255 16) = v6 [] 1) by (vm_compute; reflexivity).
  rewrite Hid, (Mask_255 ip 16) by done.
  destruct ip as [| b0 [| b1 rest]]; [done | done |]. inversion_clear Hb as [| ? ? Hb0 Hb'].
  inversion_clear Hb' as [| ? ? Hb1 Hrest]. simpl in Hl. injection Hl as Hl.
  change (byte (b0 :: b1 :: rest) 0) with b0. change (byte (b0 :: b1 :: rest) 1) with b1.
  assert (E7 : Mask (b0 :: b1 :: rest) (254 :: repeat 0 15) = Z.land b0 254 :: repeat 0 15).
  { change (Z.land b0 254 :: Mask (b1 :: rest) (repeat 0 15) = Z.land b0 254 :: repeat 0 15).
    rewrite Mask_0; [done |]. simpl. by rewrite Hl. }
  assert (E10 : Mask (b0 :: b1 :: rest) (255 :: 192 :: repeat 0 14) = b0 :: Z.land b1 192 :: repeat 0 14).
  { change (Z.land b0 255 :: Z.land b1 192 :: Mask rest (repeat 0 14)
            = b0 :: Z.land b1 192 :: repeat 0 14).
    by rewrite land_255, Mask_0 by done. }
  rewrite E7, E10.
  assert (N7 : Mask (v6 [252] 0) (254 :: repeat 0 15) = 252 :: repeat 0 15) by (vm_compute; reflexivity).
  assert (N10 : Mask (v6 [254; 128] 0) (255 :: 192 :: repeat 0 14) = 254 :: 128 :: repeat 0 14)
    by (vm_compute; reflexivity).
  rewrite N7, N10. change (List.length (v6 [] 1)) with 16%nat.
  change (List.length (v6 [252] 0)) with 16%nat. change (List.length (v6 [254; 128] 0)) with 16%nat.
  cbn [negb]. rewrite !orb_true_iff, !bool_decide_eq_true.
  assert (I7 : 252 :: repeat 0 15 = Z.land b0 254 :: repeat 0 15 <-> 252 <= b0 < 254).
  { rewrite <- Z.leb_le, <- Z.ltb_lt, <- andb_true_iff, <- land_254, Z.eqb_eq by done.
    split; [by intros [= <-] | by intros ->]. }
  assert (I10 : 254 :: 128 :: repeat 0 14 = b0 :: Z.land b1 192 :: repeat 0 14
                <-> b0 = 254 /\ 128 <= b1 < 192).
  { rewrite <- (Z.leb_le 128), <- (Z.ltb_lt b1), <- andb_true_iff, <- land_192_128, Z.eqb_eq by done.
    split; [by intros [= <- <-] | by intros [-> ->]]. }
  rewrite I7, I10. intuition congruence.
Qed.

Lemma internal_v6_bytes ip : is_v6 ip -> isInternalIP ip = true <-> internal_v6 ip.
Proof.
  intros H. pose proof (ranges_v6 ip H) as Hr. destruct H as (Hl & H4 & Hb).
  unfold isInternalIP. rewrite Hl. cbn [Nat.eqb].
  match goal with |- (if ?x then true else ?y) = true <-> ?P => change (orb x y = true <-> P) end.
  rewrite orb_true_iff, Hr.
  unfold IsLoopback, IsPrivate, IsLinkLocalUnicast, IsLinkLocalMulticast, IsUnspecified, IsMulticast,
    Equal, is16. rewrite H4, Hl.
  change (To4 (v6 [] 1)) with (@None IP). change (To4 (v6 [] 0)) with (@None IP).
  change (To4 [0; 0; 0; 0]) with (Some [0; 0; 0; 0]). cbn [Nat.eqb andb orb].
  assert (Hb0 : is_byte (byte ip 0)) by (destruct Hb; [done | done]).
  assert (Hb1 : is_byte (byte ip 1)) by (destruct Hb as [| ? ? ? []]; done).
  rewrite land_254, land_192_128 by done. unfold internal_v6.
  rewrite !orb_true_iff, !andb_true_iff, !bool_decide_eq_true, !Z.leb_le, !Z.ltb_lt, !Z.eqb_eq. tauto.
Qed.

(** The address filter, exactly: an IPv4 address, also in its IPv4-mapped IPv6 form,
    is refused when it is loopback, RFC 1918, link-local, carrier-grade NAT,
    multicast or unspecified; an IPv6 address when it is loopback, unspecified,
    unique-local, link-local or multicast. *)
Theorem internal_addresses :
  (forall a b c d, is_byte a -> is_byte b -> is_byte c -> is_byte d ->
     (isInternalIP [a; b; c; d] = true <-> internal_v4 a b c d) /\
     isInternalIP (mapped a b c d) = isInternalIP [a; b; c; d]) /\
  (forall ip, is_v6 ip -> isInternalIP ip = true <-> internal_v6 ip) /\
  isInternalIP [] = true.
Proof.
  split; [| split; [exact internal_v6_bytes | reflexivity]].
  intros a b c d Ha Hb _ _. split; [by apply internal_v4_bytes | apply isInternalIP_mapped].
Qed.

(** ** The dialler *)

Definition resolutions (h : list dial_event) : list (result (list IP)) :=
  omap (fun e => match e with Resolved _ r => Some r | _ => None end) h.
Definition dialed (h : list dial_event) : list IP :=
  omap (fun e => match e with DialedIP ip _ _ => Some ip | _ => None end) h.

Section DialProps.
Context (SplitHostPort : string -> result (string * string)).
Context (env_resolve : list dial_event -> string -> result (list IP)).
Context (env_dial : list dial_event -> IP -> string -> result nat).

Lemma wp_dial_first ips port err h :
  wp (dial_first env_dial ips port err)
    (fun r h' =>
       resolutions h' = resolutions h /\ (forall ip, ip ∈ dialed h' -> ip ∈ ips \/ ip ∈ dialed h) /\
       (forall conn, r = Ok conn -> exists ip, ip ∈ ips /\ head h' = Some (DialedIP ip port (Ok conn)))) h.
Proof.
  revert err h. induction ips as [| ip ips IH]; intros err h.
  - apply wp_ret. repeat split; auto. done.
  - cbn [dial_first]. apply wp_bind. unfold wp at 1, dialContext. rewrite run_call. cbn [fst snd].
    destruct (env_dial h ip port) as [conn | e].
    + apply wp_ret. split; [done |]. split.
      * intros ip' H. cbn in H. apply elem_of_cons in H as [-> | H]; [left | by right].
        apply list_elem_of_here.
      * intros c [= ->]. exists ip. split; [apply list_elem_of_here | done].
    + eapply wp_mono; [apply IH |]. intros r h' (Hr & Hd & Hc). split; [exact Hr |]. split.
      * intros ip' Hin. destruct (Hd ip' Hin) as [H | H].
        -- left. by apply list_elem_of_further.
        -- cbn in H. apply elem_of_cons in H as [-> | H]; [left; apply list_elem_of_here | by right].
      * intros c Hok. destruct (Hc c Hok) as (ip' & Hin & Hh). exists ip'.
        split; [by apply list_elem_of_further | done].
Qed.

(** C28. No name can make the client reach an internal address, whatever the resolver
    answers and however often its answers change: the host is resolved at most once,
    only addresses of that one answer are dialled, none at all when one of them is
    internal, and the connection returned is the one to the last address dialled. *)
Theorem dial_guarded (addr : string) :
  let '(r, h) := run (guardedDialContext SplitHostPort env_resolve env_dial false addr) [] in
  (dialed h = [] \/
   exists ips, resolutions h = [Ok ips] /\ Forall (fun ip => isInternalIP ip = false) ips /\
     forall ip, ip ∈ dialed h -> ip ∈ ips) /\
  (List.length (resolutions h) <= 1)%nat /\
  (forall conn, r = Ok conn -> exists ip port, isInternalIP ip = false /\
     head h = Some (DialedIP ip port (Ok conn))).
Proof.
  apply run_wp. unfold guardedDialContext.
  destruct (SplitHostPort addr) as [[host port] | e]; [| apply wp_ret; repeat split; auto; done].
  apply wp_bind. unfold wp at 1, lookupIPAddr. rewrite run_call. cbn [fst snd].
  destruct (env_resolve [] host) as [ips | e]; [| apply wp_ret; repeat split; auto; done].
  destruct (List.length ips =? 0)%nat; [apply wp_ret; repeat split; auto; done |].
  cbn [negb andb]. destruct (existsb isInternalIP ips) eqn:Hi; [apply wp_ret; repeat split; auto; done |].
  assert (Hf : Forall (fun ip => isInternalIP ip = false) ips).
  { rewrite Forall_forall. intros ip Hin. apply list_elem_of_In in Hin.
    destruct (isInternalIP ip) eqn:E; [| done].
    rewrite <- Hi. symmetry. apply existsb_exists. by exists ip. }
  eapply wp_mono; [apply wp_dial_first |]. intros r h' (Hr & Hd & Hc). cbn in Hr. split; [| split].
  - right. exists ips. split; [done |]. split; [done |]. intros ip Hin.
    destruct (Hd ip Hin) as [H | H]; [done |]. cbn in H. by apply not_elem_of_nil in H.
  - rewrite Hr. simpl. lia.
  - intros conn Hok. destruct (Hc conn Hok) as (ip & Hin & Hh). exists ip, port.
    split; [| done]. rewrite Forall_forall in Hf. by apply Hf.
Qed.
End DialProps.

Section HostProps.
Context (ParseIP : string -> option IP).

(** A host is accepted exactly when it has a name, is not one of the internal names
    or addresses (unless private targets are allowed), and is on the allowlist when
    there is one, in any letter case. *)
Theorem validateHost_spec (host : string) (allowedHosts : list string) (allowPrivate : bool) :
  validateHost ParseIP host allowedHosts allowPrivate = None <->
  host <> ""%string /\ (allowPrivate = true \/ isInternalHost ParseIP host = false) /\
  (allowedHosts = [] \/ exists h, h ∈ allowedHosts /\ EqualFold host h = true).
Proof.
  unfold validateHost. destruct (String.eqb_spec host "") as [-> | Hne]; [naive_solver |].
  assert (He : existsb (EqualFold host) allowedHosts = true <->
               exists h, h ∈ allowedHosts /\ EqualFold host h = true).
  { rewrite existsb_exists. by setoid_rewrite list_elem_of_In. }
  destruct allowPrivate, (isInternalHost ParseIP host); cbn [negb andb];
    try (split; [done | intros (_ & [? | ?] & _); done]);
    (destruct allowedHosts as [| h hs]; cbn [List.length Nat.eqb]; [naive_solver |]);
    (destruct (existsb (EqualFold host) (h :: hs)); split; naive_solver).
Qed.
End HostProps.
