(* ===== verification/HttpClient.v ===== *)
(** The inter-service HTTP client ([pkg/httpclient]): defaults, the transport chain
    (circuit breaker over retries over the SSRF guard), redirects, the capped body
    and the user client.

    net/http's base transport and redirect policy, the clock, the timers and the
    caller's context are the environment, which answers every call from the history
    of the calls before it. gobreaker is an interface with its documented laws. *)

From stdpp Require Import base list strings.
From Stdlib Require Import ZArith Lia Ascii String.
From S2P Require Import Prelude Prog GoStrings Json Broker Journal Ssrf.

Record Request : Type := MkRequest {
  rMethod : string; rURL : string; rHost : string;
  rHeaders : list (string * string);
  rBody : option string;                (* None: no body *)
  rGetBody : bool                       (* the body can be read again *)
}.
Record Response : Type := MkResponse { StatusCode : Z; rspType : string; rspBody : string }.

(** ** Options *)

Record Options : Type := MkOptions {
  Timeout : Z; AllowedHosts : list string; AllowPrivate : bool; MaxResponseBytes : Z;
  MaxRetries : Z; CBConsecutiveFailures : Z; CBTimeout : Z; LogBodyMaxBytes : Z
}.

Definition applyDefaults (o : Options) : Options :=
  let default z d := if z =? 0 then d else z in
  MkOptions (default (Timeout o) (5 * Second)) (AllowedHosts o) (AllowPrivate o)
    (default (MaxResponseBytes o) (Z.shiftl 10 20)) (default (MaxRetries o) 3)
    (default (CBConsecutiveFailures o) 5) (default (CBTimeout o) (30 * Second))
    (default (LogBodyMaxBytes o) 16384).

(** ** gobreaker *)

(** A breaker is asked before a request and told the outcome after it. *)
Class Breaker : Type := {
  cb_state : Type;
  cb_new : Z -> Z -> cb_state;                          (* failures to trip, open time *)
  cb_ready : Z -> cb_state -> option error * cb_state;  (* the clock *)
  cb_report : Z -> bool -> cb_state -> cb_state         (* the clock, success *)
}.

(** What the breaker's documentation promises: closed with a number of consecutive
    failures, it lets requests through and counts; at the threshold it opens; open,
    it refuses until its time is up. *)
Inductive cb_view : Type := Closed (failures : Z) | Opened (until : Z) | HalfOpen.
Class BreakerLaws `{Breaker} : Type := {
  view : cb_state -> cb_view;
  params : cb_state -> Z * Z;
  new_closed n T : view (cb_new n T) = Closed 0 /\ params (cb_new n T) = (n, T);
  ready_closed t s k :
    view s = Closed k ->
    (cb_ready t s).1 = None /\ view (cb_ready t s).2 = Closed k /\ params (cb_ready t s).2 = params s;
  ready_opened t s u :
    view s = Opened u -> t < u ->
    (cb_ready t s).1 <> None /\ view (cb_ready t s).2 = Opened u /\ params (cb_ready t s).2 = params s;
  report_failure t s k n T :
    view s = Closed k -> params s = (n, T) ->
    view (cb_report t false s) = (if n <=? k + 1 then Opened (t + T) else Closed (k + 1)) /\
    params (cb_report t false s) = (n, T);
  report_success t s k :
    view s = Closed k ->
    view (cb_report t true s) = Closed 0 /\ params (cb_report t true s) = params s
}.

(** ** Events and environment *)

Inductive event : Type :=
| Sent (r : Request) (a : result Response)      (* the base transport *)
| BodyReset (e : option error)                  (* req.GetBody() *)
| Waited (d : Z) (fired : bool)
| Clock (t : Z)
| CtxErr (e : error).

Record Env : Type := MkEnv {
  env_send : list event -> Request -> result Response;
  env_getbody : list event -> option error;
  env_timer : list event -> bool;               (* the timer fires before the context ends *)
  env_clock : list event -> Z;
  env_ctxerr : list event -> error;
  env_redirect : list event -> Response -> option Request  (* where net/http goes next *)
}.

(** [errors.As(err, &netErr) && netErr.Timeout()]. *)
Fixpoint net_timeout (e : error) : bool :=
  match e with
  | NetErr _ timeout => timeout
  | Sentinel CtxDeadlineExceeded => true
  | Wrap _ e' _ => net_timeout e'
  | _ => false
  end.

(** [isRetryableErr]. *)
Definition isRetryableErr (err : error) : bool :=
  if errors_is err CtxCanceled || errors_is err CtxDeadlineExceeded then false
  else net_timeout err.

(** [New]: the options in force and the breaker of the client. *)
Definition New `{Breaker} (opts : Options) : Options * cb_state :=
  let opts := applyDefaults opts in (opts, cb_new (CBConsecutiveFailures opts) (CBTimeout opts)).

Section Client.
Context {breaker : Breaker} (env : Env) (ParseIP : string -> option IP) (opts : Options).

Record World : Type := MkWorld { cb : cb_state; hist : list event; files : option Journal * Files }.
Notation go := (prog World).

Definition ask {X} (answer : list event -> X) (ev : X -> event) : go X :=
  act (fun w => let x := answer (hist w) in (x, MkWorld (cb w) (ev x :: hist w) (files w))).

(** [ssrfGuardTransport.RoundTrip] over the base transport. *)
Definition ssrf_RoundTrip (req : Request) : go (result Response) :=
  match validateHost ParseIP (rHost req) (AllowedHosts opts) (AllowPrivate opts) with
  | Some err => Ret (Err err)
  | None => ask (fun h => env_send env h req) (Sent req)
  end.

(** ** Retries *)

Definition baseDelay : Z := 500 * Millisecond.

(** What is returned when no attempt is left. *)
Definition exhausted (lastErr : option error) (lastStatus : Z) : result Response :=
  match lastErr with
  | Some e =>
      Err (errorf ("httpclient: transport error after " ++ Itoa (MaxRetries opts) ++ " retries: ") e)
  | None =>
      Err (Fresh ("httpclient: server returned " ++ Itoa lastStatus ++ " after "
                  ++ Itoa (MaxRetries opts) ++ " retries"))
  end.

(** What comes before an attempt: nothing for the first; the body rewound and the
    back-off waited for the others. [Some r]: [RoundTrip] returns [r]. *)
Definition prepare (req : Request) (attempt : nat) (lastErr : option error) (lastStatus : Z)
  : go (option (result Response)) :=
  match attempt with
  | O => Ret None
  | S k =>
      if (match rBody req with Some _ => true | None => false end) && negb (rGetBody req) then
        Ret (Some (exhausted lastErr lastStatus))
      else
        let! e := (if rGetBody req then ask (env_getbody env) BodyReset else Ret None) in
        match e with
        | Some e => Ret (Some (Err (errorf "httpclient: retry reset body: " e)))
        | None =>
            let delay := wrap64 (baseDelay * 2 ^ Z.of_nat k) in
            let! fired := ask (env_timer env) (Waited delay) in
            if fired then Ret None
            else let! e := ask (env_ctxerr env) CtxErr in Ret (Some (Err e))
        end
  end.

(** The loop: [left] attempts remain, the next one is number [attempt]. *)
Fixpoint attempts (left attempt : nat) (req : Request) (lastErr : option error) (lastStatus : Z)
  : go (result Response) :=
  match left with
  | O => Ret (exhausted lastErr lastStatus)
  | S left' =>
      let! stop := prepare req attempt lastErr lastStatus in
      match stop with
      | Some r => Ret r
      | None =>
          let! a := ssrf_RoundTrip req in
          match a with
          | Err err =>
              if isRetryableErr err then attempts left' (S attempt) req (Some err) lastStatus
              else Ret (Err err)
          | Ok resp =>
              if StatusCode resp <? 500 then Ret (Ok resp)
              else attempts left' (S attempt) req lastErr (StatusCode resp)
          end
      end
  end.

(** [retryTransport.RoundTrip]: attempts 0 to [maxRetries]. *)
Definition retry_RoundTrip (req : Request) : go (result Response) :=
  attempts (Z.to_nat (MaxRetries opts + 1)) 0 req None 0.

(** ** Circuit breaker *)

Definition clock : go Z := ask (env_clock env) Clock.

(** [cbTransport.RoundTrip]: [cb.Execute]. *)
Definition cb_RoundTrip (req : Request) : go (result Response) :=
  let! now := clock in
  let! refused := act (fun w => let '(e, s) := cb_ready now (cb w) in
                                (e, MkWorld s (hist w) (files w))) in
  match refused with
  | Some e => Ret (Err e)
  | None =>
      let! r := retry_RoundTrip req in
      let! now := clock in
      do! act (fun w => (tt, MkWorld (cb_report now (is_ok r) (cb w)) (hist w) (files w))) in
      Ret r
  end.

(** ** The client *)

(** [http.Client.Do]: the redirects, [via] requests made so far. *)
Fixpoint hops (fuel via : nat) (req : Request) : go (result Response) :=
  match fuel with
  | O => Ret (Err (Fresh "out of fuel"))
  | S f =>
      let! r := cb_RoundTrip req in
      match r with
      | Err e => Ret (Err e)
      | Ok resp =>
          let! next := reads (fun w => env_redirect env (hist w) resp) in
          match next with
          | None => Ret (Ok resp)
          | Some req' =>
              match ssrfCheckRedirect ParseIP (AllowedHosts opts) (AllowPrivate opts)
                      (rHost req') (S via) with
              | Some e => Ret (Err e)
              | None => hops f (S via) req'
              end
          end
      end
  end.
Definition http_Do (req : Request) : go (result Response) := hops 10 0 req.

(** [Header.Set]. *)
Definition set_header (k v : string) (hs : list (string * string)) : list (string * string) :=
  (k, v) :: filter (fun kv => EqualFold kv.1 k = false) hs.
Definition with_headers (hs : list (string * string)) (r : Request) : Request :=
  MkRequest (rMethod r) (rURL r) (rHost r) hs (rBody r) (rGetBody r).

(** The headers [Do] adds: request id and authorization of the context, when it has
    any, and the [traced] fields the propagator injects. *)
Definition inject (rid auth : string) (traced : list (string * string)) (r : Request) : Request :=
  let hs := rHeaders r in
  let hs := if String.eqb rid "" then hs else set_header "X-Request-ID" rid hs in
  let hs := if String.eqb auth "" then hs else set_header "Authorization" auth hs in
  with_headers (fold_left (fun hs kv => set_header kv.1 kv.2 hs) traced hs) r.

(** [io.LimitReader(body, n)], read to its end. *)
Definition limited (n : Z) (body : string) : string := take_str (Z.to_nat n) body.

Definition header_of (k : string) (r : Request) : string :=
  match List.find (fun kv => EqualFold kv.1 k) (rHeaders r) with Some kv => kv.2 | None => "" end.

(** [capturedRequestBody]. *)
Definition capturedRequestBody (req : Request) : go string :=
  if negb (rGetBody req) then Ret ""%string
  else
    let! e := ask (env_getbody env) BodyReset in
    match e with
    | Some _ => Ret ""%string
    | None => Ret (CapBody (limited (MaxResponseBytes opts) (default "" (rBody req)))
                     (header_of "Content-Type" req) (LogBodyMaxBytes opts))
    end.

(** [j.AddThirdParty(tp)], where [j] was read from the context. *)
Definition record_call (tp : ThirdParty) : go unit :=
  act (fun w => (tt, MkWorld (cb w) (hist w) (AddThirdParty tp (files w)))).

(** [Do]: the response's body is what the caller can read of it. *)
Definition Do (rid auth : string) (traced : list (string * string)) (req : Request)
  : go (result Response) :=
  let req := inject rid auth traced req in
  let! j := reads (fun w => (files w).1) in
  let! start := clock in
  let! r := http_Do req in
  match r with
  | Err err =>
      match j with
      | None => Ret (Err err)
      | Some _ =>
          let! now := clock in
          let! body := capturedRequestBody req in
          do! record_call (MkThirdParty "" (rMethod req) (rURL req) (rHost req) 0
                             (milliseconds (now - start)) body "" (error_text err) start) in
          Ret (Err err)
      end
  | Ok resp =>
      let full := limited (MaxResponseBytes opts) (rspBody resp) in
      let resp := MkResponse (StatusCode resp) (rspType resp) full in
      match j with
      | None => Ret (Ok resp)
      | Some _ =>
          let! now := clock in
          let! body := capturedRequestBody req in
          do! record_call (MkThirdParty "" (rMethod req) (rURL req) (rHost req) (StatusCode resp)
                             (milliseconds (now - start)) body
                             (CapBody full (rspType resp) (LogBodyMaxBytes opts)) "" start) in
          Ret (Ok resp)
      end
  end.

(** [Get]; [parse] is [http.NewRequestWithContext], which splits the URL. *)
Definition Get (rid auth : string) (traced : list (string * string))
    (parse : string -> result Request) (url : string) : go (result Response) :=
  match parse url with
  | Err e => Ret (Err (errorf "httpclient: build request: " e))
  | Ok req => Do rid auth traced req
  end.

(** ** UserClient *)

(** [GetUser]; [decode] reads the envelope's data out of the body. *)
Definition GetUser {User} (rid auth : string) (traced : list (string * string))
    (parse : string -> result Request) (decode : string -> result User) (baseURL id : string)
  : go (result User) :=
  let! r := Get rid auth traced parse (baseURL ++ "/users/" ++ id) in
  match r with
  | Err e => Ret (Err (errorf ("user_client: get user " ++ id ++ ": ") e))
  | Ok resp =>
      if StatusCode resp =? 404 then Ret (Err (Sentinel ErrUserNotFound))
      else if negb (StatusCode resp =? 200) then
        Ret (Err (Fresh ("user_client: unexpected status " ++ Itoa (StatusCode resp)
                         ++ " for user " ++ id)))
      else match decode (rspBody resp) with
           | Err e => Ret (Err (errorf "user_client: decode response: " e))
           | Ok u => Ret (Ok u)
           end
  end.
End Client.
