(* ===== verification/HttpClientProps.v ===== *)
(** What the HTTP client guarantees. *)

From stdpp Require Import base list strings.
From Stdlib Require Import ZArith Lia Ascii String.
From S2P Require Import Prelude Prog GoStrings Broker Journal Ssrf HttpClient.

(** The requests that reached the base transport, newest first, and the pauses. *)
Fixpoint tries (h : list event) : list (Request * result Response) :=
  match h with
  | [] => []
  | Sent r a :: h' => (r, a) :: tries h'
  | _ :: h' => tries h'
  end.
Fixpoint pauses (h : list event) : list Z :=
  match h with
  | [] => []
  | Waited d _ :: h' => d :: pauses h'
  | _ :: h' => pauses h'
  end.

(** The answers after which another attempt is made. *)
Definition transient (a : result Response) : bool :=
  match a with
  | Err e => isRetryableErr e
  | Ok resp => 500 <=? StatusCode resp
  end.

(** The pause before retry number [k + 1]. *)
Definition delay (k : nat) : Z := wrap64 (baseDelay * 2 ^ Z.of_nat k).

Section Props.
Context {breaker : Breaker} (env : Env) (ParseIP : string -> option IP) (opts : Options).
Notation World := (@World breaker).

Definition unreplayable (req : Request) : bool :=
  (match rBody req with Some _ => true | None => false end) && negb (rGetBody req).

(** What a run of attempts on [req] adds to the world. *)
Definition attempted (req : Request) (bound first : nat) (w : World) (r : result Response) (w' : World)
  : Prop :=
  exists sent waited,
    tries (hist w') = sent ++ tries (hist w) /\
    pauses (hist w') = rev (map delay (seq first waited)) ++ pauses (hist w) /\
    cb w' = cb w /\ files w' = files w /\
    (List.length sent <= bound)%nat /\
    Forall (fun x => x.1 = req /\
      validateHost ParseIP (rHost req) (AllowedHosts opts) (AllowPrivate opts) = None) sent /\
    Forall (fun x => transient x.2 = true) (tail sent) /\
    (forall resp, r = Ok resp -> head sent = Some (req, Ok resp) /\ StatusCode resp < 500).

Lemma wp_asked {X} (answer : list event -> X) (ev : X -> event) (Q : X -> World -> Prop) w :
  (forall x, x = answer (hist w) -> Q x (MkWorld (cb w) (ev x :: hist w) (files w))) ->
  wp (ask answer ev) Q w.
Proof. intros H. apply wp_act. intros x w' [= <- <-]. by apply H. Qed.

(** The pauses of consecutive retries. *)
Lemma delays_cons first n :
  rev (map delay (seq first (S n))) = rev (map delay (seq (S first) n)) ++ [delay first].
Proof. reflexivity. Qed.

(** The run ends with an error after [waited] more pauses and no request. *)
Lemma attempted_error req bound first w r w' waited :
  (forall resp, r <> Ok resp) -> tries (hist w') = tries (hist w) ->
  pauses (hist w') = rev (map delay (seq first waited)) ++ pauses (hist w) ->
  cb w' = cb w -> files w' = files w -> attempted req bound first w r w'.
Proof.
  intros Hr Ht Hp Hc Hf. exists [], waited. do 4 (split; [done |]). split; [simpl; lia |].
  split; [by apply Forall_nil |]. split; [by apply Forall_nil |].
  intros resp Hok. by destruct (Hr resp).
Qed.

(** One request on top, then a run with one attempt less. *)
Lemma attempted_send req bound first w w1 r w' a :
  validateHost ParseIP (rHost req) (AllowedHosts opts) (AllowPrivate opts) = None ->
  transient a = true -> cb w1 = cb w -> files w1 = files w ->
  tries (hist w1) = (req, a) :: tries (hist w) -> pauses (hist w1) = pauses (hist w) ->
  attempted req bound first w1 r w' -> attempted req (S bound) first w r w'.
Proof.
  intros Hv Ha Hc Hf Ht Hp (sent & waited & H1 & H2 & H3 & H4 & H5 & H6 & H7 & H8).
  exists (sent ++ [(req, a)]), waited. rewrite <- app_assoc. simpl.
  split; [by rewrite H1, Ht |]. split; [by rewrite H2, Hp |].
  split; [congruence |]. split; [congruence |].
  split; [rewrite length_app; simpl; lia |].
  split; [apply Forall_app; split; [done |]; by apply Forall_singleton |]. split.
  - destruct sent as [| x sent]; [by apply Forall_nil |]. simpl. apply Forall_app. split; [done |].
    by apply Forall_singleton.
  - intros resp Hok. destruct (H8 resp Hok) as [Hh Hs]. split; [| done].
    by destruct sent.
Qed.

(** A pause on top of a run whose pauses start one later. *)
Lemma attempted_wait req bound first w w1 r w' :
  tries (hist w1) = tries (hist w) -> pauses (hist w1) = delay first :: pauses (hist w) ->
  cb w1 = cb w -> files w1 = files w ->
  attempted req bound (S first) w1 r w' -> attempted req bound first w r w'.
Proof.
  intros Ht Hp Hc Hf (sent & waited & H1 & H2 & H3 & H4 & H).
  exists sent, (S waited). split; [congruence |]. split; [| split; [congruence | split; [congruence | exact H]]].
  by rewrite H2, Hp, delays_cons, <- app_assoc.
Qed.

Lemma exhausted_error lastErr lastStatus resp : exhausted opts lastErr lastStatus <> Ok resp.
Proof. by destruct lastErr. Qed.

Lemma wp_attempts left attempt req lastErr lastStatus w :
  wp (attempts env ParseIP opts left attempt req lastErr lastStatus)
    (attempted req left (pred attempt) w) w.
Proof.
  revert attempt lastErr lastStatus w. induction left as [| left IH]; intros attempt lastErr lastStatus w.
  { apply wp_ret, (attempted_error _ _ _ _ _ _ 0); [| done ..]. apply exhausted_error. }
  (* the attempt proper, in the world the preparation leaves *)
  assert (Hgo : forall w1,
    wp (let! a := ssrf_RoundTrip env ParseIP opts req in
        match a with
        | Err err => if isRetryableErr err then attempts env ParseIP opts left (S attempt) req (Some err) lastStatus
                     else Ret (Err err)
        | Ok resp => if StatusCode resp <? 500 then Ret (Ok resp)
                     else attempts env ParseIP opts left (S attempt) req lastErr (StatusCode resp)
        end) (attempted req (S left) attempt w1) w1).
  { intros w1. apply wp_bind. unfold ssrf_RoundTrip.
    destruct (validateHost _ _ _ _) as [e |] eqn:Hv.
    - apply wp_ret. destruct (isRetryableErr e) eqn:Hr.
      + exfalso. unfold validateHost in Hv. repeat case_match; by simplify_eq.
      + apply wp_ret, (attempted_error _ _ _ _ _ _ 0); done.
    - apply wp_asked. intros a _. destruct a as [resp | e]; cbn beta iota.
      + destruct (Z.ltb_spec (StatusCode resp) 500) as [Hlt | Hge].
        * apply wp_ret. exists [(req, Ok resp)], 0%nat. do 4 (split; [done |]). split; [simpl; lia |].
          split; [by apply Forall_singleton |]. split; [by apply Forall_nil |].
          by intros resp' [= <-].
        * eapply wp_mono; [apply IH |]. intros r w' H.
          refine (attempted_send _ _ _ w1 _ _ _ (Ok resp) Hv _ _ _ _ _ H); [by apply Z.leb_le | done ..].
      + destruct (isRetryableErr e) eqn:Hr.
        * eapply wp_mono; [apply IH |]. intros r w' H.
          refine (attempted_send _ _ _ w1 _ _ _ (Err e) Hv Hr _ _ _ _ H); done.
        * apply wp_ret. exists [(req, Err e)], 0%nat. do 4 (split; [done |]). split; [simpl; lia |].
          split; [by apply Forall_singleton |]. split; [by apply Forall_nil |]. done. }
  cbn [attempts]. apply wp_bind. unfold prepare. destruct attempt as [| k]; [apply wp_ret, Hgo |].
  destruct (unreplayable req) eqn:Hu; unfold unreplayable in Hu; rewrite Hu.
  { apply wp_ret, wp_ret, (attempted_error _ _ _ _ _ _ 0); [| done ..]. apply exhausted_error. }
  apply wp_bind.
  assert (Hreset : wp (if rGetBody req then ask (env_getbody env) BodyReset else Ret None)
    (fun _ w1 => tries (hist w1) = tries (hist w) /\ pauses (hist w1) = pauses (hist w) /\
       cb w1 = cb w /\ files w1 = files w) w).
  { destruct (rGetBody req); [| by apply wp_ret]. apply wp_asked. by intros. }
  eapply wp_mono; [exact Hreset |]. intros [e |] w1 (Ht & Hp & Hc & Hf).
  { apply wp_ret, wp_ret, (attempted_error _ _ _ _ _ _ 0); done. }
  apply wp_bind, wp_asked. intros [] _.
  - apply wp_ret. eapply wp_mono; [apply Hgo |]. intros r w' H.
    refine (attempted_wait _ _ _ w _ _ _ _ _ _ _ H); simpl; [done | by f_equal | done | done].
  - apply wp_bind, wp_asked. intros e _. apply wp_ret, wp_ret.
    apply (attempted_error _ _ _ _ _ _ 1); simpl; [done | done | by f_equal | done | done].
Qed.

Notation K := (Z.to_nat (MaxRetries opts + 1)).

Lemma unreplayable_stops left k req lastErr lastStatus w :
  unreplayable req = true ->
  tries (hist (run (attempts env ParseIP opts left (S k) req lastErr lastStatus) w).2) = tries (hist w).
Proof. unfold unreplayable. destruct left as [| left]; simpl; [done |]. by intros ->. Qed.

Lemma unreplayable_once req w :
  unreplayable req = true ->
  (List.length (tries (hist (run (retry_RoundTrip env ParseIP opts req) w).2))
     <= S (List.length (tries (hist w))))%nat.
Proof.
  intros Hu. unfold retry_RoundTrip. destruct K as [| left]; [simpl; lia |].
  cbn [attempts prepare]. rewrite run_bind, run_ret, run_bind. unfold ssrf_RoundTrip.
  destruct (validateHost _ _ _ _) as [e |].
  - rewrite run_ret. destruct (isRetryableErr e); [rewrite unreplayable_stops by done |]; simpl; lia.
  - unfold ask. rewrite run_act. cbn beta iota.
    set (w1 := MkWorld _ _ _). assert (Ht : (List.length (tries (hist w1)) <= S (List.length (tries (hist w))))%nat)
      by (simpl; lia).
    destruct (env_send env (hist w) req) as [resp | e].
    + destruct (StatusCode resp <? 500); [exact Ht |]. by rewrite unreplayable_stops.
    + destruct (isRetryableErr e); [by rewrite unreplayable_stops | exact Ht].
Qed.

(** The retries: at most [MaxRetries + 1] requests leave, all of them the caller's
    and to a permitted host; another one leaves only after an answer of 500 or more
    or a network timeout, half a second, one second, two... later; what is returned
    without error is the last answer, of status below 500; a body that cannot be read
    again is sent at most once. *)
Theorem retry_spec (req : Request) (w : World) :
  let '(r, w') := run (retry_RoundTrip env ParseIP opts req) w in
  (exists sent waited,
    tries (hist w') = sent ++ tries (hist w) /\
    pauses (hist w') = rev (map delay (seq 0 waited)) ++ pauses (hist w) /\
    (List.length sent <= K)%nat /\
    Forall (fun x => x.1 = req /\
      validateHost ParseIP (rHost req) (AllowedHosts opts) (AllowPrivate opts) = None) sent /\
    Forall (fun x => transient x.2 = true) (tail sent) /\
    (forall resp, r = Ok resp -> head sent = Some (req, Ok resp) /\ StatusCode resp < 500)) /\
  (unreplayable req = true ->
   (List.length (tries (hist w')) <= S (List.length (tries (hist w))))%nat).
Proof.
  pose proof (run_wp _ _ _ (wp_attempts K 0 req None 0 w)) as H.
  pose proof (unreplayable_once req w) as Hu. unfold retry_RoundTrip in *.
  destruct (run _ w) as [r w']. split; [| exact Hu].
  destruct H as (sent & waited & H1 & H2 & _ & _ & H). by exists sent, waited.
Qed.

(** ** The whole chain *)

(** At most [n] requests left, all to permitted hosts. *)
Definition conveyed (n : nat) (w w' : World) : Prop :=
  exists sent, tries (hist w') = sent ++ tries (hist w) /\ (List.length sent <= n)%nat /\
    Forall (fun x => validateHost ParseIP (rHost x.1) (AllowedHosts opts) (AllowPrivate opts) = None) sent.

Lemma conveyed_trans n m w1 w2 w3 : conveyed n w1 w2 -> conveyed m w2 w3 -> conveyed (n + m) w1 w3.
Proof.
  intros (s1 & H1 & L1 & F1) (s2 & H2 & L2 & F2). exists (s2 ++ s1). split; [by rewrite H2, H1, <- app_assoc |].
  split; [rewrite length_app; lia | by apply Forall_app].
Qed.

Lemma conveyed_same n w w' : tries (hist w') = tries (hist w) -> conveyed n w w'.
Proof. intros H. exists []. split; [done |]. split; [simpl; lia | by apply Forall_nil]. Qed.

Lemma conveyed_mono n m w w' : (n <= m)%nat -> conveyed n w w' -> conveyed m w w'.
Proof. intros Hle (s & H & L & F). exists s. split; [done |]. split; [lia | done]. Qed.

Lemma wp_cb req w :
  wp (cb_RoundTrip env ParseIP opts req)
    (fun _ w' => conveyed K w w' /\ files w' = files w) w.
Proof.
  unfold cb_RoundTrip, clock. apply wp_bind, wp_asked. intros now _. apply wp_bind, wp_act.
  intros refused w1 E. assert (H1 : tries (hist w1) = tries (hist w) /\ files w1 = files w).
  { cbn in E. destruct (cb_ready now (cb w)) as [e s]. by injection E as <- <-. }
  clear E. destruct H1 as [H1 F1]. destruct refused as [e |].
  { apply wp_ret. split; [by apply conveyed_same | done]. }
  apply wp_bind. eapply wp_mono; [apply wp_attempts |]. intros r w2 (sent & waited & Ht & _ & _ & Hf & Hl & Hv & _).
  apply wp_bind, wp_asked. intros now' _. apply wp_bind, wp_act. intros [] w3 [= <-]. apply wp_ret.
  split; [| cbn; congruence]. exists sent. cbn. rewrite Ht, H1. split; [done |]. split; [done |].
  eapply Forall_impl; [exact Hv |]. intros [req' a] [Heq Hok]. simpl in *. by subst.
Qed.

Lemma wp_hops fuel via req w :
  wp (hops env ParseIP opts fuel via req)
    (fun _ w' => conveyed (fuel * K) w w' /\ files w' = files w) w.
Proof.
  revert via req w. induction fuel as [| f IH]; intros via req w.
  { apply wp_ret. split; [by apply conveyed_same | done]. }
  cbn [hops]. apply wp_bind. eapply wp_mono; [apply wp_cb |]. intros r w1 [H1 F1].
  assert (H1' : conveyed (S f * K) w w1) by (eapply conveyed_mono; [| exact H1]; lia).
  destruct r as [resp | e]; [| by apply wp_ret].
  apply wp_bind, wp_reads. destruct (env_redirect env (hist w1) resp) as [req' |]; [| by apply wp_ret].
  destruct (ssrfCheckRedirect _ _ _ _ _); [by apply wp_ret |].
  eapply wp_mono; [apply IH |]. intros r' w2 [H2 F2]. split; [| congruence].
  exact (conveyed_trans _ _ _ _ _ H1 H2).
Qed.

(** Ten hops of fuel are enough: the redirect policy stops there. *)
Lemma hops_fuel f via req w :
  (1 <= f)%nat -> (10 <= f + via)%nat ->
  run (hops env ParseIP opts (S f) via req) w = run (hops env ParseIP opts f via req) w.
Proof.
  revert via req w. induction f as [| f IH]; intros via req w Hf Hv; [lia |].
  remember (S f) as g. cbn [hops]. subst g. cbn [hops]. rewrite !run_bind.
  destruct (run (cb_RoundTrip env ParseIP opts req) w) as [[resp | e] w1]; [| done].
  rewrite !run_bind. cbn [run reads act]. destruct (env_redirect env (hist w1) resp) as [req' |]; [| done].
  unfold ssrfCheckRedirect. destruct (Nat.leb_spec 10 (S via)); [done |].
  destruct (validateHost _ _ _ _); [done |]. apply IH; lia.
Qed.

(** What one call adds to the journal of its context. *)
Definition journaled (req : Request) (r : result Response) (w w' : World) : Prop :=
  match (files w).1 with
  | None => files w' = files w
  | Some _ =>
      exists tp, files w' = AddThirdParty tp (files w) /\
        tMethod tp = rMethod req /\ tURL tp = rURL req /\ tHost tp = rHost req /\
        match r with
        | Ok resp => tStatus tp = StatusCode resp /\ tError tp = ""%string
        | Err e => tStatus tp = 0 /\ tError tp = error_text e
        end
  end.

Lemma wp_captured req w :
  wp (capturedRequestBody env opts req) (fun _ w' => tries (hist w') = tries (hist w) /\ files w' = files w) w.
Proof.
  unfold capturedRequestBody. destruct (rGetBody req); cbn [negb]; [| by apply wp_ret].
  apply wp_bind, wp_asked. intros [e |] _; by apply wp_ret.
Qed.

(** C29. A call of the client, through redirects, retries and breaker: at most ten times
    [MaxRetries + 1] requests leave, every one of them to a permitted host; the body
    the caller gets has at most [MaxResponseBytes] bytes; with a journal in the
    context exactly one record is added, with the outcome, and none without; and the
    bound of ten hops is never what ends it. *)
Theorem client_do_spec (rid auth : string) (traced : list (string * string)) (req : Request) (w : World) :
  let '(r, w') := run (Do env ParseIP opts rid auth traced req) w in
  conveyed (10 * K) w w' /\
  (forall resp, r = Ok resp -> len (rspBody resp) <= Z.max 0 (MaxResponseBytes opts)) /\
  journaled req r w w' /\
  (forall extra q w0, run (hops env ParseIP opts (10 + extra) 0 q) w0 = run (http_Do env ParseIP opts q) w0).
Proof.
  assert (Hmore : forall extra q w0,
    run (hops env ParseIP opts (10 + extra) 0 q) w0 = run (http_Do env ParseIP opts q) w0).
  { intros extra q w0. induction extra as [| e IH]; [done |].
    rewrite Nat.add_succ_r, hops_fuel by lia. exact IH. }
  apply run_wp. unfold Do. apply wp_bind, wp_reads, wp_bind, wp_asked. intros start _.
  set (q := inject rid auth traced req). apply wp_bind.
  eapply wp_mono; [apply wp_hops |]. intros r w1 [H1 F1].
  change (conveyed (10 * K) w w1) in H1. cbn [files] in F1.
  assert (Hcap : forall s, len (limited (MaxResponseBytes opts) s) <= Z.max 0 (MaxResponseBytes opts)).
  { intros s. unfold limited, len. rewrite length_take_str. lia. }
  assert (Hend : forall w2, tries (hist w2) = tries (hist w1) -> conveyed (10 * K) w w2).
  { intros w2 Ht. eapply conveyed_mono; [| eapply conveyed_trans; [exact H1 | by apply (conveyed_same 0)]]. lia. }
  destruct r as [resp | err]; (destruct (files w).1 as [j |] eqn:Ej;
    [apply wp_bind, wp_asked; intros now _; apply wp_bind; eapply wp_mono; [apply wp_captured |];
     intros body w2 [Ht F2]; apply wp_bind, wp_act; intros [] w3 [= <-]; apply wp_ret
    | apply wp_ret]);
    cbn [hist files] in *; (split; [apply Hend; first [exact Ht | done] |]);
    (split; [first [by intros resp' [= <-]; apply Hcap | done] |]); (split; [| exact Hmore]);
    unfold journaled; rewrite Ej; cbn [files];
    first [congruence | (eexists; split; [rewrite F2, F1; reflexivity | done])].
Qed.

(** ** The breaker *)
Section Trip.
Context {laws : BreakerLaws}.

Lemma cb_failure req w w' e k n T :
  view (cb w) = Closed k -> params (cb w) = (n, T) ->
  run (cb_RoundTrip env ParseIP opts req) w = (Err e, w') ->
  exists t, head (hist w') = Some (Clock t) /\ params (cb w') = (n, T) /\
    view (cb w') = (if n <=? k + 1 then Opened (t + T) else Closed (k + 1)).
Proof.
  intros Hv Hp H. unfold cb_RoundTrip, clock in H. rewrite run_bind in H. unfold ask in H at 1.
  rewrite run_act in H. cbn beta iota zeta in H. set (now := env_clock env (hist w)) in H.
  rewrite run_bind, run_act in H. cbn [cb hist files] in H.
  destruct (ready_closed now (cb w) k Hv) as (Hr & Hv' & Hp').
  destruct (cb_ready now (cb w)) as [refused s]. simpl in Hr, Hv', Hp'. subst refused.
  rewrite run_bind in H. set (w1 := MkWorld s _ _) in H.
  pose proof (run_wp _ _ _ (wp_attempts K 0 req None 0 w1)) as Ha. unfold retry_RoundTrip in H.
  destruct (run _ w1) as [r w2]. destruct Ha as (_ & _ & _ & _ & Hcb & _).
  rewrite run_bind in H. unfold ask in H. rewrite run_act in H. cbn beta iota zeta in H.
  rewrite run_bind, run_act in H. cbn [cb hist files run] in H. injection H as -> <-.
  exists (env_clock env (hist w2)). cbn [hist cb head]. split; [done |].
  rewrite Hcb. change (cb w1) with s. cbn [is_ok].
  destruct (report_failure (env_clock env (hist w2)) s k n T Hv') as [Hv2 Hp2]; [congruence |]. done.
Qed.

(** Requests one after the other. *)
Fixpoint in_turn (reqs : list Request) : prog World (list (result Response)) :=
  match reqs with
  | [] => Ret []
  | req :: rest =>
      let! r := cb_RoundTrip env ParseIP opts req in
      let! rs := in_turn rest in Ret (r :: rs)
  end.

Lemma failures_open reqs w k n T :
  view (cb w) = Closed k -> params (cb w) = (n, T) -> k + Z.of_nat (List.length reqs) = n ->
  reqs <> [] -> Forall (fun r => is_ok r = false) (run (in_turn reqs) w).1 ->
  exists t, head (hist (run (in_turn reqs) w).2) = Some (Clock t) /\
    view (cb (run (in_turn reqs) w).2) = Opened (t + T).
Proof.
  revert w k. induction reqs as [| req reqs IH]; intros w k Hv Hp Hk Hne Hall; [done |].
  cbn [in_turn] in *. rewrite run_bind in *.
  destruct (run (cb_RoundTrip env ParseIP opts req) w) as [r w1] eqn:E. rewrite run_bind in *.
  destruct (run (in_turn reqs) w1) as [rs w2] eqn:E2. cbn [run fst snd] in *.
  apply Forall_cons in Hall as [Hr Hrs]. destruct r as [resp | e]; [done |].
  destruct (cb_failure req w w1 e k n T Hv Hp E) as (t & Ht & Hp1 & Hv1).
  cbn [List.length] in Hk. destruct reqs as [| req' reqs].
  - cbn [List.length] in Hk. injection E2 as <- <-. exists t. split; [done |].
    rewrite (proj2 (Z.leb_le n (k + 1))) in Hv1; [done | lia].
  - rewrite (proj2 (Z.leb_gt n (k + 1))) in Hv1 by (cbn [List.length] in Hk; lia).
    specialize (IH w1 (k + 1) Hv1 Hp1). rewrite E2 in IH. apply IH; [lia | done | done].
Qed.

(** The circuit: after [CBConsecutiveFailures] calls in a row that ended with an
    error, whatever the error, the next call inside the open time is refused at once
    and nothing is sent. *)
Theorem circuit_opens (reqs : list Request) (req : Request) (w : World) (n T : Z)
    (Hv : view (cb w) = Closed 0) (Hp : params (cb w) = (n, T)) (Hn : 0 < n)
    (Hlen : Z.of_nat (List.length reqs) = n)
    (Hall : Forall (fun r => is_ok r = false) (run (in_turn reqs) w).1) :
  let w' := (run (in_turn reqs) w).2 in
  exists t, head (hist w') = Some (Clock t) /\
    (env_clock env (hist w') < t + T ->
     let '(r, w'') := run (cb_RoundTrip env ParseIP opts req) w' in
     is_ok r = false /\ tries (hist w'') = tries (hist w')).
Proof.
  destruct (failures_open reqs w 0 n T Hv Hp) as (t & Ht & Ho); [lia | | done |].
  { intros ->. simpl in Hlen. lia. }
  exists t. split; [done |]. intros Hlt. apply run_wp. set (w' := (run (in_turn reqs) w).2) in *.
  unfold cb_RoundTrip, clock. apply wp_bind, wp_asked. intros now ->. apply wp_bind, wp_act.
  intros refused w2 E. cbn [cb hist files] in E.
  destruct (ready_opened (env_clock env (hist w')) (cb w') _ Ho Hlt) as [Hr _].
  destruct (cb_ready _ (cb w')) as [e s]. injection E as <- <-. simpl in Hr.
  destruct e as [e |]; [| done]. by apply wp_ret.
Qed.
End Trip.
End Props.

(** A breaker that follows the documentation, for the witnesses. *)
Module CountingBreaker.
Record state : Type := MkState { limit : Z; open_time : Z; now_view : cb_view }.
#[export] Instance counting : Breaker := {|
  cb_state := state;
  cb_new n T := MkState n T (Closed 0);
  cb_ready t s :=
    match now_view s with
    | Opened u => if t <? u then (Some (Fresh "circuit breaker is open"), s)
                  else (None, MkState (limit s) (open_time s) HalfOpen)
    | _ => (None, s)
    end;
  cb_report t ok s :=
    match now_view s with
    | Closed k =>
        if ok then MkState (limit s) (open_time s) (Closed 0)
        else MkState (limit s) (open_time s)
               (if limit s <=? k + 1 then Opened (t + open_time s) else Closed (k + 1))
    | HalfOpen =>
        MkState (limit s) (open_time s) (if ok then Closed 0 else Opened (t + open_time s))
    | Opened _ => s
    end
|}.

#[export] Instance counting_laws : BreakerLaws.
Proof.
  refine {| view := now_view; params s := (limit s, open_time s) |}.
  - done.
  - intros t s k H. simpl. by rewrite H.
  - intros t s u H Hlt. simpl. rewrite H, (proj2 (Z.ltb_lt t u) Hlt). done.
  - intros t s k n T H [= <- <-]. simpl. by rewrite H.
  - intros t s k H. simpl. by rewrite H.
Defined.
End CountingBreaker.

Module HttpClientWitness.
Import CountingBreaker.

(** The server always answers 200; every clock reading is one second later. *)
Definition env : Env :=
  MkEnv (fun _ _ => Ok (MkResponse 200 "text/plain" "hello")) (fun _ => None) (fun _ => true)
    (fun h => Z.of_nat (List.length h) * Second) (fun _ => Sentinel CtxCanceled) (fun _ _ => None).
Definition no_ip (_ : string) : option IP := None.
Definition client := New (MkOptions 0 [] false 0 0 0 0 0).
Definition opts : Options := client.1.
Definition get (host : string) : Request := MkRequest "GET" ("http://" ++ host ++ "/") host [] None false.
Definition w0 : World := MkWorld client.2 [] (None, MkFiles [] []).

(** Five calls refused by the SSRF guard count as failures of the service: the
    sixth, to a host in perfect health, is refused by the breaker. *)
Lemma circuit_opens_witness :
  let reqs := repeat (get "localhost") 5 in
  let w' := (run (in_turn env no_ip opts reqs) w0).2 in
  is_ok (run (cb_RoundTrip env no_ip opts (get "users.internal.example")) w0).1 = true /\
  is_ok (run (cb_RoundTrip env no_ip opts (get "users.internal.example")) w').1 = false.
Proof.
  intros reqs w'. split; [vm_compute; reflexivity |].
  destruct (circuit_opens (laws := counting_laws) env no_ip opts reqs (get "users.internal.example") w0 5 (30 * Second)
              eq_refl eq_refl ltac:(lia) eq_refl) as (t & Ht & H).
  - vm_compute. repeat constructor.
  - assert (Et : t = 9 * Second) by (vm_compute in Ht; by injection Ht as <-).
    assert (Hlt : env_clock env (hist (run (in_turn env no_ip opts reqs) w0).2) < t + 30 * Second)
      by (subst t; vm_compute; reflexivity).
    specialize (H Hlt). fold w' in H.
    destruct (run (cb_RoundTrip env no_ip opts (get "users.internal.example")) w') as [r w''].
    apply H.
Defined.
End HttpClientWitness.
