(* ===== verification/Generator.v ===== *)
(** The code generator's naming and parsing ([cli/generator]: names.go,
    entity_parser.go and the go.mod reader of generator.go). Identifiers are ASCII.

    go/parser is not modelled: a parsed file is the part of the syntax tree the
    generator looks at. *)

From stdpp Require Import base list strings.
From Stdlib Require Import ZArith Lia Ascii String.
From S2P Require Import Prelude GoStrings.

(** ** names.go *)

Record Names : Type := MkNames {
  Original : string; Snake : string; Pascal : string; Camel : string; Table : string;
  Module_ : string; AppName : string; DB : string
}.

(** The loop of [toSnake]; [prev] is the byte before, none at the start. *)
Fixpoint snake_from (prev : option ascii) (s : string) : string :=
  match s with
  | EmptyString => EmptyString
  | String r s' =>
      let lowered := String (to_lower_char r) (snake_from (Some r) s') in
      if is_upper r then
        match prev with
        | Some p => if negb (is_upper p) then String "_" lowered else lowered
        | None => lowered
        end
      else String r (snake_from (Some r) s')
  end.

Definition toSnake (s : string) : string :=
  ToLower (snake_from None (ReplaceAll (TrimSpace s) "-" "_")).

Definition capitalize (p : string) : string :=
  match p with EmptyString => EmptyString | String c p' => String (to_upper_char c) p' end.

Definition toPascal (snake : string) : string :=
  foldr (fun p acc => if String.eqb p "" then acc else capitalize p ++ acc)%string ""%string
    (Split snake "_").

Definition toCamel (pascal : string) : string :=
  match pascal with EmptyString => EmptyString | String c s => String (to_lower_char c) s end.

(** The byte [n] places before the end. *)
Definition from_end (n : nat) (s : string) : option ascii := String.get (String.length s - n) s.

Definition is_vowel (c : ascii) : bool :=
  existsb (Ascii.eqb c) ["a"; "e"; "i"; "o"; "u"]%char.

Definition plural (snake : string) : string :=
  if HasSuffix snake "s" || HasSuffix snake "x" || HasSuffix snake "z" ||
     HasSuffix snake "sh" || HasSuffix snake "ch"
  then (snake ++ "es")%string else (snake ++ "s")%string.

Definition toTable (snake : string) : string :=
  if HasSuffix snake "y" && (1 <? len snake) then
    match from_end 2 snake with
    | Some prev => if negb (is_vowel prev)
                   then (take_str (String.length snake - 1) snake ++ "ies")%string
                   else plural snake
    | None => plural snake
    end
  else plural snake.

Definition NewNames (input : string) : Names :=
  let snake := toSnake input in
  let pascal := toPascal snake in
  MkNames input snake pascal (toCamel pascal) (toTable snake) "" "" "".

(** ** generator.go: the module path *)

Definition is_blank (c : ascii) : bool :=
  Ascii.eqb c " " || (byte_of c =? 9) || (byte_of c =? 13).

(** [trimSpace]: blanks, tabs and carriage returns at both ends. *)
Definition trimSpace (s : string) : string := trim_right is_blank (trim_left is_blank s).

(** [splitLines]: no last line when the text ends with a newline. *)
Definition splitLines (s : string) : list string :=
  match rev (Split s (chr 10)) with
  | EmptyString :: l => rev l
  | l => rev l
  end.

Fixpoint first_module (lines : list string) : result string :=
  match lines with
  | [] => Err (Fresh "module declaration not found in go.mod")
  | line :: rest =>
      let line := trimSpace line in
      if (7 <? len line) && String.eqb (take_str 7 line) "module " then Ok (trimSpace (drop_str 7 line))
      else first_module rest
  end.
Definition parseModuleLine (content : string) : result string := first_module (splitLines content).

(** ** entity_parser.go *)

(** The expressions of go/ast the mapping distinguishes. *)
Inductive expr : Type :=
| Ident (name : string)
| SelectorExpr (x : expr) (sel : string)
| StarExpr (x : expr)
| ArrayType
| StructType (fields : list (list string * expr))
| OtherExpr.

(** A declaration: a type declaration with its specs, or any other. *)
Inductive decl : Type :=
| TypeDecl (specs : list (string * expr))
| OtherDecl.

Record EntityField : Type := MkField { Name : string; SQLName : string; SQLType : string }.

Definition IsExported (name : string) : bool :=
  match name with EmptyString => false | String c _ => is_upper c end.

Definition skipFields : list string := ["ID"; "CreatedAt"; "UpdatedAt"; "DeletedAt"]%string.

Definition within (s : string) (l : list string) : bool := existsb (String.eqb s) l.

Definition identToSQL (name : string) : string :=
  if within name ["string"] then "VARCHAR(255) NOT NULL"
  else if within name ["int"; "int32"] then "INT NOT NULL DEFAULT 0"
  else if within name ["int64"] then "BIGINT NOT NULL DEFAULT 0"
  else if within name ["uint"; "uint32"] then "INT UNSIGNED NOT NULL DEFAULT 0"
  else if within name ["uint64"] then "BIGINT UNSIGNED NOT NULL DEFAULT 0"
  else if within name ["float32"; "float64"] then "DECIMAL(18,4) NOT NULL DEFAULT 0"
  else if within name ["bool"] then "TINYINT(1) NOT NULL DEFAULT 0"
  else "TEXT".

Definition selectorToSQL (pkg typ : string) : string :=
  let q := (pkg ++ "." ++ typ)%string in
  if within q ["uuid.UUID"] then "VARCHAR(36) NOT NULL"
  else if within q ["time.Time"] then "TIMESTAMP(3) NOT NULL"
  else if within q ["decimal.Decimal"; "decimal.NullDecimal"] then "DECIMAL(18,4) NOT NULL DEFAULT 0"
  else if within q ["null.String"; "sql.NullString"] then "VARCHAR(255) NULL"
  else if within q ["null.Time"; "sql.NullTime"] then "TIMESTAMP(3) NULL"
  else if within q ["null.Int64"; "sql.NullInt64"] then "BIGINT NULL"
  else if within q ["null.Bool"; "sql.NullBool"] then "TINYINT(1) NULL"
  else if within q ["gorm.DeletedAt"] then ""
  else "TEXT".

Fixpoint goTypeToSQL (e : expr) : string :=
  match e with
  | Ident name => identToSQL name
  | SelectorExpr (Ident pkg) sel => selectorToSQL pkg sel
  | StarExpr x => goTypeToSQL x
  | ArrayType => "JSON"
  | _ => "TEXT"
  end.

Definition extract (f : list string * expr) : option EntityField :=
  match f.1 with
  | [] => None
  | name :: _ =>
      if negb (IsExported name) || within name skipFields then None
      else Some (MkField name (toSnake name) (goTypeToSQL f.2))
  end.
Definition extractFields (fields : list (list string * expr)) : list EntityField :=
  omap extract fields.

(** The fields of the first exported struct; nil when the file does not parse. *)
Definition exported_struct (s : string * expr) : option (list (list string * expr)) :=
  match s.2 with
  | StructType fields => if IsExported s.1 then Some fields else None
  | _ => None
  end.
Definition specs_of (d : decl) : list (string * expr) :=
  match d with TypeDecl specs => specs | OtherDecl => [] end.

Definition ParseEntityFields (parsed : option (list decl)) : list EntityField :=
  match parsed with
  | None => []
  | Some decls =>
      match omap exported_struct (List.concat (map specs_of decls)) with
      | fields :: _ => extractFields fields
      | [] => []
      end
  end.

(** The blanks after a column name: up to twelve characters, at least one. *)
Definition padding (name : string) : string :=
  let pad := 12 - len name in if 0 <? pad then Repeat " " (Z.to_nat pad) else " "%string.
Definition column (f : EntityField) : string :=
  ("    " ++ SQLName f ++ padding (SQLName f) ++ SQLType f ++ ",")%string.

Definition newline : string := String (chr 10) EmptyString.

Definition RenderMigrationColumns (fields : list EntityField) : string :=
  match fields with
  | [] => "    -- TODO: add domain columns here"
  | _ =>
      trim_right (Ascii.eqb (chr 10))
        (foldr (fun f acc => if String.eqb (SQLType f) "" then acc
                             else column f ++ newline ++ acc)%string ""%string fields)
  end.

(** ** Canonical words *)

Definition plain (c : ascii) : bool := is_lower c || is_digit c.

(** A lower-case word: a letter, then letters and digits. *)
Definition word (w : string) : Prop :=
  match w with EmptyString => False | String c t => is_lower c = true /\ str_forall plain t = true end.
Definition long (w : string) : Prop := (2 <= String.length w)%nat.

(** Words a name is made of; each but the last has two characters or more. *)
Fixpoint name_words (ws : list string) : Prop :=
  match ws with
  | [] => False
  | [w] => word w
  | w :: rest => word w /\ long w /\ name_words rest
  end.

Definition pascal_case (ws : list string) : string := foldr (fun w acc => capitalize w ++ acc)%string ""%string ws.
Definition camel_case (ws : list string) : string := toCamel (pascal_case ws).

Lemma plain_cases c :
  plain c = true ->
  is_upper c = false /\ to_lower_char c = c /\ is_space c = false /\
  Ascii.eqb c "-" = false /\ Ascii.eqb c "_" = false.
Proof.
  intros H. unfold to_lower_char, is_space. unfold plain, is_lower, is_digit in H. unfold is_upper.
  rewrite !orb_true_iff, !andb_true_iff, !Z.leb_le in H.
  assert (Hn : forall d, byte_of d < 48 \/ 57 < byte_of d < 97 -> Ascii.eqb c d = false).
  { intros d Hd. destruct (Ascii.eqb_spec c d) as [-> |]; [lia | done]. }
  rewrite (Hn "-"%char) by (left; reflexivity).
  rewrite (Hn "_"%char) by (right; split; reflexivity).
  assert (E : (65 <=? byte_of c) && (byte_of c <=? 90) = false)
    by (apply andb_false_iff; rewrite !Z.leb_gt; lia).
  rewrite E. split_and!; try done.
  apply orb_false_iff. split; [apply andb_false_iff; rewrite !Z.leb_gt; lia | apply Z.eqb_neq; lia].
Qed.

Lemma upper_of_lower c :
  is_lower c = true -> is_upper (to_upper_char c) = true /\ to_lower_char (to_upper_char c) = c.
Proof. destruct c as [[] [] [] [] [] [] [] []]; intros H; (discriminate H || by split; vm_compute). Qed.

Lemma ReplaceAll_byte (c d : ascii) (s : string) :
  ReplaceAll s (String c EmptyString) (String d EmptyString)
  = str_map (fun x => if Ascii.eqb x c then d else x) s.
Proof.
  unfold ReplaceAll. induction s as [| x s IH]; [done |]. cbn [replace_from str_map].
  assert (Hp : HasPrefix (String x s) (String c EmptyString) = Ascii.eqb x c)
    by (cbn [HasPrefix]; rewrite Ascii.eqb_sym; destruct s; apply andb_true_r).
  rewrite Hp. change (String.length (String c EmptyString) - 1)%nat with 0%nat.
  destruct (Ascii.eqb x c); rewrite IH; reflexivity.
Qed.

Lemma str_map_id (f : ascii -> ascii) p s :
  (forall c, p c = true -> f c = c) -> str_forall p s = true -> str_map f s = s.
Proof.
  intros Hf. induction s as [| c s IH]; simpl; [done |]. intros [Hc Hs]%andb_prop.
  by rewrite (Hf c Hc), IH.
Qed.

Lemma str_map_append f a b : str_map f (a ++ b) = (str_map f a ++ str_map f b)%string.
Proof. induction a as [| c a IH]; [done |]. rewrite append_cons. simpl. by rewrite IH. Qed.

(** The characters of a name: those of words, and the separator. *)
Definition named (sep c : ascii) : bool := plain c || Ascii.eqb c sep.

Lemma word_plain w : word w -> str_forall plain w = true.
Proof. destruct w as [| c t]; simpl; [done |]. intros [Hc ->]. unfold plain. by rewrite Hc. Qed.

Lemma name_words_word ws : name_words ws -> ws <> [] /\ Forall word ws.
Proof.
  induction ws as [| w [| v ws] IH]; [done | |].
  - simpl. intros Hw. split; [done |]. by repeat constructor.
  - intros (Hw & _ & Hr). split; [done |]. constructor; [done |]. by apply IH.
Qed.

Lemma Join_cons w v ws sep : Join (w :: v :: ws) sep = (w ++ sep ++ Join (v :: ws) sep)%string.
Proof. reflexivity. Qed.

Lemma Join_named sep ws :
  Forall word ws -> str_forall (named sep) (Join ws (String sep EmptyString)) = true.
Proof.
  induction 1 as [| w ws Hw Hws IH]; [done |].
  assert (Hn : str_forall (named sep) w = true).
  { apply (str_forall_impl plain); [| by apply word_plain]. intros c Hc. unfold named. by rewrite Hc. }
  destruct ws as [| v ws]; [done |]. rewrite Join_cons, !str_forall_app, Hn, IH. simpl.
  unfold named. by rewrite Ascii.eqb_refl, orb_true_r.
Qed.

(** ** Words through the loop of [toSnake] *)

Fixpoint last_of (p : ascii) (t : string) : ascii :=
  match t with EmptyString => p | String c t' => last_of c t' end.

Lemma last_of_plain p t : str_forall plain t = true -> t <> ""%string -> is_upper (last_of p t) = false.
Proof.
  revert p. induction t as [| c t IH]; intros p; [done |]. simpl. intros [Hc Ht]%andb_prop _.
  destruct t as [| d t]; [by apply plain_cases in Hc as [? _] |]. by apply IH.
Qed.

Lemma snake_plain p t rest :
  str_forall plain t = true ->
  snake_from (Some p) (t ++ rest) = (t ++ snake_from (Some (last_of p t)) rest)%string.
Proof.
  revert p. induction t as [| c t IH]; intros p; simpl; [done |]. intros [Hc Ht]%andb_prop.
  apply plain_cases in Hc as (Hu & _). rewrite !append_cons. cbn [snake_from]. rewrite Hu. by rewrite IH.
Qed.

(** What precedes a word in the snake case: a separator, except at the start. *)
Definition joint (prev : option ascii) : string :=
  match prev with Some p => if is_upper p then "" else "_" | None => "" end.

Lemma snake_capitalized prev c t rest :
  is_lower c = true -> str_forall plain t = true ->
  snake_from prev (capitalize (String c t) ++ rest)
  = (joint prev ++ String c (t ++ snake_from (Some (last_of (to_upper_char c) t)) rest))%string.
Proof.
  intros Hc Ht. destruct (upper_of_lower c Hc) as [Hu Hl]. unfold capitalize. rewrite append_cons.
  cbn [snake_from]. rewrite Hu, Hl, snake_plain by done.
  destruct prev as [p |]; simpl; [| done]. by destruct (is_upper p).
Qed.

Lemma snake_pascal ws prev :
  name_words ws -> snake_from prev (pascal_case ws) = (joint prev ++ Join ws "_")%string.
Proof.
  revert prev. induction ws as [| w [| v ws] IH]; intros prev; [done | |].
  - destruct w as [| c t]; [done |]. intros [Hc Ht]. cbn [pascal_case foldr].
    rewrite snake_capitalized by done. simpl. by rewrite append_nil_r.
  - destruct w as [| c t]; [by intros [[] _] |]. intros ([Hc Ht] & Hl & Hr).
    change (pascal_case (String c t :: v :: ws)) with (capitalize (String c t) ++ pascal_case (v :: ws))%string.
    rewrite snake_capitalized, IH by done.
    assert (Hu : is_upper (last_of (to_upper_char c) t) = false).
    { apply last_of_plain; [done |]. destruct t; [unfold long in Hl; simpl in Hl; lia | done]. }
    rewrite Join_cons. cbn [joint]. rewrite Hu, append_cons. reflexivity.
Qed.

Lemma snake_camel ws : name_words ws -> snake_from None (camel_case ws) = Join ws "_".
Proof.
  destruct ws as [| [| c t] ws]; [done | by destruct ws as [| ? ?]; [intros [] | intros [[] _]] |].
  intros H. assert (Hw : word (String c t)) by (by destruct (name_words_word _ H) as [_ [? _]%Forall_cons]).
  destruct Hw as [Hc Ht]. destruct (upper_of_lower c Hc) as [Hu Hl].
  unfold camel_case. cbn [pascal_case foldr capitalize]. rewrite append_cons. cbn [toCamel]. rewrite Hl.
  assert (Hn : is_upper c = false).
  { assert (Hp : plain c = true) by (unfold plain; by rewrite Hc). by apply plain_cases in Hp as [? _]. }
  cbn [snake_from]. rewrite Hn, snake_plain by done. fold (pascal_case ws).
  destruct ws as [| v ws]; [simpl; by rewrite append_nil_r |].
  rewrite snake_pascal by (by destruct H as (_ & _ & H)).
  rewrite Join_cons. cbn [joint].
  assert (Hlast : is_upper (last_of c t) = false).
  { destruct t; [done |]. by apply last_of_plain. }
  by rewrite Hlast, append_cons.
Qed.

Lemma snake_lower s : str_forall (fun c => negb (is_upper c)) s = true -> forall p, snake_from p s = s.
Proof.
  induction s as [| c s IH]; [done |]. simpl. intros [Hc Hs]%andb_prop p.
  apply negb_true_iff in Hc. by rewrite Hc, IH.
Qed.

Lemma named_cases sep c :
  named sep c = true -> sep = "_"%char \/ sep = "-"%char ->
  is_upper c = false /\ to_lower_char c = c /\ is_space c = false.
Proof.
  intros H Hsep. unfold named in H. apply orb_prop in H as [H | H].
  - by apply plain_cases in H as (? & ? & ? & _).
  - apply Ascii.eqb_eq in H as ->. by destruct Hsep as [-> | ->].
Qed.

Lemma pascal_no_space ws :
  Forall word ws -> str_forall (fun c => negb (is_space c) && negb (Ascii.eqb c "-")) (pascal_case ws) = true.
Proof.
  induction 1 as [| w ws Hw _ IH]; [done |].
  change (pascal_case (w :: ws)) with (capitalize w ++ pascal_case ws)%string.
  rewrite str_forall_app, IH, andb_true_r. destruct w as [| c t]; [done |]. destruct Hw as [Hc Ht].
  cbn [capitalize str_forall]. apply andb_true_intro. split.
  - clear -Hc. destruct c as [[] [] [] [] [] [] [] []]; (discriminate Hc || reflexivity).
  - apply (str_forall_impl plain); [| done]. intros d Hd.
    by apply plain_cases in Hd as (_ & _ & -> & -> & _).
Qed.

(** ** Every spelling of a name gives the same names *)

Definition dash_to_underscore (c : ascii) : ascii := if Ascii.eqb c "-" then "_"%char else c.

(** The first two steps of [toSnake] on an input without white space. *)
Lemma toSnake_steps s :
  str_forall (fun c => negb (is_space c)) s = true ->
  toSnake s = ToLower (snake_from None (str_map dash_to_underscore s)).
Proof. intros H. unfold toSnake. rewrite TrimSpace_none by done. by rewrite ReplaceAll_byte. Qed.

Lemma lower_named ws : Forall word ws -> ToLower (Join ws "_") = Join ws "_".
Proof.
  intros H. apply (str_map_id _ (named "_")); [| by apply Join_named].
  intros c Hc. by apply named_cases in Hc as (_ & ? & _); [| left].
Qed.

Lemma no_dash s :
  str_forall (fun c => negb (is_space c) && negb (Ascii.eqb c "-")) s = true ->
  str_forall (fun c => negb (is_space c)) s = true /\ str_map dash_to_underscore s = s.
Proof.
  intros H. split; [eapply str_forall_impl; [| exact H]; by intros c [? _]%andb_prop |].
  eapply str_map_id; [| exact H]. intros c [_ Hc%negb_true_iff]%andb_prop.
  unfold dash_to_underscore. by rewrite Hc.
Qed.

(** [toSnake] on the four spellings. *)
Lemma toSnake_spellings ws :
  name_words ws ->
  toSnake (Join ws "_") = Join ws "_" /\ toSnake (Join ws "-") = Join ws "_" /\
  toSnake (pascal_case ws) = Join ws "_" /\ toSnake (camel_case ws) = Join ws "_".
Proof.
  intros Hn. destruct (name_words_word ws Hn) as [Hne Hw].
  assert (Hspace : forall sep, sep = "_"%char \/ sep = "-"%char ->
    str_forall (fun c => negb (is_space c)) (Join ws (String sep "")) = true).
  { intros sep Hsep. apply (str_forall_impl (named sep)); [| by apply Join_named].
    intros c Hc. by apply named_cases in Hc as (_ & _ & ->). }
  assert (Hlow : ToLower (snake_from None (Join ws "_")) = Join ws "_").
  { rewrite snake_lower; [by apply lower_named |].
    apply (str_forall_impl (named "_")); [| by apply Join_named].
    intros c Hc. by apply named_cases in Hc as (-> & _); [| left]. }
  assert (Hsnake : str_map dash_to_underscore (Join ws "_") = Join ws "_").
  { apply (str_map_id _ (named "_")); [| by apply Join_named]. intros c Hc. unfold dash_to_underscore.
    destruct (Ascii.eqb_spec c "-") as [-> |]; [by vm_compute in Hc | done]. }
  assert (Hkebab : str_map dash_to_underscore (Join ws "-") = Join ws "_").
  { clear -Hw. induction Hw as [| w ws Hw Hws IH]; [done |].
    assert (E : str_map dash_to_underscore w = w).
    { apply (str_map_id _ plain); [| by apply word_plain]. intros c Hc.
      apply plain_cases in Hc as (_ & _ & _ & Hc & _). unfold dash_to_underscore. by rewrite Hc. }
    destruct ws as [| v ws]; [exact E |].
    rewrite !Join_cons, !str_map_append, E, IH. reflexivity. }
  pose proof (no_dash _ (pascal_no_space ws Hw)) as [Hp1 Hp2].
  assert (Hcamel : str_forall (fun c => negb (is_space c) && negb (Ascii.eqb c "-")) (camel_case ws) = true).
  { destruct ws as [| [| d t] ws']; [done | by apply Forall_cons in Hw as [[] _] |].
    pose proof (pascal_no_space _ Hw) as H. apply Forall_cons in Hw as [[Hd _] _].
    unfold camel_case. cbn [pascal_case foldr capitalize] in *. rewrite append_cons in *.
    cbn [toCamel str_forall] in *. apply andb_prop in H as [_ ->]. rewrite andb_true_r.
    destruct (upper_of_lower d Hd) as [_ ->]. clear -Hd.
    destruct d as [[] [] [] [] [] [] [] []]; (discriminate Hd || reflexivity). }
  apply no_dash in Hcamel as [Hc1 Hc2].
  split_and!; rewrite toSnake_steps by (try apply Hspace; auto).
  - by rewrite Hsnake.
  - by rewrite Hkebab.
  - rewrite Hp2, snake_pascal by done. by apply lower_named.
  - rewrite Hc2, snake_camel by done. by apply lower_named.
Qed.

Lemma toPascal_Join ws : ws <> [] -> Forall word ws -> toPascal (Join ws "_") = pascal_case ws.
Proof.
  intros Hne Hw. unfold toPascal. rewrite Split_Join; [| done |].
  - clear Hne. induction Hw as [| w ws Hw _ IH]; [done |]. cbn [foldr]. rewrite IH.
    by destruct w as [| c t].
  - eapply Forall_impl; [exact Hw |]. intros w Hww. apply (str_forall_impl plain); [| by apply word_plain].
    intros c Hc. by apply plain_cases in Hc as (_ & _ & _ & _ & ->).
Qed.

(** The generator's names do not depend on how the user spells the name: for words of
    letters and digits that start with a letter, each but the last of two characters or
    more, the snake, kebab, Pascal and camel spellings give the same file name, type
    name, variable name and table. *)
Theorem names_agree (ws : list string) (input : string) :
  name_words ws ->
  input ∈ [Join ws "_"; Join ws "-"; pascal_case ws; camel_case ws] ->
  let n := NewNames input in
  Snake n = Join ws "_" /\ Pascal n = pascal_case ws /\ Camel n = camel_case ws /\
  Table n = toTable (Join ws "_") /\
  toSnake (Snake n) = Snake n /\ toSnake (Pascal n) = Snake n /\ toSnake (Camel n) = Snake n.
Proof.
  intros Hn Hin. destruct (name_words_word ws Hn) as [Hne Hw].
  destruct (toSnake_spellings ws Hn) as (H1 & H2 & H3 & H4).
  assert (Hs : toSnake input = Join ws "_").
  { repeat (apply elem_of_cons in Hin as [-> | Hin]; [done |]). by apply not_elem_of_nil in Hin. }
  unfold NewNames. simpl. rewrite Hs, toPascal_Join by done. unfold camel_case in *. by split_and!.
Qed.

(** ** The module path *)

Lemma first_module_empty lines : first_module (lines ++ [""]) = first_module lines.
Proof. induction lines as [| l lines IH]; [done |]. simpl. by rewrite IH. Qed.

Lemma parseModuleLine_split content : parseModuleLine content = first_module (Split content (chr 10)).
Proof.
  unfold parseModuleLine, splitLines. destruct (rev (Split content (chr 10))) as [| [| c l] ls] eqn:E.
  - apply (f_equal (@rev string)) in E. by rewrite rev_involutive in E; rewrite E.
  - apply (f_equal (@rev string)) in E. rewrite rev_involutive in E. rewrite E. simpl.
    by rewrite first_module_empty.
  - rewrite <- E. by rewrite rev_involutive.
Qed.

(** A line that declares no module. *)
Definition other_line (line : string) : Prop :=
  HasPrefix (trimSpace line) "module " = false.

Lemma HasPrefix_taken s p : String.eqb (take_str (String.length p) s) p = HasPrefix s p.
Proof.
  revert s. induction p as [| c p IH]; intros s; [by destruct s |]. destruct s as [| d s]; [done |].
  simpl. rewrite <- IH.
  rewrite (Ascii.eqb_sym c d). by destruct (Ascii.eqb d c).
Qed.

Lemma trim_right_none p s : str_forall (fun c => negb (p c)) s = true -> trim_right p s = s.
Proof.
  intros H. unfold trim_right. rewrite trim_left_none by (by rewrite str_forall_rev).
  apply str_rev_involutive.
Qed.

(** Trimming the line of a module. *)
Lemma trimSpace_module (m cr : string) :
  m <> "" -> cr = "" \/ cr = String (chr 13) "" ->
  str_forall (fun c => negb (is_blank c)) m = true ->
  trimSpace ("module " ++ m ++ cr) = ("module " ++ m)%string.
Proof.
  intros Hm Hcr Hnb. unfold trimSpace.
  replace (trim_left is_blank ("module " ++ m ++ cr)) with ("module " ++ m ++ cr)%string by done.
  unfold trim_right. rewrite !str_rev_append.
  assert (Hr : str_forall (fun c => negb (is_blank c)) (str_rev m) = true) by (by rewrite str_forall_rev).
  assert (Hne : str_rev m <> "") by (intros E; apply Hm; by rewrite <- (str_rev_involutive m), E).
  assert (Er : trim_left is_blank ((str_rev cr ++ str_rev m) ++ str_rev "module ")
               = (str_rev m ++ str_rev "module ")%string).
  { destruct (str_rev m) as [| c s]; [done |]. simpl in Hr. apply andb_prop in Hr as [Hc%negb_true_iff _].
    destruct Hcr as [-> | ->].
    - change (str_rev "" ++ String c s)%string with (String c s).
      rewrite append_cons. cbn [trim_left]. by rewrite Hc.
    - change (str_rev (String (chr 13) "") ++ String c s)%string with (String (chr 13) (String c s)).
      rewrite !append_cons. cbn [trim_left]. rewrite Hc. by change (is_blank (chr 13)) with true. }
  by rewrite Er, str_rev_append, !str_rev_involutive.
Qed.

(** The module path of a go.mod file is found wherever its line stands, whatever comes
    before it (comments, blank lines) and after, with or without carriage returns. *)
Theorem module_path_found (before after : list string) (m cr : string) :
  Forall (fun l => str_forall (fun c => negb (Ascii.eqb c (chr 10))) l = true) (before ++ after) ->
  Forall other_line before -> m <> "" -> cr = "" \/ cr = String (chr 13) "" ->
  str_forall (fun c => negb (is_blank c) && negb (Ascii.eqb c (chr 10))) m = true ->
  parseModuleLine (Join (before ++ ("module " ++ m ++ cr)%string :: after) newline) = Ok m.
Proof.
  intros Hlines Hother Hm Hcr Hplain. apply Forall_app in Hlines as [Hb Ha].
  assert (Hnb : str_forall (fun c => negb (is_blank c)) m = true)
    by (eapply str_forall_impl; [| exact Hplain]; by intros c [? _]%andb_prop).
  rewrite parseModuleLine_split. unfold newline. rewrite Split_Join.
  - clear Hb. induction Hother as [| l before Hl _ IH].
    + cbn [app first_module].
      rewrite trimSpace_module by done. assert (Hl : 7 < len ("module " ++ m)).
      { unfold len. rewrite length_app_str. destruct m as [| c m]; [done |].
        change (String.length "module ") with 7%nat. cbn [String.length]. lia. }
      apply Z.ltb_lt in Hl. rewrite Hl.
      change 7%nat with (String.length "module "). rewrite take_str_app, drop_str_app, String.eqb_refl.
      cbn [andb]. f_equal. unfold trimSpace. rewrite (trim_left_none _ m) by done. by apply trim_right_none.
    + cbn [app first_module]. unfold other_line in Hl.
      change 7%nat with (String.length "module "). rewrite HasPrefix_taken, Hl, andb_false_r. exact IH.
  - by destruct before.
  - apply Forall_app. split; [done |]. constructor; [| done].
    rewrite !str_forall_app. apply andb_true_intro. split; [reflexivity |]. apply andb_true_intro. split.
    + eapply str_forall_impl; [| exact Hplain]. by intros c [_ ?]%andb_prop.
    + by destruct Hcr as [-> | ->].
Qed.

(** ** Columns of a migration *)

(** What becomes a column: the first name of a field declaration, when it is exported
    and not one of the columns every table has. *)
Theorem extract_spec (fields : list (list string * expr)) (f : EntityField) :
  f ∈ extractFields fields <->
  exists name names e, (name :: names, e) ∈ fields /\ IsExported name = true /\ name ∉ skipFields /\
    f = MkField name (toSnake name) (goTypeToSQL e).
Proof.
  unfold extractFields. rewrite list_elem_of_omap. split.
  - intros ([[| name names] e] & Hin & Hf); [done |]. unfold extract in Hf. cbn [fst snd] in Hf.
    destruct (IsExported name) eqn:Ex; [| done]. destruct (within name skipFields) eqn:Es; [done |].
    injection Hf as <-. exists name, names, e. split_and!; try done. intros Hs.
    rewrite list_elem_of_In in Hs. unfold within in Es.
    enough (existsb (String.eqb name) skipFields = true) by congruence.
    apply existsb_exists. exists name. by rewrite String.eqb_refl.
  - intros (name & names & e & Hin & Hx & Hs & ->). exists (name :: names, e). split; [done |].
    unfold extract. cbn [fst snd]. rewrite Hx. destruct (within name skipFields) eqn:Es; [| done].
    apply existsb_exists in Es as (x & Hi & ->%String.eqb_eq). by rewrite list_elem_of_In in Hs.
Qed.

Lemma trim_newlines s : trim_right (Ascii.eqb (chr 10)) ((s ++ ",") ++ newline) = (s ++ ",")%string.
Proof.
  unfold trim_right. rewrite str_rev_append, (str_rev_append s).
  change (trim_left (Ascii.eqb (chr 10)) (str_rev newline ++ str_rev "," ++ str_rev s))
    with (String "," (str_rev s)).
  by rewrite str_rev_cons, str_rev_involutive.
Qed.

Definition terminated (l : string) : Prop := exists s, l = (s ++ ",")%string.

Lemma trim_lines cols pre :
  cols <> [] -> Forall terminated cols ->
  trim_right (Ascii.eqb (chr 10))
    (pre ++ foldr (fun l acc => l ++ newline ++ acc)%string "" cols) = (pre ++ Join cols newline)%string.
Proof.
  intros Hne Hc. revert pre. induction Hc as [| l cols [s ->] Hc IH]; [done |]. intros pre.
  destruct cols as [| v cols].
  - cbn [foldr Join]. rewrite append_nil_r, <- !append_assoc. apply trim_newlines.
  - specialize (IH ltac:(done) (pre ++ (s ++ ",") ++ newline)%string).
    rewrite Join_cons. cbn [foldr] in *. rewrite !append_assoc in IH. rewrite !append_assoc. exact IH.
Qed.

(** The columns are one line each, in the order of the fields, those without a type left
    out; the text has no line after the last column. *)
Theorem columns_rendered (fields : list EntityField) :
  RenderMigrationColumns fields =
  match fields with
  | [] => "    -- TODO: add domain columns here"%string
  | _ => Join (map column (List.filter (fun f => negb (String.eqb (SQLType f) "")) fields)) newline
  end.
Proof.
  unfold RenderMigrationColumns. destruct fields as [| f0 fields0] eqn:E; [done |]. rewrite <- E. clear E.
  set (cols := map column _).
  assert (Ht : foldr (fun f acc => if String.eqb (SQLType f) "" then acc
                             else column f ++ newline ++ acc)%string ""%string fields
               = foldr (fun l acc => l ++ newline ++ acc)%string ""%string cols).
  { unfold cols. clear. induction fields as [| f fields IH]; [done |]. cbn [foldr List.filter].
    destruct (String.eqb (SQLType f) ""); cbn [negb map foldr]; by rewrite IH. }
  rewrite Ht. destruct (decide (cols = [])) as [-> | Hne]; [done |].
  rewrite <- (append_nil (foldr _ _ _)), trim_lines; [done | done |].
  unfold cols. apply Forall_forall. intros l Hl. apply list_elem_of_fmap in Hl as (f & -> & _).
  unfold column. eexists. by rewrite <- !append_assoc.
Qed.

Module GeneratorWitness.

Lemma names_agree_witness :
  name_words ["order"; "item2"]%string /\ Snake (NewNames "OrderItem2") = "order_item2"%string.
Proof.
  assert (H : name_words ["order"; "item2"]%string) by (repeat split; first [reflexivity | unfold long; simpl; lia]).
  split; [exact H |].
  assert (Hin : "OrderItem2"%string ∈ [Join ["order"; "item2"] "_"; Join ["order"; "item2"] "-";
    pascal_case ["order"; "item2"]; camel_case ["order"; "item2"]]%string)
    by (apply elem_of_cons; right; apply elem_of_cons; right; apply elem_of_cons; left; reflexivity).
  exact (proj1 (names_agree ["order"; "item2"]%string "OrderItem2" H Hin)).
Defined.

Lemma module_path_found_witness :
  parseModuleLine (Join ["// service"; "module github.com/me/shop"; ""; "go 1.26"] newline)
  = Ok "github.com/me/shop"%string.
Proof.
  apply (module_path_found ["// service"]%string [""; "go 1.26"]%string "github.com/me/shop" "").
  - repeat constructor.
  - constructor; [reflexivity | constructor].
  - intros H; discriminate H.
  - left; reflexivity.
  - reflexivity.
Defined.

(** One-letter words are merged: the Pascal spelling of a name does not give it back. *)
Example one_letter_words : Snake (NewNames "a_b_test") = "a_b_test" /\ toSnake (Pascal (NewNames "a_b_test")) = "abtest".
Proof. by vm_compute. Qed.

(** The table of a name that is already a plural, like the one of the command's own
    example, is a plural of the plural. *)
Example plural_of_plural : Table (NewNames "create_orders") = "create_orderses".
Proof. by vm_compute. Qed.

(** A pointer field is mapped to a column that is not nullable. *)
Theorem pointer_not_nullable :
  goTypeToSQL (StarExpr (Ident "string")) = "VARCHAR(255) NOT NULL".
Proof. reflexivity. Qed.

(** Of the names declared together only the first becomes a column. *)
Theorem grouped_fields_dropped :
  map Name (extractFields [(["First"; "Last"], Ident "string")]) = ["First"].
Proof. reflexivity. Qed.
End GeneratorWitness.
