(* ===== verification/Scaffold.v ===== *)
(** Generating files ([cli/generator]: generator.go and scaffold.go): the file
    operations, [Render], [Scaffold], [AddFeatureFiles] and the go.mod search.

    The disk is a map from clean slash-separated paths to contents, with a set of
    directories. An operation that writes or reads may fail at any time: the world
    holds the failures to come. The embedded skeleton is a tree; the template engine
    of text/template is a parameter. *)

From stdpp Require Import base list strings gmap.
From Stdlib Require Import ZArith Lia Ascii String.
From S2P Require Import Prelude Prog GoStrings Generator.

(** ** The disk *)

Record FS : Type := MkFS {
  files : gmap string string;
  dirs : gset string;
  faults : list (option error)   (* what the next operations answer *)
}.
Notation go := (prog FS).

Definition next_fault (w : FS) : option error * FS :=
  match faults w with
  | [] => (None, w)
  | f :: rest => (f, MkFS (files w) (dirs w) rest)
  end.

(** The directories above a path, itself included. *)
Fixpoint prefixes (seen : string) (s : string) : list string :=
  match s with
  | EmptyString => [str_rev seen]
  | String c s' =>
      if Ascii.eqb c "/" then str_rev seen :: prefixes (String c seen) s' else prefixes (String c seen) s'
  end.

(** [filepath.Join(dir, rel)], [filepath.Dir] and [filepath.Base] of clean paths. *)
Definition path_Join (dir rel : string) : string :=
  if String.eqb rel "." then dir
  else if String.eqb dir "." then rel
  else if String.eqb dir "/" then ("/" ++ rel)%string else (dir ++ "/" ++ rel)%string.
Definition path_Dir (path : string) : string :=
  match rev (prefixes "" path) with
  | _ :: d :: _ => if String.eqb d "" then "/"%string else d
  | _ => "."%string
  end.
Definition path_Base (path : string) : string :=
  match rev (Split path "/") with b :: _ => b | [] => path end.

(** [os.Stat(path)] answers without an error exactly when the path exists. *)
Definition Stat (path : string) : go bool :=
  reads (fun w => bool_decide (is_Some (files w !! path) \/ path ∈ dirs w)).

Definition MkdirAll (path : string) : go (option error) :=
  act (fun w =>
    let '(f, w) := next_fault w in
    match f with
    | Some e => (Some e, w)
    | None =>
        if existsb (fun p => bool_decide (is_Some (files w !! p))) (prefixes "" path)
        then (Some (Fresh (path ++ ": not a directory")), w)
        else (None, MkFS (files w) (list_to_set (prefixes "" path) ∪ dirs w) (faults w))
    end).

(** [os.WriteFile] and [os.Create]: an existing file is overwritten. *)
Definition os_WriteFile (path content : string) : go (option error) :=
  act (fun w =>
    let '(f, w) := next_fault w in
    match f with
    | Some e => (Some e, w)
    | None =>
        if bool_decide (path ∈ dirs w) then (Some (Fresh (path ++ ": is a directory")), w)
        else (None, MkFS (<[path := content]> (files w)) (dirs w) (faults w))
    end).

Definition os_ReadFile (path : string) : go (result string) :=
  act (fun w =>
    let '(f, w) := next_fault w in
    match f, files w !! path with
    | Some e, _ => (Err e, w)
    | None, Some content => (Ok content, w)
    | None, None => (Err (Fresh ("open " ++ path ++ ": no such file or directory")), w)
    end).

(** ** generator.go *)

Definition MkdirGenerated (path : string) : go (option error) := MkdirAll path.

Definition WriteGeneratedFile (path content : string) : go (option error) :=
  let! err := MkdirGenerated (path_Dir path) in
  match err with Some e => Ret (Some e) | None => os_WriteFile path content end.

Section Templates.
(** [template.New("").Delims("[[", "]]").Parse] and [Execute]; the second answers the text
    written, or what of it had left the buffer when an error interrupted it. *)
Context {T D : Type} (Parse : string -> result T) (Execute : T -> D -> string * option error).

Definition Render (tmplContent outPath : string) (data : D) : go (option error) :=
  let! err := MkdirAll (path_Dir outPath) in
  match err with
  | Some e => Ret (Some (errorf ("mkdir " ++ path_Dir outPath ++ ": ") e))
  | None =>
      let! exists_ := Stat outPath in
      if exists_ then Ret (Some (Fresh ("file already exists: " ++ outPath)))
      else match Parse tmplContent with
           | Err e => Ret (Some (errorf "parse template: " e))
           | Ok tmpl =>
               let! err := os_WriteFile outPath "" in
               match err with
               | Some e => Ret (Some (errorf ("create file " ++ outPath ++ ": ") e))
               | None =>
                   match Execute tmpl data with
                   | (flushed, Some e) =>
                       do! os_WriteFile outPath flushed in Ret (Some (errorf "execute template: " e))
                   | (text, None) => os_WriteFile outPath text (* w.Flush() *)
                   end
               end
           end
  end.
End Templates.

(** [ReadModulePath]: up at most five directories from the working directory; ["/"] is its
    own parent. *)
Definition parent_dir (dir : string) : string := if String.eqb dir "/" then dir else path_Dir dir.

Fixpoint search_gomod (fuel : nat) (dir : string) : go (result string) :=
  match fuel with
  | O => Ret (Err (Fresh "go.mod not found (run wapgo make:* from inside a wapgo project)"))
  | S n =>
      let! data := os_ReadFile (path_Join dir "go.mod") in
      match data with
      | Ok content => Ret (parseModuleLine content)
      | Err _ =>
          if String.eqb (parent_dir dir) dir
          then Ret (Err (Fresh "go.mod not found (run wapgo make:* from inside a wapgo project)"))
          else search_gomod n (parent_dir dir)
      end
  end.

Definition ReadModulePath (getwd : result string) : go (result string) :=
  match getwd with Err e => Ret (Err e) | Ok dir => search_gomod 5 dir end.

(** ** scaffold.go *)

Definition skeletonModule : string := "github.com/abdullahPrasetio/wapgo".
Definition skeletonDir : string := "templates/skeleton".
Definition domainDir : string := "templates/domain".

Record ScaffoldOptions : Type := MkOptions {
  ProjectName : string; so_Module : string; so_DB : string; so_APM : string; Redis : bool;
  Kafka : bool; RabbitMQ : bool; Email : bool; Firebase : bool; GoogleAuth : bool
}.

Record templateData : Type := MkData {
  td_Module : string; td_AppName : string; td_DB : string; td_APM : string; td_Redis : bool;
  td_Kafka : bool; td_RabbitMQ : bool; td_Email : bool; td_Firebase : bool; td_GoogleAuth : bool
}.

(** A path is a directory or something in it. *)
Definition under (rel dir : string) : bool := String.eqb rel dir || HasPrefix rel (dir ++ "/").

Definition skipPath (o : ScaffoldOptions) (rel : string) : bool :=
  if negb (Redis o) && under rel "internal/repository/redis" then true
  else if negb (Kafka o) && under rel "pkg/messaging/kafka" then true
  else if negb (RabbitMQ o) && under rel "pkg/messaging/rabbitmq" then true
  else if negb (Email o) && under rel "pkg/notification/email" then true
  else if negb (Firebase o) && under rel "pkg/notification/firebase" then true
  else if negb (GoogleAuth o) && under rel "pkg/auth/google" then true
  else if negb (GoogleAuth o) && String.eqb rel "internal/delivery/http/handler/google_auth_handler.go.tmpl" then true
  else if negb (GoogleAuth o) && String.eqb rel "internal/delivery/http/route/google_auth_route.go.tmpl" then true
  else if negb (Redis o) && String.eqb rel "pkg/ratelimit/redis.go.tmpl" then true
  else if negb (String.eqb (so_DB o) "postgres") &&
          (under rel "cmd/worker" || under rel "internal/queue" ||
           String.eqb rel "migrations/000002_jobs.up.sql" || String.eqb rel "migrations/000002_jobs.down.sql") then true
  else false.

Definition NUL : string := String (chr 0) EmptyString.
Definition moduleSentinel : string := (NUL ++ "skeleton-module" ++ NUL)%string.
Definition expandModule (content module : string) : string := ReplaceAll content moduleSentinel module.

Definition build_guard : string := ("//go:build ignore" ++ newline)%string.
Definition stripBuildIgnore (content : string) : string :=
  if HasPrefix content build_guard
  then TrimPrefix (TrimPrefix content build_guard) newline else content.

(** The embedded tree, its entries in the order [fs.WalkDir] meets them. *)
Inductive node : Type :=
| File (name : string) (content : result string)
| Dir (name : string) (children : list node).

Definition node_name (n : node) : string := match n with File name _ => name | Dir name _ => name end.

Definition rel_Join (rel name : string) : string :=
  if String.eqb rel "." then name else (rel ++ "/" ++ name)%string.

(** A walk answers the paths it created and the error that ended it, if any. *)
Section WalkList.
Context (visit : node -> go (list string * option error)).

Fixpoint walk_list (l : list node) : go (list string * option error) :=
  match l with
  | [] => Ret ([], None)
  | c :: rest =>
      let! r := visit c in
      match r with
      | (created, Some e) => Ret (created, Some e)
      | (created, None) => let! r' := walk_list rest in Ret (created ++ r'.1, r'.2)
      end
  end.
End WalkList.

Section Walk.
(** The callback of a walk: what it does at a directory (true: [fs.SkipDir]) and at a
    file (the paths it created). *)
Context (at_dir : string -> go (result bool)) (at_file : string -> result string -> go (result (list string))).

Fixpoint walk (rel : string) (n : node) : go (list string * option error) :=
  match n with
  | File _ content =>
      let! r := at_file rel content in
      match r with Ok created => Ret (created, None) | Err e => Ret ([], Some e) end
  | Dir _ children =>
      let! r := at_dir rel in
      match r with
      | Err e => Ret ([], Some e)
      | Ok true => Ret ([], None)
      | Ok false => walk_list (fun c => walk (rel_Join rel (node_name c)) c) children
      end
  end.
End Walk.

Fixpoint find_node (path : list string) (n : node) : option node :=
  match path with
  | [] => Some n
  | p :: rest =>
      match n with
      | File _ _ => None
      | Dir _ children =>
          match List.find (fun c => String.eqb (node_name c) p) children with
          | Some c => find_node rest c
          | None => None
          end
      end
  end.

Definition with_defaults (o : ScaffoldOptions) : ScaffoldOptions :=
  MkOptions (ProjectName o) (so_Module o)
    (if String.eqb (so_DB o) "" then "postgres" else so_DB o)
    (if String.eqb (so_APM o) "" then "none" else so_APM o)
    (Redis o) (Kafka o) (RabbitMQ o) (Email o) (Firebase o) (GoogleAuth o).

Definition template_data (o : ScaffoldOptions) : templateData :=
  MkData (so_Module o) (ReplaceAll (ProjectName o) "_" "-") (so_DB o) (so_APM o) (Redis o) (Kafka o)
    (RabbitMQ o) (Email o) (Firebase o) (GoogleAuth o).

(** The name of a generated file: without its template suffix. *)
Definition strip_tmpl (outPath : string) : string :=
  if HasSuffix (path_Base outPath) ".tmpl" then TrimSuffix outPath ".tmpl" else outPath.

Section Scaffolding.
Context {T : Type} (Parse : string -> result T) (Execute : T -> templateData -> string * option error).

(** The contents of a generated file. *)
Definition rendered (o : ScaffoldOptions) (rel raw : string) : result string :=
  let path := (skeletonDir ++ "/" ++ rel)%string in
  let protected := ReplaceAll raw skeletonModule moduleSentinel in
  if HasSuffix path ".tmpl" then
    match Parse protected with
    | Err e => Err (errorf ("parse skeleton template " ++ path ++ ": ") e)
    | Ok tmpl =>
        match Execute tmpl (template_data o) with
        | (_, Some e) => Err (errorf ("execute skeleton template " ++ path ++ ": ") e)
        | (text, None) => Ok (expandModule text (so_Module o))
        end
    end
  else Ok (stripBuildIgnore (expandModule protected (so_Module o))).

Definition scaffold_dir (o : ScaffoldOptions) (targetDir rel : string) : go (result bool) :=
  if negb (String.eqb rel ".") && skipPath o rel then Ret (Ok true)
  else let! err := MkdirGenerated (path_Join targetDir rel) in
       match err with Some e => Ret (Err e) | None => Ret (Ok false) end.

Definition scaffold_file (o : ScaffoldOptions) (targetDir rel : string) (content : result string)
  : go (result (list string)) :=
  if negb (String.eqb rel ".") && skipPath o rel then Ret (Ok [])
  else match content with
       | Err e => Ret (Err (errorf ("read skeleton file " ++ skeletonDir ++ "/" ++ rel ++ ": ") e))
       | Ok raw =>
           match rendered o rel raw with
           | Err e => Ret (Err e)
           | Ok text =>
               let! err := WriteGeneratedFile (strip_tmpl (path_Join targetDir rel)) text in
               match err with Some e => Ret (Err e) | None => Ret (Ok []) end
           end
       end.

Definition Scaffold (skeleton : node) (opts : ScaffoldOptions) (targetDir : string) : go (option error) :=
  let! exists_ := Stat targetDir in
  if exists_ then Ret (Some (Fresh ("directory already exists: " ++ targetDir)))
  else
    let o := with_defaults opts in
    let! r := walk (scaffold_dir o targetDir) (scaffold_file o targetDir) "." skeleton in
    Ret r.2.
End Scaffolding.

(** [AddFeatureFiles]: [filepath.Rel(destRoot, outPath)] gives back the path under the
    destination. *)
Definition feature_dir (destRoot rel : string) : go (result bool) :=
  let! err := MkdirGenerated (path_Join destRoot rel) in
  match err with Some e => Ret (Err e) | None => Ret (Ok false) end.

Definition feature_file (module destRoot rel : string) (content : result string) : go (result (list string)) :=
  let outPath := TrimSuffix (path_Join destRoot rel) ".tmpl" in
  let! exists_ := Stat outPath in
  if exists_ then Ret (Ok [])
  else match content with
       | Err e => Ret (Err (errorf ("read skeleton file " ++ skeletonDir ++ "/" ++ rel ++ ": ") e))
       | Ok raw =>
           let! err := WriteGeneratedFile outPath (stripBuildIgnore (ReplaceAll raw skeletonModule module)) in
           match err with Some e => Ret (Err e) | None => Ret (Ok [TrimSuffix rel ".tmpl"]) end
       end.

Definition AddFeatureFiles (skeleton : node) (subdir module destRoot : string)
  : go (list string * option error) :=
  match find_node (Split subdir "/") skeleton with
  | None => Ret ([], Some (Fresh ("open " ++ skeletonDir ++ "/" ++ subdir ++ ": file does not exist")))
  | Some n => walk (feature_dir destRoot) (feature_file module destRoot) subdir n
  end.

Definition DomainTemplateContent (domain : string -> result string) (name : string) : result string :=
  match domain (domainDir ++ "/" ++ name)%string with
  | Err e => Err (errorf ("read domain template " ++ name ++ ": ") e)
  | Ok raw => Ok raw
  end.

(** ** The module path is inserted once *)

Lemma replace_from_skip a r old new : replace_from (String.length a) (a ++ r) old new = replace_from 0 r old new.
Proof. induction a as [| c a IH]; [by destruct r |]. rewrite append_cons. exact IH. Qed.

Lemma replace_from_match old new r :
  old <> ""%string -> replace_from 0 (old ++ r) old new = (new ++ replace_from 0 r old new)%string.
Proof.
  intros Hne. destruct old as [| c old]; [done |]. rewrite append_cons. cbn [replace_from].
  rewrite <- append_cons, HasPrefix_app. f_equal. change (String.length (String c old) - 1)%nat
    with (String.length old - 0)%nat. rewrite Nat.sub_0_r. apply replace_from_skip.
Qed.

(** Replacing by way of a mark whose first byte does not occur in the text. *)
Lemma replace_by_way_of (m : ascii) (mark old new : string) (s : string) (k : nat) :
  str_forall (fun c => negb (Ascii.eqb c m)) s = true ->
  replace_from 0 (replace_from k s old (String m mark)) (String m mark) new = replace_from k s old new.
Proof.
  revert k. induction s as [| c s IH]; intros k H; [done |].
  cbn [str_forall] in H. apply andb_prop in H as [Hc Hs].
  destruct k as [| k]; [| by apply (IH k)].
  assert (Hstep : forall x y z, replace_from 0 (String x y) old z =
     if HasPrefix (String x y) old then (z ++ replace_from (String.length old - 1) y old z)%string
     else String x (replace_from 0 y old z)) by done.
  rewrite !Hstep. clear Hstep. destruct (HasPrefix (String c s) old).
  - rewrite replace_from_match by done. by rewrite IH.
  - apply negb_true_iff in Hc. cbn [replace_from HasPrefix].
    rewrite Ascii.eqb_sym, Hc. cbn [andb]. by rewrite IH.
Qed.

(** The module path of the new project replaces the skeleton's wherever the file names it,
    once: a module path that contains the skeleton's own is not rewritten again. *)
Theorem module_inserted_once (content module : string) :
  str_forall (fun c => negb (Ascii.eqb c (chr 0))) content = true ->
  expandModule (ReplaceAll content skeletonModule moduleSentinel) module
  = ReplaceAll content skeletonModule module.
Proof. intros H. by apply (replace_by_way_of (chr 0)). Qed.

(** ** Walks *)

(** The induction principle of trees. *)
Lemma node_induction (P : node -> Prop) :
  (forall name content, P (File name content)) ->
  (forall name children, Forall P children -> P (Dir name children)) -> forall n, P n.
Proof.
  intros Hf Hd. fix IH 1. intros [name content | name children]; [apply Hf |]. apply Hd.
  induction children as [| c children IHc]; constructor; [apply IH | exact IHc].
Qed.

(** The files a walk meets, with their paths, when some paths are skipped. *)
Section Plan.
Context (skip : string -> bool).

Fixpoint plan (rel : string) (n : node) : list (string * result string) :=
  match n with
  | File _ content => if skip rel then [] else [(rel, content)]
  | Dir _ children =>
      if skip rel then [] else List.concat (map (fun c => plan (rel_Join rel (node_name c)) c) children)
  end.

Lemma plan_not_skipped rel n : Forall (fun f => skip f.1 = false) (plan rel n).
Proof.
  revert rel. induction n as [name content | name children IH] using node_induction; intros rel.
  - cbn [plan]. destruct (skip rel) eqn:E; by repeat constructor.
  - cbn [plan]. destruct (skip rel); [done |].
    induction IH as [| c children Hc _ IHc]; [done |]. cbn [map List.concat]. apply Forall_app. by split.
Qed.

(** A walk processes a prefix of its plan, all of it when it ends without an error. *)
Lemma walk_rule (at_dir : string -> go (result bool))
    (at_file : string -> result string -> go (result (list string)))
    (Ok_file : string * result string -> Prop)
    (Inv : list (string * result string) -> list string -> FS -> Prop)
    (Hdir : forall rel d c w, Inv d c w ->
       let '(r, w') := run (at_dir rel) w in Inv d c w' /\ (forall b, r = Ok b -> b = skip rel))
    (Hfile : forall rel content d c w, Inv d c w -> skip rel = true \/ Ok_file (rel, content) ->
       let '(r, w') := run (at_file rel content) w in
       match r with
       | Ok new => Inv (d ++ (if skip rel then [] else [(rel, content)])) (c ++ new) w'
       | Err _ => Inv d c w'
       end) :
  forall n rel d c w, Forall Ok_file (plan rel n) -> Inv d c w ->
    let '((new, err), w') := run (walk at_dir at_file rel n) w in
    exists done rest, plan rel n = done ++ rest /\ Inv (d ++ done) (c ++ new) w' /\ (err = None -> rest = []).
Proof.
  induction n as [name content | name children IH] using node_induction; intros rel d c w Hok Hw.
  - cbn [walk plan] in *. rewrite run_bind.
    assert (Hskip : skip rel = true \/ Ok_file (rel, content)).
    { destruct (skip rel); [by left |]. right. by apply Forall_cons in Hok as [? _]. }
    pose proof (Hfile rel content d c w Hw Hskip) as H.
    destruct (run (at_file rel content) w) as [[new | e] w']; cbn [run].
    + exists (if skip rel then [] else [(rel, content)]), []. by rewrite app_nil_r.
    + exists [], (if skip rel then [] else [(rel, content)]). rewrite !app_nil_r. by split_and!.
  - cbn [walk plan] in *. rewrite run_bind. pose proof (Hdir rel d c w Hw) as H.
    destruct (run (at_dir rel) w) as [r w1]. destruct H as [Hw1 Hr].
    destruct r as [b | e]; [rewrite <- (Hr b eq_refl) in * |].
    2:{ cbn [run]. eexists [], _. split; [reflexivity |]. rewrite !app_nil_r. by split. }
    destruct b; cbn [run]; [exists [], []; by rewrite !app_nil_r |].
    clear Hr Hw w. revert d c w1 Hok Hw1. induction IH as [| n children Hn _ IHc]; intros d c w Hok Hw.
    + cbn [run walk_list]. exists [], []. by rewrite !app_nil_r.
    + cbn [walk_list map List.concat] in *. set (rest := List.concat _) in *.
      apply Forall_app in Hok as [Hok1 Hok2]. rewrite run_bind.
      pose proof (Hn (rel_Join rel (node_name n)) d c w Hok1 Hw) as H.
      destruct (run (walk at_dir at_file (rel_Join rel (node_name n)) n) w) as [[new err] w1].
      destruct H as (done1 & rest1 & Ep & Hw1 & He). destruct err as [e |]; cbn [run].
      * rewrite Ep. exists done1, (rest1 ++ rest). rewrite <- app_assoc. by split_and!.
      * specialize (He eq_refl) as ->. rewrite app_nil_r in Ep. subst done1.
        rewrite run_bind.
        pose proof (IHc (d ++ plan (rel_Join rel (node_name n)) n) (c ++ new) w1 Hok2 Hw1) as H.
        destruct (run (walk_list _ children) w1) as [[new2 err2] w2].
        destruct H as (done2 & rest2 & Ep & Hw2 & He2).
        cbn [run fst snd]. fold rest in Ep. rewrite Ep. exists (plan (rel_Join rel (node_name n)) n ++ done2), rest2.
        rewrite !app_assoc in *. by split_and!.
Qed.
End Plan.

(** ** What the file operations do to the files *)

Lemma run_MkdirAll path w :
  let '(_, w') := run (MkdirAll path) w in files w' = files w /\ dirs w ⊆ dirs w'.
Proof.
  unfold MkdirAll. rewrite run_act. unfold next_fault.
  destruct (faults w) as [| [e |] rest]; simpl; try done;
    destruct (existsb _ _); simpl; split; done || set_solver.
Qed.

Lemma run_os_WriteFile path content w :
  let '(err, w') := run (os_WriteFile path content) w in
  match err with
  | None => path ∉ dirs w /\ files w' = <[path := content]> (files w) /\ dirs w' = dirs w
  | Some _ => files w' = files w /\ dirs w' = dirs w
  end.
Proof.
  unfold os_WriteFile. rewrite run_act. unfold next_fault.
  destruct (faults w) as [| [e |] rest]; simpl; try done; case_bool_decide; done.
Qed.

(** No operation removes a directory. *)
Lemma keeps_dirs_MkdirAll D path : keeps (fun w => D ⊆ dirs w) (MkdirAll path).
Proof.
  apply keeps_act. intros w H. unfold next_fault.
  destruct (faults w) as [| [e |] rest]; simpl; try done; destruct (existsb _ _); simpl; set_solver.
Qed.

Lemma keeps_dirs_os_WriteFile D path content : keeps (fun w => D ⊆ dirs w) (os_WriteFile path content).
Proof.
  apply keeps_act. intros w H. unfold next_fault.
  destruct (faults w) as [| [e |] rest]; simpl; try done; case_bool_decide; done.
Qed.

Lemma run_WriteGeneratedFile path content w :
  let '(err, w') := run (WriteGeneratedFile path content) w in
  dirs w ⊆ dirs w' /\
  match err with
  | None => files w' = <[path := content]> (files w)
  | Some _ => files w' = files w
  end.
Proof.
  unfold WriteGeneratedFile, MkdirGenerated. rewrite run_bind.
  pose proof (run_MkdirAll (path_Dir path) w) as H. destruct (run (MkdirAll _) w) as [[e |] w1].
  - destruct H as [Hf Hd]. by split.
  - destruct H as [Hf Hd]. pose proof (run_os_WriteFile path content w1) as H.
    destruct (run (os_WriteFile path content) w1) as [[e |] w2].
    + destruct H as [Hf2 Hd2]. rewrite Hd2, Hf2. by split.
    + destruct H as (_ & Hf2 & Hd2). rewrite Hd2, Hf2, Hf. by split.
Qed.

Lemma run_Stat path w :
  run (Stat path) w = (bool_decide (is_Some (files w !! path) \/ path ∈ dirs w), w).
Proof. reflexivity. Qed.

(** ** The scaffold *)

Section ScaffoldSpec.
Context {T : Type} (Parse : string -> result T) (Execute : T -> templateData -> string * option error).
Context (o : ScaffoldOptions) (targetDir : string).

Definition skipped (rel : string) : bool := negb (String.eqb rel ".") && skipPath o rel.

Definition out_path (rel : string) : string := strip_tmpl (path_Join targetDir rel).

(** The disk after some files of the skeleton were generated. *)
Definition generate (m : gmap string string) (l : list (string * result string)) : gmap string string :=
  foldl (fun m f =>
    match f.2 with
    | Ok raw => match rendered Parse Execute o f.1 raw with
                | Ok text => <[out_path f.1 := text]> m
                | Err _ => m
                end
    | Err _ => m
    end) m l.

(** A file that can be generated. *)
Definition renders (f : string * result string) : Prop :=
  exists raw text, f.2 = Ok raw /\ rendered Parse Execute o f.1 raw = Ok text.

(** What holds while the skeleton is walked, from the disk [w]. *)
Definition progress (w : FS) (d : list (string * result string)) (_ : list string) (w' : FS) : Prop :=
  files w' = generate (files w) d /\ Forall renders d.

Lemma scaffold_dir_step w rel d c w1 :
  progress w d c w1 ->
  let '(r, w') := run (scaffold_dir o targetDir rel) w1 in
  progress w d c w' /\ (forall b, r = Ok b -> b = skipped rel).
Proof.
  intros [Hf Hr]. unfold scaffold_dir. fold (skipped rel).
  destruct (skipped rel) eqn:Es; [cbn [run]; split; [done | by intros b [= <-]] |].
  rewrite run_bind. pose proof (run_MkdirAll (path_Join targetDir rel) w1) as H.
  unfold MkdirGenerated. destruct (run (MkdirAll _) w1) as [[e |] w2]; destruct H as [Hf2 _]; cbn [run];
    (split; [split; [by rewrite Hf2 | done] |]); [done | by intros b [= <-]].
Qed.

Lemma scaffold_file_step w rel content d c w1 :
  progress w d c w1 ->
  let '(r, w') := run (scaffold_file Parse Execute o targetDir rel content) w1 in
  match r with
  | Ok new => progress w (d ++ (if skipped rel then [] else [(rel, content)])) (c ++ new) w'
  | Err _ => progress w d c w'
  end.
Proof.
  intros [Hf Hr]. unfold scaffold_file. fold (skipped rel).
  destruct (skipped rel) eqn:Es; [cbn [run]; by rewrite app_nil_r |].
  destruct content as [raw | e]; [| done].
  destruct (rendered Parse Execute o rel raw) as [text | e] eqn:Er; [| done].
  rewrite run_bind. fold (out_path rel). pose proof (run_WriteGeneratedFile (out_path rel) text w1) as H.
  destruct (run (WriteGeneratedFile _ _) w1) as [[e |] w2]; destruct H as [_ H]; cbn [run];
    unfold progress; [by rewrite H |]. split.
  - unfold generate. rewrite foldl_app. cbn [foldl fst snd]. rewrite Er, H. by rewrite Hf.
  - apply Forall_app. split; [done |]. constructor; [| done]. by exists raw, text.
Qed.

Lemma walk_scaffold n rel w :
  let '((_, err), w') :=
    run (walk (scaffold_dir o targetDir) (scaffold_file Parse Execute o targetDir) rel n) w in
  exists done rest, plan skipped rel n = done ++ rest /\ files w' = generate (files w) done /\
    Forall renders done /\ (err = None -> rest = []).
Proof.
  pose proof (walk_rule skipped (scaffold_dir o targetDir) (scaffold_file Parse Execute o targetDir)
    (fun _ => True) (progress w) (scaffold_dir_step w)
    (fun rel content d c w1 H _ => scaffold_file_step w rel content d c w1 H) n rel [] [] w) as R.
  specialize (R ltac:(by apply Forall_true) ltac:(by split)).
  destruct (run _ w) as [[new err] w']. destruct R as (done & rest & E & [Hf Hr] & He).
  exists done, rest. by split_and!.
Qed.
End ScaffoldSpec.

(** The options a directory or a file of the skeleton belongs to. *)
Definition disabled (o : ScaffoldOptions) (rel : string) : Prop :=
  (Redis o = false /\ under rel "internal/repository/redis" = true) \/
  (Kafka o = false /\ under rel "pkg/messaging/kafka" = true) \/
  (RabbitMQ o = false /\ under rel "pkg/messaging/rabbitmq" = true) \/
  (Email o = false /\ under rel "pkg/notification/email" = true) \/
  (Firebase o = false /\ under rel "pkg/notification/firebase" = true) \/
  (GoogleAuth o = false /\ under rel "pkg/auth/google" = true) \/
  (so_DB o <> "postgres"%string /\ under rel "internal/queue" = true).

Lemma disabled_skipped o rel : disabled o rel -> skipPath o rel = true.
Proof.
  unfold disabled, skipPath.
  intros [[-> ->] | [[-> ->] | [[-> ->] | [[-> ->] | [[-> ->] | [[-> ->] | [H%String.eqb_neq ->]]]]]]];
    [.. | rewrite H, orb_true_r]; cbn [negb andb orb];
    repeat match goal with |- (if ?b then true else _) = true => destruct b; [done |] end; done.
Qed.


(** ** Features added to a project *)

(** A path that exists. *)
Definition present (w : FS) (p : string) : Prop := is_Some (files w !! p) \/ p ∈ dirs w.

Definition grows (w w' : FS) : Prop :=
  (forall p c, files w !! p = Some c -> files w' !! p = Some c) /\ dirs w ⊆ dirs w'.

#[export] Instance grows_preorder : PreOrder grows.
Proof.
  split; [by split |]. intros x y z [H1 H2] [H3 H4]. split; [by eauto | set_solver].
Qed.

Lemma present_grows w w' p : grows w w' -> present w p -> present w' p.
Proof. intros [Hf Hd] [[c Hc] | H]; [left; exists c; by apply Hf | right; set_solver]. Qed.

Lemma path_Join_here rel : path_Join "." rel = rel.
Proof. unfold path_Join. by destruct (String.eqb_spec rel ".") as [-> |]. Qed.

Definition never (_ : string) : bool := false.
Definition feature_out (rel : string) : string := TrimSuffix rel ".tmpl".

(** What holds while a feature is copied, from the disk [w]. *)
Definition copied (w : FS) (d : list (string * result string)) (created : list string) (w' : FS) : Prop :=
  grows w w' /\ dom (files w') = dom (files w) ∪ list_to_set created /\
  Forall (fun f => present w' (feature_out f.1)) d.

Lemma copied_grows w d c w1 w2 :
  copied w d c w1 -> files w2 = files w1 -> dirs w1 ⊆ dirs w2 -> copied w d c w2.
Proof.
  intros ([Hf Hd] & Hdom & Hp) E1 E2. assert (Hg : grows w1 w2) by (split; [by rewrite E1 | done]).
  split; [by etrans; [| exact Hg] |]. split; [by rewrite E1 |].
  eapply Forall_impl; [exact Hp |]. intros f. by apply present_grows.
Qed.

Lemma feature_dir_step w rel d c w1 :
  copied w d c w1 ->
  let '(r, w') := run (feature_dir "." rel) w1 in copied w d c w' /\ (forall b, r = Ok b -> b = never rel).
Proof.
  intros H. unfold feature_dir, MkdirGenerated. rewrite run_bind.
  pose proof (run_MkdirAll (path_Join "." rel) w1) as Hm.
  destruct (run (MkdirAll _) w1) as [[e |] w2]; destruct Hm as [Hf Hd]; cbn [run];
    (split; [by eapply copied_grows |]); [done | by intros b [= <-]].
Qed.

Lemma feature_file_step module w rel content d c w1 :
  copied w d c w1 ->
  let '(r, w') := run (feature_file module "." rel content) w1 in
  match r with
  | Ok new => copied w (d ++ (if never rel then [] else [(rel, content)])) (c ++ new) w'
  | Err _ => copied w d c w'
  end.
Proof.
  intros H. unfold feature_file. rewrite path_Join_here. fold (feature_out rel).
  rewrite run_bind, run_Stat. change (if never rel then [] else [(rel, content)]) with [(rel, content)].
  case_bool_decide as Hex; cbn [run].
  - destruct H as (Hg & Hdom & Hp). rewrite app_nil_r. split_and!; [done | done |].
    apply Forall_app. split; [done |]. by apply Forall_singleton.
  - destruct content as [raw | e]; [| done]. rewrite run_bind.
    match goal with |- context [WriteGeneratedFile _ ?t] => set (text := t) end.
    pose proof (run_WriteGeneratedFile (feature_out rel) text w1) as Hw.
    destruct (run (WriteGeneratedFile _ _) w1) as [[e |] w2]; destruct Hw as [Hd Hf]; cbn [run];
      [by eapply copied_grows |].
    destruct H as (Hg & Hdom & Hp).
    assert (Hnew : files w1 !! (feature_out rel) = None).
    { apply eq_None_not_Some. intros Hs. apply Hex. by left. }
    assert (Hg2 : grows w1 w2).
    { split; [| done]. intros p x Hx. rewrite Hf.
      rewrite lookup_insert_ne; [done |]. intros <-. congruence. }
    split_and!; [by etrans | rewrite Hf, dom_insert_L, Hdom, list_to_set_app_L; cbn; set_solver |].
    apply Forall_app. split.
    + eapply Forall_impl; [exact Hp |]. intros f. by apply present_grows.
    + apply Forall_singleton. left. cbn [fst]. rewrite Hf, lookup_insert_eq. by eexists.
Qed.

(** Adding a feature never overwrites a file of the project, whatever fails on the way; the
    files it reports are exactly the new ones; and once it has succeeded, every file of the
    feature exists. *)
Theorem add_feature_spec (skeleton : node) (subdir module : string) (w : FS) :
  let '((created, err), w') := run (AddFeatureFiles skeleton subdir module ".") w in
  (forall p c, files w !! p = Some c -> files w' !! p = Some c) /\
  dom (files w') = dom (files w) ∪ list_to_set created /\
  (err = None -> exists n, find_node (Split subdir "/") skeleton = Some n /\
     Forall (fun f => present w' (feature_out f.1)) (plan never subdir n)).
Proof.
  unfold AddFeatureFiles. destruct (find_node (Split subdir "/") skeleton) as [n |].
  2:{ cbn [run]. split; [done |]. split; [cbn; set_solver | done]. }
  pose proof (walk_rule never (feature_dir ".") (feature_file module ".") (fun _ => True) (copied w)
    (feature_dir_step w) (fun rel content d c w1 H _ => feature_file_step module w rel content d c w1 H)
    n subdir [] [] w) as R.
  specialize (R ltac:(by apply Forall_true)).
  destruct (run _ w) as [[new err] w']. destruct R as (done & rest & E & (Hg & Hd & Hp) & He).
  { split; [reflexivity |]. split; [cbn; set_solver | constructor]. }
  split; [apply Hg |]. split; [done |]. intros Hn. exists n. split; [done |].
  rewrite E, (He Hn), app_nil_r. exact Hp.
Qed.

(** What holds while a feature is copied onto a disk that has all of it. *)
Definition untouched (w : FS) (_ : list (string * result string)) (created : list string) (w' : FS) : Prop :=
  files w' = files w /\ dirs w ⊆ dirs w' /\ created = [].

(** Adding a feature again does nothing: after a run that succeeded, on the disk it left
    (with more directories, perhaps), a second run creates no file and changes none. *)
Theorem add_feature_again (skeleton : node) (subdir module module' : string) (w w1 w2 : FS)
    (created : list string) :
  run (AddFeatureFiles skeleton subdir module ".") w = ((created, None), w1) ->
  files w2 = files w1 -> dirs w1 ⊆ dirs w2 ->
  let '((created', _), w3) := run (AddFeatureFiles skeleton subdir module' ".") w2 in
  created' = [] /\ files w3 = files w2.
Proof.
  intros E Ef Ed. pose proof (add_feature_spec skeleton subdir module w) as H. rewrite E in H.
  destruct H as (_ & _ & H). destruct (H eq_refl) as (n & En & Hp). clear H E.
  unfold AddFeatureFiles. rewrite En.
  assert (Hg : grows w1 w2) by (split; [by rewrite Ef | done]).
  pose proof (walk_rule never (feature_dir ".") (feature_file module' ".")
    (fun f => present w2 (feature_out f.1)) (untouched w2)) as R.
  assert (Hdir : forall rel d c w, untouched w2 d c w ->
    let '(r, w') := run (feature_dir "." rel) w in untouched w2 d c w' /\ (forall b, r = Ok b -> b = never rel)).
  { intros rel d c w0 (Hf & Hd & Hc). unfold feature_dir, MkdirGenerated. rewrite run_bind.
    pose proof (run_MkdirAll (path_Join "." rel) w0) as Hm.
    destruct (run (MkdirAll _) w0) as [[e |] w']; destruct Hm as [Hf' Hd']; cbn [run];
      (split; [split_and!; [congruence | set_solver | done] |]); [done | by intros b [= <-]]. }
  assert (Hfile : forall rel content d c w, untouched w2 d c w ->
    never rel = true \/ present w2 (feature_out (rel, content).1) ->
    let '(r, w') := run (feature_file module' "." rel content) w in
    match r with
    | Ok new => untouched w2 (d ++ (if never rel then [] else [(rel, content)])) (c ++ new) w'
    | Err _ => untouched w2 d c w'
    end).
  { intros rel content d c w0 (Hf & Hd & Hc) [Hn | Hpr]; [done |]. unfold feature_file.
    rewrite path_Join_here, run_bind, run_Stat. fold (feature_out rel).
    rewrite bool_decide_eq_true_2; [cbn [run]; rewrite app_nil_r; by split_and! |].
    eapply present_grows; [| exact Hpr]. split; [by rewrite Hf | done]. }
  specialize (R Hdir Hfile n subdir [] [] w2).
  destruct (run _ w2) as [[new err] w3]. destruct R as (done & rest & _ & (Hf & _ & Hc) & _).
  - eapply Forall_impl; [exact Hp |]. intros f. by apply present_grows.
  - by split_and!.
  - by split.
Qed.

(** ** Rendering one template *)

(** [Render] writes its output once: an existing file is left alone and refused, no other
    file is touched, and on success the file holds what the template gave. *)
Theorem render_spec {T D} (Parse : string -> result T) (Execute : T -> D -> string * option error)
    (content out : string) (data : D) (w : FS) :
  let '(err, w') := run (Render Parse Execute content out data) w in
  (forall p c, files w !! p = Some c -> files w' !! p = Some c) /\
  (forall p, p <> out -> files w' !! p = files w !! p) /\
  (present w out -> is_Some err) /\
  (err = None -> exists tmpl text, Parse content = Ok tmpl /\ Execute tmpl data = (text, None) /\
     files w' = <[out := text]> (files w)).
Proof.
  unfold Render. rewrite run_bind. pose proof (run_MkdirAll (path_Dir out) w) as H.
  destruct (run (MkdirAll _) w) as [[e |] w1]; destruct H as [Hf1 Hd1]; cbn [run].
  { rewrite Hf1. by split_and!; eauto. }
  rewrite run_bind, run_Stat. case_bool_decide as Hex; cbn [run].
  { rewrite Hf1. by split_and!; eauto. }
  assert (Hno : present w out -> False).
  { intros Hp. apply Hex. rewrite Hf1. destruct Hp as [? | ?]; [by left | right; set_solver]. }
  destruct (Parse content) as [tmpl | e] eqn:Ep; cbn [run].
  2:{ rewrite Hf1. split_and!; [done | done | by intros [] %Hno | done]. }
  rewrite run_bind. pose proof (run_os_WriteFile out "" w1) as H.
  destruct (run (os_WriteFile out "") w1) as [[e |] w2]; cbn [run].
  { destruct H as [Hf2 _]. rewrite Hf2, Hf1. split_and!; [done | done | by intros []%Hno | done]. }
  destruct H as (_ & Hf2 & _).
  assert (Hkeep : forall text w3, files w3 = files w2 \/ files w3 = <[out := text]> (files w2) ->
    (forall p c, files w !! p = Some c -> files w3 !! p = Some c) /\
    (forall p, p <> out -> files w3 !! p = files w !! p)).
  { intros text w3 Hw3. assert (Hp : forall p, p <> out -> files w3 !! p = files w !! p).
    { intros p Hp. rewrite <- Hf1. destruct Hw3 as [-> | ->]; rewrite Hf2;
        rewrite ?lookup_insert_ne by done; done. }
    split; [| done]. intros p c Hc. rewrite Hp; [done |]. intros ->. apply Hno. left. by exists c. }
  destruct (Execute tmpl data) as [text [e |]] eqn:Ee.
  - rewrite run_bind. pose proof (run_os_WriteFile out text w2) as H.
    destruct (run (os_WriteFile out text) w2) as [err w3]. cbn [run].
    destruct (Hkeep text w3) as [K1 K2]; [destruct err as [e' |]; [left; apply H | right; apply H] |].
    split_and!; [done | done | by intros []%Hno | done].
  - pose proof (run_os_WriteFile out text w2) as H.
    destruct (run (os_WriteFile out text) w2) as [err w3].
    destruct (Hkeep text w3) as [K1 K2]; [destruct err as [e' |]; [left; apply H | right; apply H] |].
    split_and!; [done | done | by intros []%Hno |]. intros ->. exists tmpl, text.
    split_and!; [done | done |]. destruct H as (_ & H & _). rewrite H, Hf2, insert_insert_eq. by rewrite Hf1.
Qed.

Module ScaffoldWitness.

(** A skeleton with one file per kind. *)
Definition skeleton : node :=
  Dir "." [
    Dir "cmd" [File "main.go.tmpl" (Ok "package [[ .AppName ]]")];
    Dir "pkg" [Dir "messaging" [Dir "kafka" [File "producer.go.tmpl" (Ok "package kafka")]]]].

Definition echo (_ : string) (_ : templateData) : string * option error := ("text", None).
Definition options : ScaffoldOptions :=
  MkOptions "shop" "github.com/me/shop" "" "" false false false false false false.

(** With Kafka switched off only the command is generated. *)
Example generated_without_kafka :
  map_to_list (files (run (Scaffold (fun s => Ok s) echo skeleton options "shop") (MkFS ∅ ∅ [])).2)
  = [("shop/cmd/main.go", "text")].
Proof. by vm_compute. Qed.

Lemma module_inserted_once_witness :
  expandModule (ReplaceAll "import github.com/abdullahPrasetio/wapgo/config" skeletonModule moduleSentinel)
    "github.com/abdullahPrasetio/wapgo-shop"
  = "import github.com/abdullahPrasetio/wapgo-shop/config"%string.
Proof.
  etransitivity.
  - exact (module_inserted_once "import github.com/abdullahPrasetio/wapgo/config"
             "github.com/abdullahPrasetio/wapgo-shop" eq_refl).
  - vm_compute. reflexivity.
Defined.

Lemma add_feature_again_witness :
  let r1 := run (AddFeatureFiles skeleton "pkg/messaging/kafka" "github.com/me/shop" ".") (MkFS ∅ ∅ []) in
  r1.1.1 = ["pkg/messaging/kafka/producer.go"%string] /\
  (run (AddFeatureFiles skeleton "pkg/messaging/kafka" "github.com/me/shop" ".") r1.2).1.1 = [].
Proof.
  split; [vm_compute; reflexivity |].
  pose (r1 := run (AddFeatureFiles skeleton "pkg/messaging/kafka" "github.com/me/shop" ".") (MkFS ∅ ∅ [])).
  assert (E : r1 = ((r1.1.1, None), r1.2)) by (vm_compute; reflexivity).
  pose proof (add_feature_again skeleton "pkg/messaging/kafka" "github.com/me/shop" "github.com/me/shop"
    (MkFS ∅ ∅ []) r1.2 r1.2 r1.1.1 E eq_refl ltac:(reflexivity)) as H.
  change ((run (AddFeatureFiles skeleton "pkg/messaging/kafka" "github.com/me/shop" ".") r1.2).1.1 = []).
  revert H. generalize (run (AddFeatureFiles skeleton "pkg/messaging/kafka" "github.com/me/shop" ".") r1.2).
  intros [[c e] w] [H _]. exact H.
Defined.

(** A template that fails while it executes leaves a file behind, and the next attempt is
    refused because of it. *)
Theorem failed_render_blocks_next :
  exists w1,
    run (Render (fun s => Ok s) (fun _ _ => ("", Some (Fresh "nil data"))) "x" "a/b.go" tt) (MkFS ∅ ∅ [])
      = (Some (errorf "execute template: " (Fresh "nil data")), w1) /\
    (run (Render (fun s => Ok s) (fun _ _ => ("text", None)) "x" "a/b.go" tt) w1).1
      = Some (Fresh "file already exists: a/b.go").
Proof. eexists. split; [vm_compute; reflexivity | vm_compute; reflexivity]. Qed.

(** The sources of the Google add-on are templates without actions that begin with the
    build guard. [new] renders templates and strips the guard of plain files only, so the
    guard stays and the Go toolchain leaves the files out of the build; [add] strips it,
    but finds the files there. *)
Definition google_skeleton : node :=
  Dir "." [Dir "pkg" [Dir "auth" [Dir "google"
    [File "oauth.go.tmpl" (Ok (build_guard ++ newline ++ "package google")%string)]]]].

Definition copy (text : string) (_ : templateData) : string * option error := (text, None).
Definition google_options : ScaffoldOptions :=
  MkOptions "shop" "github.com/me/shop" "" "" false false false false false true.

Example guard_survives_new :
  let w := (run (Scaffold (fun s => Ok s) copy google_skeleton google_options "shop") (MkFS ∅ ∅ [])).2 in
  files w = {["shop/pkg/auth/google/oauth.go" := (build_guard ++ newline ++ "package google")]}%string /\
  (run (AddFeatureFiles google_skeleton "pkg/auth/google" "github.com/me/shop" "shop") w).1 = ([], None) /\
  files (run (AddFeatureFiles google_skeleton "pkg/auth/google" "github.com/me/shop" "shop") (MkFS ∅ ∅ [])).2
    = {["shop/pkg/auth/google/oauth.go" := "package google"]}%string.
Proof. split; [vm_compute; reflexivity |]. split; vm_compute; reflexivity. Qed.
End ScaffoldWitness.
