(* ===== verification/Commands.v ===== *)
(** The commands of the generator ([cli/commands]): [add], the [make:*] family,
    [make:migration] and [make:worker]. What they print is left out, and the names given on
    the command line hold no slashes. *)

From stdpp Require Import base list strings gmap.
From Stdlib Require Import ZArith Lia Ascii String.
From S2P Require Import Prelude Prog GoStrings Generator Scaffold.

(** [strings.NewReplacer(pairs...).Replace(s)]: at every place the first pair that matches;
    what was inserted is not searched again. *)
Fixpoint replacer (pairs : list (string * string)) (skip : nat) (s : string) : string :=
  match s with
  | EmptyString => EmptyString
  | String c s' =>
      match skip with
      | S k => replacer pairs k s'
      | O => match List.find (fun p => HasPrefix s p.1) pairs with
             | Some (old, new) => (new ++ replacer pairs (String.length old - 1) s')%string
             | None => String c (replacer pairs 0 s')
             end
      end
  end.

Definition set_Module (module : string) (n : Names) : Names :=
  MkNames (Original n) (Snake n) (Pascal n) (Camel n) (Table n) module (AppName n) (DB n).

Record workerData : Type := MkWorker { w_Module : string; w_Suffix : string; w_Kafka : bool; w_RabbitMQ : bool }.

(** [features]: the subtrees each feature copies. *)
Definition features : list (string * list string) :=
  [("redis", ["internal/repository/redis"; "pkg/ratelimit"]);
   ("kafka", ["pkg/messaging/kafka"]);
   ("rabbitmq", ["pkg/messaging/rabbitmq"]);
   ("email", ["pkg/notification/email"]);
   ("firebase", ["pkg/notification/firebase"]);
   ("google-auth", ["pkg/auth/google"; "internal/delivery/http/handler"; "internal/delivery/http/route"])]%string.

(** [featureNames], in the order of [sort.Strings]. *)
Definition featureNames : list string :=
  ["email"; "firebase"; "google-auth"; "kafka"; "rabbitmq"; "redis"]%string.

Fixpoint feature_subdirs (name : string) (l : list (string * list string)) : option (list string) :=
  match l with
  | [] => None
  | (k, v) :: rest => if String.eqb k name then Some v else feature_subdirs name rest
  end.

Definition migrationUpSQL : string := Join
  ["-- Migration up: {{table}}";
   "-- Compatible with MySQL 8+ and PostgreSQL 14+.";
   "-- Postgres: replace VARCHAR(36) → UUID, TIMESTAMP(3) → TIMESTAMPTZ.";
   "";
   "CREATE TABLE IF NOT EXISTS {{table}} (";
   "    id         VARCHAR(36)  NOT NULL,";
   "    created_at TIMESTAMP(3) NOT NULL DEFAULT CURRENT_TIMESTAMP(3),";
   "    updated_at TIMESTAMP(3) NOT NULL DEFAULT CURRENT_TIMESTAMP(3),";
   "    deleted_at TIMESTAMP(3) NULL,";
   "{{columns}}";
   "    PRIMARY KEY (id),";
   "    INDEX idx_{{table}}_deleted_at (deleted_at)";
   ");";
   ""]%string newline.

Definition migrationDownSQL : string := Join
  ["-- Migration down: {{table}}"; ""; "DROP TABLE IF EXISTS {{table}};"; ""]%string newline.

Section Commands.
(** The environment: the working directory, the embedded templates, the template engine
    on names and on worker data, go/parser, and the clock. *)
Context {T : Type} (getwd : result string).
Context (skeleton : node) (domain : string -> result string).
Context (Parse : string -> result T) (ExecuteNames : T -> Names -> string * option error).
Context (ExecuteWorker : T -> workerData -> string * option error).
Context (ParseFile : string -> option (list decl)) (timestamp : string).

(** The loop the commands share: read a template, render it, report where. *)
Fixpoint render_files (l : list (string * string)) (n : Names) : go (option error) :=
  match l with
  | [] => Ret None
  | (tmpl, out) :: rest =>
      match DomainTemplateContent domain tmpl with
      | Err e => Ret (Some e)
      | Ok content =>
          let! err := Render Parse ExecuteNames content out n in
          match err with
          | Some e => Ret (Some (errorf ("generate " ++ out ++ ": ") e))
          | None => render_files rest n
          end
      end
  end.

Definition run_make (targets : Names -> list (string * string)) (name : string) : go (option error) :=
  let! module := ReadModulePath getwd in
  match module with
  | Err e => Ret (Some e)
  | Ok module => let n := set_Module module (NewNames name) in render_files (targets n) n
  end.

Definition model_files (n : Names) : list (string * string) :=
  [("entity.go.tmpl", "internal/domain/entity/" ++ Snake n ++ ".go");
   ("repository_interface.go.tmpl", "internal/domain/repository/" ++ Snake n ++ "_repository.go")]%string.
Definition repo_files (n : Names) : list (string * string) :=
  [("repository.go.tmpl", "internal/repository/db/" ++ Snake n ++ "_repository.go")]%string.
Definition usecase_files (n : Names) : list (string * string) :=
  [("usecase.go.tmpl", "internal/usecase/" ++ Snake n ++ "_usecase.go")]%string.
Definition controller_files (n : Names) : list (string * string) :=
  [("handler.go.tmpl", "internal/delivery/http/handler/" ++ Snake n ++ "_handler.go");
   ("external_service.go.tmpl", "internal/domain/service/external_" ++ Snake n ++ ".go")]%string.
Definition route_files (n : Names) : list (string * string) :=
  [("route.go.tmpl", "internal/delivery/http/route/" ++ Snake n ++ "_route.go")]%string.
Definition client_files (n : Names) : list (string * string) :=
  [("http_client.go.tmpl", "pkg/httpclient/" ++ Snake n ++ "_client.go")]%string.
Definition test_files (n : Names) : list (string * string) :=
  [("usecase_test.go.tmpl", "internal/usecase/" ++ Snake n ++ "_usecase_test.go")]%string.
Definition handler_test_files (n : Names) : list (string * string) :=
  [("handler_test.go.tmpl", "internal/delivery/http/handler/" ++ Snake n ++ "_handler_test.go")]%string.
Definition event_files (n : Names) : list (string * string) :=
  [("event_producer.go.tmpl", "internal/event/" ++ Snake n ++ "_producer.go");
   ("event_consumer.go.tmpl", "internal/event/" ++ Snake n ++ "_consumer.go")]%string.

Definition runMakeModel : string -> go (option error) := run_make model_files.
Definition runMakeRepo : string -> go (option error) := run_make repo_files.
Definition runMakeUsecase : string -> go (option error) := run_make usecase_files.
Definition runMakeController : string -> go (option error) := run_make controller_files.
Definition runMakeRoute : string -> go (option error) := run_make route_files.
Definition runMakeClient : string -> go (option error) := run_make client_files.
Definition runMakeTest : string -> go (option error) := run_make test_files.
Definition runMakeHandlerTest : string -> go (option error) := run_make handler_test_files.
Definition runMakeEvent : string -> go (option error) := run_make event_files.

(** [make:test --layer]. *)
Definition make_test (layer name : string) : go (option error) :=
  if within layer ["usecase"; ""] then runMakeTest name
  else if String.eqb layer "handler" then runMakeHandlerTest name
  else Ret (Some (Fresh ("unknown layer " ++ Quote layer ++ " — valid: usecase, handler"))).

(** [make:all]: the steps in order, up to the first that fails. *)
Definition all_steps : list (string * (string -> go (option error))) :=
  [("model      (entity + repo interface)", runMakeModel);
   ("repo       (gorm impl)", runMakeRepo);
   ("usecase    (interface + impl)", runMakeUsecase);
   ("controller (handler + ext service)", runMakeController);
   ("route      (route registration)", runMakeRoute);
   ("client     (http client)", runMakeClient);
   ("test:usecase (usecase test boilerplate)", runMakeTest);
   ("test:handler (handler test boilerplate)", runMakeHandlerTest)]%string.

Fixpoint run_steps (l : list (string * (string -> go (option error)))) (name : string) : go (option error) :=
  match l with
  | [] => Ret None
  | (label, step) :: rest =>
      let! err := step name in
      match err with
      | Some e => Ret (Some (errorf ("make:" ++ label ++ " failed: ") e))
      | None => run_steps rest name
      end
  end.
Definition make_all (name : string) : go (option error) := run_steps all_steps name.

(** [add]. *)
Fixpoint add_subdirs (name module : string) (l : list string) : go (list string * option error) :=
  match l with
  | [] => Ret ([], None)
  | subdir :: rest =>
      let! r := AddFeatureFiles skeleton subdir module "." in
      match r with
      | (_, Some e) => Ret ([], Some (errorf ("add " ++ name ++ " (" ++ subdir ++ "): ") e))
      | (created, None) => let! r' := add_subdirs name module rest in Ret (created ++ r'.1, r'.2)
      end
  end.

Definition runAdd (arg : string) : go (option error) :=
  let name := ToLower (TrimSpace arg) in
  match feature_subdirs name features with
  | None => Ret (Some (Fresh ("unknown feature " ++ Quote name ++ " (available: " ++ Join featureNames ", " ++ ")")))
  | Some subdirs =>
      let! module := ReadModulePath getwd in
      match module with
      | Err e => Ret (Some e)
      | Ok module => let! r := add_subdirs name module subdirs in Ret r.2
      end
  end.

(** [make:migration]. *)
Definition writeMigrationFile (path content : string) : go (option error) :=
  let! err := MkdirGenerated (path_Dir path) in
  match err with
  | Some e => Ret (Some (errorf ("mkdir " ++ path_Dir path ++ ": ") e))
  | None =>
      let! exists_ := Stat path in
      if exists_ then Ret (Some (Fresh ("file already exists: " ++ path)))
      else WriteGeneratedFile path content
  end.

Definition runMakeMigration (name : string) : go (option error) :=
  let n := NewNames name in
  let prefix := (timestamp ++ "_" ++ Snake n)%string in
  let! source := os_ReadFile ("internal/domain/entity/" ++ Snake n ++ ".go") in
  let fields := ParseEntityFields (match source with Ok text => ParseFile text | Err _ => None end) in
  let r := replacer [("{{table}}"%string, Table n); ("{{columns}}"%string, RenderMigrationColumns fields)] 0 in
  let! err := writeMigrationFile ("migrations/" ++ prefix ++ ".up.sql") (r migrationUpSQL) in
  match err with
  | Some e => Ret (Some e)
  | None => writeMigrationFile ("migrations/" ++ prefix ++ ".down.sql") (r migrationDownSQL)
  end.

(** [make:worker]. *)
Definition detectWorkerBroker : go string :=
  let! data := os_ReadFile "go.mod" in
  Ret match data with
      | Err _ => ""%string
      | Ok content =>
          let hasKafka := Contains content "segmentio/kafka-go" in
          let hasRabbitMQ := Contains content "rabbitmq/amqp091-go" in
          if hasKafka && hasRabbitMQ then "both"%string
          else if hasKafka then "kafka"%string else if hasRabbitMQ then "rabbitmq"%string else ""%string
      end.

Definition tab : string := String (chr 9) EmptyString.
Definition quotation : string := String (chr 34) EmptyString.

Definition worker_targets (suffix outDir : string) : string :=
  let runTarget := ("run-" ++ suffix)%string in
  let buildTarget := ("build-" ++ suffix)%string in
  Join [""; ".PHONY: " ++ runTarget ++ " " ++ buildTarget; "";
        runTarget ++ ":"; tab ++ "go run " ++ outDir ++ "/main.go"; "";
        buildTarget ++ ":";
        tab ++ "CGO_ENABLED=0 go build -ldflags=" ++ quotation ++ "-s -w" ++ quotation ++ " -o bin/" ++
          suffix ++ " ./" ++ outDir; ""]%string newline.

(** The Makefile is appended to when it can be read and does not mention the run target; a
    failure to write is ignored. *)
Definition appendWorkerMakeTargets (suffix outDir : string) : go unit :=
  let! data := os_ReadFile "Makefile" in
  match data with
  | Err _ => Ret tt
  | Ok content =>
      if Contains content ("run-" ++ suffix) then Ret tt
      else do! os_WriteFile "Makefile" (content ++ worker_targets suffix outDir) in Ret tt
  end.

Definition runMakeWorker (name broker : string) : go (option error) :=
  let! module := ReadModulePath getwd in
  match module with
  | Err e => Ret (Some e)
  | Ok module =>
      let! broker :=
        (if String.eqb broker "" then
           let! detected := detectWorkerBroker in
           Ret (if String.eqb detected "" then "kafka"%string else detected)
         else Ret broker) in
      let kafka := within broker ["kafka"; "both"] in
      let rabbit := within broker ["rabbitmq"; "both"] in
      if negb kafka && negb rabbit
      then Ret (Some (Fresh ("unknown broker " ++ Quote broker ++ " — choose kafka, rabbitmq, or both")))
      else
        let slug := Snake (NewNames name) in
        let suffix := (if String.eqb name "" then "worker" else "worker-" ++ slug)%string in
        let outDir := (if String.eqb name "" then "cmd/worker" else "cmd/worker-" ++ slug)%string in
        match DomainTemplateContent domain "worker_main.go.tmpl" with
        | Err e => Ret (Some e)
        | Ok content =>
            let out := (outDir ++ "/main.go")%string in
            let! err := Render Parse ExecuteWorker content out (MkWorker module suffix kafka rabbit) in
            match err with
            | Some e => Ret (Some (errorf ("generate " ++ out ++ ": ") e))
            | None => do! appendWorkerMakeTargets suffix outDir in Ret None
            end
        end
  end.
End Commands.

(** ** What a command makes *)

(** [makes outs m]: run on any disk, [m] leaves every existing file as it is, creates files
    at [outs] only, and when it succeeds none of them existed before and all do after. *)
Definition makes (outs : list string) (m : go (option error)) : Prop :=
  forall w, let '(err, w') := run m w in
    grows w w' /\ (forall p, p ∉ outs -> files w' !! p = files w !! p) /\
    (err = None -> forall o, o ∈ outs -> ~ present w o /\ is_Some (files w' !! o)).

Lemma makes_nothing (m : go (option error)) :
  (forall w, let '(_, w') := run m w in files w' = files w /\ dirs w ⊆ dirs w') -> makes [] m.
Proof.
  intros H w. specialize (H w). destruct (run m w) as [err w']. destruct H as [Hf Hd].
  split; [split; [by rewrite Hf | done] |]. split; [by rewrite Hf |].
  intros _ o Ho. by apply not_elem_of_nil in Ho.
Qed.

Lemma makes_seq outs1 outs2 (m1 : go (option error)) (wrap : error -> error) (m2 : go (option error)) :
  makes outs1 m1 -> makes outs2 m2 ->
  makes (outs1 ++ outs2)
    (let! err := m1 in match err with Some e => Ret (Some (wrap e)) | None => m2 end).
Proof.
  intros H1 H2 w. rewrite run_bind. specialize (H1 w). destruct (run m1 w) as [err w1].
  destruct H1 as (G1 & U1 & S1). destruct err as [e |]; cbn [run].
  { split; [done |]. split; [| done]. intros p Hp. apply U1. set_solver. }
  specialize (H2 w1). destruct (run m2 w1) as [err w2]. destruct H2 as (G2 & U2 & S2).
  split; [by etrans |]. split; [intros p Hp; rewrite U2, U1; [done | set_solver | set_solver] |].
  intros -> o [Ho | Ho]%elem_of_app.
  - destruct (S1 eq_refl o Ho) as [Hn [c Hc]]. split; [done |]. exists c. by apply G2.
  - destruct (S2 eq_refl o Ho) as [Hn Hs]. split; [| done]. intros Hp. apply Hn.
    by eapply present_grows.
Qed.

Lemma makes_Render {T D} (Parse : string -> result T) (Execute : T -> D -> string * option error) content out data :
  makes [out] (Render Parse Execute content out data).
Proof.
  intros w. pose proof (render_spec Parse Execute content out data w) as H.
  pose proof (keeps_run (fun w' => dirs w ⊆ dirs w') (Render Parse Execute content out data) w) as K.
  destruct (run (Render Parse Execute content out data) w) as [err w']. destruct H as (Hk & Hu & He & Hs).
  split; [split; [done |] |].
  - apply K; [| done]. clear. unfold Render.
    apply keeps_bind; [apply keeps_dirs_MkdirAll |]. intros [e |]; [done |]. apply keeps_bind; [apply keeps_reads |].
    intros []; [done |]. destruct (Parse content); [| done]. apply keeps_bind; [apply keeps_dirs_os_WriteFile |].
    intros [e |]; [done |]. destruct (Execute _ data) as [t [e |]]; [| apply keeps_dirs_os_WriteFile].
    apply keeps_bind; [apply keeps_dirs_os_WriteFile | done].
  - split; [intros p Hp; apply Hu; set_solver |]. intros Herr o ->%list_elem_of_singleton.
    split; [intros Hp; apply He in Hp as [x ->]; done |]. destruct (Hs Herr) as (t & text & _ & _ & ->).
    rewrite lookup_insert_eq. by eexists.
Qed.

(** ** The commands *)

Lemma run_os_ReadFile path w :
  let '(_, w') := run (os_ReadFile path) w in files w' = files w /\ dirs w' = dirs w.
Proof.
  unfold os_ReadFile. rewrite run_act. unfold next_fault.
  by destruct (faults w) as [| [e |] rest]; simpl; destruct (files w !! path).
Qed.

Lemma run_search_gomod fuel dir w :
  let '(_, w') := run (search_gomod fuel dir) w in files w' = files w /\ dirs w' = dirs w.
Proof.
  revert dir w. induction fuel as [| n IH]; intros dir w; cbn [search_gomod]; [done |].
  rewrite run_bind. pose proof (run_os_ReadFile (path_Join dir "go.mod") w) as H.
  destruct (run (os_ReadFile _) w) as [[c | e] w1]; [done |].
  destruct (String.eqb (parent_dir dir) dir); [done |].
  specialize (IH (parent_dir dir) w1). destruct (run (search_gomod n _) w1) as [r w2].
  destruct IH as [-> ->], H as [-> ->]. done.
Qed.

Lemma run_ReadModulePath getwd w :
  let '(_, w') := run (ReadModulePath getwd) w in files w' = files w /\ dirs w' = dirs w.
Proof. destruct getwd as [dir | e]; [apply run_search_gomod | done]. Qed.

Lemma makes_after {X} outs (q : go X) (k : X -> go (option error)) :
  (forall w, let '(_, w') := run q w in files w' = files w /\ dirs w' = dirs w) ->
  (forall x, makes outs (k x)) -> makes outs (let! x := q in k x).
Proof.
  intros Hq Hk w. rewrite run_bind. specialize (Hq w). destruct (run q w) as [x w1].
  destruct Hq as [Hf Hd]. specialize (Hk x w1). destruct (run (k x) w1) as [err w2].
  destruct Hk as ([G1 G2] & U & S). unfold grows, present in *. rewrite Hf, Hd in *. by split_and!.
Qed.

Lemma makes_refusal outs e : makes outs (Ret (Some e)).
Proof. intros w. cbn [run]. by split_and!. Qed.

Section Make.
Context {T : Type} (getwd : result string).
Context (skeleton : node) (domain : string -> result string).
Context (Parse : string -> result T) (ExecuteNames : T -> Names -> string * option error).
Context (ExecuteWorker : T -> workerData -> string * option error).
Context (ParseFile : string -> option (list decl)) (timestamp : string).

Lemma makes_render_files l n : makes (map snd l) (render_files domain Parse ExecuteNames l n).
Proof.
  induction l as [| [tmpl out] l IH]; [by apply makes_nothing |]. cbn [render_files map snd].
  destruct (DomainTemplateContent domain tmpl); [| apply makes_refusal].
  change (out :: map snd l) with ([out] ++ map snd l).
  apply (makes_seq [out] (map snd l) _ (errorf ("generate " ++ out ++ ": "))); [apply makes_Render | done].
Qed.

(** The outputs of a command depend on the snake name only. *)
Definition by_snake (targets : Names -> list (string * string)) : Prop :=
  forall m n, map snd (targets (set_Module m n)) = map snd (targets n).

Lemma makes_run_make targets name :
  by_snake targets ->
  makes (map snd (targets (NewNames name))) (run_make getwd domain Parse ExecuteNames targets name).
Proof.
  intros Hs. unfold run_make. apply makes_after; [apply run_ReadModulePath |].
  intros [m | e]; [| apply makes_refusal]. rewrite <- (Hs m). apply makes_render_files.
Qed.

Definition all_files (n : Names) : list (string * string) :=
  model_files n ++ repo_files n ++ usecase_files n ++ controller_files n ++ route_files n ++
  client_files n ++ test_files n ++ handler_test_files n.

Lemma makes_steps l name outs :
  Forall2 (fun o s => makes o (s.2 name)) outs l ->
  makes (List.concat outs) (run_steps l name).
Proof.
  induction 1 as [| o [label step] outs l Ho _ IH]; [by apply makes_nothing |].
  cbn [run_steps List.concat]. by apply (makes_seq o _ _ (errorf ("make:" ++ label ++ " failed: "))).
Qed.

Lemma makes_targets t name : by_snake t ->
  makes (map snd (t (NewNames name))) (run_make getwd domain Parse ExecuteNames t name).
Proof. intros. by apply makes_run_make. Qed.

Lemma make_all_makes (name : string) :
  makes (map snd (all_files (NewNames name))) (make_all getwd domain Parse ExecuteNames name).
Proof.
  unfold all_files. rewrite !map_app.
  replace (map snd (handler_test_files (NewNames name)))
    with (map snd (handler_test_files (NewNames name)) ++ []) by apply app_nil_r.
  apply (makes_steps (all_steps getwd domain Parse ExecuteNames) name
    [map snd (model_files (NewNames name)); map snd (repo_files (NewNames name));
     map snd (usecase_files (NewNames name)); map snd (controller_files (NewNames name));
     map snd (route_files (NewNames name)); map snd (client_files (NewNames name));
     map snd (test_files (NewNames name)); map snd (handler_test_files (NewNames name))]).
  repeat constructor; by apply makes_targets.
Qed.

(** C36. [make:all] never overwrites a file and creates none but the ten of the domain; when it
    succeeds none of them existed before, and all exist afterwards; when one exists already
    it fails. So it is with each of its steps and with [make:event]. *)
Theorem make_all_spec (name : string) :
  makes (map snd (all_files (NewNames name))) (make_all getwd domain Parse ExecuteNames name) /\
  Forall (fun c => makes (map snd (c.1 (NewNames name))) (c.2 name))
    [(model_files, runMakeModel getwd domain Parse ExecuteNames);
     (repo_files, runMakeRepo getwd domain Parse ExecuteNames);
     (usecase_files, runMakeUsecase getwd domain Parse ExecuteNames);
     (controller_files, runMakeController getwd domain Parse ExecuteNames);
     (route_files, runMakeRoute getwd domain Parse ExecuteNames);
     (client_files, runMakeClient getwd domain Parse ExecuteNames);
     (test_files, runMakeTest getwd domain Parse ExecuteNames);
     (handler_test_files, runMakeHandlerTest getwd domain Parse ExecuteNames);
     (event_files, runMakeEvent getwd domain Parse ExecuteNames)].
Proof. split; [apply make_all_makes | repeat constructor; by apply makes_targets]. Qed.

(** ** Migrations *)

Definition up_path (name : string) : string := ("migrations/" ++ (timestamp ++ "_" ++ Snake (NewNames name)) ++ ".up.sql")%string.
Definition down_path (name : string) : string := ("migrations/" ++ (timestamp ++ "_" ++ Snake (NewNames name)) ++ ".down.sql")%string.

Lemma makes_writeMigrationFile path content :
  makes [path] (writeMigrationFile path content) /\
  forall w, (run (writeMigrationFile path content) w).1 = None ->
    files (run (writeMigrationFile path content) w).2 !! path = Some content.
Proof.
  assert (H : forall w, let '(err, w') := run (writeMigrationFile path content) w in
    grows w w' /\ (files w' = files w \/ files w' = <[path := content]> (files w)) /\
    (err = None -> ~ present w path /\ files w' = <[path := content]> (files w))).
  { intros w. unfold writeMigrationFile, MkdirGenerated. rewrite run_bind.
    pose proof (run_MkdirAll (path_Dir path) w) as Hm.
    destruct (run (MkdirAll _) w) as [[e |] w1]; destruct Hm as [Hf Hd]; cbn [run].
    { split; [split; [by rewrite Hf | done] |]. split; [by left | done]. }
    rewrite run_bind, run_Stat. case_bool_decide as Hex; cbn [run].
    { split; [split; [by rewrite Hf | done] |]. split; [by left | done]. }
    assert (Hno : ~ present w path).
    { intros Hp. apply Hex. rewrite Hf. destruct Hp; [by left | right; set_solver]. }
    pose proof (run_WriteGeneratedFile path content w1) as Hw.
    destruct (run (WriteGeneratedFile path content) w1) as [[e |] w2]; destruct Hw as [Hd2 Hf2].
    - split; [split; [by rewrite Hf2, Hf | set_solver] |]. split; [left; by rewrite Hf2 | done].
    - rewrite Hf in Hf2. split.
      + split; [| set_solver]. intros p c Hc. rewrite Hf2, lookup_insert_ne; [done |].
        intros <-. apply Hno. left. by exists c.
      + split; [by right |]. by split. }
  split.
  - intros w. specialize (H w). destruct (run _ w) as [err w']. destruct H as (G & U & S).
    split; [done |]. split.
    + intros p Hp. destruct U as [-> | ->]; [done |]. rewrite lookup_insert_ne; [done | set_solver].
    + intros Herr o ->%list_elem_of_singleton. destruct (S Herr) as [Hn ->].
      split; [done |]. rewrite lookup_insert_eq. by eexists.
  - intros w Herr. specialize (H w). destruct (run _ w) as [err w']. destruct H as (_ & _ & S).
    simpl in *. destruct (S Herr) as [_ ->]. apply lookup_insert_eq.
Qed.

(** The two statements of a migration, for a table and its columns. *)
Definition create_table (t columns : string) : string :=
  "-- Migration up: " ++ t ++ newline ++
  Join ["-- Compatible with MySQL 8+ and PostgreSQL 14+.";
        "-- Postgres: replace VARCHAR(36) → UUID, TIMESTAMP(3) → TIMESTAMPTZ."; "";
        "CREATE TABLE IF NOT EXISTS "] newline ++ t ++ " (" ++ newline ++
  Join ["    id         VARCHAR(36)  NOT NULL,";
        "    created_at TIMESTAMP(3) NOT NULL DEFAULT CURRENT_TIMESTAMP(3),";
        "    updated_at TIMESTAMP(3) NOT NULL DEFAULT CURRENT_TIMESTAMP(3),";
        "    deleted_at TIMESTAMP(3) NULL,"; ""] newline ++ columns ++ newline ++
  "    PRIMARY KEY (id)," ++ newline ++
  "    INDEX idx_" ++ t ++ "_deleted_at (deleted_at)" ++ newline ++ ");" ++ newline.
Definition drop_table (t : string) : string :=
  "-- Migration down: " ++ t ++ newline ++ newline ++ "DROP TABLE IF EXISTS " ++ t ++ ";" ++ newline.

Lemma replaced_up t c :
  replacer [("{{table}}", t); ("{{columns}}", c)] 0 migrationUpSQL = create_table t c.
Proof. reflexivity. Qed.
Lemma replaced_down t c :
  replacer [("{{table}}", t); ("{{columns}}", c)] 0 migrationDownSQL = drop_table t.
Proof. reflexivity. Qed.

(** [make:migration] creates its two files and touches no other; on success the first
    creates the table named after the argument, with the columns of the entity's fields as
    the source file is read, and the second drops that very table. *)
Theorem migration_spec (name : string) :
  makes [up_path name; down_path name] (runMakeMigration ParseFile timestamp name) /\
  forall w, (run (runMakeMigration ParseFile timestamp name) w).1 = None ->
    let w' := (run (runMakeMigration ParseFile timestamp name) w).2 in
    exists fields, files w' !! (up_path name) =
        Some (create_table (Table (NewNames name)) (RenderMigrationColumns fields)) /\
      files w' !! (down_path name) = Some (drop_table (Table (NewNames name))) /\
      (fields = [] \/ exists text, files w !! ("internal/domain/entity/" ++ Snake (NewNames name) ++ ".go")%string = Some text /\
         fields = ParseEntityFields (ParseFile text)).
Proof.
  split.
  - unfold runMakeMigration. apply makes_after; [apply run_os_ReadFile |]. intros source.
    rewrite replaced_up, replaced_down.
    apply (makes_seq [up_path name] [down_path name] _ (fun e => e)); apply makes_writeMigrationFile.
  - intros w. unfold runMakeMigration. rewrite run_bind.
    set (path := ("internal/domain/entity/" ++ Snake (NewNames name) ++ ".go")%string).
    assert (Hs : forall text, (run (os_ReadFile path) w).1 = Ok text -> files w !! path = Some text).
    { intros text. unfold os_ReadFile. rewrite run_act. unfold next_fault.
      by destruct (faults w) as [| [e |] rest]; simpl; destruct (files w !! path); intros [= ->]. }
    destruct (run (os_ReadFile path) w) as [source w0].
    set (fields := ParseEntityFields _). rewrite replaced_up, replaced_down, run_bind.
    fold (up_path name) (down_path name).
    destruct (makes_writeMigrationFile (up_path name) (create_table (Table (NewNames name)) (RenderMigrationColumns fields)))
      as [_ Hup]. specialize (Hup w0). destruct (run (writeMigrationFile (up_path name) _) w0) as [[e |] w1]; [done |].
    specialize (Hup eq_refl). cbn [snd] in Hup. intros Hdown.
    destruct (makes_writeMigrationFile (down_path name) (drop_table (Table (NewNames name)))) as [Hm Hc].
    specialize (Hc w1 Hdown). specialize (Hm w1).
    destruct (run (writeMigrationFile (down_path name) _) w1) as [err w2]. destruct Hm as ([G _] & _).
    exists fields. split; [by apply G |]. split; [exact Hc |].
    unfold fields. destruct source as [text | e]; [right; exists text; split; [by apply Hs | done] | by left].
Qed.

(** ** Adding a feature *)

(** [add] knows six features; any other name is refused and nothing changes. A feature is
    copied without overwriting a file of the project, whatever fails on the way. *)
Theorem run_add_spec (arg : string) (w : FS) :
  let '(err, w') := run (runAdd getwd skeleton arg) w in
  (forall p c, files w !! p = Some c -> files w' !! p = Some c) /\
  (ToLower (TrimSpace arg) ∉ featureNames -> is_Some err /\ w' = w).
Proof.
  unfold runAdd. destruct (feature_subdirs (ToLower (TrimSpace arg)) features) as [subdirs |] eqn:Ef.
  2:{ cbn [run]. split; [done |]. by eauto. }
  assert (Hin : ToLower (TrimSpace arg) ∈ featureNames).
  { revert Ef. cbn [feature_subdirs features].
    repeat (match goal with |- context [String.eqb ?k ?n] =>
              destruct (String.eqb_spec k n) as [<- |]; [intros _; unfold featureNames; set_solver |] end).
    done. }
  rewrite run_bind. pose proof (run_ReadModulePath getwd w) as Hr.
  destruct (run (ReadModulePath getwd) w) as [[m | e] w1]; destruct Hr as [Hf _]; cbn [run].
  2:{ split; [by rewrite Hf | done]. }
  rewrite run_bind.
  assert (H : forall l n w, let '(_, w') := run (add_subdirs skeleton n m l) w in
            forall p c, files w !! p = Some c -> files w' !! p = Some c).
  { induction l as [| d l IH]; intros n w0; cbn [add_subdirs]; [by cbn; auto |]. rewrite run_bind.
    pose proof (add_feature_spec skeleton d m w0) as Ha.
    destruct (run (AddFeatureFiles skeleton d m ".") w0) as [[created [e |]] w2]; destruct Ha as (Hp & _);
      cbn [run]; [done |]. rewrite run_bind. specialize (IH n w2).
    destruct (run (add_subdirs skeleton n m l) w2) as [r w3]. cbn [run]. auto. }
  specialize (H subdirs (ToLower (TrimSpace arg)) w1).
  destruct (run (add_subdirs _ _ _ _) w1) as [r w2]. cbn [run]. rewrite Hf in H. by split.
Qed.
End Make.

Module CommandsWitness.

(** The Makefile mentions [run-worker-order]: no target is added for a worker without a
    name, although its own run target does not exist. *)
Theorem worker_target_skipped :
  let makefile := ("all:" ++ newline ++ worker_targets "worker-order" "cmd/worker-order")%string in
  let w := MkFS {["Makefile"%string := makefile]} ∅ [] in
  (run (appendWorkerMakeTargets "worker" "cmd/worker") w).2 = w /\
  Contains makefile (newline ++ "run-worker:") = false.
Proof. by vm_compute. Qed.

(** A domain made in an empty project. *)
Definition project : FS := MkFS {["/src/shop/go.mod"%string := "module github.com/me/shop"%string]} ∅ [].
Example ten_files :
  size (files (run (make_all (Ok "/src/shop") (fun _ => Ok "template") (fun s => Ok s)
                      (fun _ n => (Pascal n, None)) "order-item") project).2) = 11%nat.
Proof. by vm_compute. Qed.
End CommandsWitness.
