(* ===== verification/Upgrade.v ===== *)
(** The [upgrade] command ([cli/commands/upgrade.go]): versions, release tags, and when
    the Go toolchain is asked to install what. The network and the toolchain are the
    environment; what is printed is left out. *)

From stdpp Require Import base list strings sets.
From Stdlib Require Import ZArith Lia Ascii String.
From S2P Require Import Prelude Prog GoStrings Broker.

(** ** Versions *)

(** [v[:strings.IndexAny(v, chars)]]: the text up to the first of some bytes. *)
Fixpoint up_to (stop : ascii -> bool) (s : string) : string :=
  match s with
  | EmptyString => EmptyString
  | String c s' => if stop c then EmptyString else String c (up_to stop s')
  end.
Fixpoint from_first (stop : ascii -> bool) (s : string) : string :=
  match s with
  | EmptyString => EmptyString
  | String c s' => if stop c then s else from_first stop s'
  end.

Definition suffix_mark (c : ascii) : bool := Ascii.eqb c "-" || Ascii.eqb c "+".

(** Three integers; a part that is missing is 0, one that is no number has the value
    [Atoi] gives with its error. *)
Definition semverParts (v : string) : list Z :=
  let parts := SplitN (up_to suffix_mark v) "." 3 in
  let part i := match parts !! i with Some p => (Atoi p).1 | None => 0 end in
  [part 0%nat; part 1%nat; part 2%nat].

Fixpoint parts_greater (a b : list Z) : bool :=
  match a, b with
  | x :: a', y :: b' => if x =? y then parts_greater a' b' else y <? x
  | _, _ => false
  end.
Definition semverGreater (a b : string) : bool := parts_greater (semverParts a) (semverParts b).

(** ** Release tags: the language of [releaseTagRe] *)

Definition is_alnum (c : ascii) : bool := is_upper c || is_lower c || is_digit c.

(** [0|[1-9][0-9]*]. *)
Definition is_number (s : string) : bool :=
  match s with
  | EmptyString => false
  | String c s' =>
      if Ascii.eqb c "0" then String.eqb s' "" else is_digit c && str_forall is_digit s'
  end.
(** [[0-9A-Za-z]+(\.[0-9A-Za-z]+)*]. *)
Definition is_identifiers (s : string) : bool :=
  forallb (fun p => negb (String.eqb p "") && str_forall is_alnum p) (Split s ".").

Definition is_core (s : string) : bool :=
  match Split s "." with [a; b; c] => is_number a && is_number b && is_number c | _ => false end.

(** The pre-release and the build part, each with its mark. *)
Definition is_build (s : string) : bool :=
  match s with
  | EmptyString => true
  | String c s' => Ascii.eqb c "+" && is_identifiers s'
  end.
Definition is_suffix (s : string) : bool :=
  match s with
  | String "-" s' => is_identifiers (up_to (Ascii.eqb "+") s') && is_build (from_first (Ascii.eqb "+") s')
  | _ => is_build s
  end.

Definition releaseTagRe (tag : string) : bool :=
  match tag with
  | String "v" s => is_core (up_to suffix_mark s) && is_suffix (from_first suffix_mark s)
  | _ => false
  end.

Definition validateReleaseTag (tag : string) : option error :=
  if negb (releaseTagRe tag) then Some (Fresh ("unexpected release tag " ++ Quote tag)) else None.

(** ** The command *)

Definition upgradeReleaseURL : string := "https://api.github.com/repos/abdullahPrasetio/wapgo/releases/latest".
Definition upgradeInstallPkg : string := "github.com/abdullahPrasetio/wapgo/cli/wapgo".

Record githubRelease : Type := MkRelease { TagName : string; HTMLURL : string }.

(** The calls: a request to GitHub with its headers, a look-up of the toolchain, a process. *)
Inductive event : Type :=
| Requested (url userAgent : string)
| LookedUp (r : result string)
| Ran (exe : string) (args : list string) (r : option error).

Record Env : Type := MkEnv {
  env_get : result (Z * result githubRelease);   (* status, and the decoded first 64 KiB *)
  env_lookpath : result string;
  env_run : option error
}.

Section Upgrade.
Context (env : Env) (Version : string).
Notation go := (prog (list event)).

Definition fetchLatestRelease : go (result githubRelease) :=
  let! resp := call (fun _ => env_get env) (fun _ => Requested upgradeReleaseURL ("wapgo-cli/" ++ Version)) in
  Ret match resp with
      | Err e => Err e
      | Ok (status, body) =>
          if negb (status =? 200) then Err (Fresh ("GitHub API status " ++ Itoa status)) else body
      end.

Definition runUpgrade (checkOnly : bool) : go (option error) :=
  let! rel := fetchLatestRelease in
  match rel with
  | Err _ => Ret None (* offline is not a hard error *)
  | Ok rel =>
      let latestTag := TagName rel in
      let current := TrimPrefix Version "v" in
      let latest := TrimPrefix latestTag "v" in
      if String.eqb Version "dev" then Ret None
      else if negb (semverGreater latest current) then Ret None
      else if checkOnly then Ret None
      else
        let! p := call (fun _ => env_lookpath env) LookedUp in
        let goExe := match p with Ok p => p | Err _ => "go"%string end in
        match validateReleaseTag latestTag with
        | Some e => Ret (Some e)
        | None =>
            let installRef := (upgradeInstallPkg ++ "@" ++ latestTag)%string in
            let! err := call (fun _ => env_run env) (Ran goExe ["install"%string; installRef]) in
            match err with
            | Some _ => Ret (Some (Fresh "go install failed"))
            | None => Ret None
            end
        end
  end.
End Upgrade.

(** ** What the comparison means *)

(** The text of a version, with any suffix. *)
Definition version_text (a b c : Z) (suffix : string) : string :=
  (Itoa a ++ "." ++ Itoa b ++ "." ++ Itoa c ++ suffix)%string.

Definition is_mark_suffix (s : string) : Prop :=
  match s with EmptyString => True | String c _ => suffix_mark c = true end.

Lemma up_to_app stop a s :
  str_forall (fun c => negb (stop c)) a = true ->
  match s with EmptyString => True | String c _ => stop c = true end ->
  up_to stop (a ++ s) = a.
Proof.
  intros Ha Hs. induction a as [| c a IH].
  - rewrite append_nil. destruct s as [| c s]; [done |]. simpl. by rewrite Hs.
  - simpl in Ha. apply andb_prop in Ha as [Hc Ha]. rewrite append_cons. simpl.
    destruct (stop c); [done |]. by rewrite IH.
Qed.

Lemma splitn_acc_spec sep n cur w s :
  str_forall (fun c => negb (Ascii.eqb c sep)) w = true ->
  splitn_acc sep (S (S n)) cur (w ++ String sep s) = (str_rev cur ++ w)%string :: splitn_acc sep (S n) EmptyString s.
Proof.
  revert cur. induction w as [| c w IH]; intros cur Hw.
  - rewrite append_nil. cbn [splitn_acc]. by rewrite Ascii.eqb_refl, append_nil_r.
  - simpl in Hw. apply andb_prop in Hw as [Hc Hw]. rewrite append_cons. cbn [splitn_acc].
    destruct (Ascii.eqb c sep); [done |]. rewrite IH by done. by rewrite str_rev_cons, append_assoc.
Qed.

Lemma splitn_acc_none sep n cur w :
  str_forall (fun c => negb (Ascii.eqb c sep)) w = true ->
  splitn_acc sep n cur w = [(str_rev cur ++ w)%string].
Proof.
  revert cur. induction w as [| c w IH]; intros cur Hw; cbn [splitn_acc]; [by rewrite append_nil_r |].
  simpl in Hw. apply andb_prop in Hw as [Hc Hw]. destruct (Ascii.eqb c sep); [done |].
  rewrite IH by done. by rewrite str_rev_cons, append_assoc.
Qed.

Lemma digits_free z p :
  0 <= z -> (forall c, is_digit c = true -> p c = false) -> str_forall (fun c => negb (p c)) (Itoa z) = true.
Proof.
  intros Hz Hp. apply (str_forall_impl is_digit); [| by apply Itoa_digits].
  intros c Hc. by rewrite Hp.
Qed.

Lemma digit_not c d : is_digit c = true -> is_digit d = false -> Ascii.eqb c d = false.
Proof. intros Hc Hd. destruct (Ascii.eqb_spec c d) as [-> |]; [congruence | done]. Qed.

Lemma semverParts_text a b c suffix :
  0 <= a < 2 ^ 63 -> 0 <= b < 2 ^ 63 -> 0 <= c < 2 ^ 63 -> is_mark_suffix suffix ->
  semverParts (version_text a b c suffix) = [a; b; c].
Proof.
  intros Ha Hb Hc Hs. unfold semverParts, version_text.
  assert (Hdot : forall z, 0 <= z -> str_forall (fun x => negb (Ascii.eqb x ".")) (Itoa z) = true)
    by (intros z Hz; apply (digits_free z (fun x => Ascii.eqb x ".")); [done |]; intros x Hx; by apply digit_not).
  assert (Hm : forall z, 0 <= z -> str_forall (fun x => negb (suffix_mark x)) (Itoa z) = true).
  { intros z Hz. apply digits_free; [done |]. intros x Hx. unfold suffix_mark.
    by rewrite !digit_not. }
  replace (Itoa a ++ "." ++ Itoa b ++ "." ++ Itoa c ++ suffix)%string
    with ((Itoa a ++ "." ++ Itoa b ++ "." ++ Itoa c) ++ suffix)%string by (by rewrite !append_assoc).
  rewrite up_to_app; [| rewrite !str_forall_app, !Hm by lia; reflexivity | exact Hs].
  unfold SplitN. change ("." ++ Itoa b ++ "." ++ Itoa c)%string with (String "." (Itoa b ++ String "." (Itoa c))).
  rewrite splitn_acc_spec by (apply Hdot; lia). rewrite splitn_acc_spec by (apply Hdot; lia).
  rewrite splitn_acc_none by (apply Hdot; lia). change (str_rev EmptyString) with EmptyString.
  rewrite !append_nil. cbn [lookup list_lookup]. by rewrite !Atoi_Itoa by lia.
Qed.

(** Versions are compared number by number: for two versions of three numbers, whatever
    suffixes they carry, one is greater exactly when it is first to have a greater number. *)
Theorem semver_order (a1 b1 c1 a2 b2 c2 : Z) (s1 s2 : string) :
  Forall (fun z => 0 <= z < 2 ^ 63) [a1; b1; c1; a2; b2; c2] ->
  is_mark_suffix s1 -> is_mark_suffix s2 ->
  semverGreater (version_text a1 b1 c1 s1) (version_text a2 b2 c2 s2) = true <->
  a2 < a1 \/ (a1 = a2 /\ (b2 < b1 \/ (b1 = b2 /\ c2 < c1))).
Proof.
  intros H Hs1 Hs2. rewrite !Forall_cons in H. destruct H as (? & ? & ? & ? & ? & ? & _).
  unfold semverGreater. rewrite !semverParts_text by done. cbn [parts_greater].
  destruct (Z.eqb_spec a1 a2); [| rewrite Z.ltb_lt; lia].
  destruct (Z.eqb_spec b1 b2); [| rewrite Z.ltb_lt; lia].
  destruct (Z.eqb_spec c1 c2); [split; [done | lia] | rewrite Z.ltb_lt; lia].
Qed.

(** ** What a release tag is made of *)

Lemma Join_Split sep s : Join (Split s sep) (String sep EmptyString) = s.
Proof.
  assert (H : forall cur, Join (split_acc sep cur s) (String sep EmptyString) = (str_rev cur ++ s)%string
              /\ split_acc sep cur s <> []).
  { induction s as [| c s IH]; intros cur; cbn [split_acc].
    - split; [cbn [Join]; by rewrite append_nil_r | done].
    - destruct (Ascii.eqb_spec c sep) as [-> |].
      + split; [| done]. destruct (IH EmptyString) as [E Hne].
        destruct (split_acc sep EmptyString s) as [| x l]; [done |].
        change (Join (str_rev cur :: x :: l) (String sep EmptyString))
          with (str_rev cur ++ String sep EmptyString ++ Join (x :: l) (String sep EmptyString))%string.
        rewrite E. reflexivity.
      + destruct (IH (String c cur)) as [E Hne]. split; [| done].
        by rewrite E, str_rev_cons, append_assoc. }
  exact (proj1 (H EmptyString)).
Qed.

Lemma str_forall_Split p sep s :
  p sep = true -> forallb (str_forall p) (Split s sep) = true -> str_forall p s = true.
Proof.
  intros Hsep H. rewrite <- (Join_Split sep s). revert H.
  induction (Split s sep) as [| x l IH]; [done |]. simpl. intros [Hx Hl]%andb_prop.
  destruct l as [| y l]; [done |].
  change (str_forall p (x ++ String sep EmptyString ++ Join (y :: l) (String sep EmptyString)) = true).
  rewrite !str_forall_app, Hx, IH by done. simpl. by rewrite Hsep.
Qed.

Lemma up_to_from stop s : (up_to stop s ++ from_first stop s)%string = s.
Proof.
  induction s as [| c s IH]; [done |]. cbn [up_to from_first]. destruct (stop c); [done |].
  rewrite append_cons. by rewrite IH.
Qed.

(** The bytes of a tag. *)
Definition tag_byte (c : ascii) : bool :=
  is_alnum c || Ascii.eqb c "." || Ascii.eqb c "-" || Ascii.eqb c "+".

Lemma tag_byte_alnum c : is_alnum c = true -> tag_byte c = true.
Proof. intros H. unfold tag_byte. by rewrite H. Qed.

Lemma tag_byte_digit c : is_digit c = true -> tag_byte c = true.
Proof. intros H. apply tag_byte_alnum. unfold is_alnum. by rewrite H, orb_true_r. Qed.

Lemma identifiers_bytes s : is_identifiers s = true -> str_forall tag_byte s = true.
Proof.
  intros H. apply (str_forall_Split _ "."); [done |]. unfold is_identifiers in H.
  rewrite forallb_forall in H. apply forallb_forall. intros x Hx.
  specialize (H x Hx). apply andb_prop in H as [_ H]. by apply (str_forall_impl is_alnum); [apply tag_byte_alnum |].
Qed.

Lemma number_bytes s : is_number s = true -> str_forall tag_byte s = true.
Proof.
  destruct s as [| c s]; [done |]. cbn [is_number].
  destruct (Ascii.eqb_spec c "0") as [-> |]; [by intros ->%String.eqb_eq |].
  intros [Hc Hs]%andb_prop. cbn [str_forall]. rewrite tag_byte_digit by done.
  by apply (str_forall_impl is_digit); [apply tag_byte_digit |].
Qed.

Lemma core_bytes s : is_core s = true -> str_forall tag_byte s = true.
Proof.
  intros H. apply (str_forall_Split _ "."); [done |]. unfold is_core in H.
  destruct (Split s ".") as [| a [| b [| c [| ? ?]]]]; try done.
  apply andb_prop in H as [[Ha Hb]%andb_prop Hc]. cbn [forallb].
  by rewrite !number_bytes.
Qed.

Lemma build_bytes s : is_build s = true -> str_forall tag_byte s = true.
Proof.
  destruct s as [| c s]; [done |]. cbn [is_build]. intros [->%Ascii.eqb_eq Hs]%andb_prop.
  cbn [str_forall]. by rewrite identifiers_bytes.
Qed.

Lemma suffix_bytes s : is_suffix s = true -> str_forall tag_byte s = true.
Proof.
  intros H. destruct s as [| c s]; [done |].
  destruct (Ascii.eqb_spec c "-") as [-> | Hc].
  - change (is_identifiers (up_to (Ascii.eqb "+") s) && is_build (from_first (Ascii.eqb "+") s) = true) in H.
    apply andb_prop in H as [H1 H2]. cbn [str_forall].
    rewrite <- (up_to_from (Ascii.eqb "+") s). rewrite str_forall_app.
    by rewrite (identifiers_bytes _ H1), (build_bytes _ H2).
  - apply build_bytes. destruct c as [[] [] [] [] [] [] [] []]; try exact H. by destruct Hc.
Qed.

(** A tag that passes is a [v], then letters, digits, dots, dashes and plus signs only: no
    blank, no slash, no at sign. *)
Lemma tag_plain tag :
  releaseTagRe tag = true -> HasPrefix tag "v" = true /\ str_forall tag_byte tag = true.
Proof.
  intros H. destruct tag as [| c s]; [done |].
  destruct (Ascii.eqb_spec c "v") as [-> | Hc].
  - change (is_core (up_to suffix_mark s) && is_suffix (from_first suffix_mark s) = true) in H.
    apply andb_prop in H as [H1 H2]. split; [by destruct s |]. cbn [str_forall].
    rewrite <- (up_to_from suffix_mark s). rewrite str_forall_app.
    by rewrite (core_bytes _ H1), (suffix_bytes _ H2).
  - destruct c as [[] [] [] [] [] [] [] []]; done.
Qed.

(** The toolchain is asked to install at most once, and only when an upgrade was asked for, the
    installed version is a release and the latest one is greater; what it is asked for is
    the program's own package at a tag of plain characters. Nothing but a malformed tag or
    an installation that fails makes the command fail; in particular being offline does not. *)
Theorem upgrade_spec (env : Env) (Version : string) (checkOnly : bool) :
  let '(err, h) := run (runUpgrade env Version checkOnly) [] in
  (forall exe args r, Ran exe args r ∈ h ->
     checkOnly = false /\ Version <> "dev"%string /\ r = env_run env /\
     exists tag, args = ["install"%string; (upgradeInstallPkg ++ "@" ++ tag)%string] /\
       HasPrefix tag "v" = true /\ str_forall tag_byte tag = true /\
       semverGreater (TrimPrefix tag "v") (TrimPrefix Version "v") = true) /\
  (List.length (List.filter (fun e => match e with Ran _ _ _ => true | _ => false end) h) <= 1)%nat /\
  (is_Some err -> exists rel, env_get env = Ok (200, Ok rel) /\
     (releaseTagRe (TagName rel) = false \/ is_Some (env_run env))).
Proof.
  unfold runUpgrade, fetchLatestRelease. rewrite run_bind, run_bind, run_call.
  assert (N : forall exe args r, Ran exe args r ∈ [Requested upgradeReleaseURL ("wapgo-cli/" ++ Version)] -> False)
    by (intros; set_solver).
  destruct (env_get env) as [[status body] | e] eqn:Eg; cbn [run].
  2:{ split_and!; [by intros ? ? ? ?%N | simpl; lia | by intros []]. }
  destruct (Z.eqb_spec status 200) as [-> |]; cbn [negb].
  2:{ cbn [run]. split_and!; [by intros ? ? ? ?%N | simpl; lia | by intros []]. }
  destruct body as [rel | e]; cbn [run].
  2:{ split_and!; [by intros ? ? ? ?%N | simpl; lia | by intros []]. }
  destruct (String.eqb_spec Version "dev") as [Hdev | Hdev]; cbn [run].
  { split_and!; [by intros ? ? ? ?%N | simpl; lia | by intros []]. }
  destruct (semverGreater (TrimPrefix (TagName rel) "v") (TrimPrefix Version "v")) eqn:Egt; cbn [negb].
  2:{ cbn [run]. split_and!; [by intros ? ? ? ?%N | simpl; lia | by intros []]. }
  destruct checkOnly; cbn [run].
  { split_and!; [by intros ? ? ? ?%N | simpl; lia | by intros []]. }
  rewrite run_bind, run_call. unfold validateReleaseTag.
  destruct (releaseTagRe (TagName rel)) eqn:Etag; cbn [negb run].
  2:{ split_and!; [set_solver | simpl; lia | intros _; exists rel; by split; [| left]]. }
  rewrite run_bind, run_call. destruct (tag_plain _ Etag) as [Hv Hb].
  assert (Hran : forall exe args r h, Ran exe args r ∈ (Ran (match env_lookpath env with Ok p => p | Err _ => "go"%string end)
       ["install"%string; (upgradeInstallPkg ++ "@" ++ TagName rel)%string] (env_run env) :: h) ->
       (forall exe args r, Ran exe args r ∈ h -> False) ->
       args = ["install"%string; (upgradeInstallPkg ++ "@" ++ TagName rel)%string] /\ r = env_run env).
  { intros exe args r h [[= _ -> ->] | Hin]%elem_of_cons Hh; [done |]. by destruct (Hh _ _ _ Hin). }
  destruct (env_run env) as [e |] eqn:Er; cbn [run]; split_and!;
    try (intros exe args r Hin; apply Hran in Hin as [-> ->]; [by eauto 10 | set_solver]);
    try (simpl; lia); [intros _; exists rel; split; [done | by right; eexists] | by intros []].
Qed.

Module UpgradeWitness.

Lemma semver_order_witness :
  semverGreater (version_text 1 10 0 "-rc1") (version_text 1 9 3 "") = true.
Proof.
  refine (proj2 (semver_order 1 10 0 1 9 3 "-rc1" "" _ _ _) _).
  - repeat constructor; lia.
  - reflexivity.
  - exact I.
  - right. split; [reflexivity |]. left. lia.
Defined.

(** A pre-release counts as its release: from [1.4.1-rc1] there is no upgrade to [1.4.1]. *)
Example prerelease_is_release : semverGreater "1.4.1" "1.4.1-rc1" = false.
Proof. by vm_compute. Qed.

Example tags :
  map releaseTagRe ["v1.4.1"; "v1.4.1-rc.1+build.5"; "v01.2.3"; "v1.2"; "v1.2.3 -x"; "v1.2.3/../x"; "latest"]%string
  = [true; true; false; false; false; false; false].
Proof. by vm_compute. Qed.
End UpgradeWitness.
