(* ===== verification/Notify.v ===== *)
(** The notification add-ons ([pkg/notification]): the SMTP mailer (email/email.go and
    health.go) and the Firebase push client (firebase/firebase.go and health.go). net/smtp,
    net/http, the JWT library, the network and the clock are the environment, which
    answers every call from the history of the calls before it. Spans and debug lines
    are left out. *)

From stdpp Require Import base list strings gmap sets.
From Stdlib Require Import ZArith Lia Ascii String.
From S2P Require Import Prelude Prog GoStrings Json Journal Migrate.

(** ** The world of an add-on: its calls, newest first, a state and the journal of the
    request with its files. *)

Record World (E S : Type) : Type := MkWorld { hist : list E; state : S; files : option Journal * Files }.
Arguments MkWorld {E S}.
Arguments hist {E S}.
Arguments state {E S}.
Arguments files {E S}.

Section Calls.
Context {E S : Type}.

Definition ask {X} (answer : list E -> X) (event : X -> E) : prog (World E S) X :=
  act (fun w => let x := answer (hist w) in (x, MkWorld (event x :: hist w) (state w) (files w))).
Definition did (e : E) : prog (World E S) unit := ask (fun _ => tt) (fun _ => e).
Definition set_state (s : S) : prog (World E S) unit := act (fun w => (tt, MkWorld (hist w) s (files w))).
Definition journal_add (tp : ThirdParty) : prog (World E S) unit :=
  act (fun w => (tt, MkWorld (hist w) (state w) (AddThirdParty tp (files w)))).

Lemma run_ask {X} (answer : list E -> X) (event : X -> E) (w : World E S) :
  run (ask answer event) w =
  (answer (hist w), MkWorld (event (answer (hist w)) :: hist w) (state w) (files w)).
Proof. reflexivity. Qed.
Lemma run_did e (w : World E S) : run (did e) w = (tt, MkWorld (e :: hist w) (state w) (files w)).
Proof. reflexivity. Qed.
End Calls.

Definition no_error (err : option error) : string := match err with Some e => error_text e | None => ""%string end.

Module Email.

Record Message : Type := MkMessage {
  To : list string; CC : list string; Subject : string; Body : string; IsHTML : bool
}.
Record Config : Type := MkConfig {
  Host : string; Port : Z; Username : string; Password : string; From : string; Timeout : Z
}.

Definition NewSMTPMailer (cfg : Config) : Config :=
  if Timeout cfg =? 0
  then MkConfig (Host cfg) (Port cfg) (Username cfg) (Password cfg) (From cfg) (10 * Second) else cfg.

Definition CR : ascii := chr 13.
Definition LF : ascii := chr 10.
Definition crlf : string := String CR (String LF EmptyString).

Fixpoint sanitizeHeader (s : string) : string :=
  match s with
  | EmptyString => EmptyString
  | String c s' => if Ascii.eqb c CR || Ascii.eqb c LF then sanitizeHeader s' else String c (sanitizeHeader s')
  end.

Definition quotes (s : string) : string := String (chr 34) (s ++ String (chr 34) EmptyString).

Definition buildRaw (cfg : Config) (msg : Message) : string :=
  let ct := (if IsHTML msg then "text/html" else "text/plain")%string in
  ("From: " ++ sanitizeHeader (From cfg) ++ crlf ++
   "To: " ++ sanitizeHeader (Join (To msg) ", ") ++ crlf ++
   "Cc: " ++ sanitizeHeader (Join (CC msg) ", ") ++ crlf ++
   "Subject: " ++ sanitizeHeader (Subject msg) ++ crlf ++
   "MIME-Version: 1.0" ++ crlf ++
   "Content-Type: " ++ ct ++ "; charset=" ++ quotes "utf-8" ++ crlf ++ crlf ++
   Body msg)%string.

(** The conversation with the server. *)
Inductive event : Type :=
| Clock (t : Z)
| Dialed (addr : string) (timeout : Z) (r : option error)
| TLSClient (serverName : string)
| ClientMade (host : string) (r : option error)
| AskedSTARTTLS (ok : bool)
| StartedTLS (serverName : string) (r : option error)
| Authenticated (username password : string) (tls : bool) (r : option error)
| MailFrom (from : string) (r : option error)
| RcptTo (addr : string) (r : option error)
| DataOpened (r : option error)
| Written (raw : string) (r : option error)
| DataClosed (r : option error)
| ClientClosed
| ConnClosed.

Record Env : Type := MkEnv {
  env_clock : list event -> Z;
  env_dial : option error;
  env_client : option error;
  env_starttls_offered : bool;
  env_starttls : option error;
  env_auth : option error;
  env_mail : option error;
  env_rcpt : list event -> string -> option error;
  env_data : option error;
  env_write : option error;
  env_data_close : option error
}.

Section Mailer.
Context (env : Env) (cfg : Config).
Notation go := (prog (World event unit)).

Definition step (r : option error) (e : option error -> event) : go (option error) := ask (fun _ => r) e.

(** [c.Auth(smtp.PlainAuth(...))]: net/smtp refuses to send the password when the
    connection is neither encrypted nor local. *)
Definition is_localhost (name : string) : bool :=
  existsb (String.eqb name) ["localhost"; "127.0.0.1"; "::1"]%string.
Definition plain_auth (tls : bool) : go (option error) :=
  if negb tls && negb (is_localhost (Host cfg)) then Ret (Some (Fresh "unencrypted connection"))
  else step (env_auth env) (Authenticated (Username cfg) (Password cfg) tls).

Fixpoint rcpts (l : list string) : go (option error) :=
  match l with
  | [] => Ret None
  | r :: rest =>
      let! err := ask (fun h => env_rcpt env h r) (RcptTo r) in
      match err with
      | Some e => Ret (Some (errorf ("smtp RCPT " ++ r ++ ": ") e))
      | None => rcpts rest
      end
  end.

(** [dial] from MAIL FROM to the end of the data: the writer's [Close] is deferred and its
    error ignored. *)
Definition transaction (msg : Message) : go (option error) :=
  let! err := step (env_mail env) (MailFrom (From cfg)) in
  match err with
  | Some e => Ret (Some (errorf "smtp MAIL FROM: " e))
  | None =>
      let! err := rcpts (To msg ++ CC msg) in
      match err with
      | Some e => Ret (Some e)
      | None =>
          let! err := step (env_data env) DataOpened in
          match err with
          | Some e => Ret (Some (errorf "smtp DATA: " e))
          | None =>
              let! err := step (env_write env) (Written (buildRaw cfg msg)) in
              do! step (env_data_close env) DataClosed in
              Ret err
          end
      end
  end.

(** Whether the connection is encrypted by then, or the error that ends the delivery. *)
Definition secured : go (result bool) :=
  if Port cfg =? 465 then Ret (Ok true)
  else
    let! ok := ask (fun _ => env_starttls_offered env) AskedSTARTTLS in
    if negb ok && (Port cfg =? 587)
    then Ret (Err (Fresh "smtp: server at port 587 did not advertise STARTTLS"))
    else if ok then
      let! err := step (env_starttls env) (StartedTLS (Host cfg)) in
      Ret match err with Some e => Err (errorf "smtp starttls: " e) | None => Ok true end
    else Ret (Ok false).

Definition authenticated (tls : bool) : go (option error) :=
  if negb (String.eqb (Username cfg) "") then plain_auth tls else Ret None.

(** The part of [dial] between [smtp.NewClient] and the deferred [c.Close]. *)
Definition deliver (msg : Message) : go (option error) :=
  let! tls := secured in
  match tls with
  | Err e => Ret (Some e)
  | Ok tls =>
      let! err := authenticated tls in
      match err with
      | Some e => Ret (Some (errorf "smtp auth: " e))
      | None => transaction msg
      end
  end.

Definition dial (addr : string) (msg : Message) : go (option error) :=
  let! err := step (env_dial env) (Dialed addr (Timeout cfg)) in
  match err with
  | Some e => Ret (Some (errorf ("smtp dial " ++ addr ++ ": ") e))
  | None =>
      do! (if Port cfg =? 465 then did (TLSClient (Host cfg)) else Ret tt) in
      let! err := step (env_client env) (ClientMade (Host cfg)) in
      match err with
      | Some e => do! did ConnClosed in Ret (Some (errorf "smtp client: " e))
      | None => let! err := deliver msg in do! did ClientClosed in Ret err
      end
  end.

Definition Send (msg : Message) : go (option error) :=
  match To msg with
  | [] => Ret (Some (Fresh "email: at least one recipient required"))
  | _ =>
      let addr := (Host cfg ++ ":" ++ Itoa (Port cfg))%string in
      let! start := ask (env_clock env) Clock in
      let! err := dial addr msg in
      let! now := ask (env_clock env) Clock in
      do! journal_add (MkThirdParty "smtp" "SEND" addr (Host cfg)
                         (match err with Some _ => 0 | None => 250 end)
                         (milliseconds (now - start)) "" "" (no_error err) start) in
      Ret err
  end.
End Mailer.

(** [HealthCheck]: the text of the probe, given what dialling answers. *)
Definition health_address (host : string) (port : Z) : string := JoinHostPort host (Itoa port).
Definition HealthCheck {W} (dialTimeout : string -> prog W (option error)) (host : string) (port : Z) : prog W string :=
  let! err := dialTimeout (health_address host port) in
  Ret match err with Some e => ("error: " ++ error_text e)%string | None => "ok"%string end.

(** ** No header can be injected *)

Definition line_free (s : string) : bool := str_forall (fun c => negb (Ascii.eqb c CR || Ascii.eqb c LF)) s.

Lemma sanitizeHeader_free s : line_free (sanitizeHeader s) = true.
Proof.
  unfold line_free. induction s as [| c s IH]; [done |]. cbn [sanitizeHeader].
  destruct (Ascii.eqb c CR || Ascii.eqb c LF) eqn:E; [done |]. cbn [str_forall]. by rewrite E, IH.
Qed.

Lemma sanitizeHeader_id s : line_free s = true -> sanitizeHeader s = s.
Proof.
  unfold line_free. induction s as [| c s IH]; [done |]. cbn [str_forall sanitizeHeader].
  intros [->%negb_true_iff Hs]%andb_prop. by rewrite IH.
Qed.

(** The header lines of a message. *)
Definition header_lines (cfg : Config) (msg : Message) : list string :=
  ["From: " ++ sanitizeHeader (From cfg);
   "To: " ++ sanitizeHeader (Join (To msg) ", ");
   "Cc: " ++ sanitizeHeader (Join (CC msg) ", ");
   "Subject: " ++ sanitizeHeader (Subject msg);
   "MIME-Version: 1.0";
   "Content-Type: " ++ (if IsHTML msg then "text/html" else "text/plain") ++ "; charset=" ++ quotes "utf-8"]%string.

(** Whatever the addresses and the subject contain, a message is its six header lines, an
    empty line and the body: the text up to the first empty line has no other line, so no
    field of a message can add a header. *)
Theorem no_header_injection (cfg : Config) (msg : Message) :
  buildRaw cfg msg = Join (header_lines cfg msg ++ [""%string; Body msg]) crlf /\
  Forall (fun l => line_free l = true /\ l <> ""%string) (header_lines cfg msg) /\
  List.length (header_lines cfg msg) = 6%nat.
Proof.
  split; [| split; [| done]].
  - unfold buildRaw, header_lines. cbn [app Join].
    repeat (rewrite append_assoc || rewrite append_nil). done.
  - assert (F : forall a s, line_free a = true -> line_free (a ++ sanitizeHeader s) = true).
    { intros a s Ha. unfold line_free in *. rewrite str_forall_app, Ha. apply sanitizeHeader_free. }
    unfold header_lines. repeat constructor; try (by apply F); try (by destruct (IsHTML msg)); done.
Qed.

(** ** The conversation *)

Section Conversation.
Context (env : Env) (cfg : Config) (msg : Message).
Implicit Types w : World event unit.

Definition accepted (a : string) : event := RcptTo a None.

Lemma run_rcpts l w :
  let '(err, w') := run (rcpts env l) w in
  exists news, hist w' = news ++ hist w /\ files w' = files w /\
    Forall (fun e => exists a r, e = RcptTo a r) news /\ (err = None -> news = rev (map accepted l)).
Proof.
  revert w. induction l as [| a l IH]; intros w; cbn [rcpts]; [exists []; by split_and! |].
  rewrite run_bind, run_ask. destruct (env_rcpt env (hist w) a) as [e |] eqn:Er; cbn [run].
  - exists [RcptTo a (Some e)]. split_and!; [done | done | | done]. repeat constructor. by eexists _, _.
  - match goal with |- context [run (rcpts env l) ?w1] => specialize (IH w1); destruct (run (rcpts env l) w1) as [err w'] end.
    destruct IH as (news & Hh & Hf & Hall & Hok). cbn [hist files] in *.
    exists (news ++ [RcptTo a None]). rewrite <- app_assoc. split_and!; [done | done | |].
    + apply Forall_app. split; [done |]. repeat constructor. by eexists _, _.
    + intros ->. cbn [map rev]. by rewrite Hok.
Qed.

(** What a delivery has done when the message is written: the sender and every recipient
    were accepted, in order, right before. *)
Definition envelope : list event :=
  DataOpened None :: rev (map accepted (To msg ++ CC msg)) ++ [MailFrom (From cfg) None].

Definition secure (e : event) : Prop :=
  match e with
  | Authenticated u p tls _ => u = Username cfg /\ (tls = true \/ is_localhost (Host cfg) = true)
  | ClientMade _ _ | ClientClosed | ConnClosed => False
  | _ => True
  end.

(** A delivery that wrote the message, and one that did not. *)
Definition delivered (err : option error) (news : list event) : Prop :=
  (exists pre r c, news = DataClosed c :: Written (buildRaw cfg msg) r :: envelope ++ pre /\ err = r /\
     Forall (fun e => forall raw r, e <> Written raw r) pre) \/
  (is_Some err /\ Forall (fun e => forall raw r, e <> Written raw r) news).

(** A conversation so far: the calls since [w0], which secured the password and wrote no
    message yet. *)
Definition talking w0 (pre : list event) w : Prop :=
  hist w = pre ++ hist w0 /\ files w = files w0 /\ Forall secure pre /\
  Forall (fun e => forall raw r, e <> Written raw r) pre.

Lemma talking_start w : talking w [] w.
Proof. by split_and!. Qed.

Lemma talking_more w0 pre w e (s : unit) :
  talking w0 pre w -> secure e -> (forall raw r, e <> Written raw r) ->
  talking w0 (e :: pre) (MkWorld (e :: hist w) s (files w)).
Proof. intros (Hh & Hf & Hs & Hn) H1 H2. split_and!; [cbn; by rewrite Hh | done | by constructor | by constructor]. Qed.

Lemma talking_failed w0 pre w e :
  talking w0 pre w ->
  exists news, hist w = news ++ hist w0 /\ files w = files w0 /\ Forall secure news /\ delivered (Some e) news.
Proof. intros (Hh & Hf & Hs & Hn). exists pre. split_and!; [done | done | done | right; by split; [eexists |]]. Qed.

Lemma talking_rcpts w0 pre w l :
  talking w0 pre w ->
  let '(err, w') := run (rcpts env l) w in
  exists news, talking w0 (news ++ pre) w' /\ (err = None -> news = rev (map accepted l)).
Proof.
  intros (Hh & Hf & Hs & Hn). pose proof (run_rcpts l w) as R. destruct (run (rcpts env l) w) as [err w'].
  destruct R as (news & Hh2 & Hf2 & Hall & Hok). exists news. split; [| done].
  split_and!; [by rewrite Hh2, Hh, app_assoc | by rewrite Hf2 | |];
    (apply Forall_app; split; [| done]; eapply Forall_impl; [exact Hall |]; by intros e (a & r & ->)).
Qed.

(** The transaction, once the connection is secured. *)
Lemma run_transaction w0 pre w :
  talking w0 pre w ->
  let '(err, w') := run (transaction env cfg msg) w in
  exists news, hist w' = news ++ hist w0 /\ files w' = files w0 /\ Forall secure news /\ delivered err news.
Proof.
  intros Ht. unfold transaction, step. rewrite run_bind, run_ask.
  pose proof (talking_more w0 pre w (MailFrom (From cfg) (env_mail env)) (state w) Ht I) as Hm.
  specialize (Hm ltac:(by intros)). destruct (env_mail env) as [e |]; cbn [run]; [by eapply talking_failed |].
  rewrite run_bind. match goal with |- context [run (rcpts env ?l) ?w1] =>
    pose proof (talking_rcpts _ _ w1 l Hm) as R; destruct (run (rcpts env l) w1) as [err w2] end.
  destruct R as (news & Hr & Hok). destruct err as [e |]; cbn [run]; [by eapply talking_failed |].
  specialize (Hok eq_refl). subst news. rewrite run_bind, run_ask.
  pose proof (talking_more _ _ w2 (DataOpened (env_data env)) (state w2) Hr I) as Hd. specialize (Hd ltac:(by intros)).
  destruct (env_data env) as [e |]; cbn [run]; [by eapply talking_failed |].
  rewrite run_bind, run_ask, run_bind, run_ask. cbn [run hist files]. destruct Hd as (Hh & Hf & Hs & Hn). cbn [hist files] in *.
  exists (DataClosed (env_data_close env) :: Written (buildRaw cfg msg) (env_write env) :: envelope ++ pre).
  assert (Happ : envelope ++ pre = DataOpened None :: rev (map accepted (To msg ++ CC msg)) ++ MailFrom (From cfg) None :: pre)
    by (unfold envelope; cbn [app]; by rewrite <- app_assoc).
  rewrite Happ, Hh. split_and!; [done | done | by do 2 (constructor; [done |]) |].
  left. exists pre, (env_write env), (env_data_close env). rewrite Happ.
  split_and!; [done | done |]. apply Forall_cons in Hn as [_ Hn]. by apply Forall_app in Hn as [_ [_ Hn]%Forall_cons].
Qed.

(** Securing the connection and authenticating. *)
Lemma talking_secured w :
  let '(_, w') := run (secured env cfg) w in exists pre, talking w pre w'.
Proof.
  pose proof (talking_start w) as H0. unfold secured, step. destruct (Port cfg =? 465); [by exists [] |].
  rewrite run_bind, run_ask.
  pose proof (talking_more _ _ w (AskedSTARTTLS (env_starttls_offered env)) (state w) H0 I ltac:(by intros)) as H1.
  destruct (env_starttls_offered env); cbn [negb andb]; [| destruct (Port cfg =? 587); cbn [run]; by eexists].
  rewrite run_bind, run_ask. cbn [run].
  by eexists; eapply (talking_more _ _ _ (StartedTLS (Host cfg) (env_starttls env)) _ H1 I).
Qed.

Lemma talking_authenticated tls w0 pre w :
  talking w0 pre w -> let '(_, w') := run (authenticated env cfg tls) w in exists pre', talking w0 pre' w'.
Proof.
  intros Ht. unfold authenticated, plain_auth, step. destruct (negb (String.eqb (Username cfg) "")); [| by exists pre].
  destruct (negb tls && negb (is_localhost (Host cfg))) eqn:E; [by exists pre |]. rewrite run_ask.
  eexists. eapply talking_more; [exact Ht | | by intros]. split; [done |].
  apply andb_false_iff in E as [E%negb_false_iff | E%negb_false_iff]; auto.
Qed.

Lemma run_deliver w :
  let '(err, w') := run (deliver env cfg msg) w in
  exists news, hist w' = news ++ hist w /\ files w' = files w /\ Forall secure news /\ delivered err news.
Proof.
  unfold deliver. rewrite run_bind. pose proof (talking_secured w) as S.
  destruct (run (secured env cfg) w) as [[tls | e] w1]; destruct S as [pre S]; cbn [run]; [| by eapply talking_failed].
  rewrite run_bind. pose proof (talking_authenticated tls w pre w1 S) as A.
  destruct (run (authenticated env cfg tls) w1) as [[e |] w2]; destruct A as [pre' A]; cbn [run];
    [by eapply talking_failed | by eapply run_transaction].
Qed.

(** What a conversation leaves: credentials went over an encrypted or local connection
    only; a connection that was opened is closed, last. *)
Definition closed_after (news : list event) : Prop :=
  (exists addr t e, news = [Dialed addr t (Some e)]) \/ head news = Some ClientClosed \/ head news = Some ConnClosed.

Lemma run_dial addr w :
  let '(err, w') := run (dial env cfg addr msg) w in
  exists news, hist w' = news ++ hist w /\ files w' = files w /\ closed_after news /\
    (forall u p tls r, Authenticated u p tls r ∈ news ->
       u = Username cfg /\ (tls = true \/ is_localhost (Host cfg) = true)) /\
    (err = None -> exists pre c, news = ClientClosed :: DataClosed c :: Written (buildRaw cfg msg) None :: envelope ++ pre) /\
    (is_Some err -> forall raw, Written raw None ∉ news).
Proof.
  unfold dial, step. rewrite run_bind, run_ask. destruct (env_dial env) as [e |]; cbn [run hist files].
  { exists [Dialed addr (Timeout cfg) (Some e)]. split_and!; [done | done | by left; eexists _, _, _ | | done |];
      [by intros u p tls r [? | ?%not_elem_of_nil]%elem_of_cons | intros _ raw Hin; set_solver]. }
  rewrite run_bind. match goal with |- context [run ?m ?w0] =>
    assert (H1 : exists pre, hist (run m w0).2 = pre ++ hist w /\ files (run m w0).2 = files w /\
       Forall secure pre /\ Forall (fun e => forall raw r, e <> Written raw r) pre);
    [| destruct (run m w0) as [[] w1]; cbn [snd] in H1] end.
  { destruct (Port cfg =? 465).
    - exists [TLSClient (Host cfg); Dialed addr (Timeout cfg) None]. split_and!; by repeat constructor.
    - exists [Dialed addr (Timeout cfg) None]. split_and!; by repeat constructor. }
  destruct H1 as (pre & Hh & Hf & Hs & Hn).
  rewrite run_bind, run_ask. destruct (env_client env) as [e |]; cbn [run].
  - rewrite run_bind, run_did. cbn [run hist files].
    exists (ConnClosed :: ClientMade (Host cfg) (Some e) :: pre). rewrite Hh.
    split_and!; [done | done | by right; right | | done |].
    + intros u p tls r [? | [? | Hin]%elem_of_cons]%elem_of_cons; [done | done |].
      rewrite Forall_forall in Hs. apply (Hs _ Hin).
    + intros _ raw [? | [? | Hin]%elem_of_cons]%elem_of_cons; [done | done |].
      rewrite Forall_forall in Hn. by apply (Hn _ Hin raw None).
  - rewrite run_bind. match goal with |- context [run (deliver env cfg msg) ?w2] =>
      pose proof (run_deliver w2) as D; destruct (run (deliver env cfg msg) w2) as [err w3] end.
    destruct D as (news & Hh3 & Hf3 & Hs3 & Hd). cbn [hist files] in *.
    rewrite run_bind, run_did. cbn [run hist files].
    exists (ClientClosed :: news ++ ClientMade (Host cfg) None :: pre).
    rewrite Hh3, Hh, Hf3. cbn [app]. rewrite <- app_assoc. split_and!; [done | done | by right; left | | |].
    + intros u p tls r [? | [Hin | [? | Hin]%elem_of_cons]%elem_of_app]%elem_of_cons; [done | | done |].
      * rewrite Forall_forall in Hs3. apply (Hs3 _ Hin).
      * rewrite Forall_forall in Hs. apply (Hs _ Hin).
    + intros ->. destruct Hd as [(pre2 & r & c & -> & Er & _) | [[] _]]; [| done]. subst r.
      exists (pre2 ++ ClientMade (Host cfg) None :: pre), c. cbn [app]. by rewrite <- app_assoc.
    + intros Herr raw [? | [Hin | [? | Hin]%elem_of_cons]%elem_of_app]%elem_of_cons; [done | | done |].
      * destruct Hd as [(pre2 & r & c & -> & Er & Hn2) | [_ Hn2]]; [subst r |].
        -- apply elem_of_cons in Hin as [? | [[= _ Er] | Hin]%elem_of_cons];
             [done | rewrite <- Er in Herr; by destruct Herr |].
           apply elem_of_app in Hin as [Hin | Hin].
           ++ unfold envelope in Hin. apply elem_of_cons in Hin as [? | Hin]; [done |].
              apply elem_of_app in Hin as [Hin | Hin%list_elem_of_singleton]; [| done].
              apply list_elem_of_In, in_rev, list_elem_of_In in Hin. by apply list_elem_of_fmap in Hin as (a & ? & _).
           ++ rewrite Forall_forall in Hn2. by apply (Hn2 _ Hin raw None).
        -- rewrite Forall_forall in Hn2. by apply (Hn2 _ Hin raw None).
      * rewrite Forall_forall in Hn. by apply (Hn _ Hin raw None).
Qed.

End Conversation.

Module EmailWitness.

(** A server that takes the text of a message and then refuses it: the reply to the end of
    the data is not looked at, and the message is reported as sent. *)
Definition refuses : Env :=
  MkEnv (fun _ => 0) None None true None None None (fun _ _ => None) None None
    (Some (Fresh "554 5.7.1 message rejected")).

Theorem rejected_message_reported_sent :
  (run (Send refuses (MkConfig "mail" 587 "" "" "noreply@shop" 0) (MkMessage ["a@b"] [] "hi" "body" false))
     (MkWorld [] tt (None, MkFiles [] []))).1 = None.
Proof. reflexivity. Qed.
End EmailWitness.
End Email.
