(* ===== verification/Firebase.v ===== *)
(** The push notification add-on ([pkg/notification/firebase]): the client with its cached
    access token, the payload, and the health probe. *)

From stdpp Require Import base list strings gmap sets sorting.
From Stdlib Require Import ZArith Lia Ascii String.
From S2P Require Import Prelude Prog GoStrings Json Journal Migrate Notify.

Definition fcmScope : string := "https://www.googleapis.com/auth/firebase.messaging".
Definition tokenURL : string := "https://oauth2.googleapis.com/token".
Definition fcm_endpoint (projectID : string) : string :=
  ("https://fcm.googleapis.com/v1/projects/" ++ projectID ++ "/messages:send")%string.

Record Message : Type := MkMessage {
  Token : string; Topic : string; Title : string; Body : string; Data : gmap string string; ImageURL : string
}.
Record serviceAccount : Type := MkAccount {
  ProjectID : string; PrivateKey : string; ClientEmail : string; TokenURI : string
}.

(** ** The payload

    encoding/json writes the entries of a Go map in the order of their keys. *)
Definition by_key (a b : string * string) : Prop := String.leb a.1 b.1 = true.
#[export] Instance by_key_dec : RelDecision by_key := fun a b => decide (String.leb a.1 b.1 = true).

Definition entries (m : gmap string string) : list (string * json) :=
  map (fun kv => (kv.1, JStr kv.2)) (merge_sort by_key (map_to_list m)).

Definition notification (msg : Message) : json :=
  JObj ([("body"%string, JStr (Body msg))] ++
        (if String.eqb (ImageURL msg) "" then [] else [("image"%string, JStr (ImageURL msg))]) ++
        [("title"%string, JStr (Title msg))]).

Definition target (msg : Message) : list (string * json) :=
  if negb (String.eqb (Token msg) "") then [("token"%string, JStr (Token msg))]
  else if negb (String.eqb (Topic msg) "") then [("topic"%string, JStr (Topic msg))] else [].

Definition buildPayload (msg : Message) : json :=
  JObj [("message"%string,
    JObj ((if (size (Data msg) =? 0)%nat then []
           else [("data"%string, JObj (entries (Data msg)))]) ++
          [("notification"%string, notification msg)] ++ target msg))].

(** [maskToken]. *)
Definition maskToken (t : string) : string :=
  if len t <=? 8 then "***"%string
  else (take_str 4 t ++ "***" ++ drop_str (String.length t - 4) t)%string.

(** The claims of the assertion. *)
Record Assertion : Type := MkAssertion {
  a_iss : string; a_sub : string; a_scope : string; a_aud : string; a_iat : Z; a_exp : Z
}.

Record TokenResponse : Type := MkTokenResponse { AccessToken : string; ExpiresIn : Z }.

Inductive event : Type :=
| Clock (t : Z)
| TokenRequested (uri assertion : string) (r : result (result TokenResponse))
| Pushed (endpoint token : string) (payload : json) (r : result Z).

(** What a PKCS #8 block holds. *)
Inductive private_key (K : Type) : Type := RSAKey (k : K) | OtherKey.
Arguments RSAKey {K}.
Arguments OtherKey {K}.

(** The environment: [pem.Decode] (the bytes of the first block, if there is one) and
    [x509.ParsePKCS8PrivateKey], RS256 signing, what
    [http.NewRequest] has against a URL, the token endpoint (no reply, or its reply as it
    decodes, whatever its status) and the push endpoint (its status). *)
Record Env (K : Type) : Type := MkEnv {
  env_clock : list event -> Z;
  env_pem : string -> option string;
  env_pkcs8 : string -> result (private_key K);
  env_sign : K -> Assertion -> result string;
  env_url : string -> option error;
  env_token : list event -> string -> string -> result (result TokenResponse);
  env_push : list event -> string -> string -> json -> result Z
}.
Arguments MkEnv {K}.
Arguments env_clock {K}.
Arguments env_pem {K}.
Arguments env_pkcs8 {K}.
Arguments env_sign {K}.
Arguments env_url {K}.
Arguments env_token {K}.
Arguments env_push {K}.

(** The state of a client: the token and its expiry. *)
Record Cached : Type := MkCached { accessToken : string; tokenExpiry : Z }.

Definition new_client : Cached := MkCached "" zero_time.

(** [NewFCMClient]; [parse] is [json.Unmarshal] into a service account. *)
Definition NewFCMClient (parse : string -> result serviceAccount) (credentialsJSON : string)
  : result (serviceAccount * Cached) :=
  match parse credentialsJSON with
  | Err e => Err (errorf "firebase: parse credentials: " e)
  | Ok sa =>
      if String.eqb (ProjectID sa) "" || String.eqb (PrivateKey sa) "" || String.eqb (ClientEmail sa) ""
      then Err (Fresh "firebase: credentials missing project_id, private_key, or client_email")
      else Ok (MkAccount (ProjectID sa) (PrivateKey sa) (ClientEmail sa)
                 (if String.eqb (TokenURI sa) "" then tokenURL else TokenURI sa), new_client)
  end.

Section Client.
Context {K : Type} (env : Env K) (sa : serviceAccount).
Notation go := (prog (World event Cached)).

(** [now.Unix()]: the seconds since the epoch, rounded down. *)
Definition unix (t : Z) : Z := t / Second.

Definition assertion (now : Z) : Assertion :=
  MkAssertion (ClientEmail sa) (ClientEmail sa) fcmScope (TokenURI sa) (unix now) (unix (now + Hour)).

(** The expiry kept with a token: thirty seconds early, in int64 durations. *)
Definition kept_until (now expiresIn : Z) : Z := now + wrap64 (wrap64 (expiresIn * Second) - 30 * Second).

Definition parseRSAPrivateKey (pemStr : string) : result K :=
  match env_pem env pemStr with
  | None => Err (Fresh "firebase: invalid PEM private key")
  | Some block =>
      match env_pkcs8 env block with
      | Err e => Err (errorf "firebase: parse private key: " e)
      | Ok (RSAKey k) => Ok k
      | Ok OtherKey => Err (Fresh "firebase: private key is not RSA")
      end
  end.

Definition fetchAccessToken : go (result (string * Z)) :=
  match parseRSAPrivateKey (PrivateKey sa) with
  | Err e => Ret (Err e)
  | Ok pk =>
      let! now := ask (env_clock env) Clock in
      match env_sign env pk (assertion now) with
      | Err e => Ret (Err (errorf "firebase: sign jwt: " e))
      | Ok signed =>
          match env_url env (TokenURI sa) with
          | Some e => Ret (Err (errorf "firebase: build token request: " e))
          | None =>
              let! r := ask (fun h => env_token env h (TokenURI sa) signed) (TokenRequested (TokenURI sa) signed) in
              Ret match r with
                  | Err e => Err (errorf "firebase: token request: " e)
                  | Ok (Err e) => Err (errorf "firebase: decode token response: " e)
                  | Ok (Ok resp) =>
                      if String.eqb (AccessToken resp) ""
                      then Err (Fresh ("firebase: empty access token from " ++ TokenURI sa))
                      else Ok (AccessToken resp, kept_until now (ExpiresIn resp))
                  end
          end
      end
  end.

(** The client's lock is held throughout. *)
Definition cachedAccessToken : go (result string) :=
  let! c := reads state in
  let! fresh :=
    (if negb (String.eqb (accessToken c) "")
     then let! now := ask (env_clock env) Clock in Ret (now <? tokenExpiry c) else Ret false) in
  if fresh then Ret (Ok (accessToken c))
  else
    let! r := fetchAccessToken in
    match r with
    | Err e => Ret (Err e)
    | Ok (tok, expiry) => do! set_state (MkCached tok expiry) in Ret (Ok tok)
    end.

(** What [Send] makes of the answer of the service. *)
Definition push_result (resp : result Z) : Z * string * option error :=
  match resp with
  | Err e => (0, error_text e, Some e)
  | Ok status =>
      if negb (status =? 200)
      then (status, ("FCM HTTP " ++ Itoa status)%string, Some (Fresh ("firebase: FCM HTTP " ++ Itoa status)))
      else (status, ""%string, None)
  end.

Definition Send (msg : Message) : go (option error) :=
  let! tok := cachedAccessToken in
  match tok with
  | Err e => Ret (Some (errorf "firebase: get access token: " e))
  | Ok tok =>
      let endpoint := fcm_endpoint (ProjectID sa) in
      let payload := buildPayload msg in
      let! start := ask (env_clock env) Clock in
      match env_url env endpoint with
      | Some e => Ret (Some (errorf "firebase: build request: " e))
      | None =>
          let! resp := ask (fun h => env_push env h endpoint tok payload) (Pushed endpoint tok payload) in
          let! now := ask (env_clock env) Clock in
          let '(status, errStr, err) := push_result resp in
          do! journal_add (MkThirdParty "firebase-fcm" "POST" endpoint "fcm.googleapis.com" status
                             (milliseconds (now - start)) "" "" errStr start) in
          Ret err
      end
  end.
End Client.

(** [HealthCheck]: the probe's word. *)
Definition HealthCheck {W} (parse : string -> result serviceAccount)
    (dialTimeout : string -> prog W (option error)) (credentialsJSON : string) : prog W string :=
  if String.eqb credentialsJSON "" then Ret "error: FIREBASE_CREDENTIALS_JSON not set"%string
  else match parse credentialsJSON with
       | Err e => Ret ("error: invalid credentials JSON: " ++ error_text e)%string
       | Ok sa =>
           if String.eqb (ProjectID sa) "" || String.eqb (ClientEmail sa) ""
           then Ret "error: credentials missing project_id or client_email"%string
           else
             let! err := dialTimeout "oauth2.googleapis.com:443"%string in
             Ret match err with
                 | Some e => ("error: cannot reach oauth2.googleapis.com: " ++ error_text e)%string
                 | None => "ok"%string
                 end
       end.

(** ** The token cache *)

Section TokenCache.
Context {K : Type} (env : Env K) (sa : serviceAccount).
Implicit Types w : World event Cached.

Definition token_requests (h : list event) : nat :=
  List.length (List.filter (fun e => match e with TokenRequested _ _ _ => true | _ => false end) h).

(** Where a token comes from: a reply of the token endpoint, and how long it is kept. *)
Definition granted (h : list event) (tok : string) (expiry : Z) : Prop :=
  exists uri a resp now, TokenRequested uri a (Ok (Ok resp)) ∈ h /\ Clock now ∈ h /\
    AccessToken resp = tok /\ tok <> ""%string /\ expiry = kept_until now (ExpiresIn resp).

(** The invariant of a client: no token, or one that was granted. *)
Definition client_ok w : Prop :=
  accessToken (state w) = ""%string \/ granted (hist w) (accessToken (state w)) (tokenExpiry (state w)).

Lemma granted_more h h' tok expiry : granted h tok expiry -> granted (h' ++ h) tok expiry.
Proof.
  intros (uri & a & resp & now & H1 & H2 & H3). exists uri, a, resp, now.
  split; [apply elem_of_app; by right |]. split; [apply elem_of_app; by right | done].
Qed.

Lemma count_app h1 h2 : token_requests (h1 ++ h2) = (token_requests h1 + token_requests h2)%nat.
Proof. unfold token_requests. by rewrite List.filter_app, length_app. Qed.

Definition no_push (h : list event) : Prop := forall e t p r, Pushed e t p r ∉ h.

Lemma no_push_app h1 h2 : no_push h1 -> no_push h2 -> no_push (h1 ++ h2).
Proof. intros H1 H2 e t p r [H | H]%elem_of_app; [by eapply H1 | by eapply H2]. Qed.

(** Fetching a token: at most one request, and on success exactly one, from which the token
    comes; the state is left alone. *)
Lemma run_fetch w :
  let '(r, w') := run (fetchAccessToken env sa) w in
  state w' = state w /\ files w' = files w /\
  exists news, hist w' = news ++ hist w /\ no_push news /\ (token_requests news <= 1)%nat /\
    match r with
    | Ok (tok, expiry) => granted (hist w') tok expiry /\ token_requests news = 1%nat
    | Err _ => True
    end.
Proof.
  unfold fetchAccessToken. destruct (parseRSAPrivateKey env (PrivateKey sa)) as [pk | e]; cbn [run].
  2:{ split_and!; [done | done |]. exists []. split_and!; [done | intros ? ? ? ? []%not_elem_of_nil | cbn; lia | done]. }
  rewrite run_bind, run_ask. set (now := env_clock env (hist w)).
  destruct (env_sign env pk (assertion sa now)) as [signed | e]; cbn [run hist state files].
  2:{ split_and!; [done | done |]. exists [Clock now]. split_and!; [done | unfold no_push; set_solver | cbn; lia | done]. }
  destruct (env_url env (TokenURI sa)) as [e |]; cbn [run hist state files].
  { split_and!; [done | done |]. exists [Clock now]. split_and!; [done | unfold no_push; set_solver | cbn; lia | done]. }
  rewrite run_bind, run_ask. cbn [hist state files].
  set (r := env_token env _ (TokenURI sa) signed).
  assert (Hno : no_push [TokenRequested (TokenURI sa) signed r; Clock now]) by (unfold no_push; set_solver).
  assert (Hn : (token_requests [TokenRequested (TokenURI sa) signed r; Clock now] <= 1)%nat) by (cbn; lia).
  destruct r as [[resp | e] | e] eqn:Er; cbn [run].
  2,3: split_and!; [done | done |]; by eexists [_; _].
  destruct (String.eqb_spec (AccessToken resp) "") as [Hx | Hx]; cbn [run];
    (split; [done |]); (split; [done |]); eexists [_; _]; (split; [reflexivity |]);
    (split; [exact Hno |]); (split; [exact Hn |]); [done |].
  split; [| done]. exists (TokenURI sa), signed, resp, now.
  split_and!; [set_solver | set_solver | done | done | done].
Qed.

(** A token and why it may be used: it was granted, and either it was just requested or its
    expiry lies ahead of a clock reading. *)
Definition usable (tok : string) w' (news : list event) : Prop :=
  accessToken (state w') = tok /\ granted (hist w') tok (tokenExpiry (state w')) /\
  (token_requests news = 1%nat \/ exists now, Clock now ∈ news /\ now < tokenExpiry (state w')).

Lemma run_cached w :
  client_ok w ->
  let '(r, w') := run (cachedAccessToken env sa) w in
  files w' = files w /\ client_ok w' /\
  exists news, hist w' = news ++ hist w /\ no_push news /\ (token_requests news <= 1)%nat /\
    (forall tok, r = Ok tok -> usable tok w' news).
Proof.
  intros Hok. unfold cachedAccessToken. rewrite run_bind. cbn [run reads act]. rewrite run_bind.
  assert (Slow : forall w1 pre, hist w1 = pre ++ hist w -> state w1 = state w -> files w1 = files w ->
     token_requests pre = 0%nat -> no_push pre ->
     let '(r, w') := run (let! r := fetchAccessToken env sa in
        match r with
        | Err e => Ret (Err e)
        | Ok (tok, expiry) => do! set_state (MkCached tok expiry) in Ret (Ok tok)
        end) w1 in
     files w' = files w /\ client_ok w' /\
     exists news, hist w' = news ++ hist w /\ no_push news /\ (token_requests news <= 1)%nat /\
       (forall tok, r = Ok tok -> usable tok w' news)).
  { intros w1 pre Hh Hs Hf Hp0 Hp. rewrite run_bind. pose proof (run_fetch w1) as F.
    destruct (run (fetchAccessToken env sa) w1) as [r w2].
    destruct F as (Hs2 & Hf2 & news & Hh2 & Hpu & Hn & Hr). rewrite Hh, app_assoc in Hh2.
    assert (Hcount : token_requests (news ++ pre) = token_requests news) by (rewrite count_app; lia).
    destruct r as [[tok expiry] | e]; cbn [run].
    - destruct Hr as [Hg H1]. rewrite run_bind. unfold set_state. rewrite run_act. cbn [run hist state files].
      split_and!; [congruence | by right |]. exists (news ++ pre).
      split_and!; [done | by apply no_push_app | lia |]. intros t [= <-]. split; [done |].
      split; [exact Hg | left; lia].
    - split_and!; [congruence | |].
      + unfold client_ok in *. rewrite Hs2, Hs, Hh2. destruct Hok as [? | Hg]; [by left | right].
        by apply granted_more.
      + exists (news ++ pre). split_and!; [done | by apply no_push_app | lia | done]. }
  destruct (String.eqb_spec (accessToken (state w)) "") as [He | He]; cbn [negb run].
  - apply (Slow w []); try done. intros e t p r H. by apply not_elem_of_nil in H.
  - rewrite run_bind, run_ask. cbn [run].
    destruct (Z.ltb_spec (env_clock env (hist w)) (tokenExpiry (state w))) as [Hlt | Hge].
    + destruct Hok as [? | Hg]; [done |]. cbn [run hist state files].
      split_and!; [done | right; by apply (granted_more _ [_]) |]. eexists [_].
      split_and!; [reflexivity | unfold no_push; set_solver | cbn; lia |]. intros tok [= <-].
      split; [done |]. split; [by apply (granted_more _ [_]) |]. right. eexists. split; [by apply list_elem_of_here | done].
    + eapply (Slow _ [_]); [reflexivity | done | done | done | unfold no_push; set_solver].
Qed.

Lemma push_result_spec (r : result Z) :
  let '(status, _, err) := push_result r in
  (err = None <-> r = Ok 200) /\ status = match r with Ok s => s | Err _ => 0 end.
Proof.
  destruct r as [s | e]; cbn; [destruct (Z.eqb_spec s 200) as [-> | H]; cbn |]; (split; [split |]); congruence.
Qed.

(** The notification went out, with a usable token, and was recorded in the journal. *)
Definition pushed (msg : Message) w w' (err : option error) (news : list event) : Prop :=
  exists pre t1 t2 tok r,
    news = Clock t2 :: Pushed (fcm_endpoint (ProjectID sa)) tok (buildPayload msg) r :: Clock t1 :: pre /\
    no_push pre /\ usable tok w' pre /\ (err = None <-> r = Ok 200) /\
    exists tp, files w' = AddThirdParty tp (files w) /\ tStatus tp = (match r with Ok s => s | Err _ => 0 end).

(** C38. Sending a push notification. Whatever the environment answers, the client's cached token
    is one it was granted; a notification goes out at most once, to the project's endpoint,
    with the payload of the message and a token just requested or not yet due (thirty
    seconds early); nil is answered exactly when the service took it with status 200; and the
    journal gets one record when the notification went out, and none otherwise. *)
Theorem push_spec (msg : Message) (w : World event Cached) :
  client_ok w ->
  let '(err, w') := run (Send env sa msg) w in
  client_ok w' /\
  exists news, hist w' = news ++ hist w /\ (token_requests news <= 1)%nat /\
    (pushed msg w w' err news \/ (no_push news /\ is_Some err /\ files w' = files w)).
Proof.
  intros Hok. unfold Send. rewrite run_bind. pose proof (run_cached w Hok) as C.
  destruct (run (cachedAccessToken env sa) w) as [[tok | e] w1]; destruct C as (Hf & Hok1 & pre & Hh & Hp & Hn & Hu).
  2:{ cbn [run]. split; [done |]. exists pre. split_and!; [done | done |]. right. split_and!; [done | by eexists | done]. }
  destruct (Hu tok eq_refl) as (Ht & Hg & Hw). rewrite run_bind, run_ask.
  set (t1 := env_clock env (hist w1)). destruct (env_url env _) as [e |]; cbn [run hist state files].
  { split; [right; cbn [hist state]; rewrite Ht; by apply (granted_more _ [_]) |].
    exists (Clock t1 :: pre). split_and!; [by rewrite Hh | exact Hn |]. right.
    split_and!; [apply (no_push_app [_]); [unfold no_push; set_solver | done] | by eexists | done]. }
  rewrite run_bind, run_ask, run_bind, run_ask. cbn [hist state files].
  set (r := env_push env _ _ _ _). set (t2 := env_clock env _).
  pose proof (push_result_spec r) as P. destruct (push_result r) as [[status errStr] err]. destruct P as [Herr Hst].
  rewrite run_bind. unfold journal_add. rewrite run_act. cbn [run hist state files].
  assert (Hg' := granted_more _ [Clock t2; Pushed (fcm_endpoint (ProjectID sa)) tok (buildPayload msg) r; Clock t1] _ _ Hg).
  split; [right; cbn [hist state]; rewrite Ht; exact Hg' |].
  eexists (Clock t2 :: Pushed _ _ _ _ :: Clock t1 :: pre). split; [by rewrite Hh |]. split; [exact Hn |]. left.
  exists pre, t1, t2, tok, r. split_and!; [done | done | | done | eexists; split; [by rewrite Hf | exact Hst]].
  split; [done |]. split; [exact Hg' | exact Hw].
Qed.
End TokenCache.

(** A message is addressed to its device when it has one, otherwise to its topic: the
    payload never has both. *)
Theorem payload_target (msg : Message) :
  (Token msg <> ""%string -> target msg = [("token"%string, JStr (Token msg))]) /\
  (Token msg = ""%string -> Topic msg <> ""%string -> target msg = [("topic"%string, JStr (Topic msg))]) /\
  (List.length (target msg) <= 1)%nat.
Proof.
  unfold target. destruct (String.eqb_spec (Token msg) ""), (String.eqb_spec (Topic msg) "");
    cbn; split_and!; congruence || lia.
Qed.

(** The masked token shows its first and last four bytes at most: two tokens that agree on
    them, or are both of eight bytes at most, look the same. *)
Theorem mask_hides (a b c d : string) :
  String.length a = 4%nat -> String.length c = 4%nat -> b <> ""%string -> d <> ""%string ->
  maskToken (a ++ b ++ c) = maskToken (a ++ d ++ c) /\
  (forall s t, len s <= 8 -> len t <= 8 -> maskToken s = maskToken t).
Proof.
  intros Ha Hc Hb Hd. split.
  - assert (M : forall m, m <> ""%string -> maskToken (a ++ m ++ c) = (a ++ "***" ++ c)%string).
    { intros m Hm. unfold maskToken, len. rewrite !length_app_str, Ha, Hc.
      destruct m as [| x m]; [done |]. cbn [String.length].
      destruct (Z.leb_spec (Z.of_nat (4 + (S (String.length m) + 4))) 8); [lia |].
      rewrite <- Ha at 1. rewrite take_str_app. f_equal. f_equal.
      replace (4 + (S (String.length m) + 4) - 4)%nat with (String.length (a ++ String x m))
        by (rewrite length_app_str, Ha; cbn [String.length]; lia).
      rewrite <- append_assoc. apply drop_str_app. }
    by rewrite !M.
  - intros s t Hs Ht. unfold maskToken. by destruct (Z.leb_spec (len s) 8), (Z.leb_spec (len t) 8); try lia.
Qed.

Module FirebaseWitness.

Definition env : Env unit :=
  MkEnv (fun h => Z.of_nat (List.length h)) Some (fun _ => Ok (RSAKey tt)) (fun _ _ => Ok "signed"%string) (fun _ => None)
    (fun _ _ _ => Ok (Ok (MkTokenResponse "ya29" 3600))) (fun _ _ _ _ => Ok 200).
Definition account : serviceAccount := MkAccount "shop" "key" "push@shop" tokenURL.
Definition message : Message := MkMessage "device-token" "" "Order" "shipped" ∅ "".

Lemma push_spec_witness :
  let w := MkWorld [] new_client (Start KindAPI, MkFiles [] []) in
  client_ok w /\ client_ok (run (Send env account message) w).2.
Proof.
  assert (H : client_ok (MkWorld [] new_client (Start KindAPI, MkFiles [] []))) by (left; reflexivity).
  split; [exact H |].
  pose proof (push_spec env account message _ H) as P. revert P.
  generalize (run (Send env account message) (MkWorld [] new_client (Start KindAPI, MkFiles [] []))).
  intros [err w'] [P _]. exact P.
Defined.

(** A second notification inside the hour uses the token of the first. *)
Example one_token_request :
  token_requests (hist (run (let! _ := Send env account message in Send env account message)
    (MkWorld [] new_client (None, MkFiles [] []))).2) = 1%nat.
Proof. by vm_compute. Qed.
End FirebaseWitness.
