(* ===== verification/Project.v ===== *)
(** The remaining commands of the generator: [new] with its wizard (cli/commands/new.go) and
    [list] (list.go). The terminal form and [go mod tidy] are parameters; what is printed is
    left out, but for the domains [list] names. *)

From stdpp Require Import base list strings gmap sorting.
From Stdlib Require Import ZArith Lia Ascii String.
From S2P Require Import Prelude Prog GoStrings Generator Scaffold Commands.

(** The flags of [new]. *)
Record Flags : Type := MkFlags {
  fl_module : string; fl_db : string; fl_apm : string; fl_redis : bool; fl_kafka : bool; fl_rabbit : bool;
  fl_email : bool; fl_firebase : bool; fl_google : bool; fl_yes : bool
}.

(** What the form edits. *)
Record Answers : Type := MkAnswers {
  an_project : string; an_module : string; an_db : string; an_apm : string; an_features : list string
}.

Definition contains_any (s chars : string) : bool := negb (str_forall (fun c => negb (Contains chars (String c ""))) s).

(** The form's check of the project name. *)
Definition validate_name (s : string) : option error :=
  if String.eqb (TrimSpace s) "" then Some (Fresh "project name cannot be empty")
  else if contains_any s "/\ " then Some (Fresh "no slashes or spaces allowed")
  else None.

Definition contains (s : list string) (v : string) : bool := existsb (String.eqb v) s.

Definition selected (f : Flags) : list string :=
  (if fl_redis f then ["redis"] else []) ++ (if fl_kafka f then ["kafka"] else []) ++
  (if fl_rabbit f then ["rabbitmq"] else []) ++ (if fl_email f then ["email"] else []) ++
  (if fl_firebase f then ["firebase"] else []) ++ (if fl_google f then ["google-auth"] else []).

Section New.
Context {T : Type} (Parse : string -> result T) (Execute : T -> templateData -> string * option error).
Context (skeleton : node) (terminal : bool) (tidy : string -> FS -> FS).
(** huh's form: what the operator made of the values it was shown, under its check. *)
Context (form : (string -> option error) -> Answers -> result Answers).

Definition runWizard (projectName : string) (f : Flags) : result (string * Flags) :=
  let shown := MkAnswers projectName (fl_module f)
                 (if String.eqb (fl_db f) "" then "postgres" else fl_db f)
                 (if String.eqb (fl_apm f) "" then "none" else fl_apm f) (selected f) in
  match form validate_name shown with
  | Err e => Err e
  | Ok a =>
      let on := contains (an_features a) in
      Ok (an_project a,
          MkFlags (an_module a) (an_db a) (an_apm a) (on "redis") (on "kafka") (on "rabbitmq") (on "email")
            (on "firebase") (on "google-auth") (fl_yes f))
  end.

(** The values to go on with: from the wizard, or the flags with their defaults. *)
Definition inputs (projectName : string) (f : Flags) : result (string * Flags) :=
  if negb (fl_yes f) && terminal then runWizard projectName f
  else if String.eqb projectName ""
  then Err (Fresh "project name is required in non-interactive mode (pass it as the first argument)")
  else Ok (projectName,
           MkFlags (fl_module f) (if String.eqb (fl_db f) "" then "postgres" else fl_db f)
             (if String.eqb (fl_apm f) "" then "none" else fl_apm f) (fl_redis f) (fl_kafka f) (fl_rabbit f)
             (fl_email f) (fl_firebase f) (fl_google f) (fl_yes f)).

Definition default_module (projectName module : string) : string :=
  if String.eqb module "" then ("github.com/example/" ++ ReplaceAll projectName "_" "-")%string else module.

Definition options (projectName : string) (f : Flags) : ScaffoldOptions :=
  MkOptions projectName (default_module projectName (fl_module f)) (fl_db f) (fl_apm f) (fl_redis f) (fl_kafka f)
    (fl_rabbit f) (fl_email f) (fl_firebase f) (fl_google f).

Definition runNew (args : list string) (f : Flags) : go (option error) :=
  let projectName := match args with [name] => name | _ => ""%string end in
  match inputs projectName f with
  | Err e => Ret (Some e)
  | Ok (projectName, f) =>
      let targetDir := path_Join "." projectName in
      let! exists_ := Stat targetDir in
      if exists_ then Ret (Some (Fresh ("directory '" ++ projectName ++ "' already exists")))
      else
        let! err := Scaffold Parse Execute skeleton (options projectName f) targetDir in
        match err with
        | Some e => Ret (Some (errorf "scaffold failed: " e))
        | None => do! act (fun w => (tt, tidy targetDir w)) in Ret None   (* a failure is a warning *)
        end
  end.
End New.

(** ** [list] *)

Definition usecase_dir : string := "internal/usecase/".
Definition usecase_suffix : string := "_usecase.go".

(** [internal/usecase/*_usecase.go]. *)
Definition domain_of (path : string) : option string :=
  let name := TrimPrefix path usecase_dir in
  if HasPrefix path usecase_dir && negb (Contains name "/") && HasSuffix name usecase_suffix
  then Some (TrimSuffix name usecase_suffix) else None.

Definition string_le (a b : string) : Prop := String.leb a b = true.
#[export] Instance string_le_dec : RelDecision string_le := fun a b => decide (String.leb a b = true).

Definition runList : go (list string) :=
  reads (fun w => merge_sort string_le (omap domain_of (elements (dom (files w) ∪ dirs w)))).

(** ** What they do *)

(** The wizard changes nothing by itself: an operator who accepts the form as it is shown gets the
    flags given, with the defaults for the database and the tracing backend. *)
Theorem wizard_accepts (projectName : string) (f : Flags) :
  runWizard (fun _ a => Ok a) projectName f =
  Ok (projectName,
      MkFlags (fl_module f) (if String.eqb (fl_db f) "" then "postgres" else fl_db f)
        (if String.eqb (fl_apm f) "" then "none" else fl_apm f) (fl_redis f) (fl_kafka f) (fl_rabbit f)
        (fl_email f) (fl_firebase f) (fl_google f) (fl_yes f)).
Proof. destruct f as [m d a [] [] [] [] [] [] y]; reflexivity. Qed.

Section NewSpec.
Context {T : Type} (Parse : string -> result T) (Execute : T -> templateData -> string * option error).
Context (skeleton : node) (terminal : bool) (tidy : string -> FS -> FS).
Context (form : (string -> option error) -> Answers -> result Answers).

(** [new] scaffolds exactly what was asked for: with no usable input nothing happens; an existing
    target is refused and left alone; otherwise the project is scaffolded with the options of the
    flags or of the form, the module path derived from the name when none was given, and the
    modules are tidied only after it succeeded. *)
Theorem new_spec (args : list string) (f : Flags) (w : FS) :
  let '(err, w') := run (runNew Parse Execute skeleton terminal tidy form args f) w in
  match inputs terminal form (match args with [name] => name | _ => ""%string end) f with
  | Err _ => is_Some err /\ w' = w
  | Ok (name, g) =>
      let o := options name g in
      so_Module o <> ""%string /\
      (is_Some (files w !! path_Join "." name) \/ path_Join "." name ∈ dirs w -> is_Some err /\ w' = w) /\
      let '(serr, sw) := run (Scaffold Parse Execute skeleton o (path_Join "." name)) w in
      (~ (is_Some (files w !! path_Join "." name) \/ path_Join "." name ∈ dirs w) ->
       (serr = None -> err = None /\ w' = tidy (path_Join "." name) sw) /\
       (is_Some serr -> is_Some err /\ w' = sw))
  end.
Proof.
  unfold runNew. destruct (inputs terminal form _ f) as [[name g] | e]; [| by split].
  assert (Hm : so_Module (options name g) <> ""%string).
  { cbn [so_Module options]. unfold default_module. by destruct (String.eqb_spec (fl_module g) ""). }
  cbv zeta. rewrite run_bind. unfold Stat, reads. rewrite run_act.
  case_bool_decide as Hx; cbn [run].
  - split; [exact Hm |]. split; [by split |].
    destruct (run (Scaffold _ _ _ _ _) w) as [serr sw]. by intros [].
  - rewrite run_bind. destruct (run (Scaffold Parse Execute skeleton (options name g) (path_Join "." name)) w) as [[e |] sw].
    + cbn [run]. split; [exact Hm |]. split; [by intros ? |]. intros _. split; [done | by split].
    + rewrite run_bind, run_act. cbn [run]. split; [exact Hm |]. split; [by intros ? |]. intros _.
      split; [done | by intros [? ?]].
Qed.
End NewSpec.

Lemma string_le_total : Total string_le.
Proof. intros a b. apply String.leb_total. Qed.

(** [list] names each domain with a use case file once, in order, and nothing else. *)
Theorem list_spec (w : FS) :
  let '(l, w') := run runList w in
  w' = w /\ Sorted string_le l /\
  forall d, d ∈ l <-> exists p, (is_Some (files w !! p) \/ p ∈ dirs w) /\ domain_of p = Some d.
Proof.
  unfold runList, reads. rewrite run_act. split; [done |]. split.
  - apply Sorted_merge_sort, string_le_total.
  - intros d. rewrite merge_sort_Permutation, list_elem_of_omap. split; intros (p & Hp & Hd); exists p; (split; [| done]).
    + apply elem_of_elements, elem_of_union in Hp as [Hp | Hp]; [left; by apply elem_of_dom | by right].
    + apply elem_of_elements, elem_of_union. destruct Hp as [Hp | Hp]; [left; by apply elem_of_dom | by right].
Qed.

Section Listed.
Context (getwd : result string) {T : Type} (domain : string -> result string).
Context (Parse : string -> result T) (Execute : T -> Names -> string * option error).

(** A domain made with [make:all] is listed. *)
Theorem made_domain_listed (name : string) (w : FS) :
  Contains (Snake (NewNames name)) "/" = false ->
  let '(err, w') := run (make_all getwd domain Parse Execute name) w in
  err = None -> Snake (NewNames name) ∈ (run runList w').1.
Proof.
  intros Hs. pose proof (make_all_makes getwd domain Parse Execute name w) as H.
  destruct (run (make_all _ _ _ _ name) w) as [err w']. destruct H as (_ & _ & H). intros He.
  set (p := ("internal/usecase/" ++ Snake (NewNames name) ++ "_usecase.go")%string).
  destruct (H He p) as [_ Hp].
  { unfold all_files, usecase_files. rewrite !map_app. set_solver. }
  pose proof (list_spec w') as L. destruct (run runList w') as [l w'']. destruct L as (_ & _ & L).
  cbn [fst]. apply L. exists p. split; [by left |]. unfold domain_of, p, usecase_dir, usecase_suffix.
  rewrite HasPrefix_app, TrimPrefix_app, HasSuffix_app, TrimSuffix_app.
  rewrite Contains_char in Hs |- *. rewrite str_forall_app. apply negb_false_iff in Hs. by rewrite Hs.
Qed.
End Listed.

Module ProjectWitness.
Definition echo_names (t : string) (n : Names) : string * option error := ((t ++ Pascal n)%string, None).
Definition shop : FS := MkFS {["/src/shop/go.mod"%string := "module github.com/me/shop"%string]} ∅ [].

Lemma made_domain_listed_witness :
  Contains (Snake (NewNames "OrderItem")) "/" = false /\
  "order_item"%string ∈
    (run runList (run (make_all (Ok "/src/shop") (fun _ => Ok "template") (fun s => Ok s) echo_names "OrderItem") shop).2).1.
Proof.
  split; [reflexivity |].
  pose proof (made_domain_listed (Ok "/src/shop") (fun _ => Ok "template") (fun s => Ok s) echo_names "OrderItem" shop eq_refl) as H.
  destruct (run (make_all _ _ _ _ _) shop) as [err w'] eqn:E. cbn [snd]. apply H.
  enough ((run (make_all (Ok "/src/shop"%string) (fun _ => Ok "template"%string) (fun s => Ok s) echo_names "OrderItem") shop).1 = None) as X
    by (by rewrite E in X).
  by vm_compute.
Defined.
End ProjectWitness.
