(* ===== verification/Console.v ===== *)
(** What the generator's commands print and how it exits: the report of [add]
    (cli/commands/add.go) with its table of features, the summary of [new] (new.go), the
    lines of [list] (list.go), the version (root.go, version.go) and [Execute] (root.go).

    The output is a list of lines; lipgloss's rendering of a styled text is a parameter. *)

From stdpp Require Import base list strings gmap sorting.
From Stdlib Require Import ZArith Lia String Ascii.
From S2P Require Import Prelude Prog GoStrings Generator Scaffold Commands Project.

(** A quoted word. *)
Definition quoted (s : string) : string := (String (ascii_of_nat 34) s ++ String (ascii_of_nat 34) "")%string.

Record feature : Type := MkFeature {
  f_name : string; f_subdirs : list string; f_summary : string; f_steps : list string
}.

Definition feature_table : list feature := [
  MkFeature "redis" ["internal/repository/redis"; "pkg/ratelimit"]
    "Redis cache layer (RedisCacher + shared rate limiter)"
    ["Set REDIS_URL in .env (empty keeps the in-process cache fallback)";
     "Wire the shared cache in cmd/api/main.go:";
     "    redisClient := newRedisClient(&cfg.Redis)";
     "    cacher = redisrepo.New(redisClient, " ++ quoted "app" ++ ")";
     "Optional shared rate limiting: RATE_LIMIT_BACKEND=redis";
     "Add a redis service to docker-compose.yml (see the wapgo docs)";
     "Shared token revocation (auth.RedisBlacklist) ships with projects generated using --redis"];
  MkFeature "kafka" ["pkg/messaging/kafka"]
    "Kafka producer/consumer with health check"
    ["Publish: producer := kafka.NewProducer(cfg.Kafka.Brokers, topic)";
     "Consume: kafka.NewConsumer(...).Start(ctx, handler)";
     "Add KAFKA_BROKERS / KAFKA_GROUP_ID to your .env";
     "Add kafka + zookeeper services to docker-compose.yml"];
  MkFeature "rabbitmq" ["pkg/messaging/rabbitmq"]
    "RabbitMQ publisher/consumer with health check"
    ["Publish: pub := rabbitmq.NewPublisher(cfg.RabbitMQ.DSN, exchange)";
     "Subscribe: rabbitmq.NewConsumer(...).Subscribe(ctx, handler)";
     "Add RABBITMQ_DSN / RABBITMQ_EXCHANGE to your .env";
     "Add a rabbitmq service to docker-compose.yml"];
  MkFeature "email" ["pkg/notification/email"]
    "SMTP mailer dengan OTel tracing dan journal integration"
    ["Wire di cmd/api/main.go:";
     "    mailer := email.NewSMTPMailer(email.Config{Host: cfg.SMTP.Host, ...}, logger)";
     "Inject mailer ke usecase/handler yang butuh kirim email";
     "Tambah ke .env: SMTP_HOST, SMTP_PORT, SMTP_USERNAME, SMTP_PASSWORD, SMTP_FROM"];
  MkFeature "firebase" ["pkg/notification/firebase"]
    "Firebase Cloud Messaging (FCM) push notification via FCM v1 HTTP API"
    ["Wire di cmd/api/main.go:";
     "    pusher, err := firebase.NewFCMClient(os.Getenv(" ++ quoted "FIREBASE_CREDENTIALS_JSON" ++ "), logger)";
     "Inject pusher ke usecase/handler yang butuh kirim push notification";
     "Tambah ke .env: FIREBASE_CREDENTIALS_JSON (isi JSON service account, lihat .env.example)"];
  MkFeature "google-auth"
    ["pkg/auth/google"; "internal/delivery/http/handler"; "internal/delivery/http/route"]
    "Google OAuth2 login/register — redirects to Google, exchanges code, upserts user, issues JWT"
    ["1. go get golang.org/x/oauth2";
     "2. Tambah ke .env:";
     "       GOOGLE_CLIENT_ID=<from Google Console>";
     "       GOOGLE_CLIENT_SECRET=<from Google Console>";
     "       GOOGLE_REDIRECT_URL=http://localhost:8080/auth/google/callback";
     "3. Wire di cmd/api/main.go:";
     "       googleProvider := google.New(google.Config{";
     "           ClientID:     os.Getenv(" ++ quoted "GOOGLE_CLIENT_ID" ++ "),";
     "           ClientSecret: os.Getenv(" ++ quoted "GOOGLE_CLIENT_SECRET" ++ "),";
     "           RedirectURL:  os.Getenv(" ++ quoted "GOOGLE_REDIRECT_URL" ++ "),";
     "       })";
     "       googleHandler := handler.NewGoogleAuthHandler(googleProvider, userRepo, &jwtCfg, redisClient)";
     "4. Daftarkan route di router.go:";
     "       route.RegisterGoogleAuthRoutes(api, googleHandler)";
     "5. Jika project sudah ada, tambah FindByEmail ke UserRepository interface + db implementation.";
     "   (project baru dari wapgo new sudah include otomatis)"]]%string.

Inductive style : Type := stTitle | stOK | stKey | stVal | stCmd | stBoxLine.

(** [pad]: spaces are added while the text is shorter than [n]. *)
Fixpoint pad_loop (fuel : nat) (s : string) (n : Z) : string :=
  match fuel with
  | O => s
  | S fuel' => if len s <? n then pad_loop fuel' (s ++ " ") n else s
  end.
Definition pad (s : string) (n : Z) : string := pad_loop (Z.to_nat n) s n.

Section Printing.
Context (Render : style -> string -> string).

(** The lines after the files of a feature were copied. *)
Definition add_report (name : string) (steps created : list string) : list string :=
  (["" ; "  " ++ Render stTitle ("✦ wapgo add " ++ name); ""]%string ++
  match created with
  | [] => ["  " ++ Render stKey "Nothing to do — all files already exist."; ""]%string
  | _ =>
      map (fun c => "    " ++ Render stOK "created" ++ " " ++ c)%string created ++
      [""; "  " ++ Render stTitle "Next steps"]%string ++
      map (fun s => "    " ++ s)%string steps ++ [""%string]
  end)%list.

(** [printSummary]. *)
Definition summary_rows (o : ScaffoldOptions) : list (string * string) :=
  let feat (on : bool) := if on then Render stOK "enabled" else Render stKey "—" in
  [("module", so_Module o); ("database", so_DB o); ("observability", so_APM o);
   ("redis", feat (Redis o)); ("kafka", feat (Kafka o)); ("rabbitmq", feat (RabbitMQ o));
   ("email", feat (Email o)); ("firebase", feat (Firebase o)); ("google-auth", feat (GoogleAuth o))]%string.

Definition printSummary (o : ScaffoldOptions) : list string :=
  ([""; "  " ++ Render stTitle "✦ wapgo — project created" ++ "  " ++ Render stOK "✓"; ""]%string ++
   map (fun r => "    " ++ Render stKey (pad r.1 14) ++ "  " ++ Render stVal r.2)%string (summary_rows o) ++
   [""; "  " ++ Render stBoxLine "Next steps";
    "    " ++ Render stCmd ("cd " ++ ProjectName o);
    "    " ++ Render stCmd "cp .env.example .env";
    "    " ++ Render stCmd "make docker-up";
    "    " ++ Render stCmd "make run";
    "";
    "  Add a domain:   " ++ Render stCmd "wapgo make:all product";
    "  Add a feature:  " ++ Render stCmd "wapgo add redis | kafka | rabbitmq | email | firebase | google-auth";
    ""]%string)%list.

(** [add] with what it prints; an error prints nothing here ([Execute] does). *)
Section Add.
Context (skeleton : node) (getwd : result string).

Definition runAdd_printing (arg : string) : go (option error * list string) :=
  let name := ToLower (TrimSpace arg) in
  match List.find (fun f => String.eqb (f_name f) name) feature_table with
  | None => Ret (Some (Fresh ("unknown feature " ++ Quote name ++ " (available: " ++ Join featureNames ", " ++ ")")), [])
  | Some f =>
      let! module := ReadModulePath getwd in
      match module with
      | Err e => Ret (Some e, [])
      | Ok module =>
          let! r := add_subdirs skeleton name module (f_subdirs f) in
          Ret (match r with
               | (_, Some e) => (Some e, [])
               | (created, None) => (None, add_report name (f_steps f) created)
               end)
      end
  end.
End Add.
End Printing.

(** [list]: what it prints for the domains found in the working directory. *)
Definition list_output (wd : string) (domains : list string) : list string :=
  match domains with
  | [] => ["No generated domains found in internal/usecase/"%string]
  | _ => ("Domains in " ++ wd ++ ":")%string :: map (fun d => "  • " ++ d)%string domains
  end.

(** The version: of the linker flags, or of the module when it was installed as one. *)
Definition init_Version (version : string) (build_info : option string) : string :=
  if String.eqb version "dev" then
    match build_info with
    | Some v => if negb (String.eqb v "") && negb (String.eqb v "(devel)") then v else version
    | None => version
    end
  else version.

Definition version_output (version : string) : string := ("wapgo version " ++ version)%string.

(** [Execute] over the error of the command that ran: standard error and the exit code. *)
Definition Execute (err : option error) : list string * Z :=
  match err with
  | Some e => ([error_text e], 1)
  | None => ([], 0)
  end.

(** ** What is printed *)

Lemma pad_loop_length fuel s n :
  n - len s <= Z.of_nat fuel -> len (pad_loop fuel s n) = Z.max (len s) n.
Proof.
  revert s. induction fuel as [| fuel IH]; intros s Hf; simpl; [lia |].
  destruct (Z.ltb_spec (len s) n); [| lia].
  assert (len (s ++ " ") = len s + 1) as Hl by (unfold len; rewrite length_app_str; simpl; lia).
  rewrite IH by lia. lia.
Qed.

(** Padding ends, at the width asked for or the text's own. *)
Lemma pad_length s n : len (pad s n) = Z.max (len s) n.
Proof. unfold pad. apply pad_loop_length. unfold len. lia. Qed.

(** The table is the one [add] copies by, and [featureNames] its keys, sorted. *)
Lemma feature_table_agrees :
  map (fun f => (f_name f, f_subdirs f)) feature_table = features /\
  featureNames ≡ₚ map f_name feature_table /\
  Sorted string_le featureNames.
Proof.
  split; [reflexivity |]. split.
  - apply (bool_decide_unpack _). vm_compute. exact I.
  - repeat constructor.
Qed.

Lemma feature_subdirs_find name (l : list feature) :
  feature_subdirs name (map (fun f => (f_name f, f_subdirs f)) l) =
  f_subdirs <$> List.find (fun f => String.eqb (f_name f) name) l.
Proof. induction l as [| f l IH]; simpl; [done |]. destruct (String.eqb _ _); [done | exact IH]. Qed.

(** Printing changes nothing of what [add] does: the same error and the same files. On
    success the report names each file it created, and says so when there was none. *)
Theorem add_printing_spec Render (skeleton : node) (getwd : result string) (arg : string) (w : FS) :
  let '((err, out), w') := run (runAdd_printing Render skeleton getwd arg) w in
  run (runAdd getwd skeleton arg) w = (err, w') /\
  (is_Some err -> out = []) /\
  (err = None -> exists steps created, out = add_report Render (ToLower (TrimSpace arg)) steps created).
Proof.
  unfold runAdd_printing, runAdd. rewrite <- (proj1 feature_table_agrees), feature_subdirs_find.
  destruct (List.find _ feature_table) as [f |]; simpl fmap; cbn iota; [| by repeat split].
  rewrite !run_bind. destruct (run (ReadModulePath getwd) w) as [[m | e] w1]; [| by repeat split].
  rewrite !run_bind.
  destruct (run (add_subdirs skeleton _ m (f_subdirs f)) w1) as [[created [e |]] w2]; cbn [run snd].
  - by repeat split.
  - split; [done |]. split; [by intros [] | eauto].
Qed.

Lemma add_report_created Render name steps created c :
  c ∈ created -> ("    " ++ Render stOK "created" ++ " " ++ c)%string ∈ add_report Render name steps created.
Proof.
  intros Hc. unfold add_report. destruct created as [| c0 cs]; [by apply elem_of_nil in Hc |].
  apply elem_of_app. right. apply elem_of_app. left.
  apply (list_elem_of_fmap_2 (fun c => "    " ++ Render stOK "created" ++ " " ++ c)%string). exact Hc.
Qed.
