(* ===== verification/Cli.v ===== *)
(** The command line of the generator (cli/wapgo, cli/commands/root.go and the
    constructors of the commands): every command with its usage, arguments and flags, what
    it is bound to, and a run of the program from a command's name to its exit code.

    cobra is a parameter: how it checks the number of arguments, by its documented
    contract, and what it says of a command it does not know. Flags arrive parsed. What
    the commands print is in [Console]. *)

From stdpp Require Import base list strings gmap.
From Stdlib Require Import ZArith Lia Ascii String.
From S2P Require Import Prelude Prog GoStrings Generator Scaffold Commands Upgrade Project Console.

(** [args[i]]; nothing for an index out of range, where Go panics. *)
Definition index (args : list string) (i : nat) : option string := nth_error args i.

Notation "'let?' x := m 'in' k" := (match m with Some x => k | None => None end)
  (at level 10, x binder, m at level 100, k at level 200) : go_scope.

(** What a command does: work on the files of the working directory, or the calls of [upgrade]. *)
Inductive action : Type :=
| OnFiles (m : prog FS (option error))
| OnNet (m : prog (list Upgrade.event) (option error)).

(** The variables behind the flags of all commands. *)
Record CliFlags : Type := MkCli { cl_layer : string; cl_broker : string; cl_check : bool; cl_new : Flags }.

Record flag : Type := MkFlag { fg_name : string; fg_short : string; fg_default : string; fg_usage : string }.

Record Command : Type := MkCommand {
  Use : string; Short : string; Long : string;
  Args : option (list string -> option error); ValidArgs : list string; SilenceErrors : bool;
  CmdFlags : list flag;
  RunE : CliFlags -> list string -> option action       (* None: a panic *)
}.

Section Cli.
Context (ExactArgs MaximumNArgs : nat -> list string -> option error) (NoArgs : list string -> option error).
Context (unknown_command : string -> error).
(** What the commands are given: the files of the generator, the templates' engine, the
    terminal, the clock, the network. *)
Context {T : Type} (getwd : result string) (skeleton : node) (domain : string -> result string).
Context (Parse : string -> result T) (Execute : T -> templateData -> string * option error).
Context (ExecuteNames : T -> Names -> string * option error) (ExecuteWorker : T -> workerData -> string * option error).
Context (ParseFile : string -> option (list decl)) (timestamp : string).
Context (terminal : bool) (tidy : string -> FS -> FS) (form : (string -> option error) -> Answers -> result Answers).
Context (env : Env) (Version : string).

Definition newVersionCmd : Command :=
  MkCommand "version" "Print the wapgo CLI version"
    ""
    (None) [] false
    []
    (fun _ _ => Some (OnFiles (Ret None))).

Definition newNewCmd : Command :=
  MkCommand "new [project-name]" "Scaffold a new wapgo project (interactive)"
    "Create a new wapgo project.

Run without flags for an interactive wizard:
  wapgo new

Or pass everything up-front for non-interactive / CI use:
  wapgo new shop --module github.com/me/shop --db mysql --redis --apm otel --yes"
    (Some (MaximumNArgs 1)) [] false
    [MkFlag "module" "" "" "Go module path (default: github.com/example/<project-name>)";
      MkFlag "db" "" "" "Database driver: postgres | mysql";
      MkFlag "apm" "" "" "Observability provider: elastic_apm | otel | none";
      MkFlag "redis" "" "false" "Include Redis cache layer";
      MkFlag "kafka" "" "false" "Include Kafka producer/consumer";
      MkFlag "rabbitmq" "" "false" "Include RabbitMQ publisher/consumer";
      MkFlag "email" "" "false" "Include SMTP email add-on";
      MkFlag "firebase" "" "false" "Include Firebase FCM push notification add-on";
      MkFlag "google-auth" "" "false" "Include Google OAuth2 add-on";
      MkFlag "yes" "y" "false" "Non-interactive: use flags/defaults, skip the wizard"]
    (fun fl args => Some (OnFiles (runNew Parse Execute skeleton terminal tidy form args (cl_new fl)))).

Definition newAddCmd : Command :=
  MkCommand "add <feature>" "Add an optional feature to an existing wapgo project"
    "Add an optional feature to the project in the current directory.

Available features:
  redis        Redis cache layer
  kafka        Kafka producer/consumer
  rabbitmq     RabbitMQ publisher/consumer
  email        SMTP mailer
  firebase     Firebase FCM push notification
  google-auth  Google OAuth2 login/register

Example:
  wapgo add google-auth"
    (Some (ExactArgs 1)) featureNames false
    []
    (fun _ args => let? a := index args 0 in Some (OnFiles (runAdd getwd skeleton a))).

Definition newMakeModelCmd : Command :=
  MkCommand "make:model <name>" "Generate entity + domain repository interface"
    "Generate the entity struct and domain repository interface for a new domain.

Example:
  wapgo make:model product"
    (Some (ExactArgs 1)) [] false
    []
    (fun _ args => let? a := index args 0 in Some (OnFiles (runMakeModel getwd domain Parse ExecuteNames a))).

Definition newMakeRepoCmd : Command :=
  MkCommand "make:repo <name>" "Generate GORM repository implementation"
    "Generate the GORM repository implementation for a domain.
Driver dipilih via DB_DRIVER env var (mysql / postgres) — kode repository sama untuk keduanya.

Example:
  wapgo make:repo product"
    (Some (ExactArgs 1)) [] false
    []
    (fun _ args => let? a := index args 0 in Some (OnFiles (runMakeRepo getwd domain Parse ExecuteNames a))).

Definition newMakeUsecaseCmd : Command :=
  MkCommand "make:usecase <name>" "Generate usecase interface and implementation"
    ""
    (Some (ExactArgs 1)) [] false
    []
    (fun _ args => let? a := index args 0 in Some (OnFiles (runMakeUsecase getwd domain Parse ExecuteNames a))).

Definition newMakeControllerCmd : Command :=
  MkCommand "make:controller <name>" "Generate HTTP handler (controller) and external service interface"
    ""
    (Some (ExactArgs 1)) [] false
    []
    (fun _ args => let? a := index args 0 in Some (OnFiles (runMakeController getwd domain Parse ExecuteNames a))).

Definition newMakeRouteCmd : Command :=
  MkCommand "make:route <name>" "Generate route registration for a domain"
    ""
    (Some (ExactArgs 1)) [] false
    []
    (fun _ args => let? a := index args 0 in Some (OnFiles (runMakeRoute getwd domain Parse ExecuteNames a))).

Definition newMakeClientCmd : Command :=
  MkCommand "make:client <name>" "Generate inter-service HTTP client for a domain"
    ""
    (Some (ExactArgs 1)) [] false
    []
    (fun _ args => let? a := index args 0 in Some (OnFiles (runMakeClient getwd domain Parse ExecuteNames a))).

Definition newMakeAllCmd : Command :=
  MkCommand "make:all <name>" "Generate all layers for a new domain at once"
    "Generate every layer for a new domain in one command:

  make:model      → entity + domain repository interface
  make:repo       → GORM repository implementation (driver-agnostic)
  make:usecase    → usecase interface + implementation
  make:controller → HTTP handler + external service interface
  make:route      → route registration
  make:client     → inter-service HTTP client
  make:test       → usecase + handler test boilerplate

Example:
  wapgo make:all product"
    (Some (ExactArgs 1)) [] false
    []
    (fun _ args => let? a := index args 0 in Some (OnFiles (make_all getwd domain Parse ExecuteNames a))).

Definition newMakeMigrationCmd : Command :=
  MkCommand "make:migration <name>" "Generate a timestamped SQL migration file pair (up + down)"
    "Generate a timestamped up/down SQL migration pair in migrations/.

The file names follow the golang-migrate convention:
  {timestamp}_{name}.up.sql
  {timestamp}_{name}.down.sql

Example:
  wapgo make:migration create_orders"
    (Some (ExactArgs 1)) [] false
    []
    (fun _ args => let? a := index args 0 in Some (OnFiles (runMakeMigration ParseFile timestamp a))).

Definition newMakeTestCmd : Command :=
  MkCommand "make:test <name>" "Generate test boilerplate for a domain layer"
    "Generate test boilerplate for a domain layer.

Layers:
  usecase  (default) — usecase unit tests with mock repository
  handler             — HTTP handler tests with mock usecase + httptest

Examples:
  wapgo make:test product
  wapgo make:test product --layer handler"
    (Some (ExactArgs 1)) [] false
    [MkFlag "layer" "l" "usecase" "layer to generate test for (usecase|handler)"]
    (fun fl args =>
       (* the name is read only under a known layer *)
       if within (cl_layer fl) ["usecase"; ""]%string || String.eqb (cl_layer fl) "handler"
       then let? a := index args 0 in Some (OnFiles (make_test getwd domain Parse ExecuteNames (cl_layer fl) a))
       else Some (OnFiles (make_test getwd domain Parse ExecuteNames (cl_layer fl) ""))).

Definition newMakeEventCmd : Command :=
  MkCommand "make:event <name>" "Generate Kafka event producer + consumer boilerplate for a domain"
    "Generate a producer and consumer pair for Kafka domain events.

Files created:
  internal/event/{name}_producer.go  — typed event publisher
  internal/event/{name}_consumer.go  — typed event subscriber

Example:
  wapgo make:event order"
    (Some (ExactArgs 1)) [] false
    []
    (fun _ args => let? a := index args 0 in Some (OnFiles (runMakeEvent getwd domain Parse ExecuteNames a))).

Definition newMakeWorkerCmd : Command :=
  MkCommand "make:worker [name]" "Generate a standalone background consumer entrypoint"
    "Generate a worker binary that runs Kafka/RabbitMQ consumers as a process
separate from the API server. An optional name scopes the worker to a domain.

Output paths:
  (no name)          → cmd/worker/main.go          bin/worker
  make:worker order  → cmd/worker-order/main.go    bin/worker-order
  make:worker pay    → cmd/worker-pay/main.go      bin/worker-pay

Flags:
  --broker kafka      (default, or auto-detected from go.mod)
  --broker rabbitmq
  --broker both       (Kafka + RabbitMQ in one process)

Examples:
  wapgo make:worker
  wapgo make:worker order
  wapgo make:worker order --broker kafka
  wapgo make:worker notif --broker rabbitmq
  wapgo make:worker hub   --broker both"
    (Some (MaximumNArgs 1)) [] false
    [MkFlag "broker" "" "" "messaging broker: kafka | rabbitmq | both (auto-detected if omitted)"]
    (fun fl args =>
       let? name := if (0 <? List.length args)%nat then index args 0 else Some ""%string in
       Some (OnFiles (runMakeWorker getwd domain Parse ExecuteWorker name (cl_broker fl)))).

Definition newListCmd : Command :=
  MkCommand "list" "List all domains generated in the current project"
    "Scan internal/usecase/ for generated domain usecase files and print them.

Example:
  wapgo list"
    (Some NoArgs) [] false
    []
    (fun _ _ => Some (OnFiles (let! _ := runList in Ret None))).

Definition newUpgradeCmd : Command :=
  MkCommand "upgrade" "Check for a newer wapgo release and upgrade via go install"
    "Fetch the latest release tag from GitHub and compare with the installed version.
If a newer version is available, run go install to upgrade.

Examples:
  wapgo upgrade           # check and upgrade if needed
  wapgo upgrade --check   # check only, do not install"
    (Some NoArgs) [] true
    [MkFlag "check" "" "false" "Only report whether an update is available"]
    (fun fl _ => Some (OnNet (runUpgrade env Version (cl_check fl)))).

(** The commands [init] adds to [rootCmd]. *)
Definition rootCmd : list Command :=
  [newVersionCmd; newNewCmd; newAddCmd; newMakeModelCmd; newMakeRepoCmd; newMakeUsecaseCmd; newMakeControllerCmd;
   newMakeRouteCmd; newMakeClientCmd; newMakeAllCmd; newMakeMigrationCmd; newMakeTestCmd; newMakeEventCmd;
   newMakeWorkerCmd; newListCmd; newUpgradeCmd].

(** A command's name is the first word of its usage. *)
Definition cmd_name (c : Command) : string := up_to (Ascii.eqb " ") (Use c).

Definition check_args (c : Command) (args : list string) : option error :=
  match Args c with Some check => check args | None => None end.

Definition world : Type := FS * list Upgrade.event.

Definition perform (x : action) (w : world) : option error * world :=
  match x with
  | OnFiles m => let '(err, f) := run m w.1 in (err, (f, w.2))
  | OnNet m => let '(err, h) := run m w.2 in (err, (w.1, h))
  end.

(** [rootCmd.Execute()]: the command, its arguments, its action. *)
Definition rootCmd_Execute (name : string) (fl : CliFlags) (args : list string) (w : world)
  : option (option error * world) :=
  match List.find (fun c => String.eqb (cmd_name c) name) rootCmd with
  | None => Some (Some (unknown_command name), w)
  | Some c =>
      match check_args c args with
      | Some e => Some (Some e, w)
      | None => let? x := RunE c fl args in Some (perform x w)
      end
  end.

(** [main]: what [Execute] writes to standard error, the exit code, and the world left. cobra
    itself prints the usage, and the error too unless it is silenced. *)
Definition main (name : string) (fl : CliFlags) (args : list string) (w : world)
  : option (list string * Z * world) :=
  let? r := rootCmd_Execute name fl args w in Some (Console.Execute r.1, r.2).

(** ** What it does *)

Context (ExactArgs_spec : forall n args, ExactArgs n args = None <-> List.length args = n).
Context (MaximumNArgs_spec : forall n args, MaximumNArgs n args = None <-> (List.length args <= n)%nat).

(** No two commands share a name. *)
Lemma names_distinct : NoDup (map cmd_name rootCmd).
Proof. apply (bool_decide_unpack _). vm_compute. exact I. Qed.

Lemma find_command c : c ∈ rootCmd -> List.find (fun c' => String.eqb (cmd_name c') (cmd_name c)) rootCmd = Some c.
Proof.
  intros Hc. unfold rootCmd in Hc. rewrite !elem_of_cons, elem_of_nil in Hc.
  repeat (destruct Hc as [-> | Hc]; [reflexivity |]). done.
Qed.

(** A command whose arguments were accepted does not read past them. *)
Lemma no_panic c fl args : c ∈ rootCmd -> check_args c args = None -> is_Some (RunE c fl args).
Proof.
  intros Hc Ha. unfold rootCmd in Hc. rewrite !elem_of_cons, elem_of_nil in Hc.
  repeat (destruct Hc as [-> | Hc]; [cbn in Ha |- *;
    first [ by eexists
          | apply ExactArgs_spec in Ha; destruct args as [| x [|]]; try discriminate Ha; cbn; repeat case_match; by eexists
          | apply MaximumNArgs_spec in Ha; destruct args as [| x [|]]; cbn in *; try lia; by eexists ] |]).
  done.
Qed.

(** The program never panics, whatever the command, its flags and its arguments. A name no
    command has, or arguments it does not take, end it with exit code 1 and nothing done;
    otherwise exactly the command's own action is performed, and the exit code is 0 when it
    ends without an error and 1 with its text otherwise. *)
Theorem main_spec (name : string) (fl : CliFlags) (args : list string) (w : world) :
  exists err code w', main name fl args w = Some (err, code, w') /\
    ((exists c x e, c ∈ rootCmd /\ cmd_name c = name /\ check_args c args = None /\ RunE c fl args = Some x /\
        perform x w = (e, w') /\
        match e with None => err = [] /\ code = 0 | Some e => err = [error_text e] /\ code = 1 end)
     \/ (w' = w /\ code = 1 /\
         forall c, c ∈ rootCmd -> cmd_name c = name -> check_args c args <> None)).
Proof.
  unfold main, rootCmd_Execute. destruct (List.find _ rootCmd) as [c |] eqn:Ef.
  - apply find_some in Ef as [Hc%list_elem_of_In Hn%String.eqb_eq].
    destruct (check_args c args) as [e |] eqn:Ea.
    + exists [error_text e], 1, w. split; [done |]. right. split_and!; [done.. |]. intros c' Hc' Hn'.
      pose proof (find_command c Hc) as F1. pose proof (find_command c' Hc') as F2.
      rewrite Hn in F1. rewrite Hn' in F2. congruence.
    + destruct (no_panic c fl args Hc Ea) as [x Hx]. rewrite Hx. destruct (perform x w) as [e w'] eqn:Ep.
      exists (Console.Execute e).1, (Console.Execute e).2, w'. split; [by destruct e |]. left.
      exists c, x, e. split_and!; try done. by destruct e.
  - exists [error_text (unknown_command name)], 1, w. split; [done |]. right. split_and!; [done.. |].
    intros c Hc Hn. pose proof (find_command c Hc) as F. rewrite Hn in F. congruence.
Qed.

(** The help of [add] names every feature it takes. *)
Lemma add_help_names_features : Forall (fun f => Contains (Long newAddCmd) f = true) (ValidArgs newAddCmd).
Proof. repeat constructor. Qed.
End Cli.

Module CliWitness.

Definition count_check (ok : nat -> bool) (args : list string) : option error :=
  if ok (List.length args) then None else Some (Fresh "wrong number of arguments").
Definition exact (n : nat) : list string -> option error := count_check (Nat.eqb n).
Definition maximum (n : nat) : list string -> option error := count_check (fun k => Nat.leb k n).
Definition none : list string -> option error := count_check (Nat.eqb 0).

Lemma exact_law n args : exact n args = None <-> List.length args = n.
Proof. unfold exact, count_check. destruct (Nat.eqb_spec n (List.length args)); split; congruence. Qed.
Lemma maximum_law n args : maximum n args = None <-> (List.length args <= n)%nat.
Proof. unfold maximum, count_check. destruct (Nat.leb_spec (List.length args) n); split; try done; lia. Qed.

(** A project, templates that echo, a terminal that is none, a network that is down. *)
Definition wapgo : string -> CliFlags -> list string -> world -> option (list string * Z * world) :=
  main exact maximum none (fun n => Fresh ("unknown command " ++ n)) (Ok "/src/shop"%string) (Dir "." [])
    (fun name => Ok name) (fun s => Ok s) (fun t _ => (t, None)) ProjectWitness.echo_names (fun t _ => (t, None))
    (fun _ => None) "20240101000000" false (fun _ f => f) (fun _ a => Ok a)
    (MkEnv (Err (Fresh "offline")) (Err (Fresh "no go")) None) "v1.0.0".
Definition no_flags : CliFlags := MkCli "usecase" "" false (MkFlags "" "" "" false false false false false false false).
Definition shop : world := (ProjectWitness.shop, []).

Lemma main_spec_witness : exists err code w', wapgo "make:model" no_flags [] shop = Some (err, code, w') /\ code = 1 /\ w' = shop.
Proof.
  destruct (main_spec exact maximum none (fun n => Fresh ("unknown command " ++ n)) (Ok "/src/shop"%string) (Dir "." [])
    (fun name => Ok name) (fun s => Ok s) (fun t _ => (t, None)) ProjectWitness.echo_names (fun t _ => (t, None))
    (fun _ => None) "20240101000000" false (fun _ f => f) (fun _ a => Ok a)
    (MkEnv (Err (Fresh "offline")) (Err (Fresh "no go")) None) "v1.0.0" exact_law maximum_law
    "make:model" no_flags [] shop) as (err & code & w' & E & H).
  exists err, code, w'. split; [exact E |]. vm_compute in E. injection E as <- <- <-. split; reflexivity.
Defined.

Example some_runs :
  map (fun '(name, args) => option_map (fun r => r.1.2) (wapgo name no_flags args shop))
    [("make:model", ["order"]); ("make:model", []); ("make:modl", ["order"]); ("list", ["all"]); ("upgrade", []);
     ("new", []); ("make:worker", []); ("version", ["please"])]%string
  = [Some 0; Some 1; Some 1; Some 1; Some 0; Some 1; Some 0; Some 0].
Proof. vm_compute. reflexivity. Qed.
End CliWitness.
