(* ===== verification/Addons.v ===== *)
(** Two small add-ons: the audit trail ([pkg/auditlog]) and Google sign-in
    ([pkg/auth/google]). *)

From stdpp Require Import base list strings.
From Stdlib Require Import ZArith Lia String.
From S2P Require Import Prelude Prog GoStrings Json Broker.

Module Audit.

Definition Action : Type := string.
Definition ActionCreate : Action := "create".
Definition ActionUpdate : Action := "update".
Definition ActionDelete : Action := "delete".
Definition ActionLogin : Action := "login".
Definition ActionLogout : Action := "logout".

(** [Detail] is nil, or a value with its JSON. *)
Record Entry : Type := MkEntry {
  Timestamp : Z; ActorID : string; ActorEmail : string; Action_ : Action; Entity : string;
  EntityID : string; RequestID : string; Detail : option json
}.

(** A line of the trail: its time and its other fields, in order. *)
Record line : Type := MkLine { timestamp : Z; fields : list (string * json) }.

(** [Log] over the lines written so far, newest first. *)
Definition Log (now : Z) (e : Entry) (trail : list line) : list line :=
  let t := if bool_decide (Timestamp e = zero_time) then now else Timestamp e in
  MkLine t
    ([("audit", JStr "true"); ("actor_id", JStr (ActorID e)); ("action", JStr (Action_ e));
      ("entity", JStr (Entity e)); ("entity_id", JStr (EntityID e))] ++
     (if String.eqb (ActorEmail e) "" then [] else [("actor_email", JStr (ActorEmail e))]) ++
     (if String.eqb (RequestID e) "" then [] else [("request_id", JStr (RequestID e))]) ++
     (match Detail e with Some d => [("detail", d)] | None => [] end)) :: trail.

(** The logger of a context. *)
Definition WithAuditLogger {L} (ctx : option L) (l : L) : option L := Some l.
Definition FromContext {L} (ctx : option L) : option L := ctx.

(** Reading an entry back. *)
Definition text (name : string) (l : list (string * json)) : option string :=
  match field name l with Some (JStr s) => Some s | Some _ => None | None => Some ""%string end.
Definition read_line (l : line) : option Entry :=
  match text "actor_id" (fields l), text "actor_email" (fields l), text "action" (fields l) with
  | Some id, Some mail, Some a =>
      match text "entity" (fields l), text "entity_id" (fields l), text "request_id" (fields l) with
      | Some ent, Some eid, Some rid => Some (MkEntry (timestamp l) id mail a ent eid rid (field "detail" (fields l)))
      | _, _, _ => None
      end
  | _, _, _ => None
  end.

(** Nothing is lost: a line reads back as the entry it was written for, with the time of
    writing when the entry had none; earlier lines stay. *)
Theorem audit_roundtrip (now : Z) (e : Entry) (trail : list line) :
  exists l, Log now e trail = l :: trail /\
    read_line l = Some (MkEntry (if bool_decide (Timestamp e = zero_time) then now else Timestamp e)
                          (ActorID e) (ActorEmail e) (Action_ e) (Entity e) (EntityID e) (RequestID e) (Detail e)).
Proof.
  eexists. split; [reflexivity |]. destruct e as [t id mail a ent eid rid d].
  unfold read_line, text. cbn [fields timestamp ActorID ActorEmail Action_ Entity EntityID RequestID Detail Timestamp].
  destruct (String.eqb_spec mail "") as [-> | Hm], (String.eqb_spec rid "") as [-> | Hr], d as [d |]; reflexivity.
Qed.
End Audit.

Module Google.

Record Config : Type := MkConfig { ClientID : string; ClientSecret : string; RedirectURL : string }.
Record UserInfo : Type := MkUserInfo { ID : string; Email : string; Name : string; Picture : string }.

(** The oauth2 library's configuration; the endpoint is Google's. *)
Record Provider : Type := MkProvider {
  p_ClientID : string; p_ClientSecret : string; p_RedirectURL : string; p_Scopes : list string
}.
Definition New (cfg : Config) : Provider :=
  MkProvider (ClientID cfg) (ClientSecret cfg) (RedirectURL cfg) ["openid"; "email"; "profile"]%string.

Definition userinfo_url : string := "https://www.googleapis.com/oauth2/v2/userinfo".

Section Flow.
(** The oauth2 library: the consent page of a state, the exchange of a code for a token,
    and a request with a token (its status and its body as it decodes). *)
Context {Token : Type} (AuthCodeURL : Provider -> string -> string).

Inductive event : Type :=
| Exchanged (code : string) (r : result Token)
| Fetched (token : Token) (url : string) (r : result (Z * result UserInfo)).

Context (oauth_exchange : list event -> string -> result Token).
Context (http_get : list event -> Token -> string -> result (Z * result UserInfo)).

Definition AuthURL (p : Provider) (state : string) : string := AuthCodeURL p state.

Definition Exchange (code : string) : prog (list event) (result UserInfo) :=
  let! token := call (fun h => oauth_exchange h code) (Exchanged code) in
  match token with
  | Err e => Ret (Err (errorf "google oauth exchange: " e))
  | Ok token =>
      let! resp := call (fun h => http_get h token userinfo_url) (Fetched token userinfo_url) in
      Ret match resp with
          | Err e => Err (errorf "google userinfo fetch: " e)
          | Ok (status, body) =>
              if negb (status =? 200) then Err (Fresh ("google userinfo: unexpected status " ++ Itoa status))
              else match body with Err e => Err (errorf "google userinfo decode: " e) | Ok info => Ok info end
          end
  end.

(** A profile is answered exactly when the code was exchanged and Google answered 200 with
    that profile to a request with the very token of the code; without a token nothing is
    asked. *)
Theorem exchange_spec (code : string) (h : list event) (info : UserInfo) :
  let '(r, h') := run (Exchange code) h in
  (r = Ok info <->
     exists token, h' = Fetched token userinfo_url (Ok (200, Ok info)) :: Exchanged code (Ok token) :: h) /\
  (forall e, oauth_exchange h code = Err e -> h' = Exchanged code (Err e) :: h).
Proof.
  unfold Exchange. rewrite run_bind, run_call. destruct (oauth_exchange h code) as [token | e].
  - rewrite run_bind, run_call. destruct (http_get _ token _) as [[status body] | e]; cbn [run].
    + destruct (Z.eqb_spec status 200) as [-> | Hs]; cbn [negb].
      * split; [| done]. destruct body as [i | e]; (split; [intros [= ->]; eauto | intros (t & [= Ht H])]); by subst.
      * split; [| done]. split; [done | intros (t & [= _ H])]. done.
    + split; [| done]. split; [done | by intros (t & [= _ H])].
  - cbn [run]. split; [split; [done | by intros (t & H)] | by intros e' [= ->]].
Qed.
End Flow.
End Google.
