(* ===== verification/Observe.v ===== *)
(** Observability ([pkg/observability]): the choice of the provider, the spans the
    providers put around requests, statements and Redis commands, and the request
    metrics. The tracing SDKs are what keeps the history of calls; a context is known by
    the spans it was derived through, innermost first. Panics are left out. *)

From stdpp Require Import base list strings gmap.
From Stdlib Require Import ZArith Lia String.
From S2P Require Import Prelude Prog GoStrings Http Config Database.

(** ** The calls of the tracing libraries *)

Definition context : Type := list nat.

Inductive event : Type :=
| SetTracerProvider (name : string)
| SetTextMapPropagator
| SpanStarted (id : nat) (name kind : string) (parent : context)
| SpanAttributes (id : nat) (attributes : list (string * string))
| Captured (ctx : context) (e : error)
| SpanEnded (id : nat).

(** The number of the next span, and the spans open after a history, innermost first: a
    span may only be ended when it is the innermost. *)
Definition started (h : list event) : nat :=
  List.length (List.filter (fun e => match e with SpanStarted _ _ _ _ => true | _ => false end) h).

Fixpoint open_spans (h : list event) : option (list nat) :=
  match h with
  | [] => Some []
  | e :: h' =>
      match open_spans h', e with
      | Some st, SpanStarted id _ _ _ => Some (id :: st)
      | Some (top :: st), SpanEnded id => if Nat.eqb top id then Some st else None
      | Some [], SpanEnded _ => None
      | st, _ => st
      end
  end.

(** The SDK's history in a world that holds more. *)
Class Traced (W : Type) : Type := { calls : W -> list event; put_calls : list event -> W -> W }.
Class TracedLaws (W : Type) `{Traced W} : Prop := {
  calls_put : forall h w, calls (put_calls h w) = h;
  put_calls_put : forall h h' w, put_calls h (put_calls h' w) = put_calls h w;
  put_calls_id : forall w, put_calls (calls w) w = w
}.

#[export] Instance traced_history : Traced (list event) := {| calls := fun h => h; put_calls := fun h _ => h |}.
#[export] Instance traced_history_laws : TracedLaws (list event).
Proof. by constructor. Qed.

Section Spans.
Context {W : Type} `{Traced W}.

Definition record (e : event) : prog W unit := act (fun w => (tt, put_calls (e :: calls w) w)).
Definition start_span (name kind : string) (ctx : context) : prog W nat :=
  act (fun w => let id := started (calls w) in (id, put_calls (SpanStarted id name kind ctx :: calls w) w)).
Definition end_span (id : nat) : prog W unit := record (SpanEnded id).
Definition capture (ctx : context) (e : error) : prog W unit := record (Captured ctx e).

(** ** The gorm plugin of the Elastic provider *)

(** [db.Statement]: its context, which may be nil, and the span among its settings. *)
Record Statement : Type := MkStatement { Context_ : option context; span : option nat }.

Definition gorm_before (op : string) (stmt : option Statement) : prog W (option Statement) :=
  match stmt with
  | Some (MkStatement (Some ctx) _) =>
      let! id := start_span ("db." ++ op) "db.sql" ctx in
      Ret (Some (MkStatement (Some (id :: ctx)) (Some id)))
  | _ => Ret stmt
  end.

(** [db.Error] is the outcome of the statement. *)
Definition gorm_after (err : option error) (stmt : option Statement) : prog W unit :=
  match stmt with
  | Some (MkStatement ctx (Some id)) =>
      do! (match err with
           | Some e => if errors_is e ErrRecordNotFound then Ret tt else capture (default [] ctx) e
           | None => Ret tt
           end) in
      end_span id
  | _ => Ret tt
  end.

(** The callbacks [Initialize] registers. gorm has no callbacks after_row and after_raw: what
    is registered after an unknown one runs last. *)
Definition gorm_callbacks : list (string * position * string) :=
  [("Query", Before "gorm:query", "apm:before_query");
   ("Query", After "gorm:after_query", "apm:after_query");
   ("Create", Before "gorm:create", "apm:before_create");
   ("Create", After "gorm:after_create", "apm:after_create");
   ("Update", Before "gorm:update", "apm:before_update");
   ("Update", After "gorm:after_update", "apm:after_update");
   ("Delete", Before "gorm:delete", "apm:before_delete");
   ("Delete", After "gorm:after_delete", "apm:after_delete");
   ("Row", Before "gorm:row", "apm:before_row");
   ("Row", After "gorm:after_row", "apm:after_row");
   ("Raw", Before "gorm:raw", "apm:before_raw");
   ("Raw", After "gorm:after_raw", "apm:after_raw")]%string.

(** A statement with the plugin around it: [body] is gorm's own work, given the
    statement's context, and its error. *)
Definition traced_statement (op : string) (body : option context -> prog W (option error)) (ctx : option context)
  : prog W (option error) :=
  let! stmt := gorm_before op (Some (MkStatement ctx None)) in
  let! err := body (match stmt with Some s => Context_ s | None => None end) in
  do! gorm_after err stmt in
  Ret err.

(** ** The Redis hook *)

Definition ProcessHook (next : context -> string -> prog W (option error)) (ctx : context) (cmd : string)
  : prog W (option error) :=
  let! id := start_span ("redis." ++ cmd) "db.redis" ctx in
  let! err := next (id :: ctx) cmd in
  do! (match err with
       | Some e => if errors_is e RedisNil then Ret tt else capture (id :: ctx) e
       | None => Ret tt
       end) in
  do! end_span id in
  Ret err.

Definition ProcessPipelineHook (next : context -> list string -> prog W (option error)) (ctx : context)
    (cmds : list string) : prog W (option error) :=
  let! id := start_span "redis.pipeline" "db.redis" ctx in
  let! err := next (id :: ctx) cmds in
  do! end_span id in
  Ret err.

(** ** The middlewares *)

(** [c.Route().Path]; what the propagator finds in the request's headers; the request id
    in fasthttp's own context ([c.Context()]). *)
Context (route_path : Ctx -> string) (extract : Request -> context) (context_request_id : Ctx -> string).

(** [otelProvider.HTTPMiddleware]; the derived context goes to the handlers behind it. *)
Definition otel_HTTPMiddleware (next : context -> handler W) : handler W := fun c =>
  let ctx := extract (request c) in
  let! id := start_span (method (request c) ++ " " ++ path (request c)) "server" ctx in
  let rid := context_request_id c in
  do! (if negb (String.eqb rid "") then record (SpanAttributes id [("http.request_id"%string, rid)]) else Ret tt) in
  let! out := next (id :: ctx) c in
  let '(err, c') := out in
  do! record (SpanAttributes id
                [("http.request.method", method (request c')); ("http.route", route_path c');
                 ("http.response.status_code", Itoa (status c'))])%string in
  do! (match err with Some e => capture (id :: ctx) e | None => Ret tt end) in
  do! end_span id in
  Ret (err, c').

(** [MetricsMiddleware]: the counters by route, method and status, and the durations
    observed by route and method. *)
Record Metrics : Type := MkMetrics {
  httpRequestsTotal : gmap (string * string * string) Z;
  httpRequestDuration : gmap (string * string) (list Z)
}.

Definition observe (route method status : string) (d : Z) (m : Metrics) : Metrics :=
  MkMetrics (partial_alter (fun n => Some (default 0 n + 1)) (route, method, status) (httpRequestsTotal m))
    (partial_alter (fun l => Some (d :: default [] l)) (route, method) (httpRequestDuration m)).

Context (now : prog W Z) (metrics : W -> Metrics) (set_metrics : Metrics -> W -> W).

Definition MetricsMiddleware (next : handler W) : handler W := fun c =>
  let! start := now in
  let! out := next c in
  let '(err, c') := out in
  let! stop := now in
  do! act (fun w => (tt, set_metrics (observe (route_path c') (method (request c')) (Itoa (status c'))
                                        (stop - start) (metrics w)) w)) in
  Ret (err, c').
End Spans.

(** ** Providers *)

Inductive Provider : Type :=
| noopProvider
| elasticProvider
| otelProvider (tracer : string) (exporting : bool).

Record otelConfig : Type := MkOtelConfig {
  oc_ServiceName : string; oc_ServiceVersion : string; oc_Environment : string; oc_OTLPEndpoint : string;
  oc_Enabled : bool
}.

Section Providers.
Context {W : Type} `{Traced W}.
(** What the SDKs have against being set up. *)
Context (apmotel : option error) (resource : otelConfig -> option error).
Context (otlp : string -> option error) (stdout : option error).

Definition newElasticProvider : prog W (result Provider) :=
  match apmotel with
  | Some e => Ret (Err (errorf "apmotel tracer provider: " e))
  | None =>
      do! record (SetTracerProvider "apmotel") in
      do! record SetTextMapPropagator in
      Ret (Ok elasticProvider)
  end.

Definition newOTelProvider (cfg : otelConfig) : prog W (result Provider) :=
  if negb (oc_Enabled cfg) then
    do! record (SetTracerProvider "noop") in
    Ret (Ok (otelProvider (oc_ServiceName cfg) false))
  else
    match resource cfg with
    | Some e => Ret (Err (errorf "otel resource: " e))
    | None =>
        match (if negb (String.eqb (oc_OTLPEndpoint cfg) "") then otlp (oc_OTLPEndpoint cfg) else stdout) with
        | Some e => Ret (Err (errorf "otel exporter: " e))
        | None =>
            do! record (SetTracerProvider (oc_ServiceName cfg)) in
            do! record SetTextMapPropagator in
            Ret (Ok (otelProvider (oc_ServiceName cfg) true))
        end
    end.

Definition New (cfg : ObservabilityConfig) (serviceName serviceVersion environment : string) : prog W (result Provider) :=
  if String.eqb (Obs_Provider cfg) "none" then Ret (Ok noopProvider)
  else if String.eqb (Obs_Provider cfg) "elastic_apm" then
    let! p := newElasticProvider in
    Ret match p with Err e => Err (errorf "elastic apm provider: " e) | Ok p => Ok p end
  else
    let! p := newOTelProvider (MkOtelConfig serviceName serviceVersion environment (Obs_OTLPEndpoint cfg)
                                 (Obs_TracingEnabled cfg)) in
    Ret match p with Err e => Err (errorf "otel provider: " e) | Ok p => Ok p end.
End Providers.

(** [Shutdown]: [flushed] says which came first, the end of the agent's flush or of the
    context; [tp] is what the SDK's own shutdown answers. *)
Definition Shutdown (flushed : bool) (ctx_err : error) (tp : option error) (p : Provider) : option error :=
  match p with
  | noopProvider => None
  | elasticProvider => if flushed then None else Some ctx_err
  | otelProvider _ exporting => if exporting then tp else None
  end.

Definition WrapTransport {T} (apmhttp otelhttp : T -> T) (p : Provider) (inner : T) : T :=
  match p with noopProvider => inner | elasticProvider => apmhttp inner | otelProvider _ _ => otelhttp inner end.

(** ** tracing.go *)

(** The trace of the OpenTelemetry span in a context, or of the Elastic transaction. *)
Definition TraceID (otel apm : option string) : string :=
  match otel, apm with Some t, _ => t | None, Some t => t | None, None => ""%string end.

(** The context the provider's middleware stored, or the request's own. *)
Definition TraceContext (otel_ctx user_ctx : option context) : context :=
  match otel_ctx, user_ctx with Some c, _ => c | None, Some c => c | None, None => [] end.

(** [fiberHeaderCarrier]. *)
Definition carrier_Get (c : Ctx) (key : string) : string := c_Get key c.
Definition carrier_Set (c : Ctx) (key val : string) : Ctx := c_Set key val c.
Definition carrier_Keys (c : Ctx) : list string := map fst (req_headers (request c)).

(** ** Spans are bracketed *)

Section Brackets.
Context {W : Type} `{TracedLaws W}.
Notation opened w := (open_spans (calls w)).

(** A program that leaves the open spans as they are, and one that ends the innermost. *)
Definition bracketed {A} (m : prog W A) : Prop := forall w st, opened w = Some st -> opened (run m w).2 = Some st.
Definition closes {A} (id : nat) (m : prog W A) : Prop :=
  forall w st, opened w = Some (id :: st) -> opened (run m w).2 = Some st.

Lemma bracketed_ret {A} (a : A) : bracketed (Ret a).
Proof. by intros w st. Qed.
Lemma bracketed_bind {A B} (m : prog W A) (f : A -> prog W B) :
  bracketed m -> (forall a, bracketed (f a)) -> bracketed (bind m f).
Proof. intros Hm Hf w st Hw. rewrite run_bind. specialize (Hm w st Hw). destruct (run m w). by apply Hf. Qed.
Lemma bracketed_record e :
  match e with SpanStarted _ _ _ _ | SpanEnded _ => False | _ => True end -> bracketed (record e).
Proof.
  intros He w st Hw. unfold record. rewrite run_act. cbn [snd]. rewrite calls_put. cbn. rewrite Hw.
  by destruct st, e.
Qed.
Lemma closes_bind {A B} id (m : prog W A) (f : A -> prog W B) :
  bracketed m -> (forall a, closes id (f a)) -> closes id (bind m f).
Proof. intros Hm Hf w st Hw. rewrite run_bind. specialize (Hm w _ Hw). destruct (run m w). by apply Hf. Qed.
Lemma closes_end {A} id (m : prog W A) : bracketed m -> closes id (do! end_span id in m).
Proof.
  intros Hm w st Hw. rewrite run_bind. unfold end_span, record. rewrite run_act. apply Hm.
  rewrite calls_put. cbn. rewrite Hw. by rewrite Nat.eqb_refl.
Qed.
Lemma bracketed_span {A} name kind ctx (k : nat -> prog W A) :
  (forall id, closes id (k id)) -> bracketed (let! id := start_span name kind ctx in k id).
Proof.
  intros Hk w st Hw. rewrite run_bind. unfold start_span. rewrite run_act. apply Hk.
  rewrite calls_put. cbn. rewrite Hw. by destruct st.
Qed.
Lemma bracketed_capture ctx e : bracketed (capture ctx e).
Proof. by apply bracketed_record. Qed.

Create HintDb spans.
Hint Resolve bracketed_ret bracketed_capture closes_end : spans.
Hint Extern 1 (bracketed (record _)) => apply bracketed_record; exact I : spans.

Ltac brackets := repeat
  first [ apply bracketed_span; intros ?
        | match goal with |- bracketed (if ?x then _ else _) => destruct x end
        | match goal with |- bracketed (match ?x with _ => _ end) => destruct x end
        | apply closes_end
        | apply closes_bind; [| intros ?]
        | match goal with |- closes _ (match ?x with _ => _ end) => destruct x end
        | apply bracketed_bind; [| intros ?]
        | solve [eauto with spans] ].

Lemma closes_after {A} err id ctx (k : prog W A) :
  bracketed k -> closes id (do! gorm_after err (Some (MkStatement ctx (Some id))) in k).
Proof.
  intros Hk w st Hw. rewrite run_bind. cbn [gorm_after].
  assert (C : closes id (do! (match err with
     | Some e => if errors_is e ErrRecordNotFound then Ret tt else capture (default [] ctx) e
     | None => Ret tt end) in end_span id)).
  { apply closes_bind; [destruct err; [destruct (errors_is _ _) |]; eauto with spans |]. intros _ w' st' Hw'.
    unfold end_span, record. rewrite run_act. cbn [snd]. rewrite calls_put. cbn. by rewrite Hw', Nat.eqb_refl. }
  specialize (C w st Hw). destruct (run _ w) as [[] w']. by apply Hk.
Qed.

(** C39. Spans are balanced. Around a statement, a Redis command, a pipeline and a request, the
    innermost span when the hook ends its span is that span, provided the same holds of
    what runs inside; so whatever is nested in whatever, every span is ended once, after
    those started inside it, and the spans open before are open afterwards. *)
Theorem spans_bracketed :
  (forall op body ctx, (forall c, bracketed (body c)) -> bracketed (traced_statement op body ctx)) /\
  (forall next ctx cmd, (forall c s, bracketed (next c s)) -> bracketed (ProcessHook next ctx cmd)) /\
  (forall next ctx cmds, (forall c s, bracketed (next c s)) -> bracketed (ProcessPipelineHook next ctx cmds)) /\
  (forall route_path extract rid next c, (forall ctx c, bracketed (next ctx c)) ->
     bracketed (otel_HTTPMiddleware route_path extract rid next c)).
Proof.
  split_and!.
  - intros op body [ctx |] Hb; unfold traced_statement; cbn [gorm_before].
    + intros w st Hw. rewrite run_bind, run_bind. unfold start_span. rewrite run_act. cbn [run Context_].
      match goal with |- opened (run ?m ?w1).2 = _ => assert (C : closes (started (calls w)) m) end.
      { apply closes_bind; [apply Hb |]. intros err. apply closes_after. apply bracketed_ret. }
      apply C. rewrite calls_put. cbn. rewrite Hw. by destruct st.
    + cbn [bind Context_]. apply bracketed_bind; [apply Hb | intros err]. cbn [gorm_after bind]. apply bracketed_ret.
  - intros next ctx cmd Hn. unfold ProcessHook. brackets; try apply Hn.
  - intros next ctx cmds Hn. unfold ProcessPipelineHook. brackets; try apply Hn.
  - intros route_path extract rid next c Hn. unfold otel_HTTPMiddleware. cbv zeta. brackets; try apply Hn.
Qed.
End Brackets.

(** ** What the hooks hand on and record *)

Section Hooks.
Context {W : Type} `{TracedLaws W}.

(** The errors worth capturing. *)
Definition captured (quiet : sentinel) (ctx : context) (err : option error) : list event :=
  match err with Some e => if errors_is e quiet then [] else [Captured ctx e] | None => [] end.

Lemma run_assoc {A B X} (m : prog W A) (f : A -> prog W B) (g : B -> prog W X) w :
  run (bind (bind m f) g) w = run (bind m (fun a => bind (f a) g)) w.
Proof. rewrite !run_bind. destruct (run m w) as [a w']. by rewrite run_bind. Qed.

Lemma run_captured {A} (quiet : sentinel) ctx (err : option error) id (k : prog W A) w :
  exists w', calls w' = SpanEnded id :: captured quiet ctx err ++ calls w /\
    run (do! (match err with Some e => if errors_is e quiet then Ret tt else capture ctx e | None => Ret tt end) in
         do! end_span id in k) w = run k w'.
Proof.
  unfold capture, end_span, record, captured.
  destruct err as [e |]; [destruct (errors_is e quiet) |]; rewrite !run_bind, ?run_act; cbn [run];
    rewrite ?run_bind, ?run_act; (eexists; split; [| reflexivity]); by rewrite ?calls_put.
Qed.

(** [m] runs [body] under a span of its own, hands its error on, and captures it unless it
    is [quiet]. *)
Definition spanned (m : prog W (option error)) (name kind : string) (ctx : context)
    (body : context -> prog W (option error)) (quiet : sentinel) : Prop :=
  forall w, let id := started (calls w) in
  exists w1 w2, calls w1 = SpanStarted id name kind ctx :: calls w /\
    let '(err, wb) := run (body (id :: ctx)) w1 in
    run m w = (err, w2) /\ calls w2 = SpanEnded id :: captured quiet (id :: ctx) err ++ calls wb.

(** The hooks are transparent: the statement or command runs once, under a context derived
    from the new span, and its error is handed on as it is; it is captured exactly when it is one
    and not the one for something not found. A statement without a context is left alone. *)
Theorem hooks_transparent :
  (forall op body ctx,
     spanned (traced_statement op body (Some ctx)) ("db." ++ op) "db.sql" ctx (fun c => body (Some c)) ErrRecordNotFound) /\
  (forall op body w, run (traced_statement op body None) w = run (body None) w) /\
  (forall next ctx cmd,
     spanned (ProcessHook next ctx cmd) ("redis." ++ cmd) "db.redis" ctx (fun c => next c cmd) RedisNil).
Proof.
  split_and!.
  - unfold spanned, context. intros op body ctx w. cbv beta zeta. set (id := started (calls w)).
    exists (put_calls (SpanStarted id ("db." ++ op) "db.sql" ctx :: calls w) w).
    unfold traced_statement. rewrite run_bind. cbn [gorm_before]. rewrite run_bind. unfold start_span. rewrite run_act.
    cbv zeta. cbn [run Context_]. fold id. rewrite run_bind.
    destruct (run (body (Some (id :: ctx))) _) as [err wb].
    destruct (run_captured ErrRecordNotFound (id :: ctx) err id (Ret err) wb) as (w2 & Hc & Hr).
    exists w2. split; [by rewrite calls_put |]. split; [| exact Hc].
    cbn [gorm_after default]. rewrite run_assoc. exact Hr.
  - intros op body w. unfold traced_statement. cbn [gorm_before bind Context_]. rewrite run_bind.
    destruct (run (body None) w). reflexivity.
  - unfold spanned, context. intros next ctx cmd w. cbv beta zeta. set (id := started (calls w)). exists (put_calls (SpanStarted id ("redis." ++ cmd) "db.redis" ctx :: calls w) w).
    unfold ProcessHook. rewrite run_bind. unfold start_span. rewrite run_act. cbv zeta. fold id. rewrite run_bind.
    destruct (run (next (id :: ctx) cmd) _) as [err wb].
    destruct (run_captured RedisNil (id :: ctx) err id (Ret err) wb) as (w2 & Hc & Hr).
    exists w2. split; [by rewrite calls_put | by split].
Qed.
End Hooks.

(** ** What a tracing middleware does to a request *)

Section Transparent.
Context {W : Type} `{TracedLaws W}.

(** A middleware that only adds to the history of the SDK: the handler behind it runs once, its
    answer is handed on, and if it starts and ends no span itself the open ones are those
    from before. *)
Definition transparent (mw : handler W -> handler W) : Prop :=
  forall next c w, exists h,
    let '(out, w2) := run (next c) (put_calls h w) in
    exists h', run (mw next c) w = (out, put_calls h' w2) /\
      (calls w2 = h -> forall st, open_spans (calls w) = Some st -> open_spans h' = Some st).

Lemma noop_transparent : transparent (fun next => next).
Proof.
  intros next c w. exists (calls w). rewrite put_calls_id. destruct (run (next c) w) as [out w2] eqn:E.
  exists (calls w2). rewrite put_calls_id. split; [done | by intros ->].
Qed.

Lemma run_record e (w : W) : run (record e) w = (tt, put_calls (e :: calls w) w).
Proof. exact (run_act _ w). Qed.

Lemma run_record_then {A} e (m : prog W A) (w : W) : run (do! record e in m) w = run m (put_calls (e :: calls w) w).
Proof. by rewrite run_bind, run_record. Qed.

Lemma otel_transparent route_path extract rid :
  transparent (fun next => otel_HTTPMiddleware route_path extract rid (fun _ => next)).
Proof.
  intros next c w. set (id := started (calls w)).
  set (h0 := SpanStarted id (method (request c) ++ " " ++ path (request c)) "server" (extract (request c)) :: calls w).
  exists (if String.eqb (rid c) "" then h0 else SpanAttributes id [("http.request_id"%string, rid c)] :: h0).
  unfold otel_HTTPMiddleware, start_span, end_span, capture. cbv zeta. rewrite run_bind, run_act. cbv zeta.
  fold id. fold h0. rewrite run_bind.
  assert (E : run (if negb (rid c =? "")%string then record (SpanAttributes id [("http.request_id"%string, rid c)]) else Ret tt) (put_calls h0 w)
              = (tt, put_calls (if (rid c =? "")%string then h0 else SpanAttributes id [("http.request_id"%string, rid c)] :: h0) w)).
  { destruct (rid c =? "")%string; cbn [negb]; [done |]. by rewrite run_record, calls_put, put_calls_put. }
  rewrite E. clear E. rewrite run_bind. destruct (run (next c) _) as [[err c'] w2].
  rewrite run_record_then.
  destruct err as [e |]; cbn [bind]; rewrite ?run_record_then; cbn [run]; rewrite ?calls_put, ?put_calls_put;
    (eexists; split; [reflexivity |]); intros -> st Hst; destruct (rid c =? "")%string; unfold h0;
    cbn [open_spans]; rewrite Hst; destruct st; cbn; by rewrite Nat.eqb_refl.
Qed.
End Transparent.

(** ** Metrics *)

Section RequestMetrics.
Context {W : Type} (route_path : Ctx -> string) (now : prog W Z).
Context (metrics : W -> Metrics) (set_metrics : Metrics -> W -> W) (next : handler W).

(** The requests handled one after the other, and what each ended with. *)
Fixpoint handle_all (l : list Ctx) : prog W (list (option error * Ctx)) :=
  match l with
  | [] => Ret []
  | c :: l =>
      let! out := MetricsMiddleware route_path now metrics set_metrics next c in
      let! outs := handle_all l in
      Ret (out :: outs)
  end.

Definition labels (out : option error * Ctx) : string * string * string :=
  (route_path out.2, method (request out.2), Itoa (status out.2)).

Definition count (k : string * string * string) (outs : list (option error * Ctx)) : Z :=
  Z.of_nat (List.length (filter (fun out => labels out = k) outs)).

Context (Hset : forall m w, metrics (set_metrics m w) = m).
Context (Hnow : forall w, metrics (run now w).2 = metrics w).
Context (Hnext : forall c w, metrics (run (next c) w).2 = metrics w).

Lemma run_metrics c w :
  exists w1, metrics w1 = metrics w /\
    let '(out, w2) := run (MetricsMiddleware route_path now metrics set_metrics next c) w in
    out = (run (next c) w1).1 /\
    forall k, default 0 (httpRequestsTotal (metrics w2) !! k) =
              default 0 (httpRequestsTotal (metrics w) !! k) + (if decide (labels out = k) then 1 else 0).
Proof.
  unfold MetricsMiddleware. rewrite run_bind. pose proof (Hnow w) as E1. destruct (run now w) as [start w1].
  exists w1. split; [done |]. rewrite run_bind. pose proof (Hnext c w1) as E2.
  destruct (run (next c) w1) as [[err c'] w2]. rewrite run_bind. pose proof (Hnow w2) as E3.
  destruct (run now w2) as [stop w3]. rewrite run_bind, run_act. cbn [run fst snd] in *. split; [done |].
  intros k. rewrite Hset, E3, E2, E1. unfold observe, labels. cbn [httpRequestsTotal fst snd].
  case_decide as Hk; [subst k; by rewrite lookup_partial_alter_eq |].
  rewrite lookup_partial_alter_ne by done. lia.
Qed.

(** The request counter counts: after any number of requests, each counter has grown by the
    number of those the handlers left with its route, method and status. *)
Theorem metrics_count (l : list Ctx) (w : W) (k : string * string * string) :
  let '(outs, w') := run (handle_all l) w in
  List.length outs = List.length l /\
  default 0 (httpRequestsTotal (metrics w') !! k) = default 0 (httpRequestsTotal (metrics w) !! k) + count k outs.
Proof.
  revert w. induction l as [| c l IH]; intros w; cbn [handle_all]; [split; [done | unfold count; rewrite filter_nil; cbn [List.length]; lia] |].
  rewrite run_bind. destruct (run_metrics c w) as (w1 & _ & Hm).
  destruct (run (MetricsMiddleware _ _ _ _ _ c) w) as [out w2]. destruct Hm as [_ Hm].
  rewrite run_bind. specialize (IH w2). destruct (run (handle_all l) w2) as [outs w3]. destruct IH as [Hlen Hc].
  cbn [run]. split; [cbn; congruence |]. rewrite Hc, Hm. unfold count. rewrite filter_cons.
  case_decide; cbn [List.length]; lia.
Qed.
End RequestMetrics.

(** ** The provider *)

Section Choice.
Context {W : Type} `{TracedLaws W}.
Context (apmotel : option error) (resource : otelConfig -> option error).
Context (otlp : string -> option error) (stdout : option error).

(** The backend is the configured one, OpenTelemetry by default; it is installed before it is
    answered, and nothing is installed when it cannot be set up. Only OpenTelemetry heeds
    the switch that disables tracing, and then it contacts no exporter. *)
Theorem provider_choice (cfg : ObservabilityConfig) (name version env : string) (w : W) :
  let '(r, w') := run (New apmotel resource otlp stdout cfg name version env) w in
  match r with
  | Err _ => w' = w
  | Ok noopProvider => Obs_Provider cfg = "none"%string /\ w' = w
  | Ok elasticProvider => Obs_Provider cfg = "elastic_apm"%string /\ apmotel = None /\
      calls w' = SetTextMapPropagator :: SetTracerProvider "apmotel" :: calls w
  | Ok (otelProvider tracer exporting) =>
      Obs_Provider cfg <> "none"%string /\ Obs_Provider cfg <> "elastic_apm"%string /\
      tracer = name /\ exporting = Obs_TracingEnabled cfg /\
      (if exporting
       then calls w' = SetTextMapPropagator :: SetTracerProvider name :: calls w /\
            (if String.eqb (Obs_OTLPEndpoint cfg) "" then stdout else otlp (Obs_OTLPEndpoint cfg)) = None
       else calls w' = SetTracerProvider "noop" :: calls w)
  end.
Proof.
  unfold New, newElasticProvider, newOTelProvider, record. cbn [oc_Enabled oc_OTLPEndpoint oc_ServiceName].
  destruct (String.eqb_spec (Obs_Provider cfg) "none") as [-> | Hn]; [done |].
  destruct (String.eqb_spec (Obs_Provider cfg) "elastic_apm") as [-> | He].
  { rewrite run_bind. destruct apmotel; [done |]. rewrite !run_bind, run_act. rewrite run_bind, run_act. cbn [run].
    by rewrite !calls_put. }
  rewrite run_bind. destruct (Obs_TracingEnabled cfg); cbn [negb].
  - destruct (resource _); [done |].
    destruct (String.eqb_spec (Obs_OTLPEndpoint cfg) "") as [E | E]; cbn [negb].
    + destruct stdout; [done |]. rewrite run_bind, run_act, run_bind, run_act. cbn [run].
      rewrite !calls_put. by split_and!.
    + destruct (otlp _) eqn:El; [done |]. rewrite run_bind, run_act, run_bind, run_act. cbn [run].
      rewrite !calls_put. by split_and!.
  - rewrite run_bind, run_act. cbn [run]. rewrite calls_put. by split_and!.
Qed.
End Choice.

Module ObserveWitness.

(** A request a handler refuses with an error is counted as 200: the error handler of the
    application sets the status after the middlewares. *)
Example refused_counted_as_200 (code : Z) (q : Request) :
  let h := MetricsMiddleware (W := Metrics) (fun _ => "/api/v1/users/"%string) (Ret 0) id (fun m _ => m)
             (fun c => Ret (Some (FiberErr code), c)) in
  let '(c, m) := run (serve h q) (MkMetrics ∅ ∅) in
  status c = code /\ httpRequestsTotal m = {[("/api/v1/users/", method q, "200")%string := 1]}.
Proof. by split. Qed.

(** A statement whose body sends a Redis command: both spans are ended, the inner first. *)
Definition nested : prog (list event) (option error) :=
  traced_statement "query" (fun ctx => ProcessHook (fun _ _ => Ret (Some (Sentinel RedisNil))) (default [] ctx) "get")
    (Some []).

Lemma spans_bracketed_witness : open_spans [] = Some [] /\ open_spans (run nested []).2 = Some [].
Proof.
  split; [reflexivity |].
  destruct (spans_bracketed (W := list event)) as (Hs & Hr & _).
  apply (Hs "query"%string _ (Some [])); [| reflexivity].
  intros c. apply Hr. intros c' s w st E. exact E.
Defined.
End ObserveWitness.
