(* ===== verification/Sinks.v ===== *)
(** Application logging ([pkg/logger]): the global logger (logger.go), the four category
    sinks and their daily rotating writer (sinks.go).

    A daily writer's directory is a map from file names to contents; the local time zone
    is a fixed offset. Rotation by size is lumberjack's. *)

From stdpp Require Import base list strings gmap.
From Stdlib Require Import ZArith Lia Ascii String.
From S2P Require Import Prelude GoStrings Calendar.

Definition Day : Z := 24 * Hour.

(** ** The daily writer *)

(** An open file is known by its name. Removing a file does not close it: what is written
    afterwards is lost. *)
Inductive handle : Type := Open (name : string) | Closed.

Record dailyWriter : Type := MkDaily { base : string; maxAge : Z; curDate : string; f : option handle }.

Definition newDailyWriter (base : string) (maxAge : Z) : dailyWriter := MkDaily base maxAge "" None.

Notation Dir := (gmap string string).

Definition file_name (base date : string) : string := (base ++ "-" ++ date ++ ".log")%string.

(** [filepath.Glob(base-*.log)] and the date in a name. *)
Definition matches (base name : string) : bool :=
  HasPrefix name (base ++ "-") && HasSuffix name ".log" && (String.length base + 5 <=? String.length name)%nat.
Definition date_of (base name : string) : option Z :=
  parse_date (TrimSuffix (TrimPrefix name (base ++ "-")) ".log").

(** A file [cleanup] removes: its date, as midnight UTC, is before [maxAge] days ago. *)
Definition expired (base : string) (maxAge now : Z) (name : string) : bool :=
  matches base name &&
  match date_of base name with Some t => t * Day <? now - maxAge * Day | None => false end.

Section Writer.
(** The offset of the local zone; the files the system refuses to remove. *)
Context (zone : Z) (stuck : string -> bool).

Definition cleanup (now : Z) (w : dailyWriter) (d : Dir) : Dir :=
  if maxAge w <=? 0 then d
  else filter (fun kv => expired (base w) (maxAge w) now kv.1 && negb (stuck kv.1) = false) d.

(** [rotate]; [fault] is what opening the file answers, [now] the clock at the cleanup. *)
Definition rotate (fault : option error) (now : Z) (today : string) (w : dailyWriter) (d : Dir)
  : option error * dailyWriter * Dir :=
  let closed := match f w with Some _ => Some Closed | None => None end in
  match fault with
  | Some e => (Some e, MkDaily (base w) (maxAge w) (curDate w) closed, d)
  | None =>
      let name := file_name (base w) today in
      let w := MkDaily (base w) (maxAge w) today (Some (Open name)) in
      (None, w, cleanup now w (<[name := default "" (d !! name)]> d))
  end.

Definition file_Write (h : option handle) (p : string) (d : Dir) : result Z * Dir :=
  match h with
  | Some (Open name) => (Ok (len p), match d !! name with Some old => <[name := (old ++ p)%string]> d | None => d end)
  | _ => (Err (Fresh "file already closed"), d)
  end.

Definition today_of (now : Z) : string := format_date ((now + zone) / Day).

Definition Write (fault : option error) (now now' : Z) (p : string) (w : dailyWriter) (d : Dir)
  : result Z * dailyWriter * Dir :=
  let today := today_of now in
  let '(err, w, d) :=
    if bool_decide (f w = None) || negb (String.eqb today (curDate w)) then rotate fault now' today w d else (None, w, d) in
  match err with
  | Some e => (Err e, w, d)
  | None => let '(r, d) := file_Write (f w) p d in (r, w, d)
  end.
End Writer.

(** ** The sinks *)

Record SinkConfig : Type := MkSinkConfig {
  sc_Dir : string; sc_Rotation : string; sc_MaxAgeDays : Z; sc_MaxSizeMB : Z; sc_Console : bool
}.

(** Where a category's lines go. *)
Inductive writer : Type :=
| Daily (dir : string) (w : dailyWriter)
| Sized (filename : string) (maxSize maxAge : Z).
Record sink : Type := MkSink { sink_writer : writer; echo : bool; log_name : string }.

(** The four category loggers: no-ops at first. *)
Record Sinks : Type := MkSinks {
  API : option sink; Consumer : option sink; ThirdParty : option sink; Trace : option sink
}.
Definition no_sinks : Sinks := MkSinks None None None None.

Definition newSinkLogger (name : string) (cfg : SinkConfig) : sink :=
  MkSink (if String.eqb (sc_Rotation cfg) "daily"
          then Daily (sc_Dir cfg) (newDailyWriter name (sc_MaxAgeDays cfg))
          else Sized (sc_Dir cfg ++ "/" ++ name ++ ".log")%string (sc_MaxSizeMB cfg) (sc_MaxAgeDays cfg))
    (sc_Console cfg) name.

Definition sink_defaults (cfg : SinkConfig) : SinkConfig :=
  MkSinkConfig (if String.eqb (sc_Dir cfg) "" then "logs" else sc_Dir cfg)
    (if String.eqb (sc_Rotation cfg) "" then "size" else sc_Rotation cfg)
    (if sc_MaxAgeDays cfg =? 0 then 30 else sc_MaxAgeDays cfg)
    (if sc_MaxSizeMB cfg =? 0 then 100 else sc_MaxSizeMB cfg) (sc_Console cfg).

(** [mkdir] is what creating the directory answers. *)
Definition SetupSinks (mkdir : string -> option error) (cfg : SinkConfig) (s : Sinks) : option error * Sinks :=
  let cfg := sink_defaults cfg in
  match mkdir (sc_Dir cfg) with
  | Some e => (Some e, s)
  | None => (None, MkSinks (Some (newSinkLogger "api" cfg)) (Some (newSinkLogger "consumer" cfg))
                     (Some (newSinkLogger "thirdparty" cfg)) (Some (newSinkLogger "trace" cfg)))
  end.

(** ** The global logger *)

Inductive output : Type := Stdout | Console | Rotating (file : string).
Record Logger : Type := MkLogger { level : string; outputs : list output; service : string; request_id : string }.

(** [ParseLevel] is zerolog's; [dir_of] is [filepath.Dir]. *)
Definition Setup (ParseLevel : string -> result string) (mkdir : string -> option error) (dir_of : string -> string)
    (env lvl filePath : string) (toFile : bool) (serviceName : string) : Logger :=
  MkLogger (match ParseLevel lvl with Ok l => l | Err _ => "info" end)
    ((if String.eqb env "production" then [Stdout] else [Console]) ++
     (if toFile && negb (String.eqb filePath "") then
        match mkdir (dir_of filePath) with None => [Rotating filePath] | Some _ => [] end
      else []))
    serviceName "".

(** The request id of a context, and the logger enriched with it. *)
Definition WithRequestID (ctx : option string) (id : string) : option string := Some id.
Definition RequestIDFromContext (ctx : option string) : string := default "" ctx.
Definition FromContext (global : Logger) (ctx : option string) : Logger :=
  let rid := RequestIDFromContext ctx in
  if negb (String.eqb rid "") then MkLogger (level global) (outputs global) (service global) rid else global.

(** ** What the daily writer keeps *)

Section Daily.
Context (zone : Z) (stuck : string -> bool).

Lemma cleanup_lookup now w d name :
  cleanup stuck now w d !! name =
  if (0 <? maxAge w) && expired (base w) (maxAge w) now name && negb (stuck name) then None else d !! name.
Proof.
  unfold cleanup. rewrite Z.leb_antisym. destruct (0 <? maxAge w); cbn [negb andb]; [| done].
  destruct (expired _ _ _ _ && negb (stuck name)) eqn:E.
  - apply map_lookup_filter_None. right. intros x _. cbn. by rewrite E.
  - destruct (d !! name) as [x |] eqn:Ed.
    + apply map_lookup_filter_Some. split; [done | exact E].
    + apply map_lookup_filter_None. by left.
Qed.

(** The name of a dated file is one the cleanup understands. *)
Lemma dated_file b z : in_layout z -> matches b (file_name b (format_date z)) = true /\ date_of b (file_name b (format_date z)) = Some z.
Proof.
  intros Hz. unfold file_name, matches, date_of. split.
  - rewrite <- (append_assoc b). rewrite HasPrefix_app. rewrite <- (append_assoc (b ++ "-")), HasSuffix_app.
    rewrite !length_app_str. apply Nat.leb_le. cbn [String.length]. lia.
  - rewrite <- (append_assoc b), TrimPrefix_app, TrimSuffix_app. by apply parse_format_date.
Qed.

(** Retention. The file of a day in the last [maxAge] days is not removed, whatever the
    zone: a day may be counted from an instant a zone's offset before its midnight. *)
Lemma recent_kept b age now z :
  in_layout z -> now - age * Day <= z * Day -> expired b age now (file_name b (format_date z)) = false.
Proof.
  intros Hz Hd. unfold expired. destruct (dated_file b z Hz) as [-> ->]. cbn [andb].
  destruct (Z.ltb_spec (z * Day) (now - age * Day)); [lia | done].
Qed.

Definition today_file (w : dailyWriter) (now : Z) : string := file_name (base w) (today_of zone now).

(** A writer's open file is that of its date. *)
Definition writer_ok (w : dailyWriter) : Prop :=
  match f w with Some (Open name) => name = file_name (base w) (curDate w) | _ => True end.

(** One write. Without a fault the line is appended to the file of the local day, provided
    the retention covers that day, and no other file changes but for the expired ones, which a
    rotation removes; with one nothing is written and nothing removed. *)
Theorem daily_write (fault : option error) (now now' : Z) (p : string) (w : dailyWriter) (d : Dir) :
  writer_ok w -> f w <> Some Closed ->
  let '(r, w', d') := Write zone stuck fault now now' p w d in
  base w' = base w /\ maxAge w' = maxAge w /\ writer_ok w' /\
  match r with
  | Ok n => n = len p /\ f w' = Some (Open (today_file w now)) /\ curDate w' = today_of zone now /\
      (forall name, name <> today_file w now ->
         d' !! name = d !! name \/ (d' !! name = None /\ expired (base w) (maxAge w) now' name = true)) /\
      (expired (base w) (maxAge w) now' (today_file w now) = false ->
       (f w = Some (Open (today_file w now)) -> is_Some (d !! today_file w now)) ->
       d' !! today_file w now = Some (default "" (d !! today_file w now) ++ p)%string)
  | Err _ => is_Some fault /\ d' = d
  end.
Proof.
  intros Hok Hopen. unfold Write. fold (today_file w now).
  destruct (bool_decide (f w = None) || negb (String.eqb (today_of zone now) (curDate w))) eqn:Er.
  - unfold rotate. destruct fault as [e |].
    + cbn [base maxAge]. split_and!; try done. unfold writer_ok. cbn. by destruct (f w).
    + cbn [f file_Write]. fold (today_file w now). set (name := today_file w now).
      set (w1 := MkDaily (base w) (maxAge w) (today_of zone now) (Some (Open name))).
      pose proof (cleanup_lookup now' w1 (<[name := default "" (d !! name)]> d)) as C.
      change (maxAge w1) with (maxAge w) in C. change (base w1) with (base w) in C. split_and!; try done.
      * intros n Hn. destruct (cleanup stuck now' w1 _ !! name) as [old |];
          [rewrite lookup_insert_ne by done |]; rewrite C, lookup_insert_ne by done;
          destruct (0 <? maxAge w), (expired (base w) (maxAge w) now' n), (stuck n); cbn [andb negb]; auto.
      * intros He _. rewrite C, He, andb_false_r, lookup_insert. cbn. rewrite decide_True by done.
        by rewrite lookup_insert, decide_True.
  - apply orb_false_elim in Er as [Hn%bool_decide_eq_false Ht%negb_false_iff%String.eqb_eq].
    destruct (f w) as [[name |] |] eqn:Ef; [| done | done].
    unfold writer_ok in Hok. rewrite Ef in Hok. cbn [file_Write].
    assert (name = today_file w now) as -> by (unfold today_file; by rewrite Ht).
    split_and!; try done; [unfold writer_ok; by rewrite Ef, Hok |..].
    + intros n Hne. left. destruct (d !! today_file w now); [by rewrite lookup_insert_ne | done].
    + intros _ Hx. destruct (Hx eq_refl) as [old Ho]. rewrite Ho. by rewrite lookup_insert, decide_True.
Qed.

(** ** Every line is kept under its day *)

Fixpoint write_all (l : list (Z * Z * string)) (w : dailyWriter) (d : Dir) : dailyWriter * Dir :=
  match l with
  | [] => (w, d)
  | (now, now', p) :: l => let '(_, w, d) := Write zone stuck None now now' p w d in write_all l w d
  end.

Fixpoint lines_of (date : string) (l : list (Z * Z * string)) : string :=
  match l with
  | [] => EmptyString
  | (now, _, p) :: l => if String.eqb (today_of zone now) date then (p ++ lines_of date l)%string else lines_of date l
  end.

Lemma file_name_inj b x y : file_name b x = file_name b y -> x = y.
Proof.
  unfold file_name. rewrite <- !(append_assoc b). intros H.
  apply (f_equal (fun s => TrimSuffix (TrimPrefix s (b ++ "-")) ".log")) in H.
  by rewrite !TrimPrefix_app, !TrimSuffix_app in H.
Qed.

Lemma write_all_kept b age date l w d :
  let name := file_name b date in
  base w = b -> maxAge w = age -> writer_ok w -> f w <> Some Closed ->
  (f w = Some (Open name) -> is_Some (d !! name)) ->
  Forall (fun x => expired b age x.1.2 name = false) l ->
  default "" ((write_all l w d).2 !! name) = (default "" (d !! name) ++ lines_of date l)%string.
Proof.
  cbv zeta. revert w d. induction l as [| [[now now'] p] l IH]; intros w d Hb Ha Hok Hopen Hin Hl;
    cbn [write_all lines_of]; [by rewrite append_nil_r |].
  apply Forall_cons in Hl as [He Hl]. cbn [fst snd] in He.
  pose proof (daily_write None now now' p w d Hok Hopen) as D.
  destruct (Write zone stuck None now now' p w d) as [[[n | e] w'] d'];
    destruct D as (Hb' & Ha' & Hok' & D); [| by destruct D as [[? ?] _]].
  destruct D as (_ & Hf' & _ & Hother & Htoday). subst b age. unfold today_file in *.
  destruct (String.eqb_spec (today_of zone now) date) as [E | E].
  - rewrite E in *. specialize (Htoday He Hin). rewrite IH; try done; [| by rewrite Hf'].
    rewrite Htoday. cbn [default from_option id]. by rewrite append_assoc.
  - assert (Hne : file_name (base w) date <> file_name (base w) (today_of zone now)) by (intros X; by apply file_name_inj in X).
    rewrite IH; try done; [| by rewrite Hf' | rewrite Hf'; intros [= X]; by destruct Hne].
    destruct (Hother _ Hne) as [-> | [_ X]]; [done | congruence].
Qed.

End Daily.

(** Setting up the sinks: when the directory cannot be made nothing changes, otherwise the four
    categories have a file each under it, daily or by size, with the defaults for what was not
    given. *)
Theorem setup_sinks_spec (mkdir : string -> option error) (cfg : SinkConfig) (s : Sinks) :
  let '(err, s') := SetupSinks mkdir cfg s in
  match err with
  | Some _ => s' = s
  | None =>
      let dir := if String.eqb (sc_Dir cfg) "" then "logs"%string else sc_Dir cfg in
      mkdir dir = None /\
      map (option_map log_name) [API s'; Consumer s'; ThirdParty s'; Trace s'] =
        map Some ["api"; "consumer"; "thirdparty"; "trace"]%string /\
      Forall (fun x => exists k, x = Some k /\
          match sink_writer k with
          | Daily d w => sc_Rotation cfg = "daily"%string /\ d = dir /\ base w = log_name k /\ maxAge w <> 0
          | Sized file size age => sc_Rotation cfg <> "daily"%string /\
              file = (dir ++ "/" ++ log_name k ++ ".log")%string /\ size <> 0 /\ age <> 0
          end) [API s'; Consumer s'; ThirdParty s'; Trace s']
  end.
Proof.
  unfold SetupSinks, sink_defaults. cbn [sc_Dir sc_Rotation sc_MaxAgeDays sc_MaxSizeMB sc_Console].
  destruct (mkdir _) eqn:E; [done |]. split; [done |]. split; [done |].
  repeat (apply Forall_cons; split; [eexists; split; [reflexivity |] |]); [..| apply Forall_nil; exact I];
    unfold newSinkLogger; cbn [sink_writer log_name sc_Dir sc_Rotation sc_MaxAgeDays sc_MaxSizeMB sc_Console];
    (destruct (String.eqb_spec (sc_Rotation cfg) "") as [-> | H1]; cbn [String.eqb];
     [| destruct (String.eqb_spec (sc_Rotation cfg) "daily") as [-> | H2]]);
    cbn; split_and!; try done; repeat case_match; lia.
Qed.

Module SinksWitness.

Definition five_west : Z := - 5 * Hour.

(** At 23:00 in a zone five hours west of Greenwich, with a retention of one day: the first
    write opens the file of the day, and the cleanup that follows removes that very file. The
    line is reported as written and is nowhere. *)
Theorem todays_file_removed :
  let now := 19782 * Day + 28 * Hour in
  let '(r, w, d) := Write five_west (fun _ => false) None now now "line" (newDailyWriter "api" 1) ∅ in
  r = Ok 4 /\ f w = Some (Open "api-2024-02-29.log") /\ d = ∅.
Proof. vm_compute. split_and!; reflexivity. Qed.

Definition writes : list (Z * Z * string) :=
  [(19782 * Day, 19782 * Day, "a"); (19783 * Day, 19783 * Day, "b"); (19783 * Day + 1, 19783 * Day + 1, "c")]%string.

End SinksWitness.
