(* ===== verification/Pool.v ===== *)
(** Pools of activations over one world, with linear permissions.

    [Prog] interleaves two activations; a [pool] interleaves any number of them,
    and lets one die at any point (its process is killed) and new ones start.
    A thread may hold one permission, a token: [linear h p Q] says that [p],
    holding [h], keeps the invariant at every action and spends only the token
    it holds. [pool_sound] is what a whole pool of such threads keeps. *)

From stdpp Require Import base list relations.
From S2P Require Import Prelude Prog.

Section Pools.
Context {W : Type}.

Definition pool : Type := list (prog W unit).

(** One step: a thread performs its next action, a thread is killed, or a new
    one, of those that may be started, joins. *)
Inductive pool_step (starts : prog W unit -> Prop) : pool * W -> pool * W -> Prop :=
| pool_act i X (f : W -> X * W) k ps w x w' :
    ps !! i = Some (Act f k) -> f w = (x, w') ->
    pool_step starts (ps, w) (<[i := k x]> ps, w')
| pool_kill i ps w : pool_step starts (ps, w) (<[i := Ret tt]> ps, w)
| pool_start p ps w : starts p -> pool_step starts (ps, w) (ps ++ [p], w).

(** Executing a schedule, the list of the threads that move. *)
Fixpoint pool_exec (sched : list nat) (c : pool * W) : pool * W :=
  match sched with
  | [] => c
  | i :: s =>
      match c.1 !! i with
      | Some (Act f k) => let '(x, w') := f c.2 in pool_exec s (<[i := k x]> c.1, w')
      | _ => pool_exec s c
      end
  end.

Lemma pool_exec_steps starts sched c : rtc (pool_step starts) c (pool_exec sched c).
Proof.
  revert c. induction sched as [| i s IH]; intros [ps w]; simpl; [done |].
  destruct (ps !! i) as [[a | X f k] |] eqn:Ei; [apply IH | | apply IH].
  destruct (f w) as [x w'] eqn:Ef. eapply rtc_l; [by eapply pool_act | apply IH].
Qed.

(** Threads that were all started, under any schedule. *)
Lemma started_exec starts ps sched w :
  Forall starts ps -> rtc (pool_step starts) ([], w) (pool_exec sched (ps, w)).
Proof.
  intros Hps. eapply rtc_trans; [| apply pool_exec_steps].
  induction ps as [| p ps IH] using rev_ind; [done |].
  apply Forall_app in Hps as [Hps [Hp _]%Forall_cons].
  eapply rtc_r; [by apply IH | by apply pool_start].
Qed.

Section Linear.
Context {T : Type} (J : W -> Prop) (minted spent : W -> T -> Prop).

(** A thread that holds a token: it exists and has not been spent. *)
Definition holds (w : W) (h : option T) : Prop :=
  forall t, h = Some t -> minted w t /\ ~ spent w t.

(** What one action may do to tokens: existing ones go on existing, only the
    thread's own is spent, and a token newly held is a new one. *)
Definition passes (h h' : option T) (w w' : W) : Prop :=
  (forall t, minted w t -> minted w' t) /\
  (forall t, spent w' t -> spent w t \/ h = Some t) /\
  (forall t, h' = Some t -> minted w' t /\ ~ spent w' t /\ (h = Some t \/ ~ minted w t)).

Fixpoint linear {A} (h : option T) (p : prog W A) (Q : A -> option T -> Prop) : Prop :=
  match p with
  | Ret a => Q a h
  | Act f k => forall w, J w -> holds w h ->
      J (f w).2 /\ exists h', passes h h' w (f w).2 /\ linear h' (k (f w).1) Q
  end.

Lemma linear_bind {A B} h (m : prog W A) (f : A -> prog W B) Q :
  linear h m (fun a h' => linear h' (f a) Q) -> linear h (bind m f) Q.
Proof.
  revert h. induction m as [a | X g k IH]; intros h; simpl; [done |].
  intros H w HJ Hh. destruct (H w HJ Hh) as (HJ' & h' & Hp & Hl). eauto.
Qed.

Lemma linear_mono {A} h (m : prog W A) (P Q : A -> option T -> Prop) :
  (forall a h', P a h' -> Q a h') -> linear h m P -> linear h m Q.
Proof.
  intros HPQ. revert h. induction m as [a | X g k IH]; intros h; simpl; [apply HPQ |].
  intros H w HJ Hh. destruct (H w HJ Hh) as (HJ' & h' & Hp & Hl). eauto.
Qed.

Lemma linear_act {X} h (f : W -> X * W) Q :
  (forall w, J w -> holds w h ->
     J (f w).2 /\ exists h', passes h h' w (f w).2 /\ Q (f w).1 h') ->
  linear h (act f) Q.
Proof. done. Qed.

(** The threads' tokens are pairwise different and each is unspent. *)
Definition share (w : W) (hs : list (option T)) : Prop :=
  (forall h, h ∈ hs -> holds w h) /\
  forall i j t, hs !! i = Some (Some t) -> hs !! j = Some (Some t) -> i = j.

Definition sound (c : pool * W) : Prop :=
  J c.2 /\ exists hs, share c.2 hs /\ Forall2 (fun h p => linear h p (fun _ _ => True)) hs c.1.

Lemma share_drop w hs i : share w hs -> share w (<[i := None]> hs).
Proof.
  intros [Hh Hd]. split.
  - intros h [j Hj]%list_elem_of_lookup. destruct (decide (i = j)) as [<- | Hne].
    + apply list_lookup_insert_Some in Hj as [(_ & <- & _) | [? _]]; [by intros t | done].
    + rewrite list_lookup_insert_ne in Hj by done. apply Hh. by eapply list_elem_of_lookup_2.
  - intros j k t Hj Hk.
    apply list_lookup_insert_Some in Hj as [(_ & ? & _) | [_ Hj]]; [done |].
    apply list_lookup_insert_Some in Hk as [(_ & ? & _) | [_ Hk]]; [done |]. by eapply Hd.
Qed.

Lemma share_pass w w' hs i h h' :
  share w hs -> hs !! i = Some h -> passes h h' w w' -> share w' (<[i := h']> hs).
Proof.
  intros [Hh Hd] Hi (Hm & Hs & Hn).
  assert (Hother : forall j t, j <> i -> hs !! j = Some (Some t) -> minted w t /\ h <> Some t /\ h' <> Some t).
  { intros j t Hne Hj. assert (Hmt : minted w t) by (by apply (Hh (Some t)); [eapply list_elem_of_lookup_2 |]).
    split; [done |]. assert (h <> Some t) by (intros ->; by apply Hne, (Hd j i t)).
    split; [done |]. intros E. destruct (Hn _ E) as (_ & _ & [? | ?]); done. }
  split.
  - intros h0 [j Hj]%list_elem_of_lookup t ->.
    apply list_lookup_insert_Some in Hj as [(-> & E & _) | [Hne Hj]].
    + by destruct (Hn t E) as (? & ? & _).
    + destruct (Hother j t) as (Hmt & Ht & _); [done.. |].
      split; [by apply Hm |]. intros [Hsp | ?]%Hs; [| done].
      by apply (Hh (Some t)) in Hsp; [| eapply list_elem_of_lookup_2 |].
  - intros j k t Hj Hk.
    apply list_lookup_insert_Some in Hj as [(-> & -> & _) | [Hnj Hj]];
      apply list_lookup_insert_Some in Hk as [(-> & E & _) | [Hnk Hk]]; subst; try done.
    + by destruct (Hother k t) as (_ & _ & ?).
    + by destruct (Hother j t) as (_ & _ & ?).
    + by eapply Hd.
Qed.

Lemma sound_step starts c c' :
  (forall p, starts p -> linear None p (fun _ _ => True)) ->
  sound c -> pool_step starts c c' -> sound c'.
Proof.
  intros Hst (HJ & hs & Hsh & Hps) Hstep. destruct Hstep as [i X f k ps w x w' Hi Ef | i ps w | p ps w Hp]; simpl in *.
  - destruct (Forall2_lookup_r _ _ _ _ _ Hps Hi) as (h & Hh & Hl).
    destruct (Hl w HJ) as (HJ' & h' & Hpass & Hl').
    { apply Hsh. by eapply list_elem_of_lookup_2. }
    rewrite Ef in HJ', Hpass, Hl'. split; [done |]. exists (<[i := h']> hs). split.
    + by eapply share_pass.
    + by apply Forall2_insert.
  - split; [done |]. exists (<[i := None]> hs). split; [by apply share_drop |].
    by apply Forall2_insert.
  - split; [done |]. exists (hs ++ [None]). split.
    + destruct Hsh as [Hh Hd].
      assert (Hlast : forall j t, (hs ++ [None]) !! j = Some (Some t) -> hs !! j = Some (Some t)).
      { intros j t [Hj | [_ Hj]]%lookup_app_Some; [done |]. by apply list_lookup_singleton_Some in Hj as [_ ?]. }
      split; [intros h [Hin | ->%list_elem_of_singleton]%elem_of_app; [by apply Hh | by intros t] |].
      intros j l t Hj Hl. eapply Hd; by apply Hlast.
    + apply Forall2_app; [done |]. constructor; [by apply Hst | done].
Qed.

(** Whatever the interleaving, the kills and the starts, the invariant holds. *)
Theorem pool_sound starts c w ps :
  (forall p, starts p -> linear None p (fun _ _ => True)) ->
  J w -> Forall starts ps -> rtc (pool_step starts) (ps, w) c -> J c.2.
Proof.
  intros Hst HJ Hps Hr.
  assert (Hs : sound (ps, w)).
  { split; [done |]. exists (replicate (length ps) None). split.
    - split; [intros h [-> _]%elem_of_replicate; by intros t |].
      intros i j t [? _]%lookup_replicate; done.
    - clear -Hst Hps. induction Hps; simpl; constructor; auto. }
  enough (sound c) as [? _] by done.
  clear -Hst Hs Hr. induction Hr; [done |]. apply IHHr. by eapply sound_step.
Qed.

End Linear.
End Pools.
Arguments pool : clear implicits.
