(* ===== verification/Queue.v ===== *)
(** The job queue of a generated project
    (src/cli/generator/templates/skeleton/internal/queue/postgres.go.tmpl over the
    table of migrations/000002_jobs.up.sql).

    The table is the list of its rows in scan order. Every SQL statement is one
    atomic action ([statement]): the database carries it out, refuses it, or
    carries it out and loses the answer, as the environment says; rows that
    other transactions have locked at that moment ([skipped]) are passed over by
    the claim. The worker loop, its handlers and the statements are then
    programs of [Prog]; [Pool] interleaves any number of them.

    The log is a ghost: what happened to each job, newest first. [replay] reads
    a job's state off it, the abstract machine of the queue.

    created_at and updated_at, which no statement reads, are left out. *)

From stdpp Require Import base list strings relations.
From Stdlib Require Import ZArith Lia.
From S2P Require Import Prelude Prog Pool GoStrings GoTime.

(** ** Data *)

Inductive Status : Type := StatusPending | StatusRunning | StatusDone | StatusFailed.

#[export] Instance Status_eq_dec : EqDecision Status.
Proof. solve_decision. Defined.

(** A row of the table jobs; times of the database are microseconds. *)
Record Row : Type := MkRow {
  row_id : Z; row_kind : string; row_payload : string; row_status : Status;
  row_attempts : Z; row_max_attempts : Z; row_run_at : Z;
  row_locked_at : option Z; row_locked_by : option string; row_last_error : option string
}.

Record Job : Type := MkJob {
  ID : Z; Kind : string; Payload : string; Attempts : Z; MaxAttempts : Z
}.

Record Options : Type := MkOptions {
  PollInterval : Z; RetryBase : Z; RetryMax : Z; VisibilityTimeout : Z;
  DefaultAttempts : Z;               (* Options.MaxAttempts *)
  LockID : string
}.

(** What happened to a job. *)
Inductive event : Type :=
| Enqueued (id max : Z)
| Claimed (id attempt max : Z) (by_ : string) (at_ : Z)
| Ran (id attempt max : Z)
| Completed (id : Z)
| Retried (id attempt max : Z)
| FailedForGood (id : Z)
| Requeued (id : Z) (at_ : Z).

Record World : Type := MkWorld {
  rows : list Row;
  next_id : Z;                       (* the sequence behind jobs.id *)
  log : list event;
  ticks : nat                        (* actions so far *)
}.

(** How a statement fails: not carried out, or its answer lost. *)
Inductive fault : Type := Refused (e : error) | Lost (e : error).

(** Everything the queue does not decide, by the number of the action. *)
Record Env : Type := MkEnv {
  db_now : nat -> Z;                 (* now() of the statement *)
  faults : nat -> option fault;
  skipped : nat -> list Z;           (* rows locked by other transactions *)
  accepts : string -> bool;          (* text Postgres takes: valid UTF-8 without NUL *)
  interval : Z -> Z;                 (* make_interval(secs => d.Seconds()) *)
  stamp : Z -> Z;                    (* a time.Time as TIMESTAMPTZ *)
  Now : nat -> Z;                    (* time.Now() *)
  cancelled : nat -> bool;           (* ctx.Err() != nil *)
  timer_first : nat -> bool          (* which ready case select takes *)
}.

Definition tick (w : World) : World := MkWorld (rows w) (next_id w) (log w) (S (ticks w)).

Definition record (e : event) (w : World) : World :=
  MkWorld (rows w) (next_id w) (e :: log w) (ticks w).

Definition with_rows (rs : list Row) (w : World) : World :=
  MkWorld rs (next_id w) (log w) (ticks w).

(** ** Options *)

Definition NewPostgresQueue (host : string) (pid : Z) (o : Options) : Options :=
  let or_default v d := if v <=? 0 then d else v in
  {| PollInterval := or_default (PollInterval o) (2 * Second);
     RetryBase := or_default (RetryBase o) (5 * Second);
     RetryMax := or_default (RetryMax o) (10 * Minute);
     VisibilityTimeout := or_default (VisibilityTimeout o) (5 * Minute);
     DefaultAttempts := or_default (DefaultAttempts o) 5;
     LockID := if decide (LockID o = "") then (host ++ "-" ++ Itoa pid)%string else LockID o |}.

(** The worker command (cmd/worker/main.go.tmpl): durations read from the
    configuration, a default when they do not parse or are not positive. *)
Definition parseDuration (raw : string) (fallback : Z) : Z :=
  match ParseDuration raw with
  | Some d => if d <=? 0 then fallback else d
  | None => fallback
  end.

Definition worker_options (poll base cap timeout : string) (attempts : Z) : Options :=
  MkOptions (parseDuration poll (2 * Second)) (parseDuration base (5 * Second))
    (parseDuration cap (10 * Minute)) (parseDuration timeout (5 * Minute)) attempts "".

(** The loop of retryDelay: [n] iterations left. *)
Fixpoint delay_loop (n : nat) (cap delay : Z) : Z :=
  match n with
  | O => if cap <? delay then cap else delay
  | S n' =>
      let delay := wrap64 (delay * 2) in
      if cap <=? delay then cap else delay_loop n' cap delay
  end.

Definition retryDelay (o : Options) (attempt : Z) : Z :=
  delay_loop (Z.to_nat (attempt - 1)) (RetryMax o) (RetryBase o).

Definition truncateError (err : option error) : string :=
  match err with
  | None => ""
  | Some e =>
      let msg := error_text e in
      if 2000 <? len msg then take_str 2000 msg else msg
  end.

(** ** SQL on the table *)

Definition update_where (p : Row -> bool) (f : Row -> Row) (rs : list Row) : list Row :=
  map (fun r => if p r then f r else r) rs.

Definition has_id (id : Z) (r : Row) : bool := row_id r =? id.

(** SET status = .., locked_at = NULL, locked_by = NULL, last_error = .. *)
Definition release (s : Status) (err : option string) (r : Row) : Row :=
  MkRow (row_id r) (row_kind r) (row_payload r) s (row_attempts r) (row_max_attempts r)
    (row_run_at r) None None err.

Definition set_run_at (t : Z) (r : Row) : Row :=
  MkRow (row_id r) (row_kind r) (row_payload r) (row_status r) (row_attempts r)
    (row_max_attempts r) t (row_locked_at r) (row_locked_by r) (row_last_error r).

Definition claim_row (now : Z) (lockID : string) (r : Row) : Row :=
  MkRow (row_id r) (row_kind r) (row_payload r) StatusRunning (row_attempts r + 1)
    (row_max_attempts r) (row_run_at r) (Some now) (Some lockID) (row_last_error r).

(** WHERE status = 'pending' AND run_at <= now() *)
Definition due (now : Z) (r : Row) : bool :=
  bool_decide (row_status r = StatusPending) && (row_run_at r <=? now).

(** WHERE status = 'running' AND locked_at < now() - interval *)
Definition expired (limit : Z) (r : Row) : bool :=
  bool_decide (row_status r = StatusRunning) &&
  match row_locked_at r with Some t => t <? limit | None => false end.

(** ORDER BY run_at LIMIT 1 *)
Fixpoint oldest (rs : list Row) : option Row :=
  match rs with
  | [] => None
  | r :: rs' =>
      match oldest rs' with
      | Some r' => if row_run_at r <=? row_run_at r' then Some r else Some r'
      | None => Some r
      end
  end.

Definition candidate (now : Z) (skip : list Z) (rs : list Row) : option Row :=
  oldest (List.filter (fun r => due now r && negb (bool_decide (row_id r ∈ skip))) rs).

(** UPDATE .. WHERE id = id *)
Definition update_id (id : Z) (f : Row -> Row) (e : event) (w : World) : World :=
  if existsb (has_id id) (rows w)
  then record e (with_rows (update_where (has_id id) f (rows w)) w)
  else w.

Definition max_int32 : Z := 2 ^ 31 - 1.

(** ** The queue *)

Section Queue.
Context (env : Env) (opts : Options) (handlers : string -> option (nat -> Job -> option error)).

(** One statement; [None] is a value out of the column's range. *)
Definition statement {A} (texts : list string) (f : nat -> World -> option (A * World)) :
    prog World (result A) :=
  act (fun w =>
    let k := ticks w in
    let w0 := tick w in
    if cancelled env k then (Err (Sentinel CtxCanceled), w0)
    else match faults env k with
         | Some (Refused e) => (Err e, w0)
         | ans =>
             if forallb (accepts env) texts then
               match f k w0 with
               | None => (Err (Fresh "integer out of range"), w0)
               | Some (a, w') =>
                   (match ans with Some (Lost e) => Err e | _ => Ok a end, w')
               end
             else (Err (Fresh "invalid byte sequence for encoding"), w0)
         end).

Definition clock : prog World Z := act (fun w => (Now env (ticks w), tick w)).
Definition ctx_done : prog World bool := act (fun w => (cancelled env (ticks w), tick w)).

Definition insert_job (kind raw : string) (run_at : Z) (w : World) : option (Z * World) :=
  if max_int32 <? DefaultAttempts opts then None
  else
    let id := next_id w in
    let r := MkRow id kind raw StatusPending 0 (DefaultAttempts opts) run_at None None None in
    Some (id, MkWorld (rows w ++ [r]) (id + 1)
                (Enqueued id (DefaultAttempts opts) :: log w) (ticks w)).

(** [payload]: None is nil, otherwise what json.Marshal answers. *)
Definition Enqueue (kind : string) (payload : option (result string)) (runAt : Z) :
    prog World (result Z) :=
  let insert raw :=
    let! run_at := (if is_zero_time runAt then clock else Ret runAt) in
    let! res := statement [kind; raw] (fun _ w => insert_job kind raw (stamp env run_at) w) in
    Ret (match res with
         | Ok id => Ok id
         | Err e => Err (errorf "enqueue job" e)
         end) in
  match payload with
  | None => insert "{}"%string
  | Some (Ok raw) => insert raw
  | Some (Err e) => Ret (Err (errorf "enqueue marshal payload" e))
  end.

(** The statement claimSQL; no row is [sql.ErrNoRows]. *)
Definition claimSQL (lockID : string) (k : nat) (w : World) : option (option Job * World) :=
  let now := db_now env k in
  match candidate now (skipped env k) (rows w) with
  | None => Some (None, w)
  | Some r =>
      if max_int32 <=? row_attempts r then None
      else
        let job := MkJob (row_id r) (row_kind r) (row_payload r) (row_attempts r + 1)
                     (row_max_attempts r) in
        Some (Some job,
              update_id (row_id r) (claim_row now lockID)
                (Claimed (row_id r) (row_attempts r + 1) (row_max_attempts r) lockID now) w)
  end.

Definition Claim (lockID : string) : prog World (result (option Job)) :=
  let! res := statement [lockID] (claimSQL lockID) in
  Ret (match res with
       | Ok job => Ok job
       | Err e => Err (errorf "claim job" e)
       end).

(** An ExecContext whose error is wrapped. *)
Definition exec_update (what : string) (id : Z) (texts : list string)
    (f : nat -> Row -> Row) (e : event) : prog World (option error) :=
  let! res := statement texts (fun k w => Some (tt, update_id id (f k) e w)) in
  Ret (match res with
       | Ok _ => None
       | Err err => Some (errorf (what ++ " job " ++ Itoa id)%string err)
       end).

Definition Complete (id : Z) : prog World (option error) :=
  exec_update "complete" id [] (fun _ => release StatusDone None) (Completed id).

Definition FailPermanent (job : Job) (cause : error) : prog World (option error) :=
  exec_update "fail" (ID job) [truncateError (Some cause)]
    (fun _ => release StatusFailed (Some (truncateError (Some cause)))) (FailedForGood (ID job)).

Definition Retry (job : Job) (cause : error) : prog World (option error) :=
  if MaxAttempts job <=? Attempts job then FailPermanent job cause
  else
    let delay := retryDelay opts (Attempts job) in
    exec_update "retry" (ID job) [truncateError (Some cause)]
      (fun k r => set_run_at (db_now env k + interval env delay)
                    (release StatusPending (Some (truncateError (Some cause))) r))
      (Retried (ID job) (Attempts job) (MaxAttempts job)).

(** One row of RequeueExpired's UPDATE at [now]. *)
Definition requeue_row (r : Row) : Row :=
  release StatusPending (row_last_error r) r.

Definition requeue_rows (now : Z) (w : World) : Z * World :=
  let p := expired (now - interval env (VisibilityTimeout opts)) in
  let hit := List.filter p (rows w) in
  (Z.of_nat (length hit),
   MkWorld (update_where p requeue_row (rows w)) (next_id w)
     (map (fun r => Requeued (row_id r) now) hit ++ log w) (ticks w)).

Definition RequeueExpired : prog World (result Z) :=
  let! res := statement [] (fun k w => Some (requeue_rows (db_now env k) w)) in
  Ret (match res with
       | Ok n => Ok n
       | Err e => Err (errorf "requeue expired jobs" e)
       end).

(** Calling a handler under its own deadline. *)
Definition call_handler (h : nat -> Job -> option error) (job : Job) : prog World (option error) :=
  act (fun w => (h (ticks w) job, record (Ran (ID job) (Attempts job) (MaxAttempts job)) (tick w))).

Definition handle (job : Job) : prog World unit :=
  match handlers (Kind job) with
  | None =>
      do! FailPermanent job
            (Fresh ("no handler registered for kind " ++ Quote (Kind job))%string) in
      Ret tt
  | Some h =>
      let! err := call_handler h job in
      match err with
      | Some cause => do! Retry job cause in Ret tt
      | None => do! Complete (ID job) in Ret tt
      end
  end.

(** The inner loop of work: claims and handles until nothing is due, the claim
    fails or the context ends; [false] is fuel running out. *)
Fixpoint drain (fuel : nat) (lockID : string) : prog World bool :=
  match fuel with
  | O => Ret false
  | S fuel' =>
      let! stop := ctx_done in
      if stop then Ret true
      else
        let! res := Claim lockID in
        match res with
        | Err _ => do! ctx_done in Ret true
        | Ok None => Ret true
        | Ok (Some job) => do! handle job in drain fuel' lockID
        end
  end.

(** The select: false when the loop takes the case of ctx.Done(). *)
Definition timer_fires : prog World bool :=
  act (fun w => (negb (cancelled env (ticks w)) || timer_first env (ticks w), tick w)).

Fixpoint work (fuel : nat) (lockID : string) : prog World unit :=
  match fuel with
  | O => Ret tt
  | S fuel' =>
      let! go := timer_fires in
      if negb go then Ret tt
      else
        let! res := RequeueExpired in
        do! (match res with Err _ => ctx_done | Ok _ => Ret false end) in
        do! drain fuel lockID in
        work fuel' lockID
  end.

(** Run's consumers, [fuel] turns of each. *)
Definition Run (fuel : nat) (workers : Z) : pool World :=
  let workers := if workers <=? 0 then 1 else workers in
  map (fun n => work fuel (LockID opts ++ "-" ++ Itoa (Z.of_nat n))%string)
    (seq 0 (Z.to_nat workers)).

(** ** The machine of one job *)

Record View : Type := MkView {
  v_status : Status; v_attempts : Z; v_max : Z; v_locked : option Z
}.

Definition view (r : Row) : View :=
  MkView (row_status r) (row_attempts r) (row_max_attempts r) (row_locked_at r).

Definition about (e : event) : Z :=
  match e with
  | Enqueued i _ | Claimed i _ _ _ _ | Ran i _ _ | Completed i | Retried i _ _
  | FailedForGood i | Requeued i _ => i
  end.

(** What an event makes of the job. *)
Definition apply_event (e : event) (v : option View) : option View :=
  let set s v := MkView s (v_attempts v) (v_max v) None in
  match e with
  | Enqueued _ m => Some (MkView StatusPending 0 m None)
  | Claimed _ _ _ _ t =>
      (fun v => MkView StatusRunning (v_attempts v + 1) (v_max v) (Some t)) <$> v
  | Ran _ _ _ => v
  | Completed _ => set StatusDone <$> v
  | Retried _ _ _ => set StatusPending <$> v
  | FailedForGood _ => set StatusFailed <$> v
  | Requeued _ _ => set StatusPending <$> v
  end.

(** The job after the events of the log. *)
Fixpoint replay (i : Z) (l : list event) : option View :=
  match l with
  | [] => None
  | e :: l' => if about e =? i then apply_event e (replay i l') else replay i l'
  end.

(** When an event may happen after the events [l]. *)
Definition enabled (e : event) (l : list event) : Prop :=
  match e with
  | Enqueued i m => replay i l = None
  | Claimed i a m _ _ =>
      exists v, replay i l = Some v /\ v_status v = StatusPending /\
                a = v_attempts v + 1 /\ m = v_max v
  | Requeued i t =>
      exists v t0, replay i l = Some v /\ v_status v = StatusRunning /\
                   v_locked v = Some t0 /\ t0 + interval env (VisibilityTimeout opts) < t
  | Retried i a m => is_Some (replay i l) /\ a < m
  | Ran _ _ _ => True
  | Completed i | FailedForGood i => is_Some (replay i l)
  end.

Fixpoint possible (l : list event) : Prop :=
  match l with
  | [] => True
  | e :: l' => enabled e l' /\ possible l'
  end.

(** The attempts of the job that were run, and those put back by Retry. *)
Definition runs_at (i : Z) (l : list event) : list Z :=
  omap (fun e => match e with Ran j a _ => if j =? i then Some a else None | _ => None end) l.

Definition retried_at (i : Z) (l : list event) : list Z :=
  omap (fun e => match e with Retried j a _ => if j =? i then Some a else None | _ => None end) l.

(** How often the job was put back because its worker took too long. *)
Definition requeues (i : Z) (l : list event) : Z :=
  Z.of_nat (length (List.filter
    (fun e => match e with Requeued j _ => j =? i | _ => false end) l)).

(** A claim of the job at that attempt. *)
Definition claimed (i a m : Z) (l : list event) : Prop :=
  exists who t, Claimed i a m who t ∈ l.

End Queue.
