(* ===== verification/QueueProps.v ===== *)
(** What the job queue of a generated project keeps, whatever its workers,
    clients and the database do: every row is in the state the machine of its job
    is in ([table_ok]), attempts are run and retried once ([once]), so that a job
    runs at most max_attempts times plus once per expired visibility timeout, and
    two claims of a job are always separated by its release. Then one worker
    alone: a pass settles exactly the due jobs. *)

From stdpp Require Import base list strings relations.
From Stdlib Require Import ZArith Lia.
From S2P Require Import Prelude Prog Pool GoStrings GoTime Queue.

(** ** Retry delays *)

(** What one attempt waits: doubled each time, capped. *)
Definition backoff (o : Options) (attempt : Z) : Z :=
  Z.min (RetryMax o) (RetryBase o * 2 ^ (attempt - 1)).

Lemma delay_loop_spec n cap d :
  0 < d < 2 ^ 62 -> 0 < cap <= 2 ^ 62 ->
  delay_loop n cap d = Z.min cap (d * 2 ^ Z.of_nat n).
Proof.
  revert d. induction n as [| n IH]; intros d Hd Hc; cbn [delay_loop].
  - rewrite Z.pow_0_r. destruct (Z.ltb_spec cap d); lia.
  - rewrite wrap64_id, Nat2Z.inj_succ, Z.pow_succ_r by (unfold in_int64; lia).
    pose proof (Z.pow_pos_nonneg 2 (Z.of_nat n)).
    destruct (Z.leb_spec cap (d * 2)); [nia |]. rewrite IH by lia. f_equal. lia.
Qed.

Lemma retryDelay_backoff o a :
  1 <= a -> 0 < RetryBase o < 2 ^ 62 -> 0 < RetryMax o <= 2 ^ 62 ->
  retryDelay o a = backoff o a.
Proof.
  intros Ha Hb Hm. unfold retryDelay, backoff. rewrite delay_loop_spec by done.
  by rewrite Z2Nat.id by lia.
Qed.

(** The options of the worker command, whatever the configuration holds, give a
    queue that waits, retries and times out. *)
Lemma worker_options_positive host pid poll base cap timeout attempts :
  let o := NewPostgresQueue host pid (worker_options poll base cap timeout attempts) in
  0 < PollInterval o /\ 0 < RetryBase o /\ 0 < RetryMax o /\ 0 < VisibilityTimeout o /\
  0 < DefaultAttempts o.
Proof.
  assert (Hd : forall v d, 0 < d -> 0 < (if v <=? 0 then d else v)).
  { intros v d Hd. destruct (Z.leb_spec v 0); lia. }
  repeat split; apply Hd; done.
Qed.

(** ** The table follows the machine of each job *)

Section Safety.
Context (env : Env) (opts : Options) (handlers : string -> option (nat -> Job -> option error)).
Implicit Types (w : World) (r : Row) (l : list event) (e : event).

Notation possible := (possible env opts).
Notation enabled := (enabled env opts).

Record table_ok (w : World) : Prop := MkTableOk {
  ok_ids : NoDup (map row_id (rows w));
  ok_view : forall r, r ∈ rows w -> replay (row_id r) (log w) = Some (view r);
  ok_next : forall e, e ∈ log w -> about e < next_id w;
  ok_possible : possible (log w)
}.

Lemma replay_fresh i l : (forall e, e ∈ l -> about e <> i) -> replay i l = None.
Proof.
  induction l as [| e l IH]; intros H; [done |]. simpl.
  destruct (Z.eqb_spec (about e) i) as [E | _].
  - by apply (H e) in E; [| left].
  - apply IH. intros e' He'. apply H. by right.
Qed.

Lemma replay_elem i l v : replay i l = Some v -> exists e, e ∈ l /\ about e = i.
Proof.
  induction l as [| e l IH]; [done |]. simpl. destruct (Z.eqb_spec (about e) i) as [E | _].
  - intros _. exists e. split; [left | done].
  - intros (e' & He & E)%IH. exists e'. split; [by right | done].
Qed.

Lemma row_id_inj (rs : list Row) r r' :
  NoDup (map row_id rs) -> r ∈ rs -> r' ∈ rs -> row_id r = row_id r' -> r = r'.
Proof.
  intros Hnd [i Hi]%list_elem_of_lookup [j Hj]%list_elem_of_lookup E.
  assert (i = j); [| by simplify_eq].
  eapply (NoDup_lookup _ _ _ (row_id r) Hnd); rewrite list_lookup_fmap.
  - by rewrite Hi.
  - by rewrite Hj, E.
Qed.

Lemma update_where_elem p f (rs : list Row) r' :
  r' ∈ update_where p f rs -> exists r, r ∈ rs /\ r' = if p r then f r else r.
Proof. unfold update_where. intros (r & -> & Hr)%list_elem_of_fmap. eauto. Qed.

Lemma update_where_ids p f (rs : list Row) :
  (forall r, r ∈ rs -> p r = true -> row_id (f r) = row_id r) ->
  map row_id (update_where p f rs) = map row_id rs.
Proof.
  intros H. induction rs as [| r rs IH]; simpl; [done |]. f_equal.
  - destruct (p r) eqn:E; [apply H; [left | done] | done].
  - apply IH. intros r' Hr'. apply H. by right.
Qed.

Lemma has_id_existsb id (rs : list Row) :
  existsb (has_id id) rs = true <-> exists r, r ∈ rs /\ row_id r = id.
Proof.
  rewrite existsb_exists. unfold has_id. setoid_rewrite list_elem_of_In.
  setoid_rewrite Z.eqb_eq. done.
Qed.

(** A statement on one row keeps the table if its event is enabled and takes the
    machine to the new row. *)
Lemma update_id_ok id f e w :
  table_ok w -> about e = id ->
  (forall r, r ∈ rows w -> row_id r = id ->
     row_id (f r) = id /\ apply_event e (Some (view r)) = Some (view (f r)) /\ enabled e (log w)) ->
  table_ok (update_id id f e w).
Proof.
  intros Hw He Hf. unfold update_id. destruct (existsb _ _) eqn:Hex; [| done].
  apply has_id_existsb in Hex as (r0 & Hr0 & E0). destruct Hw as [Hnd Hv Hn Hp].
  split; simpl.
  - rewrite update_where_ids; [done |]. unfold has_id. intros r Hr E%Z.eqb_eq.
    rewrite E. by apply Hf.
  - intros r' (r & Hr & ->)%update_where_elem. unfold has_id.
    destruct (Z.eqb_spec (row_id r) id) as [E | Hne].
    + destruct (Hf r Hr E) as (-> & Ha & _). rewrite He, Z.eqb_refl. rewrite <- Ha, <- E. f_equal. by apply Hv.
    + rewrite He. destruct (Z.eqb_spec id (row_id r)) as [? | _]; [by subst |]. by apply Hv.
  - intros e' [-> | H]%elem_of_cons; [| by apply Hn].
    rewrite He, <- E0. pose proof (Hv _ Hr0) as (e1 & H1 & <-)%replay_elem. by apply Hn.
  - split; [by apply (Hf r0) | done].
Qed.

Lemma insert_job_ok kind raw t w id w' :
  table_ok w -> insert_job opts kind raw t w = Some (id, w') -> table_ok w'.
Proof.
  intros [Hnd Hv Hn Hp]. unfold insert_job. destruct (_ <? _); [done |]. intros [= <- <-].
  assert (Hfresh : replay (next_id w) (log w) = None).
  { apply replay_fresh. intros e He. specialize (Hn e He). lia. }
  assert (Hold : forall r, r ∈ rows w -> row_id r < next_id w).
  { intros r Hr. destruct (replay_elem _ _ _ (Hv r Hr)) as (e & He & <-). by apply Hn. }
  split; simpl.
  - rewrite map_app. apply NoDup_app. split; [done |]. split; [| apply NoDup_singleton].
    intros i (r & -> & Hr)%list_elem_of_fmap. specialize (Hold r Hr). simpl.
    rewrite list_elem_of_singleton. lia.
  - intros r [Hr | ->%list_elem_of_singleton]%elem_of_app.
    + specialize (Hold r Hr). destruct (Z.eqb_spec (next_id w) (row_id r)); [lia | by apply Hv].
    + simpl. by rewrite Z.eqb_refl.
  - intros e [-> | He]%elem_of_cons; simpl; [lia | specialize (Hn e He); lia].
  - split; [done | done].
Qed.

Lemma oldest_elem rs r : oldest rs = Some r -> r ∈ rs.
Proof.
  revert r. induction rs as [| r0 rs IH]; simpl; [done |]. intros r.
  destruct (oldest rs) as [r' |]; [destruct (_ <=? _) |]; intros [= <-]; try by left.
  right. by apply IH.
Qed.

Lemma candidate_elem now skip rs r :
  candidate now skip rs = Some r ->
  r ∈ rs /\ row_status r = StatusPending /\ row_run_at r <= now /\ row_id r ∉ skip.
Proof.
  intros H%oldest_elem. rewrite list_elem_of_In, filter_In, <- list_elem_of_In in H.
  destruct H as [Hr H]. unfold due in H. rewrite !andb_true_iff, negb_true_iff in H.
  destruct H as [[H1%bool_decide_eq_true H2%Z.leb_le] H3%bool_decide_eq_false]. done.
Qed.

Lemma claimSQL_ok lockID k w job w' :
  table_ok w -> claimSQL env lockID k w = Some (job, w') -> table_ok w'.
Proof.
  intros Hw. unfold claimSQL. destruct (candidate _ _ _) as [r |] eqn:Hc; [| by intros [= <- <-]].
  destruct (_ <=? _); [done |]. intros [= <- <-].
  apply candidate_elem in Hc as (Hr & Hp & _ & _).
  apply update_id_ok; [done.. |]. intros r' Hr' E.
  assert (r' = r) as -> by exact (row_id_inj _ _ _ (ok_ids w Hw) Hr' Hr E).
  split; [done |]. split; [done |]. exists (view r). split; [by apply Hw | done].
Qed.

(** Several requeued rows at once. *)
Lemma replay_requeued i now (hit : list Row) l :
  NoDup (map row_id hit) ->
  replay i (map (fun r => Requeued (row_id r) now) hit ++ l) =
  if existsb (has_id i) hit then apply_event (Requeued i now) (replay i l) else replay i l.
Proof.
  induction hit as [| r hit IH]; simpl; [done |]. intros [Hr Hnd]%NoDup_cons.
  rewrite IH by done. change (has_id i r) with (row_id r =? i). destruct (Z.eqb_spec (row_id r) i) as [E | _]; [| done].
  destruct (existsb (has_id i) hit) eqn:Hex; [| done]. exfalso. apply Hr.
  apply has_id_existsb in Hex as (r' & Hr' & E'). rewrite E, <- E'.
  by apply list_elem_of_fmap_2.
Qed.

Lemma filter_ids (p : Row -> bool) rs :
  NoDup (map row_id rs) -> NoDup (map row_id (List.filter p rs)).
Proof.
  induction rs as [| r rs IH]; simpl; [done |]. intros [Hr Hnd]%NoDup_cons.
  destruct (p r); simpl; [| by apply IH]. apply NoDup_cons. split; [| by apply IH].
  intros (r' & E & Hin)%list_elem_of_fmap. apply Hr. rewrite E. apply list_elem_of_fmap_2.
  rewrite list_elem_of_In, filter_In, <- list_elem_of_In in Hin. by destruct Hin.
Qed.

Lemma expired_spec limit r :
  expired limit r = true ->
  row_status r = StatusRunning /\ exists t, row_locked_at r = Some t /\ t < limit.
Proof.
  unfold expired. intros [H1%bool_decide_eq_true H2]%andb_true_iff.
  destruct (row_locked_at r) as [t |]; [| done]. apply Z.ltb_lt in H2. eauto.
Qed.

Lemma requeued_possible now (hit : list Row) l :
  NoDup (map row_id hit) -> possible l ->
  (forall r, r ∈ hit -> replay (row_id r) l = Some (view r)) ->
  Forall (fun r => expired (now - interval env (VisibilityTimeout opts)) r = true) hit ->
  possible (map (fun r => Requeued (row_id r) now) hit ++ l).
Proof.
  intros Hnd Hl Hv Hex. induction hit as [| r hit IH]; simpl; [done |].
  apply NoDup_cons in Hnd as [Hr Hnd]. apply Forall_cons in Hex as [Hx Hex].
  split; [| apply IH; try done; intros; apply Hv; by right].
  apply expired_spec in Hx as (Hs & t & Ht & Hlt). exists (view r), t.
  rewrite replay_requeued by done. destruct (existsb _ hit) eqn:E.
  - apply has_id_existsb in E as (r' & Hr' & E'). exfalso. apply Hr. rewrite <- E'.
    by apply list_elem_of_fmap_2.
  - rewrite (Hv r) by left. repeat split; [done | done | lia].
Qed.

Lemma requeue_rows_ok now w : table_ok w -> table_ok (requeue_rows env opts now w).2.
Proof.
  intros [Hnd Hv Hn Hp]. unfold requeue_rows. set (p := expired _).
  assert (Hin : forall r, r ∈ List.filter p (rows w) <-> r ∈ rows w /\ p r = true).
  { intros r. by rewrite list_elem_of_In, filter_In, <- list_elem_of_In. }
  split; simpl.
  - by rewrite update_where_ids.
  - intros r' (r & Hr & ->)%update_where_elem.
    assert (Hid : row_id (if p r then requeue_row r else r) = row_id r) by (by destruct (p r)).
    rewrite Hid, replay_requeued, (Hv r) by (done || (by apply filter_ids)).
    destruct (p r) eqn:Epr.
    + replace (existsb _ _) with true; [done |]. symmetry. apply has_id_existsb.
      exists r. by rewrite Hin.
    + destruct (existsb _ _) eqn:Ex; [| done]. apply has_id_existsb in Ex as (r' & Hr' & E').
      apply Hin in Hr' as [Hr' Hp']. assert (r' = r) as -> by exact (row_id_inj _ _ _ Hnd Hr' Hr E').
      congruence.
  - intros e [He | He]%elem_of_app; [| by apply Hn].
    apply list_elem_of_fmap in He as (r & -> & Hr). apply Hin in Hr as [Hr _].
    destruct (replay_elem _ _ _ (Hv r Hr)) as (e' & He' & E'). simpl. rewrite <- E'. by apply Hn.
  - apply requeued_possible; [by apply filter_ids | done | |].
    + intros r [Hr _]%Hin. by apply Hv.
    + apply Forall_forall. by intros r [_ Hx]%Hin.
Qed.

(** ** Counting *)

Lemma attempts_pos i l v : possible l -> replay i l = Some v -> 0 <= v_attempts v.
Proof.
  revert v. induction l as [| e l IH]; [done |]. intros v [_ Hp]. simpl.
  destruct (_ =? i); [| by apply IH].
  destruct e; simpl; try (intros [= <-]; simpl; lia); [| by apply IH | ..];
    (destruct (replay i l) as [u |]; [| done]; intros [= <-]; specialize (IH u Hp eq_refl);
     simpl; lia).
Qed.

Lemma claimed_bounds i a m l :
  possible l -> claimed i a m l ->
  exists v, replay i l = Some v /\ 1 <= a <= v_attempts v /\ m = v_max v.
Proof.
  intros Hp (who & t & Hin). induction l as [| e l IH]; [by apply elem_of_nil in Hin |].
  destruct Hp as [He Hp]. simpl.
  apply elem_of_cons in Hin as [<- | Hin].
  - simpl in He |- *. rewrite Z.eqb_refl. destruct He as (v & Hv & _ & -> & ->).
    rewrite Hv. eexists. split; [done |]. simpl. pose proof (attempts_pos _ _ _ Hp Hv). lia.
  - destruct (IH Hp Hin) as (v & Hv & Ha & Hm). destruct (Z.eqb_spec (about e) i) as [E | _]; [| eauto].
    rewrite Hv. destruct e; simpl in *; subst; eauto; [congruence | ..];
      (eexists; split; [done |]; simpl; (done || lia)).
Qed.

Ltac released IH Hp :=
  match goal with |- context [replay ?i ?l] =>
    destruct (replay i l) as [u |]; [| done]; specialize (IH u Hp eq_refl);
    intros [= <-]; simpl; repeat case_decide; lia
  end.

Lemma attempts_count i l v :
  possible l -> replay i l = Some v ->
  v_attempts v + (if decide (v_status v = StatusPending) then 1 else 0)
    <= 1 + Z.of_nat (length (retried_at i l)) + requeues i l.
Proof.
  unfold requeues. revert v. induction l as [| e l IH]; [done |]. intros v [He Hp]. simpl.
  destruct (Z.eqb_spec (about e) i) as [E | Hne].
  - destruct e as [j m | j a m who t | j a m | j | j a m | j | j t]; simpl in E; subst j; simpl;
      rewrite ?Z.eqb_refl; simpl.
    + intros [= <-]. simpl. lia.
    + destruct He as (u & Hu & Hs & _ & _). rewrite Hu. specialize (IH u Hp Hu).
      rewrite decide_True in IH by done. intros [= <-]. simpl. lia.
    + intros Hv. by apply IH.
    + released IH Hp.
    + released IH Hp.
    + released IH Hp.
    + released IH Hp.
  - intros Hv. specialize (IH v Hp Hv). by destruct e; simpl in Hne |- *;
      rewrite ?(proj2 (Z.eqb_neq _ _) Hne).
Qed.

(** ** Each attempt is run and retried once *)

(** A worker that claimed an attempt may run it, and then retry it, once. *)
Inductive stage : Type := ToRun | ToRetry.
Definition token : Type := stage * (Z * Z * Z).

Definition minted (w : World) (t : token) : Prop :=
  let '(s, (i, a, m)) := t in
  claimed i a m (log w) /\ (s = ToRetry -> Ran i a m ∈ log w).

Definition spent (w : World) (t : token) : Prop :=
  match t with
  | (ToRun, (i, a, m)) => Ran i a m ∈ log w
  | (ToRetry, (i, a, m)) => Retried i a m ∈ log w
  end.

Record once (l : list event) : Prop := MkOnce {
  once_runs : forall i, NoDup (runs_at i l);
  once_retries : forall i, NoDup (retried_at i l);
  ran_claimed : forall i a m, Ran i a m ∈ l -> claimed i a m l;
  retried_ran : forall i a m, Retried i a m ∈ l -> Ran i a m ∈ l
}.

Definition queue_inv (w : World) : Prop := table_ok w /\ once (log w).

Notation linear := (linear queue_inv minted spent).
Notation passes := (passes minted spent).
Notation holds := (holds minted spent).

Definition quiet (e : event) : Prop :=
  match e with Ran _ _ _ | Retried _ _ _ => False | _ => True end.

Lemma runs_at_elem i a l : a ∈ runs_at i l <-> exists m, Ran i a m ∈ l.
Proof.
  unfold runs_at. rewrite list_elem_of_omap. split.
  - intros (e & He & H). destruct e as [| | j b m | | | |]; try done.
    destruct (Z.eqb_spec j i); simplify_eq. eauto.
  - intros [m Hm]. exists (Ran i a m). split; [done |]. by rewrite Z.eqb_refl.
Qed.

Lemma retried_at_elem i a l : a ∈ retried_at i l <-> exists m, Retried i a m ∈ l.
Proof.
  unfold retried_at. rewrite list_elem_of_omap. split.
  - intros (e & He & H). destruct e as [| | | | j b m | |]; try done.
    destruct (Z.eqb_spec j i); simplify_eq. eauto.
  - intros [m Hm]. exists (Retried i a m). split; [done |]. by rewrite Z.eqb_refl.
Qed.

Lemma claimed_cons e i a m l : claimed i a m l -> claimed i a m (e :: l).
Proof. intros (who & t & H). exists who, t. by right. Qed.

Lemma once_quiet e l : quiet e -> once l -> once (e :: l).
Proof.
  intros He [H1 H2 H3 H4]. split.
  - intros i. specialize (H1 i). by destruct e.
  - intros i. specialize (H2 i). by destruct e.
  - intros i a m [<- | H]%elem_of_cons; [done | by apply claimed_cons, H3].
  - intros i a m [<- | H]%elem_of_cons; [done | by right; apply H4].
Qed.

Lemma once_quiets es l : Forall quiet es -> once l -> once (es ++ l).
Proof. intros Hes Hl. induction Hes; simpl; [done | by apply once_quiet]. Qed.

Lemma minted_app es w w' t : log w' = es ++ log w -> minted w t -> minted w' t.
Proof.
  destruct t as [s [[i a] m]]. simpl. intros -> [(who & t & H) Hr]. split.
  - exists who, t. apply elem_of_app. by right.
  - intros E. apply elem_of_app. right. by apply Hr.
Qed.

Lemma spent_quiet es w w' t :
  Forall quiet es -> log w' = es ++ log w -> spent w' t -> spent w t.
Proof.
  intros Hq El. assert (Hin : forall e, ~ quiet e -> e ∈ log w' -> e ∈ log w).
  { intros e He. rewrite El. intros [H | H]%elem_of_app; [| done].
    rewrite Forall_forall in Hq. by apply Hq in H. }
  destruct t as [[] [[i a] m]]; simpl; apply Hin; tauto.
Qed.

Lemma passes_quiet h es w w' :
  Forall quiet es -> log w' = es ++ log w -> holds w h -> passes h h w w'.
Proof.
  intros Hq El Hh. split; [by intros t; apply minted_app with es |].
  split; [by intros t H; left; eapply spent_quiet |].
  intros t ->. destruct (Hh t eq_refl) as [Hm Hs].
  split; [by eapply minted_app |]. split; [| by left]. intros H. apply Hs. by eapply spent_quiet.
Qed.

Lemma passes_drop h h' w w' : passes h h' w w' -> passes h None w w'.
Proof. intros (H1 & H2 & _). by repeat split. Qed.

Lemma holds_None w : holds w None.
Proof. by intros t. Qed.

(** A new claim is a new token. *)
Lemma claim_new w i a m who t :
  queue_inv w -> enabled (Claimed i a m who t) (log w) -> ~ claimed i a m (log w).
Proof.
  intros [Hw _] (v & Hv & _ & -> & ->) Hc.
  destruct (claimed_bounds _ _ _ _ (ok_possible w Hw) Hc) as (v' & Hv' & Ha & _).
  rewrite Hv in Hv'. injection Hv' as <-. lia.
Qed.

Lemma passes_claim h w w' i a m who t :
  queue_inv w -> enabled (Claimed i a m who t) (log w) ->
  log w' = Claimed i a m who t :: log w ->
  passes h (Some (ToRun, (i, a, m))) w w'.
Proof.
  intros HJ He El. pose proof (claim_new _ _ _ _ _ _ HJ He) as Hnew.
  assert (Hq : Forall quiet [Claimed i a m who t]) by (by repeat constructor).
  split; [by intros t'; eapply (minted_app [_]) |].
  split; [by intros t' H; left; eapply (spent_quiet [_]) |].
  intros t' [= <-]. split; [| split].
  - split; [| done]. exists who, t. rewrite El. by left.
  - intros H. apply (spent_quiet _ w _ _ Hq El) in H. simpl in H.
    by apply Hnew, (ran_claimed _ (proj2 HJ)).
  - right. by intros [H _].
Qed.

(** Spending a token: the event that does it adds nothing twice. *)
Lemma claimed_same i a m m' w :
  queue_inv w -> claimed i a m (log w) -> claimed i a m' (log w) -> m = m'.
Proof.
  intros [Hw _] H1 H2.
  destruct (claimed_bounds _ _ _ _ (ok_possible w Hw) H1) as (v & Hv & _ & ->).
  destruct (claimed_bounds _ _ _ _ (ok_possible w Hw) H2) as (v' & Hv' & _ & ->). congruence.
Qed.

Lemma once_ran w i a m :
  queue_inv w -> holds w (Some (ToRun, (i, a, m))) -> once (Ran i a m :: log w).
Proof.
  intros HJ Hh. destruct (Hh _ eq_refl) as [[Hc _] Hs]. simpl in Hs. pose proof HJ as [_ [H1 H2 H3 H4]].
  split.
  - intros j. specialize (H1 j). unfold runs_at in *. simpl.
    destruct (Z.eqb_spec i j) as [<- | _]; [| done]. apply NoDup_cons. split; [| done].
    intros [m' Hm']%runs_at_elem. apply Hs.
    by rewrite (claimed_same _ _ _ _ _ HJ Hc (H3 _ _ _ Hm')).
  - intros j. apply (H2 j).
  - intros j b n [[= -> -> ->] | H]%elem_of_cons; apply claimed_cons; [done | by apply H3].
  - intros j b n [? | H]%elem_of_cons; [done |]. by right; apply H4.
Qed.

Lemma once_retried w i a m :
  queue_inv w -> holds w (Some (ToRetry, (i, a, m))) -> once (Retried i a m :: log w).
Proof.
  intros HJ Hh. destruct (Hh _ eq_refl) as [[Hc Hr] Hs]. simpl in Hs. pose proof HJ as [_ [H1 H2 H3 H4]].
  split.
  - intros j. apply (H1 j).
  - intros j. specialize (H2 j). unfold retried_at in *. simpl.
    destruct (Z.eqb_spec i j) as [<- | _]; [| done]. apply NoDup_cons. split; [| done].
    intros [m' Hm']%retried_at_elem. apply Hs.
    by rewrite (claimed_same _ _ _ _ _ HJ Hc (H3 _ _ _ (H4 _ _ _ Hm'))).
  - intros j b n [? | H]%elem_of_cons; [done |]. by apply claimed_cons, H3.
  - intros j b n [[= -> -> ->] | H]%elem_of_cons; right; [by apply Hr | by apply H4].
Qed.

Lemma passes_ran w w' i a m :
  queue_inv w -> holds w (Some (ToRun, (i, a, m))) -> log w' = Ran i a m :: log w ->
  passes (Some (ToRun, (i, a, m))) (Some (ToRetry, (i, a, m))) w w'.
Proof.
  intros HJ Hh El. destruct (Hh _ eq_refl) as [[Hc _] Hs]. simpl in Hs.
  split; [by intros t; eapply (minted_app [_]) |]. split.
  - intros [[] [[j b] n]]; simpl; rewrite El.
    + intros [[= -> -> ->] | H]%elem_of_cons; [by right | by left].
    + intros [? | H]%elem_of_cons; [done | by left].
  - intros t [= <-]. split; [| split].
    + split; [eapply (minted_app [_] w w' (ToRun, (i, a, m))); [done | by split] |].
      intros _. rewrite El. by left.
    + simpl. rewrite El. intros [? | H]%elem_of_cons; [done |].
      by apply Hs, (retried_ran _ (proj2 HJ)).
    + right. simpl. intros [_ H]. by apply Hs, H.
Qed.

Lemma passes_retried w w' i a m :
  log w' = Retried i a m :: log w -> passes (Some (ToRetry, (i, a, m))) None w w'.
Proof.
  intros El. split; [by intros t; eapply (minted_app [_]) |]. split; [| done].
  intros [[] [[j b] n]]; simpl; rewrite El.
  - intros [? | H]%elem_of_cons; [done | by left].
  - intros [[= -> -> ->] | H]%elem_of_cons; [by right | by left].
Qed.

(** ** The programs keep it *)

Lemma inv_tick w : queue_inv w -> queue_inv (tick w).
Proof. by intros [[] []]. Qed.

Lemma linear_tick {X} h (f : World -> X) (Q : X -> option token -> Prop) :
  (forall x, Q x h) -> linear h (act (fun w => (f w, tick w))) Q.
Proof.
  intros HQ. apply linear_act. intros w HJ Hh. split; [by apply inv_tick |].
  exists h. split; [by apply passes_quiet with [] | apply HQ].
Qed.

Lemma linear_statement {A} h texts (f : nat -> World -> option (A * World)) Q :
  (forall e : error, Q (Err e) None) ->
  (forall k w a w', queue_inv w -> holds w h -> f k w = Some (a, w') ->
     queue_inv w' /\ exists h', passes h h' w w' /\ Q (Ok a) h') ->
  linear h (statement env texts f) Q.
Proof.
  intros Herr Hf. apply linear_act. intros w HJ Hh.
  assert (Hno : forall e : error, queue_inv (tick w) /\ exists h', passes h h' w (tick w) /\ Q (@Err A e) h').
  { intros e. split; [by apply inv_tick |]. exists None. split; [| apply Herr].
    apply passes_drop with h. by apply passes_quiet with []. }
  cbv zeta. destruct (cancelled env (ticks w)); [apply Hno |].
  destruct (faults env (ticks w)) as [[e | e] |]; [apply Hno | ..];
    (destruct (forallb _ _); [| apply Hno]);
    (destruct (f (ticks w) (tick w)) as [[a w'] |] eqn:Ef; [| apply Hno]); simpl;
    (destruct (Hf _ _ _ _ (inv_tick w HJ) Hh Ef) as (HJ' & h' & Hp & HQ));
    (split; [done |]); [exists None | exists h']; (split; [| done]); [| exact Hp].
  apply passes_drop with h'. exact Hp.
Qed.

(** Statements on one row that only release it. *)
Lemma update_id_log id f e w : {log (update_id id f e w) = log w} + {log (update_id id f e w) = e :: log w}.
Proof. unfold update_id. destruct (existsb _ _); [by right | by left]. Qed.

Lemma update_quiet h id f e w :
  quiet e -> queue_inv w -> holds w h -> about e = id ->
  (forall r, r ∈ rows w -> row_id r = id ->
     row_id (f r) = id /\ apply_event e (Some (view r)) = Some (view (f r)) /\ enabled e (log w)) ->
  queue_inv (update_id id f e w) /\ passes h h w (update_id id f e w).
Proof.
  intros He [Hw Ho] Hh Hid Hf. destruct (update_id_log id f e w) as [El | El].
  - split; [split; [by apply update_id_ok | by rewrite El] | by apply passes_quiet with []].
  - split; [split; [by apply update_id_ok | rewrite El; by apply once_quiet] |].
    apply passes_quiet with [e]; [by repeat constructor | done | done].
Qed.

Lemma row_replayed w r : queue_inv w -> r ∈ rows w -> is_Some (replay (row_id r) (log w)).
Proof. intros [Hw _] Hr. rewrite (ok_view w Hw r Hr). eauto. Qed.

Lemma linear_exec_quiet h what id texts f e :
  quiet e -> about e = id ->
  (forall k w r, queue_inv w -> r ∈ rows w -> row_id r = id ->
     row_id (f k r) = id /\ apply_event e (Some (view r)) = Some (view (f k r)) /\ enabled e (log w)) ->
  linear h (exec_update env what id texts f e) (fun _ _ => True).
Proof.
  intros He Hid Hf. apply linear_bind, linear_statement; [done |].
  intros k w a w' HJ Hh [= <- <-].
  destruct (update_quiet h id (f k) e w He HJ Hh Hid) as [? ?]; [by intros; apply Hf |].
  split; [done |]. by exists h.
Qed.

Lemma linear_FailPermanent h job cause :
  linear h (FailPermanent env job cause) (fun _ _ => True).
Proof.
  apply linear_exec_quiet; [done | done |]. intros k w r HJ Hr E.
  repeat split; [done |]. rewrite <- E. by apply row_replayed.
Qed.

Lemma linear_Complete h id : linear h (Complete env id) (fun _ _ => True).
Proof.
  apply linear_exec_quiet; [done | done |]. intros k w r HJ Hr E.
  repeat split; [done |]. rewrite <- E. by apply row_replayed.
Qed.

Lemma linear_Retry job cause :
  linear (Some (ToRetry, (ID job, Attempts job, MaxAttempts job)))
    (Retry env opts job cause) (fun _ _ => True).
Proof.
  unfold Retry. destruct (Z.leb_spec (MaxAttempts job) (Attempts job)) as [_ | Hlt];
    [apply linear_FailPermanent |].
  apply linear_bind, linear_statement; [done |]. intros k w a w' HJ Hh [= <- <-].
  match goal with |- queue_inv ?w' /\ _ => assert (Hok : table_ok w') end.
  { apply update_id_ok; [apply HJ | done |]. intros r Hr E. repeat split; [done | | done].
    rewrite <- E. by apply row_replayed. }
  match goal with |- queue_inv (update_id ?i ?f ?e w) /\ _ => destruct (update_id_log i f e w) as [El | El] end.
  - split; [split; [done | rewrite El; apply HJ] |]. eexists. split; [by apply passes_quiet with [] | done].
  - split; [split; [done | rewrite El; by apply once_retried] |].
    exists None. split; [by apply passes_retried | done].
Qed.

Lemma linear_handle job :
  linear (Some (ToRun, (ID job, Attempts job, MaxAttempts job)))
    (handle env opts handlers job) (fun _ _ => True).
Proof.
  unfold handle. destruct (handlers (Kind job)) as [h |].
  - apply linear_bind, linear_act. intros w HJ Hh. pose proof HJ as [[H1 H2 H3 H4] _].
    destruct (Hh _ eq_refl) as [[(who & t & Hc) _] _]. split.
    + split; [| exact (once_ran _ _ _ _ HJ Hh)]. split; simpl; [done | | | done].
      * intros r Hr. destruct (_ =? _); by apply H2.
      * intros e [-> | He]%elem_of_cons; [| by apply H3]. by apply (H3 _ Hc).
    + eexists. split; [by apply passes_ran |].
      destruct (h _ _) as [cause |]; apply linear_bind;
        [apply linear_mono with (2 := linear_Retry job cause) | apply linear_mono with (2 := linear_Complete _ _)]; done.
  - apply linear_bind. eapply linear_mono; [| apply linear_FailPermanent]. done.
Qed.

Lemma claimSQL_spec lockID k w job w' :
  queue_inv w -> claimSQL env lockID k w = Some (Some job, w') ->
  exists t, enabled (Claimed (ID job) (Attempts job) (MaxAttempts job) lockID t) (log w) /\
            log w' = Claimed (ID job) (Attempts job) (MaxAttempts job) lockID t :: log w.
Proof.
  intros [Hw _]. unfold claimSQL. destruct (candidate _ _ _) as [r |] eqn:Hc; [| done].
  destruct (_ <=? _); [done |]. intros [= <- <-]. simpl.
  apply candidate_elem in Hc as (Hr & Hp & _ & _). exists (db_now env k). split.
  - exists (view r). split; [by apply ok_view | done].
  - unfold update_id. replace (existsb _ _) with true; [done |]. symmetry.
    apply has_id_existsb. eauto.
Qed.

Definition claim_post (res : result (option Job)) (h : option token) : Prop :=
  match res with
  | Ok (Some job) => h = Some (ToRun, (ID job, Attempts job, MaxAttempts job))
  | _ => True
  end.

Lemma linear_Claim h lockID : linear h (Claim env lockID) claim_post.
Proof.
  apply linear_bind, linear_statement; [done |]. intros k w job w' HJ Hh E.
  pose proof (claimSQL_ok _ _ _ _ _ (proj1 HJ) E) as Hok. destruct job as [job |].
  - destruct (claimSQL_spec _ _ _ _ _ HJ E) as (t & He & El). split.
    + split; [done |]. rewrite El. apply once_quiet; [done | apply HJ].
    + eexists. split; [by eapply passes_claim | done].
  - unfold claimSQL in E. destruct (candidate _ _ _); [by destruct (_ <=? _) |].
    injection E as <-. split; [done |]. exists h. split; [by apply passes_quiet with [] | done].
Qed.

Lemma linear_drain fuel h lockID : linear h (drain env opts handlers fuel lockID) (fun _ _ => True).
Proof.
  revert h. induction fuel as [| fuel IH]; intros h; [done |]. cbn [drain].
  apply linear_bind, linear_tick. intros [|]; [done |].
  apply linear_bind. eapply linear_mono; [| apply linear_Claim].
  intros [[job |] | e] h' Hpost; [| done | by apply linear_bind, linear_tick].
  simpl in Hpost. subst h'. apply linear_bind. eapply linear_mono; [| apply linear_handle].
  intros _ h' _. apply IH.
Qed.

Lemma linear_RequeueExpired h : linear h (RequeueExpired env opts) (fun _ _ => True).
Proof.
  apply linear_bind, linear_statement; [done |]. intros k w n w' HJ Hh E.
  injection E as E1 E2. assert (Hok := requeue_rows_ok (db_now env k) w (proj1 HJ)).
  unfold requeue_rows in Hok. simpl in Hok. rewrite E2 in Hok.
  match type of E2 with context [map ?g ?hit ++ log w] => set (es := map g hit) in * end.
  assert (Hq : Forall quiet es) by (apply Forall_forall; by intros e (r & -> & _)%list_elem_of_fmap).
  assert (El : log w' = es ++ log w) by (by subst w'). split.
  - split; [done |]. rewrite El. apply once_quiets; [done | apply HJ].
  - exists h. split; [by apply passes_quiet with es | done].
Qed.

Lemma linear_work fuel h lockID : linear h (work env opts handlers fuel lockID) (fun _ _ => True).
Proof.
  revert h. induction fuel as [| fuel IH]; intros h; [done |]. cbn [work].
  apply linear_bind, linear_tick. intros [|]; [| done]. simpl negb. cbn iota.
  apply linear_bind. eapply linear_mono; [| apply linear_RequeueExpired]. intros res h1 _.
  apply linear_bind. eapply (linear_mono _ _ _ _ _ (fun _ _ => True)).
  { intros b h2 _. apply linear_bind. eapply linear_mono; [| apply (linear_drain (S fuel))].
    intros _ h3 _. apply IH. }
  destruct res; [done | by apply linear_tick].
Qed.

(** Clients of the queue. *)
Lemma linear_Enqueue h kind payload runAt :
  linear h (Enqueue env opts kind payload runAt) (fun _ _ => True).
Proof.
  assert (Hi : forall raw t h, linear h (
    let! res := statement env [kind; raw] (fun _ w => insert_job opts kind raw (stamp env t) w) in
    Ret (match res with Ok id => Ok id | Err e => Err (errorf "enqueue job" e) end)) (fun _ _ => True)).
  { intros raw t h'. apply linear_bind, linear_statement; [done |]. intros k w id w' HJ Hh E.
    pose proof (insert_job_ok _ _ _ _ _ _ (proj1 HJ) E) as Hok. unfold insert_job in E.
    destruct (_ <? _); [done |]. injection E as <- <-. split.
    - split; [done |]. apply once_quiet; [done | apply HJ].
    - exists h'. split; [| done]. apply passes_quiet with [Enqueued (next_id w) (DefaultAttempts opts)];
        [by repeat constructor | done | done]. }
  unfold Enqueue. destruct payload as [[raw | e] |]; [| done |]; apply linear_bind;
    (destruct (is_zero_time runAt); [by apply linear_tick; intros; apply Hi | apply Hi]).
Qed.

(** ** Every reachable state *)

(** What may be started: a worker of Run, a client that enqueues. *)
Inductive starts : prog World unit -> Prop :=
| start_worker fuel lockID : starts (work env opts handlers fuel lockID)
| start_client kind payload runAt :
    starts (let! _ := Enqueue env opts kind payload runAt in Ret tt).

Definition empty_queue : World := MkWorld [] 1 [] 0.

Definition reachable (w : World) : Prop :=
  exists ps, rtc (pool_step starts) ([], empty_queue) (ps, w).

Lemma Run_starts fuel workers : Forall starts (Run env opts handlers fuel workers).
Proof. apply Forall_forall. intros p (n & -> & _)%list_elem_of_fmap. apply start_worker. Qed.

Lemma reachable_inv w : reachable w -> queue_inv w.
Proof.
  intros [ps Hr]. apply (pool_sound queue_inv minted spent) in Hr as H; [done | | | constructor].
  - intros p [fuel lockID | kind payload runAt]; [apply linear_work |].
    apply linear_bind. eapply linear_mono; [| apply linear_Enqueue]. done.
  - split; split; simpl; try (intros; apply NoDup_nil_2); try done; set_solver.
Qed.

(** A schedule of started threads ends in a reachable state. *)
Lemma reachable_exec ps sched :
  Forall starts ps -> reachable (pool_exec sched (ps, empty_queue)).2.
Proof.
  intros Hps. exists (pool_exec sched (ps, empty_queue)).1. rewrite <- surjective_pairing.
  by apply started_exec.
Qed.

Lemma NoDup_interval (l : list Z) lo n :
  NoDup l -> (forall a, a ∈ l -> lo <= a < lo + n) -> Z.of_nat (length l) <= Z.max 0 n.
Proof.
  intros Hnd Hin. assert (Hs : l ⊆+ seqZ lo n).
  { apply NoDup_submseteq; [done |]. intros a Ha. apply elem_of_seqZ. by apply Hin. }
  apply submseteq_length in Hs. rewrite length_seqZ in Hs. lia.
Qed.

Lemma retried_enabled i a m l : possible l -> Retried i a m ∈ l -> a < m.
Proof.
  induction l as [| e l IH]; [by intros _ ?%elem_of_nil |]. intros [He Hp] [<- | H]%elem_of_cons.
  - by destruct He.
  - by apply IH.
Qed.

(** C17. Whatever workers and clients do, in whatever order, with statements refused or
    answers lost and workers killed: a row of the table is in the state its job's
    machine is in; no attempt is run twice; and a job is run at most max_attempts
    times plus once for each time it was put back after its visibility timeout. *)
Theorem runs_bounded w r :
  reachable w -> r ∈ rows w ->
  replay (row_id r) (log w) = Some (view r) /\
  NoDup (runs_at (row_id r) (log w)) /\
  Z.of_nat (length (runs_at (row_id r) (log w))) <= row_attempts r
    <= Z.max 1 (row_max_attempts r) + requeues (row_id r) (log w).
Proof.
  intros Hw%reachable_inv Hr. pose proof Hw as [[_ Hv _ Hp] [H1 H2 H3 H4]].
  specialize (Hv r Hr). split; [done |]. split; [done |].
  pose proof (attempts_count _ _ _ Hp Hv) as Hc. simpl in Hc.
  assert (Hb : forall a m, claimed (row_id r) a m (log w) -> 1 <= a <= row_attempts r /\ m = row_max_attempts r).
  { intros a m Hcl. destruct (claimed_bounds _ _ _ _ Hp Hcl) as (v & Ev & Ha). rewrite Hv in Ev.
    by injection Ev as <-. }
  pose proof (attempts_pos _ _ _ Hp Hv) as Hpos. simpl in Hpos.
  pose proof (NoDup_interval (runs_at (row_id r) (log w)) 1 (row_attempts r) (H1 _)) as Hruns.
  pose proof (NoDup_interval (retried_at (row_id r) (log w)) 1 (row_max_attempts r - 1) (H2 _)) as Hret.
  assert (Z.of_nat (length (runs_at (row_id r) (log w))) <= Z.max 0 (row_attempts r)).
  { apply Hruns. intros a [m Hm]%runs_at_elem. destruct (Hb _ _ (H3 _ _ _ Hm)). lia. }
  assert (Z.of_nat (length (retried_at (row_id r) (log w))) <= Z.max 0 (row_max_attempts r - 1)).
  { apply Hret. intros a [m Hm]%retried_at_elem.
    pose proof (retried_enabled _ _ _ _ Hp Hm). destruct (Hb _ _ (H3 _ _ _ (H4 _ _ _ Hm))). lia. }
  destruct (decide _); lia.
Qed.

(** *** Claims of one job *)

(** Between claims the job was put back by Retry, or by a requeue after [t]. *)
Definition released (i t : Z) (l : list event) : Prop :=
  (exists a m, Retried i a m ∈ l) \/
  (exists t', Requeued i t' ∈ l /\ t + interval env (VisibilityTimeout opts) < t').

Lemma released_cons e i t l : released i t l -> released i t (e :: l).
Proof.
  intros [(a & m & H) | (t' & H & Ht)]; [left; exists a, m | right; exists t'; split; [| done]];
    by right.
Qed.

Lemma claim_held i t l2 l0 v0 :
  possible (l2 ++ l0) -> replay i l0 = Some v0 ->
  v_status v0 = StatusRunning -> v_locked v0 = Some t ->
  (forall a m, ~ claimed i a m l2) ->
  released i t l2 \/
  exists v, replay i (l2 ++ l0) = Some v /\ v_status v <> StatusPending /\
            (v_status v = StatusRunning -> v_locked v = Some t).
Proof.
  intros Hp H0 Hs Ht. induction l2 as [| e l2 IH]; simpl.
  - intros _. right. exists v0. rewrite Hs. done.
  - destruct Hp as [He Hp]. intros Hno.
    destruct (IH Hp) as [Hr | (v & Hv & Hnp & Hl)].
    { intros a m Hc. by apply (Hno a m), claimed_cons. }
    { left. by apply released_cons. }
    destruct (Z.eqb_spec (about e) i) as [E | _]; [| right; by exists v].
    rewrite Hv. destruct e as [j m | j a m who t' | j a m | j | j a m | j | j t']; simpl in E; subst j.
    + simpl in He. congruence.
    + exfalso. apply (Hno a m). exists who, t'. by left.
    + right. by exists v.
    + right. by eexists.
    + left. left. exists a, m. by left.
    + right. by eexists.
    + left. right. exists t'. split; [by left |].
      destruct He as (u & t0 & Hu & Hsu & Hlu & Hlt). rewrite Hv in Hu. injection Hu as <-.
      rewrite (Hl Hsu) in Hlu. injection Hlu as <-. done.
Qed.

Lemma attempts_kept i l2 l0 v0 v :
  possible (l2 ++ l0) -> replay i l0 = Some v0 -> (forall a m, ~ claimed i a m l2) ->
  replay i (l2 ++ l0) = Some v -> v_attempts v = v_attempts v0.
Proof.
  intros Hp H0. revert v. induction l2 as [| e l2 IH]; simpl.
  - intros v _. rewrite H0. by intros [= <-].
  - destruct Hp as [He Hp]. intros v Hno.
    assert (Hno' : forall a m, ~ claimed i a m l2).
    { intros a m Hc. by apply (Hno a m), claimed_cons. }
    specialize (IH Hp). destruct (Z.eqb_spec (about e) i) as [E | _]; [| by apply IH].
    destruct (replay i (l2 ++ l0)) as [u |] eqn:Hu.
    + specialize (IH u Hno' eq_refl).
      destruct e as [j m | j a m who t' | j a m | j | j a m | j | j t']; simpl in E, He |- *; subst j;
        try (by intros [= <-]).
      * congruence.
      * exfalso. apply (Hno a m). exists who, t'. by left.
    + exfalso. clear -H0 Hp Hu.
      induction l2 as [| e l2 IH]; simpl in *; [congruence |]. destruct Hp as [_ Hp].
      destruct (about e =? i); [| by apply IH].
      destruct (replay i (l2 ++ l0)); [by destruct e | by apply IH].
Qed.

Lemma possible_app l2 l0 : possible (l2 ++ l0) -> possible l0.
Proof. induction l2 as [| e l2 IH]; [done |]. intros [_ H]. by apply IH. Qed.

(** C18. Two consecutive claims of a job, by any workers, are separated by its release:
    a retry, or a requeue later than the visibility timeout after the first claim;
    and the second has the next attempt number. *)
Theorem claims_separated w i l3 l2 l1 a1 m1 who1 t1 a2 m2 who2 t2 :
  reachable w ->
  log w = l3 ++ Claimed i a2 m2 who2 t2 :: l2 ++ Claimed i a1 m1 who1 t1 :: l1 ->
  (forall a m, ~ claimed i a m l2) ->
  a2 = a1 + 1 /\ released i t1 l2.
Proof.
  intros [[_ _ _ Hp] _]%reachable_inv El Hno. rewrite El in Hp. apply possible_app in Hp.
  destruct Hp as [(v2 & Hv2 & Hpend & -> & _) Hp].
  pose proof (possible_app _ _ Hp) as [(v1 & Hv1 & _ & -> & _) _].
  destruct (claim_held i t1 l2 (Claimed i (v_attempts v1 + 1) m1 who1 t1 :: l1)
              (MkView StatusRunning (v_attempts v1 + 1) (v_max v1) (Some t1)))
    as [Hr | (v & Hv & Hnp & _)]; try done.
  - simpl. by rewrite Z.eqb_refl, Hv1.
  - split; [| done]. erewrite (attempts_kept i l2 (Claimed _ _ _ _ _ :: l1) _ v2 Hp); [| | done | done].
    2: { simpl. by rewrite Z.eqb_refl, Hv1. }
    done.
  - rewrite Hv2 in Hv. by injection Hv as ->.
Qed.
End Safety.
