(* ===== verification/QueueDrain.v ===== *)
(** One pass of one worker of the job queue, with nobody else at the table: the
    inner loop of work (postgres.go.tmpl) ends, and it has settled exactly the
    jobs that were due. *)

From stdpp Require Import base list strings.
From Stdlib Require Import ZArith Lia Sorted.
From S2P Require Import Prelude Prog Pool GoStrings GoTime Queue QueueProps.

(** ** What becomes of a due job *)

Section Settle.
Context (env : Env) (opts : Options) (handlers : string -> option (nat -> Job -> option error)).
Context (t0 : Z) (verdict : Job -> option error).

Definition job_of (r : Row) : Job :=
  MkJob (row_id r) (row_kind r) (row_payload r) (row_attempts r + 1) (row_max_attempts r).

(** The row of a due job after its attempt: failed without a handler, done on
    success, failed with its attempts used up, put back with a delay otherwise. *)
Definition settle (lockID : string) (r : Row) : Row :=
  let job := job_of r in
  let r' := claim_row t0 lockID r in
  let failed cause := release StatusFailed (Some (truncateError (Some cause))) r' in
  match handlers (Kind job) with
  | None => failed (Fresh ("no handler registered for kind " ++ Quote (Kind job))%string)
  | Some _ =>
      match verdict job with
      | None => release StatusDone None r'
      | Some cause =>
          if MaxAttempts job <=? Attempts job then failed cause
          else set_run_at (t0 + interval env (retryDelay opts (Attempts job)))
                 (release StatusPending (Some (truncateError (Some cause))) r')
      end
  end.

(** What its attempt reports, and that the database takes the text. *)
Definition cause_of (r : Row) : option error :=
  match handlers (row_kind r) with
  | None => Some (Fresh ("no handler registered for kind " ++ Quote (row_kind r))%string)
  | Some _ => verdict (job_of r)
  end.

Definition recordable (r : Row) : Prop :=
  0 <= row_attempts r < max_int32 /\
  forall cause, cause_of r = Some cause -> accepts env (truncateError (Some cause)) = true.

(** The table after the pass. *)
Definition settle_due (lockID : string) (rs : list Row) : list Row :=
  map (fun r => if due t0 r then settle lockID r else r) rs.

(** The jobs claimed, in order. *)
Definition claims_of (l : list event) : list Z :=
  rev (omap (fun e => match e with Claimed i _ _ _ _ => Some i | _ => None end) l).

(** Nobody else is there: statements succeed at one time, and the handlers'
    answers are the verdicts. *)
Record undisturbed : Prop := MkUndisturbed {
  un_now : forall k, db_now env k = t0;
  un_faults : forall k, faults env k = None;
  un_skipped : forall k, skipped env k = [];
  un_cancelled : forall k, cancelled env k = false;
  un_verdict : forall kind h k job, handlers kind = Some h -> h k job = verdict job;
  un_delay : forall a, 1 <= a -> 0 < interval env (retryDelay opts a)
}.

Context (Hun : undisturbed) (lockID : string) (Hlock : accepts env lockID = true).

Lemma run_statement {A} texts (f : nat -> World -> option (A * World)) w a w' :
  forallb (accepts env) texts = true -> f (ticks w) (tick w) = Some (a, w') ->
  run (statement env texts f) w = (Ok a, w').
Proof.
  intros Ht E. unfold statement. rewrite run_act. cbv zeta.
  by rewrite (un_cancelled Hun), (un_faults Hun), E, Ht.
Qed.

Lemma run_exec what id texts f e w :
  forallb (accepts env) texts = true ->
  run (exec_update env what id texts f e) w = (None, update_id id (f (ticks w)) e (tick w)).
Proof.
  intros Ht. unfold exec_update. rewrite run_bind. by rewrite (run_statement _ _ w tt _ Ht eq_refl).
Qed.

Lemma update_id_rows id f e w : rows (update_id id f e w) = update_where (has_id id) f (rows w).
Proof.
  unfold update_id. destruct (existsb _ _) eqn:Ex; [done |].
  unfold update_where. rewrite <- (map_id (rows w)) at 1. apply map_ext_in. intros r Hr.
  destruct (has_id id r) eqn:E; [| done]. exfalso.
  assert (existsb (has_id id) (rows w) = true) by (apply existsb_exists; eauto). congruence.
Qed.

Lemma settled_not_due r : 1 <= row_attempts r + 1 -> due t0 (settle lockID r) = false.
Proof.
  intros Ha. unfold settle. pose proof (un_delay Hun _ Ha) as Hd.
  destruct (handlers _); [| done]. destruct (verdict _); [| done]. destruct (_ <=? _); [done |].
  unfold due. simpl. apply Z.leb_gt. simpl in Hd |- *. lia.
Qed.

Lemma claims_quiet id f e w :
  (forall i a m who t, e <> Claimed i a m who t) ->
  claims_of (log (update_id id f e w)) = claims_of (log w).
Proof.
  intros He. unfold update_id. destruct (existsb _ _); [| done]. unfold claims_of. simpl.
  destruct e; simpl; try done. exfalso. by eapply He.
Qed.

(** Handling a claimed job settles its row and claims nothing. *)
Lemma run_handle r w :
  recordable r ->
  exists g w', run (handle env opts handlers (job_of r)) w = (tt, w') /\
    rows w' = update_where (has_id (row_id r)) g (rows w) /\
    g (claim_row t0 lockID r) = settle lockID r /\
    claims_of (log w') = claims_of (log w).
Proof.
  intros [_ Hrec]. unfold cause_of in Hrec. unfold handle, settle. cbn [Kind job_of].
  destruct (handlers (row_kind r)) as [h |] eqn:Eh.
  - rewrite run_bind. unfold call_handler. rewrite run_act.
    rewrite (un_verdict Hun _ _ _ _ Eh). destruct (verdict (job_of r)) as [cause |].
    + assert (Ht : forallb (accepts env) [truncateError (Some cause)] = true) by (cbn [forallb]; by rewrite (Hrec _ eq_refl)).
      rewrite run_bind. unfold Retry, FailPermanent.
      destruct (_ <=? _); rewrite run_exec by done; do 2 eexists;
        (split; [done |]); (split; [by rewrite update_id_rows |]);
        (split; [cbv beta | by rewrite claims_quiet]); [done |].
      by rewrite (un_now Hun).
    + rewrite run_bind. unfold Complete. rewrite run_exec by done. do 2 eexists.
      split; [done |]. split; [by rewrite update_id_rows |].
      split; [done | by rewrite claims_quiet].
  - rewrite run_bind. unfold FailPermanent. rewrite run_exec by (cbn [forallb]; by rewrite (Hrec _ eq_refl)). do 2 eexists.
    split; [done |]. split; [by rewrite update_id_rows |].
    split; [done | by rewrite claims_quiet].
Qed.

(** The row the claim picks: a due one, none older. *)
Lemma oldest_min rs r : oldest rs = Some r -> forall r', r' ∈ rs -> row_run_at r <= row_run_at r'.
Proof.
  revert r. induction rs as [| r0 rs IH]; [done |]. simpl. intros r.
  destruct (oldest rs) as [r1 |] eqn:E.
  - destruct (Z.leb_spec (row_run_at r0) (row_run_at r1)); intros [= <-] r' [-> | H']%elem_of_cons;
      try specialize (IH r1 eq_refl r' H'); lia.
  - destruct rs as [| r1 rs]; [| simpl in E; by destruct (oldest rs); [destruct (_ <=? _) |]].
    intros [= <-] r' Hr'. by apply list_elem_of_singleton in Hr' as ->.
Qed.

Lemma candidate_none rs : candidate t0 [] rs = None -> List.filter (due t0) rs = [].
Proof.
  unfold candidate. induction rs as [| r rs IH]; [done |]. simpl. rewrite andb_true_r.
  destruct (due t0 r); [| done]. simpl.
  by destruct (oldest _); [destruct (_ <=? _) |].
Qed.

Lemma candidate_due rs r :
  candidate t0 [] rs = Some r ->
  r ∈ rs /\ due t0 r = true /\ forall r', r' ∈ rs -> due t0 r' = true -> row_run_at r <= row_run_at r'.
Proof.
  intros H. destruct (candidate_elem _ _ _ _ H) as (Hr & Hs & Ht & _). split; [done |]. split.
  - unfold due. rewrite Hs. by apply Z.leb_le in Ht as ->.
  - intros r' Hr' Hd. apply (oldest_min _ _ H).
    by rewrite list_elem_of_In, filter_In, <- list_elem_of_In, Hd.
Qed.

(** One turn of the loop that finds a due job. *)
Definition settle_one (r : Row) (rs : list Row) : list Row :=
  update_where (has_id (row_id r)) (fun _ => settle lockID r) rs.

Lemma update_one (rs : list Row) r f g :
  NoDup (map row_id rs) -> r ∈ rs -> (forall x, row_id (f x) = row_id x) ->
  g (f r) = settle lockID r ->
  update_where (has_id (row_id r)) g (update_where (has_id (row_id r)) f rs) = settle_one r rs.
Proof.
  intros Hnd Hr Hf Hg. unfold settle_one, update_where. rewrite map_map. apply map_ext_in.
  intros r' Hr'%list_elem_of_In. unfold has_id. destruct (Z.eqb_spec (row_id r') (row_id r)) as [E | Hne].
  - by rewrite Hf, E, Z.eqb_refl, (row_id_inj _ _ _ Hnd Hr' Hr E).
  - by apply Z.eqb_neq in Hne as ->.
Qed.

Lemma drain_turn fuel w r :
  NoDup (map row_id (rows w)) -> (forall x, x ∈ rows w -> due t0 x = true -> recordable x) ->
  candidate t0 [] (rows w) = Some r ->
  exists w', run (drain env opts handlers (S fuel) lockID) w = run (drain env opts handlers fuel lockID) w' /\
    rows w' = settle_one r (rows w) /\
    claims_of (log w') = claims_of (log w) ++ [row_id r].
Proof.
  intros Hnd Hb Hc. destruct (candidate_due _ _ Hc) as (Hr & Hd & _). cbn [drain].
  rewrite run_bind. unfold ctx_done at 1. rewrite run_act, (un_cancelled Hun). cbn iota.
  rewrite run_bind. unfold Claim. rewrite run_bind.
  set (w1 := tick w). set (w2 := update_id (row_id r) (claim_row t0 lockID)
    (Claimed (row_id r) (row_attempts r + 1) (row_max_attempts r) lockID t0) (tick w1)).
  rewrite (run_statement _ _ w1 (Some (job_of r)) w2); [| by simpl; rewrite Hlock |].
  2: { unfold claimSQL. rewrite (un_now Hun), (un_skipped Hun). cbn [rows tick w1]. rewrite Hc.
       destruct (Z.leb_spec max_int32 (row_attempts r)); [| done]. destruct (Hb r Hr Hd). lia. }
  cbn [run]. rewrite run_bind. destruct (run_handle r w2 (Hb r Hr Hd)) as (g & w3 & -> & Hrows & Hg & Hcl).
  exists w3. split; [done |]. split.
  - rewrite Hrows. unfold w2. rewrite update_id_rows. by apply update_one.
  - rewrite Hcl. unfold w2, update_id. replace (existsb _ _) with true; [done |].
    symmetry. apply has_id_existsb. by exists r.
Qed.

(** A pass that finds nothing. *)
Lemma drain_end fuel w :
  candidate t0 [] (rows w) = None ->
  exists w', run (drain env opts handlers (S fuel) lockID) w = (true, w') /\
    rows w' = rows w /\ claims_of (log w') = claims_of (log w).
Proof.
  intros Hc. exists (tick (tick w)). split; [| done]. cbn [drain].
  rewrite run_bind. unfold ctx_done at 1. rewrite run_act, (un_cancelled Hun). cbn iota.
  rewrite run_bind. unfold Claim. rewrite run_bind.
  rewrite (run_statement _ _ (tick w) None (tick (tick w))); [done | by simpl; rewrite Hlock |].
  unfold claimSQL. rewrite (un_now Hun), (un_skipped Hun). cbn [rows tick]. by rewrite Hc.
Qed.

(** ** The whole pass *)

Lemma settle_id r : row_id (settle lockID r) = row_id r.
Proof.
  unfold settle. destruct (handlers _); [| done]. destruct (verdict _); [| done]. by destruct (_ <=? _).
Qed.

Lemma settle_one_ids r rs : map row_id (settle_one r rs) = map row_id rs.
Proof.
  apply update_where_ids. unfold has_id. intros r' _ E%Z.eqb_eq. by rewrite settle_id.
Qed.

Lemma settle_one_elem r rs x :
  x ∈ settle_one r rs -> x = settle lockID r \/ x ∈ rs /\ row_id x <> row_id r.
Proof.
  intros (r' & Hr' & ->)%update_where_elem. unfold has_id.
  destruct (Z.eqb_spec (row_id r') (row_id r)); [by left | by right].
Qed.

Lemma settle_one_absent r rs : (row_id r ∉ map row_id rs) -> settle_one r rs = rs.
Proof.
  intros Hr. unfold settle_one, update_where. rewrite <- (map_id rs) at 2. apply map_ext_in.
  intros x Hx%list_elem_of_In. unfold has_id. destruct (Z.eqb_spec (row_id x) (row_id r)) as [E | _]; [| done].
  exfalso. apply Hr. rewrite <- E. by apply list_elem_of_fmap_2.
Qed.

Lemma settle_one_cons r x rs :
  settle_one r (x :: rs) = (if row_id x =? row_id r then settle lockID r else x) :: settle_one r rs.
Proof. reflexivity. Qed.

(** Settling one due job takes it, and nothing else, off the due ones. *)
Lemma settle_one_due r rs :
  NoDup (map row_id rs) -> r ∈ rs -> due t0 r = true -> due t0 (settle lockID r) = false ->
  List.filter (due t0) rs ≡ₚ r :: List.filter (due t0) (settle_one r rs) /\
  settle_due lockID (settle_one r rs) = settle_due lockID rs.
Proof.
  intros Hnd Hr Hd Hs. induction rs as [| x rs IH]; [by apply elem_of_nil in Hr |].
  simpl in Hnd. apply NoDup_cons in Hnd as [Hx Hnd]. apply elem_of_cons in Hr as [<- | Hr].
  - rewrite settle_one_cons, Z.eqb_refl, settle_one_absent by done. simpl. by rewrite Hd, Hs.
  - destruct (IH Hnd Hr) as [IH1 IH2]. assert (Hne : row_id x <> row_id r).
    { intros E. apply Hx. rewrite E. by apply list_elem_of_fmap_2. }
    apply Z.eqb_neq in Hne. rewrite settle_one_cons, Hne. simpl. split; [| by f_equal].
    destruct (due t0 x); [| done]. rewrite IH1. apply Permutation_swap.
Qed.

End Settle.
