(* ===== verification/QueueWitness.v ===== *)
(** Runs of the job queue at concrete inputs: the test table of retryDelay, the
    states the theorems of [QueueProps] and [QueueDrain] speak of, and three
    things that go wrong. *)

From stdpp Require Import base list strings relations.
From Stdlib Require Import ZArith Lia Sorted.
From S2P Require Import Prelude Prog Pool GoStrings GoTime Queue QueueProps QueueDrain.

(** Text Postgres takes, as far as these runs need it: ASCII and well-formed
    two-byte sequences. *)
Fixpoint valid_text (s : string) : bool :=
  match s with
  | EmptyString => true
  | String c s' =>
      if byte_of c <? 128 then negb (byte_of c =? 0) && valid_text s'
      else (194 <=? byte_of c) && (byte_of c <=? 223) &&
           match s' with
           | String d s'' => (128 <=? byte_of d) && (byte_of d <=? 191) && valid_text s''
           | EmptyString => false
           end
  end.

(** A clock that stands still for five actions, then moves by 400 seconds. *)
Definition jumpy (k : nat) : Z := Z.of_nat (Nat.div (Nat.pred k) 5) * 400000000.

Definition demo_env (now : nat -> Z) : Env := {|
  db_now := now; faults := fun _ => None; skipped := fun _ => []; accepts := valid_text;
  interval := fun d => d / 1000; stamp := fun t => t / 1000; Now := fun _ => 0;
  cancelled := fun _ => false; timer_first := fun _ => true |}.

Definition demo_opts : Options := NewPostgresQueue "node" 7 (MkOptions 0 0 0 0 2 "").

Definition on_mail (h : nat -> Job -> option error) (kind : string) :
    option (nat -> Job -> option error) :=
  if decide (kind = "mail"%string) then Some h else None.

Definition client (now : nat -> Z) : prog World unit :=
  let! _ := Enqueue (demo_env now) demo_opts "mail" (Some (Ok "{}"%string)) 0 in Ret tt.

(** The pool of one client and Run's three workers after a schedule. *)
Definition play (now : nat -> Z) (h : nat -> Job -> option error) (sched : list nat) : World :=
  (pool_exec sched
     (client now :: Run (demo_env now) demo_opts (on_mail h) 3 3, empty_queue)).2.

Lemma play_reachable now h sched :
  reachable (demo_env now) demo_opts (on_mail h) (play now h sched).
Proof.
  apply reachable_exec. constructor; [apply start_client | apply Run_starts].
Qed.

(** postgres_test.go: 5 seconds doubled up to 40. *)
Example retryDelay_cases :
  map (fun a => retryDelay (NewPostgresQueue "" 0 (MkOptions 0 (5 * Second) (40 * Second) 0 0 "")) a)
    [1; 2; 3; 4; 5; 10] =
  map (fun s => s * Second) [5; 10; 20; 40; 40; 40].
Proof. reflexivity. Qed.

(** Three workers in turn take the job, which may run twice, and stall. *)
Definition stalled : World :=
  play jumpy (fun _ _ => None)
    ([0] ++ [1; 1; 1; 1; 1] ++ [2; 2; 2; 2; 2] ++ [3; 3; 3; 3; 3])%nat.

Definition stalled_row : Row :=
  MkRow 1 "mail" "{}" StatusRunning 3 2 0 (Some 800000000) (Some "node-7-2"%string) None.

(** A job is put back after its timeout however often it has been tried. *)
Example attempts_not_limited :
  rows stalled = [stalled_row] /\ runs_at 1 (log stalled) = [3; 2; 1] /\ requeues 1 (log stalled) = 2.
Proof. vm_compute. done. Qed.

Lemma runs_bounded_witness :
  Z.of_nat (length (runs_at 1 (log stalled))) <= 3 <= Z.max 1 2 + requeues 1 (log stalled).
Proof.
  assert (Hr : stalled_row ∈ rows stalled) by (vm_compute; by left).
  apply (runs_bounded (demo_env jumpy) demo_opts (on_mail (fun _ _ => None)) stalled stalled_row
           (play_reachable _ _ _) Hr).
Defined.

Lemma claims_separated_witness :
  released (demo_env jumpy) demo_opts 1 0 [Requeued 1 400000000; Ran 1 1 2].
Proof.
  apply (claims_separated (demo_env jumpy) demo_opts (on_mail (fun _ _ => None)) stalled 1
           [Ran 1 3 2; Claimed 1 3 2 "node-7-2" 800000000; Requeued 1 800000000; Ran 1 2 2]
           [Requeued 1 400000000; Ran 1 1 2] [Enqueued 1 2] 1 2 "node-7-0" 0 2 2 "node-7-1" 400000000).
  - apply play_reachable.
  - vm_compute. reflexivity.
  - intros a m (who & t & H). by repeat (apply elem_of_cons in H as [H | H]; [done |]); apply elem_of_nil in H.
Defined.

(** A worker that took too long reports its failure after another has completed
    the job: the finished job is pending again. *)
Definition late_failure (k : nat) (_ : Job) : option error :=
  if Nat.eqb k 5 then Some (Fresh "boom") else None.

Example completed_job_reopened :
  map row_status (rows (play jumpy late_failure ([0] ++ [1; 1; 1; 1; 1] ++ [2; 2; 2; 2; 2; 2])%nat))
    = [StatusDone] /\
  map row_status (rows (play jumpy late_failure ([0] ++ [1; 1; 1; 1; 1] ++ [2; 2; 2; 2; 2; 2] ++ [1])%nat))
    = [StatusPending].
Proof. vm_compute. done. Qed.

(** An error text cut inside a character is refused by the database: the retry is
    not recorded and the job stays with its worker until the timeout. *)
Definition long_error : error :=
  Fresh (Repeat "a" 1999 ++ String (chr 195) (String (chr 169) ""))%string.

Example cut_text_refused :
  let w := play (fun _ => 0) (fun _ _ => Some long_error) [0; 1; 1; 1; 1; 1; 1]%nat in
  valid_text (error_text long_error) = true /\
  valid_text (truncateError (Some long_error)) = false /\
  map row_status (rows w) = [StatusRunning] /\ retried_at 1 (log w) = [].
Proof. vm_compute. done. Qed.

(** A table for the pass of one worker: jobs that succeed, fail, fail for the
    last time, have no handler, and one that is not due. *)
Definition table : list Row := [
  MkRow 1 "mail" "ok" StatusPending 0 2 30 None None None;
  MkRow 2 "mail" "bad" StatusPending 0 2 10 None None None;
  MkRow 3 "mail" "bad" StatusPending 1 2 20 None None None;
  MkRow 4 "fax" "ok" StatusPending 0 2 5 None None None;
  MkRow 5 "mail" "ok" StatusPending 0 2 200 None None None]%string.

Definition judge (j : Job) : option error :=
  if decide (Payload j = "bad"%string) then Some (Fresh "bad") else None.

Definition still : Env := demo_env (fun _ => 100).

Lemma demo_delay a : 1 <= a -> 0 < interval still (retryDelay demo_opts a).
Proof.
  intros Ha. rewrite retryDelay_backoff by (done || (split; vm_compute; done)).
  unfold backoff. change (RetryMax demo_opts) with 600000000000.
  change (RetryBase demo_opts) with 5000000000. simpl interval.
  pose proof (Z.pow_pos_nonneg 2 (a - 1)). apply Z.div_str_pos. lia.
Qed.

