(* ===== verification/GoogleLogin.v ===== *)
(** Google sign-in in a generated project: the handler and the routes the generator
    puts there (src/cli/generator/templates/skeleton/internal/delivery/http/handler/
    google_auth_handler.go.tmpl and route/google_auth_route.go.tmpl), over the provider
    of [Addons], the users' repository, the tokens and a Redis server with GETDEL.

    Each command, repository call and draw is one action. The log is a ghost: which
    states were issued and which passed the check of the callback. *)

From stdpp Require Import base gmap strings list fin_maps relations.
From Stdlib Require Import ZArith Lia String.
From S2P Require Import Prelude Prog Pool GoStrings Expiring Json RedisServer Jwt User Http Broker Addons.

(** GETDEL key: the value, and the key is gone. *)
Class OneShot (S : Type) : Type := GETDEL : Z -> string -> S -> result json * S.

(** Reading and deleting is one command; one that fails may have deleted. *)
Class OneShotLaws (S : Type) `{RedisServerLaws S, !OneShot S} : Prop := {
  GETDEL_ok : forall now k v s s', GETDEL now k s = (Ok v, s') ->
    stored s now k = Some v /\ forall t, now <= t -> stored s' t k = None;
  GETDEL_err : forall now k e s s' t, GETDEL now k s = (Err e, s') -> now <= t ->
    stored s' t k = None \/ stored s' t k = stored s t k;
  GETDEL_frame : forall now k s t k', now <= t -> k' <> k ->
    stored (GETDEL now k s).2 t k' = stored s t k'
}.

Module GoogleLogin.

Inductive event : Type :=
| Issued (state : string) (at_ : Z) (ok : bool)   (* the SET, and whether it succeeded *)
| Passed (state : string) (at_ : Z).              (* a GETDEL that found the state *)

Record World (S U K : Type) : Type := MkWorld {
  redis : S;
  users : U;
  google : list (@Google.event K);
  clock : Z;
  pace : list N;
  drawn : nat;
  log : list event
}.
Arguments MkWorld {S U K} _ _ _ _ _ _ _.
Arguments redis {S U K} _.
Arguments users {S U K} _.
Arguments google {S U K} _.
Arguments clock {S U K} _.
Arguments pace {S U K} _.
Arguments drawn {S U K} _.
Arguments log {S U K} _.

Definition googleStatePrefix : string := "google:oauth:state:".
Definition googleStateTTL : Z := 5 * Minute.

Section Handler.
Context {S U K : Type} `{RedisServer S, !OneShot S, !UserRepository U, JwtLib, UuidLib}.
Notation W := (World S U K).
(** The oauth2 library, the random source (each draw sixteen bytes, for [rand.Read] or
    an error) and fiber's query parameters. *)
Context (AuthCodeURL : Google.Provider -> string -> string).
Context (oauth_exchange : list (@Google.event K) -> string -> result K).
Context (http_get : list (@Google.event K) -> K -> string -> result (Z * result Google.UserInfo)).
Context (rand_Read : nat -> result string) (query : Request -> string -> string).
Context (provider : Google.Provider) (jwtCfg : Jwt.Config).

(** *** Actions *)

(** The clock at an action: it may have moved on. *)
Definition advance (w : W) : W :=
  match pace w with
  | [] => w
  | d :: p => MkWorld (redis w) (users w) (google w) (clock w + Z.of_N d) p (drawn w) (log w)
  end.

Definition next_draw (w : W) : nat * W :=
  (drawn w, MkWorld (redis w) (users w) (google w) (clock w) (pace w) (Datatypes.S (drawn w)) (log w)).

Definition set_redis (s : S) (es : list event) (w : W) : W :=
  MkWorld s (users w) (google w) (clock w) (pace w) (drawn w) (es ++ log w).
Definition set_users (u : U) (w : W) : W :=
  MkWorld (redis w) u (google w) (clock w) (pace w) (drawn w) (log w).
Definition set_google (g : list (@Google.event K)) (w : W) : W :=
  MkWorld (redis w) (users w) g (clock w) (pace w) (drawn w) (log w).

(** h.redis.Set(ctx, googleStatePrefix+state, "1", googleStateTTL) *)
Definition issue (state : string) : prog W (option error) :=
  act (fun w =>
    let w := advance w in
    let '(err, s) := SET (clock w) (googleStatePrefix ++ state) (JStr "1") googleStateTTL (redis w) in
    (err, set_redis s [Issued state (clock w) (bool_decide (err = None))] w)).

(** h.redis.GetDel(ctx, googleStatePrefix+state).Err() *)
Definition redeem (state : string) : prog W (option error) :=
  act (fun w =>
    let w := advance w in
    match GETDEL (clock w) (googleStatePrefix ++ state) (redis w) with
    | (Ok _, s) => (None, set_redis s [Passed state (clock w)] w)
    | (Err e, s) => (Some e, set_redis s [] w)
    end).

Definition on_users {X} (f : U -> X * U) : prog W X := act (lift users set_users f).

(** A conversation with Google, inside the world. *)
Fixpoint on_google {A} (m : prog (list (@Google.event K)) A) : prog W A :=
  match m with
  | Ret a => Ret a
  | Act f k => Act (lift google set_google f) (fun x => on_google (k x))
  end.

(** [auth.Sign]: the time and the identifier's random bytes. *)
Definition sign (random : nat -> string) (subject : string) (roles : list string) :
    prog W (result string) :=
  act (fun w =>
    let '(n, w) := next_draw (advance w) in
    (match Sign (clock w) (random n) subject roles "access" jwtCfg with
     | Ok (token, _) => Ok token
     | Err e => Err e
     end, w)).

(** *** The handler *)

Definition newGoogleState : prog W (result string) :=
  let! n := act next_draw in
  Ret (match rand_Read n with
       | Err err => Err err
       | Ok b => Ok (hex_EncodeToString b)
       end).

(** [c.Redirect(url, status)]. *)
Definition c_Redirect (url : string) (code : Z) (c : Ctx) : option error * Ctx :=
  let c := c_Set "Location" url c in
  (None, MkCtx (request c) code (resp_headers c) (resp_body c) (claims_local c) (request_id c)).

Definition Login : handler W := fun c =>
  let! st := newGoogleState in
  match st with
  | Err _ => Ret (Response.InternalError c)
  | Ok state =>
      let! err := issue state in
      Ret (match err with
           | Some _ => Response.InternalError c
           | None => c_Redirect (Google.AuthURL AuthCodeURL provider state) 307 c
           end)
  end.

(** [upsertUser]: the user of the profile's address, or a new one. *)
Definition upsertUser (info : Google.UserInfo) : prog W (result User) :=
  let! found := on_users (FindByEmail (Google.Email info)) in
  match found with
  | Ok user => Ret (Ok user)
  | Err err =>
      if negb (errors_is err ErrRecordNotFound) then Ret (Err (errorf "lookup google user: " err))
      else
        let newUser := MkUser uuid_Nil (Google.Name info) (Google.Email info) "" zero_time zero_time None in
        let! n := act next_draw in
        let! created := on_users (Create (uuid_New n) newUser) in
        Ret (match created with
             | (Some err, _) => Err (errorf "create google user: " err)
             | (None, newUser) => Ok newUser
             end)
  end.

Definition login_json (token : string) (user : User) : json :=
  JObj [("access_token", JStr token);
        ("user", JObj [("email", JStr (Email user)); ("id", JStr (uuid_String (ID user)));
                       ("name", JStr (Name user))])].

Definition Callback (random : nat -> string) : handler W := fun c =>
  let state := query (request c) "state" in
  let code := query (request c) "code" in
  if bool_decide (state = "") || bool_decide (code = "") then
    Ret (Response.BadRequest "missing state or code" c)
  else
    let! err := redeem state in
    match err with
    | Some _ => Ret (Response.Error 401 Response.ErrUnauthorized "invalid or expired oauth state" c)
    | None =>
        let! info := on_google (Google.Exchange oauth_exchange http_get code) in
        match info with
        | Err _ => Ret (Response.InternalError c)
        | Ok info =>
            let! user := upsertUser info in
            match user with
            | Err _ => Ret (Response.InternalError c)
            | Ok user =>
                let! token := sign random (uuid_String (ID user)) ["user"] in
                Ret (match token with
                     | Err _ => Response.InternalError c
                     | Ok token => Response.Success "google login successful" (Some (login_json token user)) c
                     end)
            end
        end
    end.

(** [RegisterGoogleAuthRoutes]: the group /auth/google. *)
Definition RegisterGoogleAuthRoutes (random : nat -> string) : list (string * string * handler W) :=
  [("GET", "/auth/google/", Login); ("GET", "/auth/google/callback", Callback random)].
End Handler.
End GoogleLogin.
