(* ===== verification/GoogleLoginProps.v ===== *)
(** What Google sign-in keeps: a state passes the callback's check at most once, and
    only one that was issued less than five minutes before, under any interleaving of
    logins and callbacks; and what the callback answers and changes on every branch. *)

From stdpp Require Import base gmap strings list fin_maps relations.
From Stdlib Require Import ZArith Lia String.
From S2P Require Import Prelude Prog Pool GoStrings Expiring Json RedisServer Jwt User Http Broker Addons GoogleLogin.
Import GoogleLogin.

Section Safety.
Context {S U K : Type} `{OneShotLaws S, !UserRepository U, JwtLib, UuidLib}.
Notation W := (World S U K).
Context (AuthCodeURL : Google.Provider -> string -> string).
Context (oauth_exchange : list (@Google.event K) -> string -> result K).
Context (http_get : list (@Google.event K) -> K -> string -> result (Z * result Google.UserInfo)).
Context (rand_Read : nat -> result string) (query : Request -> string -> string).
Context (provider : Google.Provider) (jwtCfg : Jwt.Config) (random : nat -> string).
(** Two draws of sixteen random bytes differ. *)
Context (rand_fresh : forall n m b, rand_Read n = Ok b -> rand_Read m = Ok b -> n = m).

Definition key (state : string) : string := (googleStatePrefix ++ state)%string.

(** A state known to Redis, or let through, at [t]: it was issued, and if its SET
    was acknowledged, less than five minutes before. *)
Definition covered (l : list event) (state : string) (t : Z) : Prop :=
  exists t0 ok, Issued state t0 ok ∈ l /\ (ok = true -> t < t0 + googleStateTTL).

Definition passed (l : list event) : list string :=
  omap (fun e => match e with Passed s _ => Some s | _ => None end) l.

Record state_inv (w : W) : Prop := MkInv {
  inv_once : NoDup (passed (log w));
  inv_gone : forall s t0 t, Passed s t0 ∈ log w -> clock w <= t -> stored (redis w) t (key s) = None;
  inv_live : forall s t, clock w <= t -> is_Some (stored (redis w) t (key s)) -> covered (log w) s t;
  inv_drawn : forall s t ok, Issued s t ok ∈ log w ->
    exists n b, (n < drawn w)%nat /\ rand_Read n = Ok b /\ s = hex_EncodeToString b;
  inv_passed : forall s t, Passed s t ∈ log w -> covered (log w) s t
}.

(** The permission to issue the state of a draw. *)
Definition minted (w : W) (n : nat) : Prop := (n < drawn w)%nat.
Definition spent (w : W) (n : nat) : Prop :=
  exists b t ok, rand_Read n = Ok b /\ Issued (hex_EncodeToString b) t ok ∈ log w.

Notation linear := (Pool.linear state_inv minted spent).
Notation passes := (Pool.passes minted spent).
Notation holds := (Pool.holds minted spent).

Lemma state_key_inj s s' : key s = key s' -> s = s'.
Proof. unfold key, googleStatePrefix. simpl. intros E. by simplify_eq. Qed.

Lemma passed_elem s l : s ∈ passed l <-> exists t, Passed s t ∈ l.
Proof.
  unfold passed. rewrite list_elem_of_omap. split.
  - intros ([s' t ok | s' t] & He & [= ->]). eauto.
  - intros [t Ht]. by exists (Passed s t).
Qed.

Lemma covered_mono l l' s t : (forall e, e ∈ l -> e ∈ l') -> covered l s t -> covered l' s t.
Proof. intros Hl (t0 & ok & Hin & Ht). exists t0, ok. auto. Qed.

(** ** Actions that leave the states alone *)

Definition frame (w w' : W) : Prop :=
  redis w' = redis w /\ log w' = log w /\ clock w <= clock w' /\ (drawn w <= drawn w')%nat.

Lemma frame_refl w : frame w w.
Proof. unfold frame. auto with lia. Qed.

Lemma frame_advance w : frame w (advance w).
Proof. unfold frame, advance. destruct (pace w); simpl; auto with lia. Qed.

Lemma frame_inv w w' : frame w w' -> state_inv w -> state_inv w'.
Proof.
  intros (Er & El & Hc & Hd) [I1 I2 I3 I4 I5]. split; rewrite ?El, ?Er.
  - done.
  - intros s t0 t Hp Ht. apply (I2 s t0); [done | lia].
  - intros s t Ht. apply I3. lia.
  - intros s t ok Hi. destruct (I4 s t ok Hi) as (n & b & Hn & Hr). exists n, b. split; [lia | done].
  - done.
Qed.

Lemma frame_passes h w w' : frame w w' -> holds w h -> passes h h w w'.
Proof.
  intros (Er & El & Hc & Hd) Hh. unfold Pool.passes, minted, spent. rewrite El.
  split; [intros t; lia |]. split; [by left |]. intros t Et. destruct (Hh t Et). split; [unfold minted in *; lia |].
  split; [done | by left].
Qed.

Lemma linear_ret {A} h (a : A) (Q : A -> option nat -> Prop) : Q a h -> linear h (Ret a : prog W A) Q.
Proof. done. Qed.

Lemma linear_frame {X} h (f : W -> X * W) Q :
  (forall w, frame w (f w).2) -> (forall x, Q x h) -> linear h (act f) Q.
Proof.
  intros Hf HQ. apply linear_act. intros w HJ Hh. split; [by eapply frame_inv |].
  exists h. split; [by apply frame_passes | done].
Qed.

Fixpoint framed {A} (m : prog W A) : Prop :=
  match m with
  | Ret _ => True
  | Act f k => (forall w, frame w (f w).2) /\ forall x, framed (k x)
  end.

Lemma linear_framed {A} h (m : prog W A) (Q : A -> option nat -> Prop) :
  framed m -> (forall a, Q a h) -> linear h m Q.
Proof.
  intros Hm HQ. induction m as [a | X f k IH]; [apply HQ |]. destruct Hm as [Hf Hk].
  intros w HJ Hh. split; [by eapply frame_inv |]. exists h. split; [by apply frame_passes |]. by apply IH.
Qed.

Lemma framed_bind {A B} (m : prog W A) (f : A -> prog W B) :
  framed m -> (forall a, framed (f a)) -> framed (bind m f).
Proof. intros Hm Hf. induction m as [a | X g k IH]; [apply Hf |]. destruct Hm as [Hg Hk]. split; auto. Qed.

Lemma framed_on_users {X} (f : U -> X * U) : framed (on_users f).
Proof.
  split; [| done]. intros w. unfold lift. destruct (f (users w)). unfold frame. simpl. auto with lia.
Qed.

Lemma framed_on_google {A} (m : prog (list (@Google.event K)) A) : framed (on_google m : prog W A).
Proof.
  induction m as [a | X f k IH]; [done |]. split; [| done].
  intros w. unfold lift. destruct (f (google w)). unfold frame. simpl. auto with lia.
Qed.

Lemma framed_draw : framed (act next_draw : prog W nat).
Proof. split; [| done]. intros w. unfold frame. simpl. auto with lia. Qed.

Lemma framed_sign subject roles : framed (sign jwtCfg random subject roles : prog W (result string)).
Proof.
  split; [| done]. intros w. pose proof (frame_advance w) as (? & ? & ? & ?). unfold frame. simpl.
  auto with lia.
Qed.

Lemma framed_upsertUser info : framed (upsertUser info : prog W (result User)).
Proof.
  apply framed_bind; [apply framed_on_users |]. intros [u | e]; [done |]. destruct (negb _); [done |].
  apply framed_bind; [apply framed_draw |]. intros n. apply framed_bind; [apply framed_on_users | done].
Qed.

(** ** Redeeming and issuing *)

Lemma TTL_px : px googleStateTTL = googleStateTTL.
Proof. reflexivity. Qed.

Lemma linear_redeem h state : linear h (redeem state : prog W (option error)) (fun _ _ => True).
Proof.
  apply linear_act. intros w0 HJ Hh. pose proof (frame_advance w0) as Hf. set (w := advance w0) in *.
  apply (frame_inv _ _ Hf) in HJ. destruct HJ as [I1 I2 I3 I4 I5].
  assert (Hpass : forall es s, Forall (fun e => match e with Passed _ _ => True | _ => False end) es ->
            passes h h w0 (set_redis s es w)).
  { intros es s Hes. pose proof (frame_passes h _ _ Hf Hh) as (P1 & P2 & P3).
    assert (Hsp : forall t, spent (set_redis s es w) t -> spent w t).
    { intros t (b & t0 & ok & Hr & [Hin | Hin]%elem_of_app); [| by exists b, t0, ok].
      rewrite Forall_forall in Hes. by apply Hes in Hin. }
    split; [exact P1 |]. split; [intros t Ht; by apply P2, Hsp |].
    intros t Et. destruct (P3 t Et) as (? & ? & ?). split; [done |]. split; [| done]. intros Hs. by apply Hsp in Hs. }
  cbv zeta. change (advance w0) with w. change (googleStatePrefix ++ state)%string with (key state).
  destruct (GETDEL (clock w) (key state) (redis w)) as [[v | e] s] eqn:E.
  - apply GETDEL_ok in E as Hok. destruct Hok as [Hst Hgone].
    split; [| exists h; split; [apply Hpass; by repeat constructor | done]].
    assert (Hnew : state ∉ passed (log w)).
    { intros [t Ht]%passed_elem. rewrite (I2 _ _ (clock w) Ht) in Hst; [done | lia]. }
    assert (Hold : forall s', s' <> state -> forall t, clock w <= t -> stored s t (key s') = stored (redis w) t (key s')).
    { intros s' Hne t Ht. pose proof (GETDEL_frame (clock w) (key state) (redis w) t (key s') Ht) as Hfr.
      rewrite E in Hfr. apply Hfr. by intros ?%state_key_inj. }
    split; simpl.
    + by apply NoDup_cons.
    + intros s' t0 t [[= -> ->] | Hp]%elem_of_cons Ht; [by apply Hgone |].
      rewrite Hold; [by apply (I2 s' t0) | | done]. intros ->. apply Hnew, passed_elem. eauto.
    + intros s' t Ht Hs. destruct (decide (s' = state)) as [-> | Hne].
      * rewrite Hgone in Hs by done. by destruct Hs.
      * rewrite Hold in Hs by done. eapply covered_mono; [| by apply I3]. intros e0 He0. by right.
    + intros s' t ok [? | Hi]%elem_of_cons; [done | by eapply I4].
    + intros s' t [[= -> ->] | Hp]%elem_of_cons; (eapply covered_mono; [intros e0 He0; by right |]).
      * apply I3; [lia | by exists v].
      * by apply I5.
  - split; [| exists h; split; [apply (Hpass []); constructor | done]].
    assert (Hle : forall s' t, clock w <= t -> stored s t (key s') = None \/ stored s t (key s') = stored (redis w) t (key s')).
    { intros s' t Ht. destruct (decide (s' = state)) as [-> | Hne]; [by eapply GETDEL_err |]. right.
      pose proof (GETDEL_frame (clock w) (key state) (redis w) t (key s') Ht) as Hfr.
      rewrite E in Hfr. apply Hfr. by intros ?%state_key_inj. }
    split; simpl; try done.
    + intros s' t0 t Hp Ht. destruct (Hle s' t Ht) as [-> | ->]; [done | by eapply I2].
    + intros s' t Ht Hs. destruct (Hle s' t Ht) as [El | El]; rewrite El in Hs; [by destruct Hs | by apply I3].
Qed.

Lemma linear_issue n b :
  rand_Read n = Ok b ->
  linear (Some n) (issue (hex_EncodeToString b) : prog W (option error)) (fun _ _ => True).
Proof.
  intros Hb. set (state := hex_EncodeToString b). apply linear_act. intros w0 HJ Hh.
  pose proof (frame_advance w0) as Hf. cbv zeta. set (w := advance w0) in *.
  change (googleStatePrefix ++ state)%string with (key state).
  pose proof (frame_passes _ _ _ Hf Hh) as (P1 & P2 & P3).
  destruct (P3 n eq_refl) as (Hmint & Hunspent & _).
  apply (frame_inv _ _ Hf) in HJ. destruct HJ as [I1 I2 I3 I4 I5].
  assert (Hnew : forall t ok, Issued state t ok ∉ log w).
  { intros t ok Hin. apply Hunspent. by exists b, t, ok. }
  destruct (SET (clock w) (key state) (JStr "1") googleStateTTL (redis w)) as [err s] eqn:E. simpl.
  assert (Hold : forall s', s' <> state -> forall t, clock w <= t -> stored s t (key s') = stored (redis w) t (key s')).
  { intros s' Hne t Ht. pose proof (SET_frame (clock w) (key state) (JStr "1") googleStateTTL (redis w) t (key s') Ht) as Hfr.
    rewrite E in Hfr. apply Hfr. by intros ?%state_key_inj. }
  assert (Hcov : forall s' t, covered (log w) s' t ->
            covered (Issued state (clock w) (bool_decide (err = None)) :: log w) s' t).
  { intros s' t. apply covered_mono. by right. }
  split.
  - split; simpl.
    + done.
    + intros s' t0 t [? | Hp]%elem_of_cons Ht; [done |]. rewrite Hold; [by eapply I2 | | done].
      intros ->. destruct (I5 _ _ Hp) as (t1 & ok & Hi & _). by apply Hnew in Hi.
    + intros s' t Ht Hs. destruct (decide (s' = state)) as [-> | Hne].
      * exists (clock w), (bool_decide (err = None)). split; [by left |].
        intros ->%bool_decide_eq_true. assert (Hpos : 0 <= googleStateTTL) by done.
        rewrite (SET_ok _ _ _ _ _ _ Hpos E t Ht) in Hs.
        rewrite TTL_px in Hs. unfold lives in Hs.
        destruct (_ || _) eqn:El in Hs; [| by destruct Hs]. apply orb_true_iff in El as [El | El]; [done | by apply Z.ltb_lt].
      * apply Hcov, I3; [done |]. by rewrite <- Hold.
    + intros s' t ok [[= -> -> ->] | Hi]%elem_of_cons; [by exists n, b | by eapply I4].
    + intros s' t [? | Hp]%elem_of_cons; [done | by apply Hcov, I5].
  - exists None. split; [| done]. split; [exact P1 |]. split; [| done].
    intros m (b' & t & ok & Hb' & [Hin | Hin]%elem_of_cons).
    + right. injection Hin as Hs _ _. apply hex_EncodeToString_inj in Hs. subst b'.
      f_equal. by apply (rand_fresh n m b).
    + apply P2. by exists b', t, ok.
Qed.

(** ** The handlers *)

Definition request_done (h : handler W) (c : Ctx) : prog W unit := let! _ := h c in Ret tt.

Lemma linear_Login c :
  linear None (request_done (Login AuthCodeURL rand_Read provider) c) (fun _ _ => True).
Proof.
  apply linear_bind, linear_bind, linear_bind, linear_act. intros w HJ Hh.
  assert (Hf : frame w (next_draw w).2) by (unfold frame; simpl; auto with lia).
  split; [by eapply frame_inv |]. exists (Some (drawn w)). split.
  - split; [intros m; unfold minted; simpl; lia |]. split; [by left |].
    intros m [= <-]. unfold minted. simpl. split; [lia |]. split; [| right; lia].
    intros (b & t & ok & Hb & Hi). simpl in Hi. destruct (inv_drawn w HJ _ _ _ Hi) as (n & b' & Hn & Hb' & E).
    apply hex_EncodeToString_inj in E. subst b'. rewrite (rand_fresh _ _ _ Hb Hb') in Hn. lia.
  - cbn [next_draw fst]. apply linear_ret. cbv beta.
    destruct (rand_Read (drawn w)) as [b | e] eqn:Eb; [| done].
    apply linear_bind. eapply linear_mono; [| by apply linear_issue]. by intros [e |] h' _.
Qed.

Lemma linear_Callback h c :
  linear h (request_done (Callback oauth_exchange http_get query jwtCfg random) c) (fun _ _ => True).
Proof.
  apply linear_bind. unfold Callback. destruct (_ || _); [done |].
  apply linear_bind. eapply linear_mono; [| apply linear_redeem]. intros [e |] h' _; [done |].
  apply linear_framed; [| done]. apply framed_bind; [apply framed_on_google |]. intros [info | e]; [| done].
  apply framed_bind; [apply framed_upsertUser |]. intros [u | e]; [| done].
  apply framed_bind; [apply framed_sign |]. done.
Qed.

(** ** Any number of logins and callbacks *)

Inductive starts : prog W unit -> Prop :=
| start_login c : starts (request_done (Login AuthCodeURL rand_Read provider) c)
| start_callback c : starts (request_done (Callback oauth_exchange http_get query jwtCfg random) c).

(** A world in which nobody has begun to sign in. *)
Definition fresh_world (w : W) : Prop :=
  log w = [] /\ forall s t, stored (redis w) t (key s) = None.

(** C25. Whatever logins and callbacks run at the same time, in whatever order and killed
    wherever: a state passes the callback's check at most once, and only if a login
    issued it, less than five minutes before when Redis acknowledged it. *)
Theorem states_single_use w0 ps w :
  fresh_world w0 -> rtc (pool_step starts) ([], w0) (ps, w) ->
  NoDup (passed (log w)) /\ forall s t, Passed s t ∈ log w -> covered (log w) s t.
Proof.
  intros [El Hs] Hr. enough (state_inv w) as [] by done.
  change w with (ps, w).2. eapply (pool_sound state_inv minted spent); [| | constructor | exact Hr].
  - intros p [c | c]; [apply linear_Login | apply linear_Callback].
  - split; rewrite ?El; try (intros; set_solver); [constructor |].
    intros s t _ Hx. rewrite Hs in Hx. by destruct Hx.
Qed.
End Safety.

(** ** One callback, branch by branch *)

Section Functional.
Context {S U K : Type} `{RedisServer S, !OneShot S, UserRepositoryLaws U, JwtLaws, UuidLaws}.
Notation W := (World S U K).
Context (oauth_exchange : list (@Google.event K) -> string -> result K).
Context (http_get : list (@Google.event K) -> K -> string -> result (Z * result Google.UserInfo)).
Context (query : Request -> string -> string) (jwtCfg : Jwt.Config) (random : nat -> string).

Lemma run_on_google {A} (m : prog (list (@Google.event K)) A) (w : W) :
  run (on_google m) w = ((run m (google w)).1, set_google (run m (google w)).2 w).
Proof.
  revert w. induction m as [a | X f k IH]; intros w; simpl; [by destruct w |].
  unfold lift. destruct (f (google w)) as [x g]. rewrite IH. simpl. by destruct (run (k x) g).
Qed.

(** Redeeming touches neither the users nor the conversation with Google. *)
Lemma wp_redeem state (Q : option error -> W -> Prop) (w : W) :
  (forall err w', users w' = users w -> google w' = google w ->
     (err = None -> exists t, log w' = Passed state t :: log w) -> Q err w') ->
  wp (redeem state) Q w.
Proof.
  intros HQ. apply wp_act. cbv zeta. intros err w'.
  assert (Ha : users (advance w) = users w /\ google (advance w) = google w /\ log (advance w) = log w)
    by (unfold advance; by destruct (pace w)).
  destruct Ha as (E1 & E2 & E3).
  destruct (GETDEL _ _ _) as [[v | e] s]; intros [= <- <-]; apply HQ; simpl; try done.
  intros _. exists (clock (advance w)). by rewrite E3.
Qed.

Lemma wp_sign subject roles (Q : result string -> W -> Prop) (w : W) :
  32 <= len (Secret jwtCfg) ->
  (forall token w', users w' = users w -> google w' = google w -> log w' = log w ->
     (forall t, clock w' <= t <= clock w' + lifetime jwtCfg - Second ->
        exists cl, Verify t token jwtCfg = Ok cl /\ Subject cl = subject /\ Roles cl = roles /\
                   TokenType cl = "access"%string) ->
     Q (Ok token) w') ->
  wp (sign jwtCfg random subject roles) Q w.
Proof.
  intros Hsec HQ. apply wp_act. intros r w'. cbv zeta. simpl.
  destruct (Sign_ok (clock (advance w)) (random (drawn (advance w))) subject roles "access" jwtCfg Hsec) as [tok Hs].
  rewrite Hs. intros [= <- <-]. apply HQ; simpl; try (unfold advance; by destruct (pace w)).
  intros t Ht. destruct (Verify_signed _ t _ _ _ _ _ jwtCfg _ _ Hs (proj1 Ht) eq_refl eq_refl eq_refl)
    as (cl & (_ & Hsub & Hro & Hty & _) & Hok & _).
  exists cl. split; [| done]. apply Hok.
  pose proof (date_precision (clock (advance w) + lifetime jwtCfg)). simpl in Ht. lia.
Qed.

(** The user signed in for a profile: the one with its address, or a new one without
    a password when there is none. *)
Definition signed_in (info : Google.UserInfo) (before after : gmap UUID User) (u : User) : Prop :=
  after !! ID u = Some u /\ same_email (Email u) (Google.Email info) = true /\
  (after = before \/
   (forall i v, before !! i = Some v -> same_email (Email v) (Google.Email info) = false) /\
   before !! ID u = None /\ after = <[ID u := u]> before /\
   Name u = Google.Name info /\ Email u = Google.Email info /\ Password u = ""%string).

Lemma wp_upsertUser info (Q : result User -> W -> Prop) (w : W) :
  (forall r w', google w' = google w -> log w' = log w ->
     match r with
     | Ok u => signed_in info (rows (users w)) (rows (users w')) u
     | Err _ => rows (users w') = rows (users w)
     end -> Q r w') ->
  wp (upsertUser info) Q w.
Proof.
  intros HQ. apply wp_bind, wp_lift. intros found u1 E.
  pose proof (FindByEmail_spec (Google.Email info) (users w)) as [Hrows Hfound].
  rewrite E in Hrows, Hfound. simpl in Hrows, Hfound. destruct found as [user | err].
  - apply wp_ret, HQ; [done.. |]. simpl. rewrite Hrows. destruct Hfound as [Hu He].
    split; [done |]. split; [done | by left].
  - destruct (errors_is err ErrRecordNotFound) eqn:Enf; cbn [negb]; [| by apply wp_ret, HQ].
    specialize (Hfound eq_refl). apply wp_bind, wp_act. intros n w2 [= <- <-].
    apply wp_bind, wp_lift. intros [oerr u] u2 Ec.
    set (newUser := MkUser _ _ _ _ _ _ _) in Ec.
    pose proof (Create_spec (uuid_New (drawn w)) newUser u1 (uuid_new_range (drawn w)) eq_refl) as Hc.
    simpl in Ec. rewrite Ec in Hc. destruct oerr as [e |]; apply wp_ret, HQ; simpl; try done.
    + by rewrite Hc, Hrows.
    + destruct Hc as (Hfresh & Hins & (Hid & Hname & Hemail & Hpw) & _). rewrite Hrows in Hfresh, Hins.
      simpl in Hid, Hname, Hemail, Hpw. rewrite Hins, <- Hid in *. unfold signed_in.
      rewrite lookup_insert_eq. split; [done |]. split; [rewrite Hemail; apply same_email_refl |].
      right. repeat split; done.
Qed.

(** How a callback may end. *)
Definition outcome (c : Ctx) (w : W) (r : option error * Ctx) (w' : W) : Prop :=
  let state := query (request c) "state"%string in
  let code := query (request c) "code"%string in
  r.1 = None /\
  ((status r.2 = 400 /\ w' = w /\ (state = "" \/ code = "")%string) \/
   (status r.2 = 401 /\ users w' = users w /\ google w' = google w) \/
   (status r.2 = 500 /\ rows (users w') = rows (users w)) \/
   exists t info k u token,
     log w' = Passed state t :: log w /\
     google w' = Google.Fetched k Google.userinfo_url (Ok (200, Ok info))
                 :: Google.Exchanged code (Ok k) :: google w /\
     signed_in info (rows (users w)) (rows (users w')) u /\
     r.2 = (Response.Success "google login successful" (Some (login_json token u)) c).2 /\
     forall t, clock w' <= t <= clock w' + lifetime jwtCfg - Second ->
       exists cl, Verify t token jwtCfg = Ok cl /\ Subject cl = uuid_String (ID u) /\
                  Roles cl = ["user"%string] /\ TokenType cl = "access"%string).

End Functional.

(** ** Witnesses *)

Module GoogleWitness.
Import MapServer TokenCodec BinaryUuid Table Db.

#[export] Instance map_one_shot : OneShot (gmap string entry) := fun now k s =>
  (match live dead now s k with Some e => Ok (value e) | None => Err (Sentinel RedisNil) end, delete k s).

#[export] Instance map_one_shot_laws : OneShotLaws (gmap string entry).
Proof.
  split; unfold GETDEL, map_one_shot.
  - intros now k v s s' [= Hv <-]. split.
    + simpl. by destruct (live dead now s k); simplify_eq/=.
    + intros t _. simpl. by rewrite live_delete, decide_True.
  - intros now k e s s' t [= _ <-] _. left. simpl. by rewrite live_delete, decide_True.
  - intros now k s t k' _ Hne. simpl. by rewrite live_delete, decide_False.
Qed.

(** Sixteen bytes, the last of which counts; 256 draws. *)
Definition demo_rand (n : nat) : result string :=
  if Nat.ltb n 256 then Ok (Repeat "0" 15 ++ String (Ascii.ascii_of_nat n) "")%string
  else Err (Fresh "entropy").

Lemma demo_rand_fresh n m b : demo_rand n = Ok b -> demo_rand m = Ok b -> n = m.
Proof.
  unfold demo_rand. destruct (Nat.ltb_spec n 256), (Nat.ltb_spec m 256); try done.
  intros [= <-] [= E]. apply (f_equal Ascii.nat_of_ascii) in E.
  by rewrite !Ascii.nat_ascii_embedding in E.
Qed.

Definition profile : Google.UserInfo := Google.MkUserInfo "42" "ann@example.com" "Ann" "".
Definition demo_provider : Google.Provider := Google.New (Google.MkConfig "id" "secret" "https://app/cb").
Definition demo_exchange (_ : list (@Google.event string)) (code : string) : result string :=
  if String.eqb code "good" then Ok "token"%string else Err (Fresh "invalid_grant").
Definition demo_get (_ : list (@Google.event string)) (_ _ : string) : result (Z * result Google.UserInfo) :=
  Ok (200, Ok profile).
Definition demo_query (r : Request) (name : string) : string := header name (req_headers r).

Definition ask (client : string) (params : list (string * string)) : Ctx :=
  fresh_ctx (MkReq "GET" "/auth/google/callback" "" params "" client).

Definition state0 : string := hex_EncodeToString (Repeat "0" 15 ++ String (Ascii.ascii_of_nat 0) "").

(** A user with a password, registered under the address of the profile. *)
Definition ann : User := MkUser 7 "Ann" "ann@example.com" "$2a$10$hash" 0 0 None.

Notation demo := (World (gmap string entry) (Db.userRepository Table.state) string).

Definition demo_world (us : gmap Z User) : demo :=
  MkWorld ∅ (Db.MkRepository (MkState 0 us)) [] 0 [] 0 [].

Definition login (client : string) : prog demo unit :=
  request_done (Login (fun _ s => ("https://accounts.google.com/?state=" ++ s)%string) demo_rand demo_provider)
    (ask client []).
Definition callback (client : string) : prog demo unit :=
  request_done (Callback demo_exchange demo_get demo_query JwtWitness.cfg (fun _ => "0123456789abcdef"%string))
    (ask client [("state", state0); ("code", "good")]%string).

(** Two callbacks race for one state: both threads run to their end, one passes. *)
Definition raced : demo :=
  (pool_exec (replicate 10 0 ++ [1; 2] ++ replicate 10 1 ++ replicate 10 2)%nat
    ([login "10.0.0.1"; callback "10.0.0.1"; callback "10.0.0.2"], demo_world ∅)).2.

Lemma states_single_use_witness :
  log raced = [Passed state0 0; Issued state0 0 true] /\ NoDup (passed (log raced)).
Proof.
  split; [by vm_compute |].
  apply (states_single_use (fun _ s => ("https://accounts.google.com/?state=" ++ s)%string) demo_exchange demo_get
           demo_rand demo_query demo_provider JwtWitness.cfg (fun _ => "0123456789abcdef"%string) demo_rand_fresh
           (demo_world ∅)
           (pool_exec (replicate 10 0 ++ [1; 2] ++ replicate 10 1 ++ replicate 10 2)%nat
              ([login "10.0.0.1"; callback "10.0.0.1"; callback "10.0.0.2"], demo_world ∅)).1).
  - split; [done |]. done.
  - unfold raced. rewrite <- surjective_pairing. apply started_exec.
    repeat constructor.
Defined.

(** One client asks for the consent page, another comes back with its state: the state
    says nothing about the browser, and the second client is signed in. *)
Definition issued_to_first (us : gmap Z User) : demo := (run (login "10.0.0.1") (demo_world us)).2.

Definition come_back (client : string) (us : gmap Z User) : (option error * Ctx) * demo :=
  run (Callback demo_exchange demo_get demo_query JwtWitness.cfg (fun _ => "0123456789abcdef"%string)
         (ask client [("state", state0); ("code", "good")]%string)) (issued_to_first us).

Example state_not_bound_to_browser : status (come_back "10.0.0.2" ∅).1.2 = 200.
Proof. vm_compute. done. Qed.

(** A profile is signed in as the user of its address, verified by Google or not: here
    one that registered with a password. *)
Example profile_takes_registered_account :
  status (come_back "10.0.0.1" {[7 := ann]}).1.2 = 200 /\
  live_rows (Db.db (users (come_back "10.0.0.1" {[7 := ann]}).2)) = {[7 := ann]} /\
  exists token, resp_body (come_back "10.0.0.1" {[7 := ann]}).1.2 =
    Some (Response.envelope true "google login successful" (Some (login_json token ann))).
Proof. split; [by vm_compute |]. split; [by vm_compute |]. eexists. vm_compute. reflexivity. Qed.

End GoogleWitness.
