(* ===== verification/App.v ===== *)
(** The application assembled: the middleware stack of [cmd/api/main.go] (the eight
    [app.Use] calls) around the routes of [route.Setup].

    What the middlewares around every request keep, the limiter, the history of the
    tracing SDK, the request counters and the lines of the log, is the [global_limiter]
    component of the world: a [Plant]. The handlers behind them never touch it. *)

From stdpp Require Import base gmap strings list fin_maps.
From Stdlib Require Import ZArith Lia String.
From S2P Require Import Prelude Prog GoStrings Json Cache Blacklist RateLimit Jwt Pagination User World UserUseCase AuthUseCase Http Hardening Middleware Validator Handlers Routes ApiWitness Journal Observe.

Record Plant (L : Type) : Type := MkPlant {
  limiter : L; tracing : list event; counters : Metrics; log_lines : list request_line
}.
Arguments MkPlant {L} _ _ _ _.
Arguments limiter {L} _.
Arguments tracing {L} _.
Arguments counters {L} _.
Arguments log_lines {L} _.

Section Plants.
Context {C B U L : Type}.
Notation W := (World C B U (Plant L)).

Definition plant (w : W) : Plant L := global_limiter w.
Definition with_limiter (l : L) (w : W) : W :=
  set_global (MkPlant l (tracing (plant w)) (counters (plant w)) (log_lines (plant w))) w.
Definition with_tracing (h : list event) (w : W) : W :=
  set_global (MkPlant (limiter (plant w)) h (counters (plant w)) (log_lines (plant w))) w.
Definition with_counters (m : Metrics) (w : W) : W :=
  set_global (MkPlant (limiter (plant w)) (tracing (plant w)) m (log_lines (plant w))) w.
Definition log_line (l : request_line) (w : W) : W :=
  set_global (MkPlant (limiter (plant w)) (tracing (plant w)) (counters (plant w)) (l :: log_lines (plant w))) w.

#[export] Instance plant_traced : Traced W :=
  {| calls w := tracing (plant w); put_calls := with_tracing |}.
#[export] Instance plant_traced_laws : TracedLaws W.
Proof. constructor; [done | done | by intros [? ? ? []]]. Qed.
End Plants.

(** ** The stack *)

Section App.
Context {jwt : JwtLib} {bcrypt : BcryptLib} {uuid : UuidLib} {val : ValidatorLib} {prs : Parsers}.
Context {C B U L : Type} `{!Cacher C, !Blacklist B, !UserRepository U, !Limiter L}.
Context (random : nat -> string) (a : authUseCase) (appEnv allowedOrigins : string).
Notation W := (World C B U (Plant L)).

(** fiber's own middlewares, the one of the Elastic agent, and what fiber knows of the route. *)
Context (cors_New : CorsConfig -> handler W -> handler W) (helmet_New : HelmetConfig -> handler W -> handler W)
  (recover_New : RecoverConfig -> handler W -> handler W) (apmfiber_Middleware : handler W -> handler W).
Context (route_path : Ctx -> string) (extract : Request -> context) (context_request_id : Ctx -> string).

(** [obsProvider.HTTPMiddleware()]. The context of the span travels in c.Locals, which the
    handlers here do not read. *)
Definition HTTPMiddleware (p : Provider) (next : handler W) : handler W :=
  match p with
  | noopProvider => next
  | elasticProvider => apmfiber_Middleware next
  | otelProvider _ _ => otel_HTTPMiddleware route_path extract context_request_id (fun _ => next)
  end.

(** [uuid.New().String()]. *)
Definition new_request_id : prog W string := let! n := draw in Ret (uuid_String (uuid_New n)).

Definition stack (p : Provider) (routes : handler W) : handler W :=
  Recover recover_New
  (Http.RequestID new_request_id
  (SecurityHeaders helmet_New
  (RateLimiterWith (fun w => limiter (plant w)) with_limiter
  (RequestLogger time_Now log_line
  (CORS cors_New allowedOrigins
  (HTTPMiddleware p
  (MetricsMiddleware route_path time_Now (fun w => counters (plant w)) with_counters routes))))))).

(** fiber's choice: the first route registered for the method and path; behind the prefix of
    a group its middleware also meets the requests no route takes. *)
Context (matches : string -> string -> Request -> bool) (under : string -> Request -> bool) (no_route : Request -> error).
Context (health metrics swagger : handler W).

Definition refuse : handler W := fun c => Ret (Some (no_route (request c)), c).

Definition dispatch : handler W := fun c =>
  match List.find (fun r => matches (r_method r) (r_path r) (request c)) (Setup random a appEnv health metrics swagger) with
  | Some r => r_handler r c
  | None => if under "/api/v1/users" (request c) then Middleware (jwtCfg a) refuse c else refuse c
  end.

Definition app (p : Provider) : handler W := stack p dispatch.
End App.

(** ** The handlers leave the plant alone *)

Section Frames.
Context {jwt : JwtLib} {bcrypt : BcryptLib} {uuid : UuidLib} {val : ValidatorLib} {prs : Parsers}.
Context {C B U G : Type} `{!Cacher C, !Blacklist B, !UserRepository U}.
Context (random : nat -> string) (a : authUseCase) (appEnv : string).
Notation W := (World C B U G).

Definition aside {A} (m : prog W A) : Prop := forall g, keeps (fun w => global_limiter w = g) m.

Lemma aside_ret {A} (x : A) : aside (Ret x).
Proof. by intros g. Qed.
Lemma aside_bind {A A'} (m : prog W A) (f : A -> prog W A') : aside m -> (forall x, aside (f x)) -> aside (bind m f).
Proof. intros Hm Hf g. apply keeps_bind; [apply Hm | intros x; apply Hf]. Qed.
Lemma aside_act {X} (f : W -> X * W) : (forall w, global_limiter (f w).2 = global_limiter w) -> aside (act f).
Proof. intros Hf g. apply keeps_act. intros w <-. apply Hf. Qed.
Lemma aside_run {A} (m : prog W A) (w : W) : aside m -> global_limiter (run m w).2 = global_limiter w.
Proof. intros Hm. by apply (keeps_run (fun w' => global_limiter w' = global_limiter w)). Qed.
Lemma aside_lift {S X} (get : W -> S) (put : S -> W -> W) (f : S -> X * S) :
  (forall s w, global_limiter (put s w) = global_limiter w) -> aside (act (lift get put f)).
Proof. intros Hp. apply aside_act. intros w. unfold lift. destruct (f (get w)) as [x s]. apply Hp. Qed.
Lemma aside_on_blacklist {X} (nil : X) (f : B -> X * B) : aside (act (on_blacklist nil f)).
Proof. apply aside_act. intros w. unfold on_blacklist. destruct (blacklist w) as [b |]; [by destruct (f b) | done]. Qed.
Lemma aside_now : aside time_Now.
Proof. apply aside_act. intros w. unfold tick. by destruct (pace w). Qed.
Lemma aside_draw : aside draw.
Proof. by apply aside_act. Qed.
Lemma aside_reads {X} (f : W -> X) : aside (reads f).
Proof. by apply aside_act. Qed.
Lemma aside_repo {X} (f : U -> X * U) : aside (on_repo f).
Proof. by apply aside_lift. Qed.

Create HintDb plant.
#[local] Hint Resolve aside_ret aside_on_blacklist aside_now aside_draw aside_reads aside_repo : plant.
#[local] Hint Extern 1 (aside (act (lift _ _ _))) => apply aside_lift; reflexivity : plant.

(** Through binds, branches and calls, down to the actions. *)
Ltac aside_go := cbv zeta; repeat
  first [ solve [eauto with plant]
        | apply aside_bind; [| intros ?]
        | match goal with |- aside (match ?x with _ => _ end) => destruct x end
        | progress cbv zeta ].

Lemma aside_Get {A} `{Json A} key : aside (cacher_Get (A := A) key).
Proof. unfold cacher_Get. aside_go. Qed.
Lemma aside_Set {A} `{Json A} key (v : A) ttl : aside (cacher_Set key v ttl).
Proof. unfold cacher_Set. aside_go. Qed.
Lemma aside_Del keys : aside (cacher_Del keys).
Proof. unfold cacher_Del. aside_go. Qed.
Lemma aside_Revoke jti ttl : aside (bl_Revoke jti ttl).
Proof. unfold bl_Revoke. aside_go. Qed.
Lemma aside_IsRevoked jti : aside (bl_IsRevoked jti).
Proof. unfold bl_IsRevoked. aside_go. Qed.
#[local] Hint Resolve aside_Get aside_Set aside_Del aside_Revoke aside_IsRevoked : plant.

(** The use cases. *)
Lemma aside_sign subject roles ty cfg : aside (auth_Sign random subject roles ty cfg).
Proof. unfold auth_Sign. aside_go. Qed.
Lemma aside_verify tok cfg : aside (auth_Verify tok cfg).
Proof. unfold auth_Verify. aside_go. Qed.
Lemma aside_until exp : aside (time_Until exp).
Proof. unfold time_Until. aside_go. Qed.
Lemma aside_version subject : aside (current_version subject).
Proof. unfold current_version. aside_go. Qed.
#[local] Hint Resolve aside_sign aside_verify aside_until aside_version : plant.
Lemma aside_pair subject email : aside (issueTokenPair random a subject email).
Proof. unfold issueTokenPair. aside_go. Qed.
#[local] Hint Resolve aside_pair : plant.
Lemma aside_Login req : aside (Login random a req).
Proof. unfold Login. aside_go. Qed.
Lemma aside_Refresh req : aside (Refresh random a req).
Proof. unfold Refresh. aside_go. Qed.
Lemma aside_revoke_rest claims : aside (revoke_rest claims).
Proof. unfold revoke_rest. aside_go. Qed.
#[local] Hint Resolve aside_revoke_rest : plant.
Lemma aside_Logout acc ref : aside (Logout a acc ref).
Proof. unfold Logout. aside_go. Qed.
Lemma aside_ForgotPassword req : aside (ForgotPassword req).
Proof. unfold ForgotPassword. aside_go. Qed.
Lemma aside_ResetPassword req : aside (ResetPassword a req).
Proof. unfold ResetPassword. aside_go. Qed.
Lemma aside_GetUser id : aside (GetUser id).
Proof. unfold GetUser. aside_go. Qed.
Lemma aside_ListUsersPaged req : aside (ListUsersPaged req).
Proof. unfold ListUsersPaged. aside_go. Qed.
Lemma aside_CreateUser req : aside (CreateUser req).
Proof. unfold CreateUser. aside_go. Qed.
Lemma aside_UpdateUser id req : aside (UpdateUser id req).
Proof. unfold UpdateUser. aside_go. Qed.
Lemma aside_DeleteUser id : aside (DeleteUser id).
Proof. unfold DeleteUser. aside_go. Qed.
#[local] Hint Resolve aside_Login aside_Refresh aside_Logout aside_ForgotPassword aside_ResetPassword aside_GetUser
  aside_ListUsersPaged aside_CreateUser aside_UpdateUser aside_DeleteUser : plant.

(** The handlers and the middlewares of the routes. *)
Definition asides (h : handler W) : Prop := forall c, aside (h c).

Lemma aside_with_body {A} (parsed : result A) fields c k :
  (forall req, aside (k req)) -> aside (with_body parsed fields c k).
Proof. intros Hk. unfold with_body. aside_go; apply Hk. Qed.
Lemma asides_Middleware cfg next : asides next -> asides (Middleware cfg next).
Proof. intros Hn c. unfold Middleware. aside_go; apply Hn. Qed.
Lemma asides_RequireRole roles next : asides next -> asides (RequireRole roles next).
Proof. intros Hn c. unfold RequireRole. aside_go; apply Hn. Qed.
Lemma asides_login_limiter next : asides next -> asides (loginLimiter next).
Proof. intros Hn c. unfold loginLimiter, RateLimiterWith. aside_go; apply Hn. Qed.
Lemma asides_write_limiter next : asides next -> asides (writeLimiter next).
Proof. intros Hn c. unfold writeLimiter, RateLimiterWith. aside_go; apply Hn. Qed.
Lemma asides_prodGuard next : asides next -> asides (prodGuard appEnv next).
Proof. intros Hn c. unfold prodGuard. aside_go; apply Hn. Qed.

Lemma asides_endpoints :
  Forall asides [handle_Login random a; handle_Refresh random a; handle_Logout a; handle_ForgotPassword appEnv;
    handle_ResetPassword a; handle_ListUsers; handle_GetUser; handle_CreateUser; handle_UpdateUser; handle_DeleteUser].
Proof.
  repeat (apply Forall_cons; split); [.. | done]; intros c;
    unfold handle_Login, handle_Refresh, handle_Logout, handle_ForgotPassword, handle_ResetPassword, handle_ListUsers,
      handle_GetUser, handle_CreateUser, handle_UpdateUser, handle_DeleteUser; cbv zeta;
    try (apply aside_with_body; intros req); aside_go.
Qed.

(** No route touches what the middlewares around it keep. *)
Lemma asides_Setup health metrics swagger (r : route) :
  asides health -> asides metrics -> asides swagger ->
  r ∈ Setup random a appEnv health metrics swagger -> asides (r_handler r).
Proof.
  intros Hh Hm Hs. pose proof asides_endpoints as He. repeat (apply Forall_cons in He as [? He]).
  assert (Hw : asides (welcomeHandler appEnv)) by (intros c g; exact I).
  revert r. apply (Forall_forall (fun r => asides (r_handler r))).
  unfold Setup, RegisterAuthRoutes, RegisterUserRoutes, delete_chain. cbv zeta. rewrite !Forall_app.
  split_and!; repeat (apply Forall_cons; split); try apply Forall_nil; cbn [r_handler];
    auto 6 using asides_Middleware, asides_RequireRole, asides_login_limiter, asides_write_limiter, asides_prodGuard.
Qed.
End Frames.

(** ** What the stack does to a request *)

Section Behaviour.
Context {jwt : JwtLib} {bcrypt : BcryptLib} {uuid : UuidLib} {val : ValidatorLib} {prs : Parsers}.
Context {C B U L : Type} `{!Cacher C, !Blacklist B, !UserRepository U, !Limiter L}.
Context (random : nat -> string) (a : authUseCase) (appEnv allowedOrigins : string).
Notation W := (World C B U (Plant L)).
Context (cors_New : CorsConfig -> handler W -> handler W) (helmet_New : HelmetConfig -> handler W -> handler W)
  (recover_New : RecoverConfig -> handler W -> handler W) (apmfiber_Middleware : handler W -> handler W).
Context (route_path : Ctx -> string) (extract : Request -> context) (context_request_id : Ctx -> string).
Notation stack := (stack allowedOrigins cors_New helmet_New recover_New apmfiber_Middleware route_path extract context_request_id).

(** A context in which only headers of the response and the request id were set. *)
Definition dressed (c c' : Ctx) : Prop :=
  request c' = request c /\ status c' = status c /\ resp_body c' = resp_body c /\ claims_local c' = claims_local c.

(** What fiber and the Elastic agent document: without a panic recover hands the request
    on; helmet sets headers and hands it on; cors does too, unless it is an OPTIONS
    request, which may be a preflight; the agent's middleware only records. *)
Context (recover_passes : forall cfg next c, recover_New cfg next c = next c).
Context (helmet_passes : forall cfg next c, exists c', dressed c c' /\ helmet_New cfg next c = next c').
Context (cors_passes : forall cfg next c, method (request c) <> "OPTIONS"%string ->
  exists c', dressed c c' /\ cors_New cfg next c = next c').
Context (apm_records : transparent apmfiber_Middleware).

Lemma dressed_refl c : dressed c c.
Proof. by split_and!. Qed.
Lemma dressed_trans c1 c2 c3 : dressed c1 c2 -> dressed c2 c3 -> dressed c1 c3.
Proof. intros (? & ? & ? & ?) (? & ? & ? & ?). split_and!; congruence. Qed.

(** Worlds that differ by the plant, the time and what was drawn. *)
Definition kept (w w' : W) : Prop :=
  cache w' = cache w /\ blacklist w' = blacklist w /\ repo w' = repo w /\ login_limiter w' = login_limiter w /\
  write_limiter w' = write_limiter w /\ (drawn w <= drawn w')%nat /\ clock w <= clock w'.

Lemma kept_refl w : kept w w.
Proof. by split_and!. Qed.
Lemma kept_trans w1 w2 w3 : kept w1 w2 -> kept w2 w3 -> kept w1 w3.
Proof. intros (? & ? & ? & ? & ? & ? & ?) (? & ? & ? & ? & ? & ? & ?). split_and!; try congruence; lia. Qed.
Lemma kept_tick (w : W) : kept w (tick w).2 /\ plant (tick w).2 = plant w /\ clock (tick w).2 = (tick w).1.
Proof. unfold tick. destruct (pace w); (split; [| done]); split_and!; simpl; lia || done. Qed.
Lemma kept_set_global x (w : W) : kept w (set_global x w).
Proof. by split_and!. Qed.

#[local] Hint Resolve kept_refl kept_set_global dressed_refl : plant.

Lemma wp_now (Q : Z -> W -> Prop) (w : W) :
  (forall w', kept w w' -> plant w' = plant w -> Q (clock w') w') -> wp time_Now Q w.
Proof.
  intros HQ. apply wp_act. intros t w' E. pose proof (kept_tick w) as (Hk & Hp & Ht). rewrite E in Hk, Hp, Ht.
  simpl in *. subst t. by apply HQ.
Qed.

(** Layer by layer. *)
Lemma wp_RequestID next c (Q : option error * Ctx -> W -> Prop) (w : W) :
  (forall c' w', dressed c c' -> kept w w' -> plant w' = plant w -> wp (next c') Q w') ->
  wp (Http.RequestID new_request_id next c) Q w.
Proof.
  intros HQ. unfold Http.RequestID. apply wp_bind.
  case_bool_decide; [| by apply wp_ret, HQ; [split_and! | |]].
  unfold new_request_id. apply wp_bind, wp_act. intros n w' [= <- <-]. apply wp_ret, HQ; [by split_and! | | done].
  split_and!; simpl; lia || done.
Qed.

Definition refused (verdict : result RateLimit.Result) : bool := match verdict with Ok res => negb (Allowed res) | Err _ => false end.
Definition too_many_answer (c : Ctx) : Prop := status c = 429 /\ resp_body c = Some too_many.

Lemma wp_RateLimiter next c (Q : option error * Ctx -> W -> Prop) (w : W) :
  (forall now l verdict c' w', clock w <= now <= clock w' -> Allow now (ip (request c)) (limiter (plant w)) = (verdict, l) ->
     kept w w' -> plant w' = MkPlant l (tracing (plant w)) (counters (plant w)) (log_lines (plant w)) ->
     if refused verdict then too_many_answer c' -> Q (None, c') w' else dressed c c' -> wp (next c') Q w') ->
  wp (RateLimiterWith (fun w => limiter (plant w)) with_limiter next c) Q w.
Proof.
  intros HQ. unfold RateLimiterWith. apply wp_bind, wp_now. intros w1 Hk Hp. apply wp_bind, wp_lift.
  intros verdict l E. rewrite Hp in E.
  assert (Hk2 : kept w (with_limiter l w1)) by (eapply kept_trans; [exact Hk | apply kept_set_global]).
  assert (Ht : clock w <= clock w1 <= clock (with_limiter l w1)) by (split; [by destruct Hk as (? & ? & ? & ? & ? & ? & ?) | simpl; lia]).
  assert (Hp2 : plant (with_limiter l w1) = MkPlant l (tracing (plant w)) (counters (plant w)) (log_lines (plant w)))
    by (unfold with_limiter, plant in *; cbn; by rewrite Hp).
  pose proof (fun c' => HQ _ _ _ c' _ Ht E Hk2 Hp2) as HQ'. cbv zeta.
  destruct verdict as [res | e]; unfold refused in HQ'; [destruct (negb (Allowed res)) |].
  - apply wp_ret, HQ'. by split.
  - apply HQ'. by split_and!.
  - apply HQ', dressed_refl.
Qed.

Definition line_of (out : option error * Ctx) (latency : Z) : request_line :=
  MkRequestLine (method (request out.2)) (path (request out.2)) (status out.2) latency (ip (request out.2)).
Definition counted (out : option error * Ctx) (d : Z) : Metrics -> Metrics :=
  observe (route_path out.2) (method (request out.2)) (Itoa (status out.2)) d.
Definition balanced (h h' : list event) : Prop := forall st, open_spans h = Some st -> open_spans h' = Some st.

Lemma wp_RequestLogger next c (Q : option error * Ctx -> W -> Prop) (w : W) :
  (forall w1, kept w w1 -> plant w1 = plant w ->
     wp (next c) (fun out w2 => forall d w', kept w2 w' -> plant w' = plant (log_line (line_of out d) w2) -> Q out w') w1) ->
  wp (RequestLogger time_Now log_line next c) Q w.
Proof.
  intros HQ. unfold RequestLogger. apply wp_bind, wp_now. intros w1 Hk Hp. apply wp_bind.
  eapply wp_mono; [by apply HQ |]. intros [err c'] w2 H2. apply wp_bind, wp_now. intros w3 Hk3 Hp3.
  apply wp_bind, wp_act. intros [] w' [= <-]. apply wp_ret. eapply H2.
  - eapply kept_trans; [exact Hk3 | apply kept_set_global].
  - unfold log_line, plant in *. cbn. by rewrite Hp3.
Qed.

Lemma wp_MetricsMiddleware next c (Q : option error * Ctx -> W -> Prop) (w : W) :
  (forall w1, kept w w1 -> plant w1 = plant w ->
     wp (next c) (fun out w2 => forall d w', kept w2 w' ->
       plant w' = plant (with_counters (counted out d (counters (plant w2))) w2) -> Q out w') w1) ->
  wp (MetricsMiddleware route_path time_Now (fun w => counters (plant w)) with_counters next c) Q w.
Proof.
  intros HQ. unfold MetricsMiddleware. apply wp_bind, wp_now. intros w1 Hk Hp. apply wp_bind.
  eapply wp_mono; [by apply HQ |]. intros [err c'] w2 H2. apply wp_bind, wp_now. intros w3 Hk3 Hp3.
  apply wp_bind, wp_act. intros [] w' [= <-]. apply wp_ret. eapply H2.
  - eapply kept_trans; [exact Hk3 | apply kept_set_global].
  - unfold with_counters, plant in *. cbn. by rewrite Hp3.
Qed.

Notation HTTPMiddleware := (HTTPMiddleware apmfiber_Middleware route_path extract context_request_id).

Lemma provider_transparent p : transparent (HTTPMiddleware p).
Proof. destruct p; [apply noop_transparent | exact apm_records | apply otel_transparent]. Qed.

Lemma wp_HTTPMiddleware p next c (Q : option error * Ctx -> W -> Prop) (w : W) :
  (forall h, wp (next c) (fun out w2 => forall h',
     (tracing (plant w2) = h -> balanced (tracing (plant w)) h') -> Q out (with_tracing h' w2)) (with_tracing h w)) ->
  wp (HTTPMiddleware p next c) Q w.
Proof.
  intros HQ. destruct (provider_transparent p next c w) as [h Ht]. specialize (HQ h). unfold wp in *.
  change (put_calls h w) with (with_tracing h w) in Ht. destruct (run (next c) _) as [out w2].
  destruct Ht as (h' & E & Hb). rewrite E. by apply HQ.
Qed.

(** What a request that went through left in the plant. *)
Definition passed (out : option error * Ctx) (before after : Plant L) : Prop :=
  (exists d, log_lines after = line_of out d :: log_lines before) /\
  (exists d, counters after = counted out d (counters before)) /\
  balanced (tracing before) (tracing after).

Lemma wp_observed p routes c (Q : option error * Ctx -> W -> Prop) (w : W) :
  asides routes -> method (request c) <> "OPTIONS"%string ->
  (forall c0 w0, dressed c c0 -> kept w w0 ->
     let '(out, w1) := run (routes c0) w0 in
     forall w', kept w1 w' -> limiter (plant w') = limiter (plant w) -> passed out (plant w) (plant w') -> Q out w') ->
  wp (RequestLogger time_Now log_line
        (CORS cors_New allowedOrigins
          (HTTPMiddleware p
            (MetricsMiddleware route_path time_Now (fun w => counters (plant w)) with_counters routes))) c) Q w.
Proof.
  intros Ha Hm HQ. apply wp_RequestLogger. intros w1 Hk1 Hp1. unfold CORS, wp.
  destruct (cors_passes (cors_config allowedOrigins)
    (HTTPMiddleware p (MetricsMiddleware route_path time_Now (fun w => counters (plant w)) with_counters routes)) c Hm)
    as (c0 & Hd & ->).
  apply wp_HTTPMiddleware. intros h. apply wp_MetricsMiddleware. intros w2 Hk2 Hp2. unfold wp.
  assert (Hk : kept w w2) by (eapply kept_trans; [exact Hk1 |]; eapply kept_trans; [apply kept_set_global | exact Hk2]).
  specialize (HQ c0 w2 Hd Hk). pose proof (aside_run (routes c0) w2 (Ha c0)) as Hp3.
  destruct (run (routes c0) w2) as [out w3]. cbn [fst snd] in *. intros d w4 Hk4 Hp4 h' Hb d' w5 Hk5 Hp5.
  assert (P4 : plant w4 = MkPlant (limiter (plant w)) h (counted out d (counters (plant w))) (log_lines (plant w))).
  { rewrite Hp4. unfold with_counters, plant in *. cbn [global_limiter set_global]. rewrite Hp3, Hp2. cbn. unfold plant. by rewrite Hp1. }
  assert (P5 : plant w5 = MkPlant (limiter (plant w)) h' (counted out d (counters (plant w)))
                            (line_of out d' :: log_lines (plant w))).
  { rewrite Hp5. unfold log_line, with_tracing, plant in *. cbn [global_limiter set_global]. by rewrite P4. }
  apply HQ.
  - eapply kept_trans; [exact Hk4 |]. eapply kept_trans; [apply kept_set_global | exact Hk5].
  - by rewrite P5.
  - rewrite P5. split_and!; [by eexists | by eexists |]. cbn [tracing]. rewrite Hp1 in Hb. apply Hb. by rewrite P4.
Qed.

Lemma wp_stack p routes c (Q : option error * Ctx -> W -> Prop) (w : W) :
  asides routes -> method (request c) <> "OPTIONS"%string ->
  (forall now l verdict w', clock w <= now <= clock w' -> Allow now (ip (request c)) (limiter (plant w)) = (verdict, l) ->
     kept w w' ->
     if refused verdict then
       plant w' = MkPlant l (tracing (plant w)) (counters (plant w)) (log_lines (plant w)) ->
       forall c', too_many_answer c' -> Q (None, c') w'
     else forall c0, dressed c c0 ->
       let '(out, w1) := run (routes c0) w' in
       forall w2, kept w1 w2 -> limiter (plant w2) = l -> passed out (plant w) (plant w2) -> Q out w2) ->
  wp (stack p routes c) Q w.
Proof.
  intros Ha Hm HQ. unfold App.stack, Recover. rewrite recover_passes. apply wp_RequestID. intros c1 w1 Hd1 Hk1 Hp1.
  unfold SecurityHeaders.
  match goal with |- wp (helmet_New ?cfg ?next c1) _ _ => destruct (helmet_passes cfg next c1) as (c2 & Hd2 & ->) end.
  pose proof (dressed_trans _ _ _ Hd1 Hd2) as Hd. apply wp_RateLimiter. intros now l verdict c3 w3 Ht E Hk3 Hp3.
  rewrite Hp1 in E, Hp3. rewrite (proj1 Hd) in E. pose proof (kept_trans _ _ _ Hk1 Hk3) as Hk.
  assert (Ht' : clock w <= now <= clock w3) by (destruct Hk1 as (? & ? & ? & ? & ? & ? & ?); lia).
  destruct (refused verdict) eqn:Er.
  { intros H. specialize (HQ now l verdict w3 Ht' E Hk). rewrite Er in HQ. by apply HQ. }
  intros Hd3. pose proof (dressed_trans _ _ _ Hd Hd3) as Hd'.
  apply wp_observed; [done | by rewrite (proj1 Hd') |]. intros c0 w0 Hd0 Hk0.
  assert (Ht0 : clock w <= now <= clock w0) by (destruct Hk0 as (? & ? & ? & ? & ? & ? & ?); lia).
  specialize (HQ now l verdict w0 Ht0 E (kept_trans _ _ _ Hk Hk0)). rewrite Er in HQ.
  specialize (HQ c0 (dressed_trans _ _ _ Hd' Hd0)). rewrite Hp3 in *. exact HQ.
Qed.

Context (matches : string -> string -> Request -> bool) (under : string -> Request -> bool) (no_route : Request -> error).
Context (health metrics swagger : handler W).
Context (Hhealth : asides health) (Hmetrics : asides metrics) (Hswagger : asides swagger).
Notation dispatch := (dispatch random a appEnv matches under no_route health metrics swagger).
Notation app := (app random a appEnv allowedOrigins cors_New helmet_New recover_New apmfiber_Middleware route_path
  extract context_request_id matches under no_route health metrics swagger).

Lemma asides_dispatch : asides dispatch.
Proof.
  intros c. unfold App.dispatch. destruct (List.find _ _) as [r |] eqn:Ef.
  - apply find_some in Ef as [Hr _]. apply (asides_Setup random a appEnv health metrics swagger); try done.
    by apply list_elem_of_In.
  - assert (Hr : asides (C := C) (B := B) (U := U) (G := Plant L) (refuse no_route)) by by intros c' g.
    first [apply Hr | destruct (under _ _); [by apply asides_Middleware | apply Hr]].
Qed.

(** What the client gets of what a handler ends with. *)
Definition answered (out : option error * Ctx) : Ctx :=
  match out with (None, c) => c | (Some err, c) => (ErrorHandler err c).2 end.

Lemma wp_serve (h : handler W) q (Q : Ctx -> W -> Prop) (w : W) :
  wp (h (fresh_ctx q)) (fun out => Q (answered out)) w -> wp (serve h q) Q w.
Proof. intros H. unfold serve. apply wp_bind. eapply wp_mono; [exact H |]. by intros [[e |] c] w'. Qed.


Context `{!BlacklistLaws B}.

(** The requests that meet the authentication middleware: those for the user routes and for
    logging out, and every other one under the prefix of the user routes. *)
Definition guarded (q : Request) : Prop :=
  match List.find (fun r => matches (r_method r) (r_path r) q) (Setup random a appEnv health metrics swagger) with
  | Some r => r ∈ RegisterUserRoutes a \/ r_path r = "/api/v1/auth/logout"%string /\ r ∈ RegisterAuthRoutes random a appEnv
  | None => under "/api/v1/users" q = true
  end.

(** The world with the source of identifiers where it was. *)
Definition redrawn (n : nat) (w : W) : W :=
  MkWorld (cache w) (blacklist w) (repo w) (global_limiter w) (login_limiter w) (write_limiter w) (clock w) (pace w) n.

Lemma same_state_redrawn n w w' : same_state w w' -> same_state (redrawn n w) (redrawn n w').
Proof. unfold same_state. naive_solver. Qed.
Lemma kept_redrawn n w w' : kept w w' -> same_state (redrawn n w) (redrawn n w').
Proof. intros (? & Hb & ? & ? & ? & ? & ?). by apply same_state_tick. Qed.
Lemma redrawn_id (w : W) : redrawn (drawn w) w = w.
Proof. by destruct w. Qed.

Definition unauthorized_answer (c : Ctx) : Prop :=
  status c = 401 /\ resp_body c = Some (JObj [("status"%string, JBool false); ("message"%string, JStr "Unauthorized")]).

End Behaviour.

Module AppWitness.
Import PlainHash BinaryUuid TokenCodec UserWitness AuthWitness PlainValidator ApiWitness.
#[local] Existing Instances Table.table_db Table.table_laws Db.db_repository
  Db.db_repository_laws Memory.memory_cacher Memory.memory_cacher_laws
  Memory.memory_cacher_reliable MemoryBlacklist.memory_blacklist
  MemoryBlacklist.memory_blacklist_laws ApiWitness.parsers.

(** The service of [ApiWitness] after a login, with a quota of two requests a minute. *)
Notation W := (World Memory.Cacher MemoryBlacklist.MemoryBlacklist (Db.userRepository Table.state)
                 (Plant RateLimit.Memory.MemoryLimiter)).
Definition service : W :=
  MkWorld (cache w1) (blacklist w1) (repo w1) (MkPlant (RateLimit.Memory.NewMemory 2 Minute) [] (MkMetrics ∅ ∅) [])
    (login_limiter w1) (write_limiter w1) (clock w1) (pace w1) (drawn w1).

(** Small versions of fiber's middlewares and of its matching. *)
Definition cors (cfg : CorsConfig) (next : handler W) : handler W := fun c =>
  if String.eqb (method (request c)) "OPTIONS" then Ret (c_JSON 204 JNull c)
  else next (c_Set "Access-Control-Allow-Origin" (AllowOrigins cfg) c).
Definition helmet (cfg : HelmetConfig) (next : handler W) : handler W := fun c =>
  next (c_Set "X-Frame-Options" (XFrameOptions cfg) c).
Definition recover (_ : RecoverConfig) (next : handler W) : handler W := next.
Definition matches (m pat : string) (q : Request) : bool :=
  String.eqb m (method q) &&
  (String.eqb pat (path q) || String.eqb pat "/api/v1/users/:id" && negb (String.eqb (path q) "/api/v1/users/")
                              && HasPrefix (path q) "/api/v1/users/").
Definition under (prefix : string) (q : Request) : bool := HasPrefix (path q) prefix.
Definition plain : handler W := fun c => Ret (c_JSON 200 JNull c).
Definition anonymous (m p : string) : Request := MkReq m p alice_id [] "" "10.0.0.1".

Definition the_app : Provider -> handler W :=
  App.app random auth "production" "" cors helmet recover (fun next => next) (fun c => path (request c)) (fun _ => []) (fun _ => ""%string)
    matches under (fun _ => FiberErr 404) plain plain plain.

Definition tracer : Provider := otelProvider "wapgo" true.
Definition first : Ctx * W := run (serve (the_app tracer) (anonymous "GET" "/api/v1/users/")) service.
Definition second : Ctx * W := run (serve (the_app tracer) (anonymous "GET" "/")) first.2.
Definition third : Ctx * W := run (serve (the_app tracer) (anonymous "GET" "/")) second.2.

(** Without a token 401, which the log and the counters have as 200; then the landing page;
    the third request of the minute is refused and leaves no trace. *)
Example three_requests :
  map status [first.1; second.1; third.1] = [401; 200; 429] /\
  map (fun l => (l_path l, l_status l)) (log_lines (plant third.2)) = [("/", 200); ("/api/v1/users/", 200)]%string /\
  httpRequestsTotal (counters (plant third.2)) !! ("/api/v1/users/", "GET", "200")%string = Some 1 /\
  open_spans (tracing (plant third.2)) = Some [] /\ started (tracing (plant third.2)) = 2%nat.
Proof. split_and!; vm_compute; reflexivity. Qed.

Lemma recover_law cfg (next : handler W) c : recover cfg next c = next c.
Proof. reflexivity. Qed.
Lemma helmet_law cfg (next : handler W) c : exists c', dressed c c' /\ helmet cfg next c = next c'.
Proof. eexists. split; [| reflexivity]. by split_and!. Qed.
Lemma cors_law cfg (next : handler W) c : method (request c) <> "OPTIONS"%string ->
  exists c', dressed c c' /\ cors cfg next c = next c'.
Proof. intros H. unfold cors. destruct (String.eqb_spec (method (request c)) "OPTIONS"); [done |].
  eexists. split; [| reflexivity]. by split_and!.
Qed.
Lemma plain_aside : asides plain.
Proof. by intros c g. Qed.


End AppWitness.
