(* ===== verification/ApiDocs.v ===== *)
(** The API document the service publishes under /docs (docs/docs.go): its operations and
    schemas as JSON, and what they mean.

    The document is generated (by swag, from annotations), but it is what the program
    registers and serves; [ApiDocsProps] compares it with what the routes do. A schema
    means what Swagger 2.0 says: the part of it the document uses. *)

From stdpp Require Import base list strings.
From Stdlib Require Import ZArith Lia Ascii String.
From S2P Require Import Prelude GoStrings Json Validator.

(** [swag.Spec], the fields the document's template shows. *)
Record Spec : Type := MkSpec {
  s_Version : string; s_Host : string; s_BasePath : string; s_Schemes : list string; s_Title : string;
  s_Description : string; s_InfoInstanceName : string
}.

Definition SwaggerInfo : Spec :=
  MkSpec "1.0.0" "" "/api/v1" ["http"; "https"] "wapgo API"
    "Web API Platform for Go — production-ready microservice boilerplate." "swagger".

(** ** The operations *)

(** [GET /health]. *)
Definition get_health : json :=
  JObj [
    ("description", JStr "Returns status of all downstream dependencies (DB, Redis, Kafka, RabbitMQ).");
    ("produces", JArr [JStr "application/json"]);
    ("tags", JArr [JStr "system"]);
    ("summary", JStr "Health check");
    ("responses", JObj [
      ("200", JObj [
        ("description", JStr "OK");
        ("schema", JObj [("type", JStr "object"); ("additionalProperties", JBool true)])]);
      ("503", JObj [
        ("description", JStr "Service Unavailable");
        ("schema", JObj [("type", JStr "object"); ("additionalProperties", JBool true)])])])].

(** [GET /users]. *)
Definition get_users : json :=
  JObj [
    ("produces", JArr [JStr "application/json"]);
    ("tags", JArr [JStr "users"]);
    ("summary", JStr "List all users");
    ("responses", JObj [
      ("200", JObj [
        ("description", JStr "OK");
        ("schema", JObj [
          ("allOf", JArr [JObj [
              ("$ref", JStr "#/definitions/github_com_abdullahPrasetio_wapgo_pkg_response.Response")]; JObj [
              ("type", JStr "object");
              ("properties", JObj [
                ("data", JObj [
                  ("type", JStr "array");
                  ("items", JObj [
                    ("$ref", JStr "#/definitions/github_com_abdullahPrasetio_wapgo_internal_domain_entity.User")])])])]])])]);
      ("500", JObj [
        ("description", JStr "Internal Server Error");
        ("schema", JObj [
          ("$ref", JStr "#/definitions/github_com_abdullahPrasetio_wapgo_pkg_response.ErrorResponse")])])])].

(** [POST /users]. *)
Definition post_users : json :=
  JObj [
    ("consumes", JArr [JStr "application/json"]);
    ("produces", JArr [JStr "application/json"]);
    ("tags", JArr [JStr "users"]);
    ("summary", JStr "Create a new user");
    ("parameters", JArr [JObj [
        ("description", JStr "User payload");
        ("name", JStr "body");
        ("in", JStr "body");
        ("required", JBool true);
        ("schema", JObj [
          ("$ref", JStr "#/definitions/github_com_abdullahPrasetio_wapgo_internal_usecase.CreateUserRequest")])]]);
    ("responses", JObj [
      ("201", JObj [
        ("description", JStr "Created");
        ("schema", JObj [
          ("allOf", JArr [JObj [
              ("$ref", JStr "#/definitions/github_com_abdullahPrasetio_wapgo_pkg_response.Response")]; JObj [
              ("type", JStr "object");
              ("properties", JObj [
                ("data", JObj [
                  ("$ref", JStr "#/definitions/github_com_abdullahPrasetio_wapgo_internal_domain_entity.User")])])]])])]);
      ("400", JObj [
        ("description", JStr "Bad Request");
        ("schema", JObj [
          ("$ref", JStr "#/definitions/github_com_abdullahPrasetio_wapgo_pkg_response.ErrorResponse")])]);
      ("409", JObj [
        ("description", JStr "Conflict");
        ("schema", JObj [
          ("$ref", JStr "#/definitions/github_com_abdullahPrasetio_wapgo_pkg_response.ErrorResponse")])]);
      ("500", JObj [
        ("description", JStr "Internal Server Error");
        ("schema", JObj [
          ("$ref", JStr "#/definitions/github_com_abdullahPrasetio_wapgo_pkg_response.ErrorResponse")])])])].

(** [GET /users/{id}]. *)
Definition get_user : json :=
  JObj [
    ("produces", JArr [JStr "application/json"]);
    ("tags", JArr [JStr "users"]);
    ("summary", JStr "Get user by ID");
    ("parameters", JArr [JObj [
        ("type", JStr "string");
        ("description", JStr "User UUID");
        ("name", JStr "id");
        ("in", JStr "path");
        ("required", JBool true)]]);
    ("responses", JObj [
      ("200", JObj [
        ("description", JStr "OK");
        ("schema", JObj [
          ("allOf", JArr [JObj [
              ("$ref", JStr "#/definitions/github_com_abdullahPrasetio_wapgo_pkg_response.Response")]; JObj [
              ("type", JStr "object");
              ("properties", JObj [
                ("data", JObj [
                  ("$ref", JStr "#/definitions/github_com_abdullahPrasetio_wapgo_internal_domain_entity.User")])])]])])]);
      ("400", JObj [
        ("description", JStr "Bad Request");
        ("schema", JObj [
          ("$ref", JStr "#/definitions/github_com_abdullahPrasetio_wapgo_pkg_response.ErrorResponse")])]);
      ("404", JObj [
        ("description", JStr "Not Found");
        ("schema", JObj [
          ("$ref", JStr "#/definitions/github_com_abdullahPrasetio_wapgo_pkg_response.ErrorResponse")])]);
      ("500", JObj [
        ("description", JStr "Internal Server Error");
        ("schema", JObj [
          ("$ref", JStr "#/definitions/github_com_abdullahPrasetio_wapgo_pkg_response.ErrorResponse")])])])].

(** [PUT /users/{id}]. *)
Definition put_user : json :=
  JObj [
    ("consumes", JArr [JStr "application/json"]);
    ("produces", JArr [JStr "application/json"]);
    ("tags", JArr [JStr "users"]);
    ("summary", JStr "Update user by ID");
    ("parameters", JArr [JObj [
        ("type", JStr "string");
        ("description", JStr "User UUID");
        ("name", JStr "id");
        ("in", JStr "path");
        ("required", JBool true)]; JObj [
        ("description", JStr "Update payload");
        ("name", JStr "body");
        ("in", JStr "body");
        ("required", JBool true);
        ("schema", JObj [
          ("$ref", JStr "#/definitions/github_com_abdullahPrasetio_wapgo_internal_usecase.UpdateUserRequest")])]]);
    ("responses", JObj [
      ("200", JObj [
        ("description", JStr "OK");
        ("schema", JObj [
          ("allOf", JArr [JObj [
              ("$ref", JStr "#/definitions/github_com_abdullahPrasetio_wapgo_pkg_response.Response")]; JObj [
              ("type", JStr "object");
              ("properties", JObj [
                ("data", JObj [
                  ("$ref", JStr "#/definitions/github_com_abdullahPrasetio_wapgo_internal_domain_entity.User")])])]])])]);
      ("400", JObj [
        ("description", JStr "Bad Request");
        ("schema", JObj [
          ("$ref", JStr "#/definitions/github_com_abdullahPrasetio_wapgo_pkg_response.ErrorResponse")])]);
      ("404", JObj [
        ("description", JStr "Not Found");
        ("schema", JObj [
          ("$ref", JStr "#/definitions/github_com_abdullahPrasetio_wapgo_pkg_response.ErrorResponse")])]);
      ("409", JObj [
        ("description", JStr "Conflict");
        ("schema", JObj [
          ("$ref", JStr "#/definitions/github_com_abdullahPrasetio_wapgo_pkg_response.ErrorResponse")])]);
      ("500", JObj [
        ("description", JStr "Internal Server Error");
        ("schema", JObj [
          ("$ref", JStr "#/definitions/github_com_abdullahPrasetio_wapgo_pkg_response.ErrorResponse")])])])].

(** [DELETE /users/{id}]. *)
Definition delete_user : json :=
  JObj [
    ("produces", JArr [JStr "application/json"]);
    ("tags", JArr [JStr "users"]);
    ("summary", JStr "Delete user by ID");
    ("parameters", JArr [JObj [
        ("type", JStr "string");
        ("description", JStr "User UUID");
        ("name", JStr "id");
        ("in", JStr "path");
        ("required", JBool true)]]);
    ("responses", JObj [
      ("200", JObj [
        ("description", JStr "OK");
        ("schema", JObj [
          ("$ref", JStr "#/definitions/github_com_abdullahPrasetio_wapgo_pkg_response.Response")])]);
      ("400", JObj [
        ("description", JStr "Bad Request");
        ("schema", JObj [
          ("$ref", JStr "#/definitions/github_com_abdullahPrasetio_wapgo_pkg_response.ErrorResponse")])]);
      ("404", JObj [
        ("description", JStr "Not Found");
        ("schema", JObj [
          ("$ref", JStr "#/definitions/github_com_abdullahPrasetio_wapgo_pkg_response.ErrorResponse")])]);
      ("500", JObj [
        ("description", JStr "Internal Server Error");
        ("schema", JObj [
          ("$ref", JStr "#/definitions/github_com_abdullahPrasetio_wapgo_pkg_response.ErrorResponse")])])])].

Definition User_schema : json :=
  JObj [
    ("type", JStr "object");
    ("properties", JObj [
      ("created_at", JObj [("type", JStr "string")]);
      ("email", JObj [("type", JStr "string")]);
      ("id", JObj [("type", JStr "string")]);
      ("name", JObj [("type", JStr "string")]);
      ("updated_at", JObj [("type", JStr "string")])])].

Definition CreateUserRequest_schema : json :=
  JObj [
    ("type", JStr "object");
    ("required", JArr [JStr "email"; JStr "name"; JStr "password"]);
    ("properties", JObj [
      ("email", JObj [("type", JStr "string")]);
      ("name", JObj [("type", JStr "string"); ("maxLength", JNum 100); ("minLength", JNum 2)]);
      ("password", JObj [("type", JStr "string"); ("maxLength", JNum 72); ("minLength", JNum 8)])])].

Definition UpdateUserRequest_schema : json :=
  JObj [
    ("type", JStr "object");
    ("properties", JObj [
      ("email", JObj [("type", JStr "string")]);
      ("name", JObj [("type", JStr "string"); ("maxLength", JNum 100); ("minLength", JNum 2)])])].

Definition ErrorResponse_schema : json :=
  JObj [
    ("type", JStr "object");
    ("properties", JObj [("message", JObj [("type", JStr "string")]); ("status", JObj [("type", JStr "boolean")])])].

Definition Response_schema : json :=
  JObj [
    ("type", JStr "object");
    ("properties", JObj [
      ("data", JObj []);
      ("message", JObj [("type", JStr "string")]);
      ("status", JObj [("type", JStr "boolean")])])].

Definition BearerAuth : json :=
  JObj [
    ("description", JStr "Bearer <token>");
    ("type", JStr "apiKey");
    ("name", JStr "Authorization");
    ("in", JStr "header")].

Definition doc_paths : list (string * json) :=
  [
     ("/health", JObj [("get", get_health)]);
     ("/users", JObj [("get", get_users); ("post", post_users)]);
     ("/users/{id}", JObj [("get", get_user); ("put", put_user); ("delete", delete_user)])].

Definition doc_definitions : list (string * json) :=
  [("github_com_abdullahPrasetio_wapgo_internal_domain_entity.User", User_schema);
   ("github_com_abdullahPrasetio_wapgo_internal_usecase.CreateUserRequest", CreateUserRequest_schema);
   ("github_com_abdullahPrasetio_wapgo_internal_usecase.UpdateUserRequest", UpdateUserRequest_schema);
   ("github_com_abdullahPrasetio_wapgo_pkg_response.ErrorResponse", ErrorResponse_schema);
   ("github_com_abdullahPrasetio_wapgo_pkg_response.Response", Response_schema)].

Definition docTemplate (i : Spec) : json :=
  JObj [
    ("schemes", JArr (map JStr (s_Schemes i)));
    ("swagger", JStr "2.0");
    ("info", JObj [
      ("description", JStr (s_Description i));
      ("title", JStr (s_Title i));
      ("contact", JObj [("name", JStr "wapgo"); ("url", JStr "https://github.com/abdullahPrasetio/wapgo")]);
      ("license", JObj [("name", JStr "MIT"); ("url", JStr "https://opensource.org/licenses/MIT")]);
      ("version", JStr (s_Version i))]);
    ("host", JStr (s_Host i));
    ("basePath", JStr (s_BasePath i));
    ("paths", JObj doc_paths);
    ("definitions", JObj doc_definitions);
    ("securityDefinitions", JObj [("BearerAuth", BearerAuth)])].

(** ** What a schema means *)

Definition get (name : string) (v : json) : option json :=
  match v with JObj fs => Json.field name fs | _ => None end.

Definition has_type (t : string) (v : json) : bool :=
  match v with
  | JObj _ => String.eqb t "object" | JArr _ => String.eqb t "array" | JStr _ => String.eqb t "string"
  | JBool _ => String.eqb t "boolean" | JNum _ => String.eqb t "integer" || String.eqb t "number"
  | JNull => String.eqb t "null"
  end.

Lemma forallb_mono {A} (p q : A -> bool) l :
  (forall x, p x = true -> q x = true) -> forallb p l = true -> forallb q l = true.
Proof. intros Hpq. rewrite !forallb_forall. auto. Qed.

Section Schema.
Context `{ValidatorLib} (defs : list (string * json)).

Definition resolve (r : string) : option json := Json.field (TrimPrefix r "#/definitions/") defs.

(** Lengths count characters; a bound that is absent bounds nothing. *)
Definition length_ok (schema : json) (s : string) : bool :=
  match get "minLength" schema with Some (JNum n) => n <=? rune_count s | _ => true end &&
  match get "maxLength" schema with Some (JNum n) => rune_count s <=? n | _ => true end.

(** The fields [required] names are there; properties bind the fields that are. *)
Definition required_ok (schema : json) (fs : list (string * json)) : bool :=
  match get "required" schema with
  | Some (JArr names) =>
      forallb (fun n => match n with JStr n => bool_decide (is_Some (Json.field n fs)) | _ => true end) names
  | _ => true
  end.

Definition properties_ok (check : json -> json -> bool) (schema : json) (fs : list (string * json)) : bool :=
  match get "properties" schema with
  | Some (JObj ps) => forallb (fun '(n, p) => match Json.field n fs with Some v => check p v | None => true end) ps
  | _ => true
  end.

(** [fuel] bounds the references followed and the nesting. *)
Fixpoint conforms (fuel : nat) (schema v : json) : bool :=
  match fuel with
  | O => false
  | S fuel =>
      match get "$ref" schema with
      | Some (JStr r) => match resolve r with Some schema => conforms fuel schema v | None => false end
      | _ =>
          match get "type" schema with Some (JStr t) => has_type t v | _ => true end &&
          match get "allOf" schema with Some (JArr l) => forallb (fun s => conforms fuel s v) l | _ => true end &&
          match v with
          | JObj fs => required_ok schema fs && properties_ok (conforms fuel) schema fs
          | JArr vs => match get "items" schema with Some s => forallb (conforms fuel s) vs | None => true end
          | JStr s => length_ok schema s
          | _ => true
          end
      end
  end.

(** More fuel accepts more: a value that conforms does with any larger bound. *)
Lemma conforms_more fuel fuel' schema v :
  (fuel <= fuel')%nat -> conforms fuel schema v = true -> conforms fuel' schema v = true.
Proof.
  revert fuel' schema v. induction fuel as [| fuel IH]; intros fuel' schema v Hle Hc; [done |].
  destruct fuel' as [| fuel']; [lia |]. assert (Hle' : (fuel <= fuel')%nat) by lia. cbn [conforms] in *.
  assert (Hrest : match get "type" schema with Some (JStr t) => has_type t v | _ => true end &&
    match get "allOf" schema with Some (JArr l) => forallb (fun s => conforms fuel s v) l | _ => true end &&
    match v with
    | JObj fs => required_ok schema fs && properties_ok (conforms fuel) schema fs
    | JArr vs => match get "items" schema with Some s => forallb (conforms fuel s) vs | None => true end
    | JStr s => length_ok schema s | _ => true end = true ->
    match get "type" schema with Some (JStr t) => has_type t v | _ => true end &&
    match get "allOf" schema with Some (JArr l) => forallb (fun s => conforms fuel' s v) l | _ => true end &&
    match v with
    | JObj fs => required_ok schema fs && properties_ok (conforms fuel') schema fs
    | JArr vs => match get "items" schema with Some s => forallb (conforms fuel' s) vs | None => true end
    | JStr s => length_ok schema s | _ => true end = true).
  { intros [[Ht Ha]%andb_true_iff Hv]%andb_true_iff. rewrite Ht, !andb_true_iff. split_and!; [done | |].
    - destruct (get "allOf" schema) as [[] |]; try done. eapply forallb_mono; [| exact Ha]. eauto.
    - destruct v as [| | | | vs | fs]; try done.
      + destruct (get "items" schema); [| done]. eapply forallb_mono; [| exact Hv]. eauto.
      + apply andb_true_iff in Hv as [-> Hp]. unfold properties_ok in *.
        destruct (get "properties" schema) as [[] |]; try done. eapply forallb_mono; [| exact Hp].
        intros [n p]. destruct (Json.field n fs); eauto. }
  destruct (get "$ref" schema) as [[] |]; auto. destruct (resolve s); [eauto | done].
Qed.
End Schema.

(** ** What the document says of an operation *)

Definition definitions (doc : json) : list (string * json) :=
  match get "definitions" doc with Some (JObj defs) => defs | _ => [] end.

Definition operation (doc : json) (path method : string) : option json :=
  match get "paths" doc with
  | Some paths => match get path paths with Some ops => get method ops | None => None end
  | None => None
  end.

(** The schema of the answer with a status; nothing when the status is not documented. *)
Definition response_schema (doc : json) (path method : string) (status : Z) : option json :=
  match operation doc path method with
  | Some op =>
      match get "responses" op with
      | Some rs => match get (Itoa status) rs with Some r => get "schema" r | None => None end
      | None => None
      end
  | None => None
  end.

(** The statuses it lists. *)
Definition documented_statuses (doc : json) (path method : string) : list string :=
  match operation doc path method with
  | Some op => match get "responses" op with Some (JObj rs) => map fst rs | _ => [] end
  | None => []
  end.

(** The method and path of every operation, with the base path. *)
Definition documented_operations (doc : json) : list (string * string) :=
  match get "basePath" doc, get "paths" doc with
  | Some (JStr base), Some (JObj ps) =>
      flat_map (fun '(p, ops) => match ops with JObj ops => map (fun o => (o.1, (base ++ p)%string)) ops | _ => [] end) ps
  | _, _ => []
  end.

(** An answer is documented when its status is and its body conforms to the status's schema. *)
Definition fuel : nat := 8.
Definition documented `{ValidatorLib} (doc : json) (path method : string) (status : Z) (body : json) : bool :=
  match response_schema doc path method status with
  | Some schema => conforms (definitions doc) fuel schema body
  | None => false
  end.

Definition the_doc : json := docTemplate SwaggerInfo.
