(* ===== verification/ApiDocsProps.v ===== *)
(** The API document against the API: every answer of the user routes is documented and
    conforms to its schema, but for those of the guards; the requests the document
    allows are those the validator takes; and which routes it knows. *)

From stdpp Require Import base gmap strings list fin_maps.
From Stdlib Require Import ZArith Lia Ascii String.
From S2P Require Import Prelude Prog GoStrings Json Cache Blacklist RateLimit Jwt Pagination User World UserUseCase AuthUseCase Http Middleware Validator Handlers Health Routes Envelopes ApiWitness ApiDocs.

(** ** Errors from outside are not the use case's *)

(** The sentinels [mapError] looks for. *)
Definition foreign (e : error) : Prop :=
  errors_is e ErrNotFound = false /\ errors_is e ErrEmailConflict = false /\ errors_is e ErrInvalidUUID = false.

Definition foreign_result {A} (r : result A) : Prop := match r with Err e => foreign e | Ok _ => True end.
Definition foreign_option (r : option error) : Prop := match r with Some e => foreign e | None => True end.

(** The package of the use cases declares these sentinels, and repositories and bcrypt,
    which do not import it, never return them. *)
Class ForeignErrors (U : Type) `{UserRepository U} : Prop := {
  FindByID_foreign : forall i d, foreign_result (FindByID i d).1;
  ExistsByEmail_foreign : forall e d, foreign_result (ExistsByEmail e d).1;
  Create_foreign : forall f u d, foreign_option (Create f u d).1.1;
  Update_foreign : forall u d, foreign_option (Update u d).1.1;
  Delete_foreign : forall i d, foreign_option (Delete i d).1
}.
Class ForeignBcrypt `{BcryptLib} : Prop := {
  Generate_foreign : forall n pw cost, foreign_result (GenerateFromPassword n pw cost)
}.

Lemma foreign_errorf ctx e : foreign e -> foreign (errorf ctx e).
Proof. by unfold foreign; rewrite !errors_is_wrap. Qed.

(** The gorm repository wraps what gorm answers. *)
Class ForeignGorm (D : Type) `{GormDB D} : Prop := {
  First_foreign : forall i d, foreign_result (First_by_id i d).1;
  Count_foreign : forall e d, foreign_result (Count_by_email e d).1;
  Insert_foreign : forall u d, foreign_option (Insert u d).1.1;
  Save_foreign : forall u d, foreign_option (Save u d).1.1;
  DeleteBy_foreign : forall i d, foreign_option (Delete_by_id i d).1
}.

#[local] Existing Instance Db.db_repository.
#[export] Instance db_foreign {D} `{ForeignGorm D} : ForeignErrors (Db.userRepository D).
Proof.
  constructor.
  - intros i d. cbn. unfold Db.FindByID. pose proof (First_foreign i (Db.db d)) as Hf.
    destruct (First_by_id i (Db.db d)) as [[u | e] d']; cbn in *; [done |].
    destruct (errors_is e ErrRecordNotFound); [done | by apply foreign_errorf].
  - intros e d. cbn. unfold Db.ExistsByEmail. pose proof (Count_foreign e (Db.db d)) as Hf.
    destruct (Count_by_email e (Db.db d)) as [[n | err] d']; cbn in *; [done | by apply foreign_errorf].
  - intros f u d. cbn. unfold Db.Create. pose proof (Insert_foreign (BeforeCreate f u) (Db.db d)) as Hf.
    destruct (Insert _ (Db.db d)) as [[[e |] u'] d']; cbn in *; [by apply foreign_errorf | done].
  - intros u d. cbn. unfold Db.Update. pose proof (Save_foreign u (Db.db d)) as Hf.
    destruct (Save u (Db.db d)) as [[[e |] u'] d']; cbn in *; [by apply foreign_errorf | done].
  - intros i d. cbn. unfold Db.Delete. pose proof (DeleteBy_foreign i (Db.db d)) as Hf.
    destruct (Delete_by_id i (Db.db d)) as [[e |] d']; cbn in *; [by apply foreign_errorf | done].
Qed.

(** ** The errors of the user operations *)

Section UserErrors.
Context {jwt : JwtLib} {bcrypt : BcryptLib} {uuid : UuidLib}.
Context {C B U G : Type} `{!UserRepository U, !ForeignErrors U, !ForeignBcrypt}.
Notation W := (World C B U G).

(** The sentinels an operation's error can be. *)
Definition only (ss : list sentinel) (e : error) : Prop :=
  forall s, s ∈ [ErrNotFound; ErrEmailConflict; ErrInvalidUUID] -> errors_is e s = true -> s ∈ ss.

Lemma foreign_only ss e : foreign e -> only ss e.
Proof.
  intros (H1 & H2 & H3) s Hs Hi. rewrite !elem_of_cons, elem_of_nil in Hs.
  destruct Hs as [-> | [-> | [-> | []]]]; congruence.
Qed.
Lemma sentinel_only ss s : s ∈ ss -> only ss (Sentinel s).
Proof. intros Hs s' _ Hi. cbn in Hi. apply bool_decide_eq_true in Hi. by subst. Qed.

Definition only_result {A} (ss : list sentinel) (r : result A) : Prop := match r with Err e => only ss e | Ok _ => True end.

Lemma answers_repo {X} (f : U -> X * U) (P : X -> Prop) :
  (forall u, P (f u).1) -> answers (W := W) (on_repo f) P.
Proof. intros HP w. unfold on_repo. rewrite run_act. unfold lift. specialize (HP (repo w)). by destruct (f (repo w)). Qed.

Create HintDb foreign.
Hint Resolve foreign_only foreign_errorf : foreign.
Hint Extern 1 (only _ (Sentinel _)) => apply sentinel_only; repeat constructor : foreign.

Ltac use_case := repeat
  first [ match goal with
          | |- answers (bind (on_repo (FindByID _)) _) _ =>
              eapply answers_bind_post; [apply (answers_repo _ foreign_result), FindByID_foreign |]; intros [?|?] ?
          | |- answers (bind (on_repo (ExistsByEmail _)) _) _ =>
              eapply answers_bind_post; [apply (answers_repo _ foreign_result), ExistsByEmail_foreign |]; intros [[]|?] ?
          | |- answers (bind (on_repo (Create _ _)) _) _ =>
              eapply answers_bind_post; [apply (answers_repo _ (fun r => foreign_option r.1)), Create_foreign |]; intros [[?|] ?] ?
          | |- answers (bind (on_repo (Update _)) _) _ =>
              eapply answers_bind_post; [apply (answers_repo _ (fun r => foreign_option r.1)), Update_foreign |]; intros [[?|] ?] ?
          | |- answers (bind (on_repo (Delete _)) _) _ =>
              eapply answers_bind_post; [apply (answers_repo _ foreign_option), Delete_foreign |]; intros [?|] ?
          | |- answers (bind draw _) _ => apply answers_bind; intros ?
          | |- answers (if ?b then _ else _) _ => destruct b
          end
        | apply answers_ret; cbn in *; try exact I; eauto with foreign; fail ].

Lemma GetUser_errors id : answers (W := W) (GetUser id) (only_result [ErrNotFound; ErrInvalidUUID]).
Proof. unfold GetUser, parseUUID. destruct (uuid_Parse id); use_case. Qed.

Lemma CreateUser_errors req : answers (W := W) (CreateUser req) (only_result [ErrEmailConflict]).
Proof.
  unfold CreateUser. use_case.
  match goal with |- context [GenerateFromPassword ?n ?p ?k] =>
    pose proof (Generate_foreign n p k) as Hg; destruct (GenerateFromPassword n p k) end;
  cbn in Hg; use_case.
Qed.

Lemma UpdateUser_errors id req :
  answers (W := W) (UpdateUser id req) (only_result [ErrNotFound; ErrEmailConflict; ErrInvalidUUID]).
Proof.
  unfold UpdateUser, parseUUID. destruct (uuid_Parse id); use_case.
  eapply (answers_bind_post _ _ (only_result [ErrNotFound; ErrEmailConflict; ErrInvalidUUID])); [use_case |].
  intros [?|?] ?; use_case.
Qed.

Lemma DeleteUser_errors id :
  answers (W := W) (DeleteUser id) (fun r => match r with Some e => only [ErrNotFound; ErrInvalidUUID] e | None => True end).
Proof. unfold DeleteUser, parseUUID. destruct (uuid_Parse id); use_case. Qed.
End UserErrors.

(** ** The answers *)

Section Answers.
Context {jwt : JwtLib} {bcrypt : BcryptLib} {uuid : UuidLib} {val : ValidatorLib} {prs : Parsers}.
Context {C B U G : Type} `{!Cacher C, !Blacklist B, !UserRepository U, !ForeignErrors U, !ForeignBcrypt}.
Context (a : authUseCase).
Notation W := (World C B U G).
(** encoding/json writes a time as a string. *)
Context (time_is_string : forall t, exists s, time_json t = JStr s).

Definition doc_answer (path method : string) (c : Ctx) : Prop :=
  exists body, resp_body c = Some body /\ documented the_doc path method (status c) body = true.

Lemma user_conforms u n : (2 <= n)%nat -> conforms doc_definitions n User_schema (user_json u) = true.
Proof.
  intros Hn. apply (conforms_more _ 2); [done |]. unfold user_json.
  destruct (time_is_string (CreatedAt u)) as [s1 ->], (time_is_string (UpdatedAt u)) as [s2 ->]. reflexivity.
Qed.

Definition user_ref : json := JObj [("$ref", JStr "#/definitions/github_com_abdullahPrasetio_wapgo_internal_domain_entity.User")].

Lemma ref_conforms u n : (3 <= n)%nat -> conforms doc_definitions n user_ref (user_json u) = true.
Proof.
  intros Hn. destruct n as [| n]; [lia |].
  change (conforms doc_definitions (S n) user_ref (user_json u)) with (conforms doc_definitions n User_schema (user_json u)).
  apply user_conforms. lia.
Qed.

(** A success whose data conform to a schema of their own. *)
Definition data_schema (s : json) : json :=
  JObj [("allOf", JArr [
    JObj [("$ref", JStr "#/definitions/github_com_abdullahPrasetio_wapgo_pkg_response.Response")];
    JObj [("type", JStr "object"); ("properties", JObj [("data", s)])]])].

Lemma data_conforms n s d b m rest :
  (3 <= n)%nat -> conforms doc_definitions n s d = true ->
  conforms doc_definitions (S (S n)) (data_schema s) (JObj ([("status", JBool b); ("message", JStr m); ("data", d)] ++ rest)) = true.
Proof.
  intros Hn Hd. set (v := JObj _).
  assert (Hr : conforms doc_definitions (S n) (JObj [("$ref", JStr "#/definitions/github_com_abdullahPrasetio_wapgo_pkg_response.Response")]) v = true).
  { apply (conforms_more _ 3); [lia |]. subst v. clear. by destruct d. }
  change ((conforms doc_definitions (S n) (JObj [("$ref", JStr "#/definitions/github_com_abdullahPrasetio_wapgo_pkg_response.Response")]) v
    && ((conforms doc_definitions n s d && true) && true)) && true = true).
  by rewrite Hr, Hd.
Qed.

Definition doc_error (path method : string) (st : Z) : Prop :=
  exists s, response_schema the_doc path method st = Some s /\
    s = JObj [("$ref", JStr "#/definitions/github_com_abdullahPrasetio_wapgo_pkg_response.ErrorResponse")].

Lemma doc_error_answer path method st code m c :
  doc_error path method st -> doc_answer path method (Response.Error st code m c).2.
Proof.
  intros (s & Hs & ->). eexists. split; [reflexivity |]. unfold documented. cbn [status Response.Error c_JSON snd].
  rewrite Hs. reflexivity.
Qed.

Lemma doc_user path method st m u c :
  response_schema the_doc path method st = Some (data_schema user_ref) ->
  doc_answer path method (c_JSON st (Response.envelope true m (Some (user_json u))) c).2.
Proof.
  intros Hs. eexists. split; [reflexivity |]. unfold documented. cbn [status c_JSON snd]. rewrite Hs.
  apply (data_conforms 6 user_ref (user_json u) true m []); [lia | by apply ref_conforms; lia].
Qed.

Lemma doc_page us p s t c :
  doc_answer "/users" "get" (Response.Paginated "users retrieved" (Some (JArr (map user_json us))) p s t c).2.
Proof.
  assert (Hs : response_schema the_doc "/users" "get" 200 =
    Some (data_schema (JObj [("type", JStr "array"); ("items", user_ref)]))) by (vm_compute; reflexivity).
  eexists. split; [reflexivity |]. unfold documented. cbn [status c_JSON snd Response.Paginated]. rewrite Hs. cbn [app].
  apply (data_conforms 6 (JObj [("type", JStr "array"); ("items", user_ref)]) (JArr (map user_json us)) true "users retrieved"
           [("pagination", Response.meta_json (Paginated_meta p s t))]); [lia |].
  change (forallb (conforms doc_definitions 5 user_ref) (map user_json us) = true).
  apply forallb_forall. intros v (u & <- & _)%in_map_iff. apply ref_conforms. lia.
Qed.

(** *** The handlers *)

Definition sentinel_status (s : sentinel) : Z :=
  match s with ErrNotFound => 404 | ErrEmailConflict => 409 | ErrInvalidUUID => 400 | _ => 500 end.

Definition doc_out (path method : string) (out : option error * Ctx) : Prop :=
  out.1 = None /\ doc_answer path method out.2.

Lemma doc_out_error path method st code m c : doc_error path method st -> doc_out path method (Response.Error st code m c).
Proof. intros Hd. split; [done | by apply doc_error_answer]. Qed.

Lemma doc_mapError path method ss e c :
  only ss e -> Forall (fun s => doc_error path method (sentinel_status s)) ss -> doc_error path method 500 ->
  doc_out path method (user_mapError e c).
Proof.
  intros Ho Hs H5. rewrite Forall_forall in Hs. unfold user_mapError, only in *.
  destruct (errors_is e ErrNotFound) eqn:E1; [apply doc_out_error; apply (Hs ErrNotFound), Ho; [repeat constructor | done] |].
  destruct (errors_is e ErrEmailConflict) eqn:E2; [apply doc_out_error; apply (Hs ErrEmailConflict), Ho; [repeat constructor | done] |].
  destruct (errors_is e ErrInvalidUUID) eqn:E3; [apply doc_out_error; apply (Hs ErrInvalidUUID), Ho; [repeat constructor | done] |].
  by apply doc_out_error.
Qed.

Definition documents (path method : string) (h : handler W) : Prop := forall c, answers (h c) (doc_out path method).

Ltac status := eexists; split; [vm_compute; reflexivity | reflexivity].
Ltac statuses := repeat (apply Forall_cons; split; [status |]); first [by apply Forall_nil | status].

Lemma documents_body {A} path method (parsed : result A) fields c (k : A -> prog W (option error * Ctx)) :
  doc_error path method 400 -> (forall req, answers (k req) (doc_out path method)) ->
  answers (with_body parsed fields c k) (doc_out path method).
Proof.
  intros H4 Hk. unfold with_body. destruct parsed as [req | e]; [| by apply answers_ret, doc_out_error].
  destruct (Validate (fields req)); [by apply answers_ret, doc_out_error | apply Hk].
Qed.

Lemma list_documents : documents "/users" "get" handle_ListUsers.
Proof.
  intros c. unfold handle_ListUsers. cbv zeta. apply answers_bind. intros [[us n] | e]; apply answers_ret.
  - split; [done | apply doc_page].
  - apply doc_out_error. statuses.
Qed.

Lemma get_documents : documents "/users/{id}" "get" handle_GetUser.
Proof.
  intros c. unfold handle_GetUser. eapply answers_bind_post; [apply GetUser_errors |]. intros [u | e] He; apply answers_ret.
  - split; [done | apply doc_user; vm_compute; reflexivity].
  - eapply doc_mapError; [exact He | statuses..].
Qed.

Lemma create_documents : documents "/users" "post" handle_CreateUser.
Proof.
  intros c. unfold handle_CreateUser. apply documents_body; [statuses |]. intros req.
  eapply answers_bind_post; [apply CreateUser_errors |]. intros [u | e] He; apply answers_ret.
  - split; [done | apply doc_user; vm_compute; reflexivity].
  - eapply doc_mapError; [exact He | statuses..].
Qed.

Lemma update_documents : documents "/users/{id}" "put" handle_UpdateUser.
Proof.
  intros c. unfold handle_UpdateUser. apply documents_body; [statuses |]. intros req.
  eapply answers_bind_post; [apply UpdateUser_errors |]. intros [u | e] He; apply answers_ret.
  - split; [done | apply doc_user; vm_compute; reflexivity].
  - eapply doc_mapError; [exact He | statuses..].
Qed.

Lemma delete_documents : documents "/users/{id}" "delete" handle_DeleteUser.
Proof.
  intros c. unfold handle_DeleteUser. eapply answers_bind_post; [apply DeleteUser_errors |]. intros [e |] He; apply answers_ret.
  - eapply doc_mapError; [exact He | statuses..].
  - split; [done |]. eexists. split; [reflexivity | vm_compute; reflexivity].
Qed.

(** *** The routes *)

(** What a route may end with: a documented answer, or one of its guards'. *)
Definition guarded_out (path method : string) (out : option error * Ctx) : Prop :=
  match out with
  | (None, c) => doc_answer path method c \/ status c = 429
  | (Some e, _) => e = ErrUnauthorized \/ e = ErrForbidden
  end.
Definition guards (path method : string) (h : handler W) : Prop := forall c, answers (h c) (guarded_out path method).

Lemma guards_handler path method h : documents path method h -> guards path method h.
Proof. intros Hd c w. specialize (Hd c w). destruct (run (h c) w) as [[[e |] c'] w']; destruct Hd; [done | by left]. Qed.
Lemma guards_Middleware path method cfg next : guards path method next -> guards path method (Middleware cfg next).
Proof. intros Hn c. unfold Middleware. settle; first [apply Hn | by left]. Qed.
Lemma guards_RequireRole path method roles next : guards path method next -> guards path method (RequireRole roles next).
Proof. intros Hn c. unfold RequireRole. settle; first [apply Hn | by left | by right]. Qed.
Lemma guards_writeLimiter path method next : guards path method next -> guards path method (writeLimiter next).
Proof. intros Hn c. unfold writeLimiter, RateLimiterWith. settle; first [apply Hn | by right]. Qed.

(** fiber's spelling of a documented path; a slash at the end makes no difference to it. *)
Definition fiber_path (p : string) : string := ReplaceAll (ReplaceAll p "{" ":") "}" "".
Definition trim_slash (p : string) : string := if String.eqb p "/" then p else TrimSuffix p "/".

(** The operation that documents a route. *)
Definition describes (path method : string) (r : route (C := C) (B := B) (U := U) (G := G)) : Prop :=
  ToLower (r_method r) = method /\ trim_slash (r_path r) = fiber_path (s_BasePath SwaggerInfo ++ path) /\
  is_Some (operation the_doc path method).

Definition guard_answer (path method : string) (st : Z) : Prop :=
  (st = 401 \/ st = 403 \/ st = 429) /\ response_schema the_doc path method st = None.

Lemma guards_serve path method (h : handler W) q (w : W) :
  guards path method h -> Forall (fun st => response_schema the_doc path method st = None) [401; 403; 429] ->
  let c := (run (serve h q) w).1 in doc_answer path method c \/ guard_answer path method (status c).
Proof.
  rewrite !Forall_cons. intros Hh (H1 & H2 & H3 & _). unfold serve. rewrite run_bind. specialize (Hh (fresh_ctx q) w).
  destruct (run (h (fresh_ctx q)) w) as [[[e |] c] w']; cbn in Hh |- *.
  - right. destruct Hh as [-> | ->]; cbn; (split; [| done]); auto.
  - destruct Hh as [Hd | Hs]; [by left | right]. rewrite Hs. split; [auto | done].
Qed.

(** C23. The document tells the truth about the user routes. Each has an operation under its method
    and path, and whatever is sent to it, in whatever state, the answer has one of the
    operation's statuses and a body that conforms to the schema of that status, unless one of
    the route's guards answered: 401, 403 or 429, which the document does not mention. *)
Theorem user_routes_documented :
  Forall (fun r => exists path method, describes path method r /\
    forall q (w : W), let c := (run (serve (r_handler r) q) w).1 in
      doc_answer path method c \/ guard_answer path method (status c)) (RegisterUserRoutes a).
Proof.
  assert (Hs : forall p m r (h : handler W), documents p m h -> describes p m r ->
    (guards p m h -> guards p m (r_handler r)) -> Forall (fun st => response_schema the_doc p m st = None) [401; 403; 429] ->
    exists p m, describes p m r /\ forall q (w : W), let c := (run (serve (r_handler r) q) w).1 in
      doc_answer p m c \/ guard_answer p m (Http.status c)).
  { intros p m r h Hd Hr Hg Hn. exists p, m. split; [done |]. intros q w. by apply guards_serve, Hn; apply Hg, guards_handler. }
  unfold RegisterUserRoutes, delete_chain. cbv zeta.
  repeat (apply Forall_cons; split); [eapply (Hs _ _ _ _ list_documents) | eapply (Hs _ _ _ _ get_documents)
    | eapply (Hs _ _ _ _ create_documents) | eapply (Hs _ _ _ _ update_documents) | eapply (Hs _ _ _ _ delete_documents)
    | by apply Forall_nil];
  first [ by split_and!; vm_compute; eauto
        | intros Hg; repeat first [exact Hg | apply guards_Middleware | apply guards_writeLimiter | apply guards_RequireRole]
        | repeat (apply Forall_cons; split; [vm_compute; reflexivity |]); by apply Forall_nil ].
Qed.
End Answers.

(** ** The requests *)

Section Requests.
Context {val : ValidatorLib} {vall : ValidatorLaws}.

(** The bodies a client sends for the request structs; an update leaves out what it does not change. *)
Definition create_json (r : CreateUserRequest) : json :=
  JObj [("name", JStr (cName r)); ("email", JStr (cEmail r)); ("password", JStr (cPassword r))].
Definition update_json (r : UpdateUserRequest) : json :=
  JObj ((if String.eqb (uName r) "" then [] else [("name", JStr (uName r))])
        ++ (if String.eqb (uEmail r) "" then [] else [("email", JStr (uEmail r))])).

Definition within_bounds (lo hi : Z) (s : string) : Prop := lo <= rune_count s <= hi.

Lemma conforms_create r :
  conforms doc_definitions fuel CreateUserRequest_schema (create_json r) = true <->
  within_bounds 2 100 (cName r) /\ within_bounds 8 72 (cPassword r).
Proof.
  unfold within_bounds.
  change (conforms _ fuel CreateUserRequest_schema (create_json r)) with
    (true && ((2 <=? rune_count (cName r)) && (rune_count (cName r) <=? 100) &&
      ((8 <=? rune_count (cPassword r)) && (rune_count (cPassword r) <=? 72) && true))).
  rewrite !andb_true_iff, !Z.leb_le. tauto.
Qed.

Lemma conforms_update r :
  conforms doc_definitions fuel UpdateUserRequest_schema (update_json r) = true <->
  (uName r = "" \/ within_bounds 2 100 (uName r)).
Proof.
  unfold within_bounds, update_json.
  destruct (String.eqb_spec (uName r) "") as [Hn | Hn], (String.eqb_spec (uEmail r) "") as [He | He]; cbn [app].
  1, 2: split; [by left | reflexivity].
  all: match goal with |- conforms _ fuel UpdateUserRequest_schema ?v = true <-> _ =>
    change (conforms doc_definitions fuel UpdateUserRequest_schema v)
      with ((2 <=? rune_count (uName r)) && (rune_count (uName r) <=? 100) && true) end;
    rewrite !andb_true_iff, !Z.leb_le; naive_solver.
Qed.

Lemma rune_count_empty : rune_count "" = 0.
Proof. pose proof (rune_count_bounds "") as Hb. cbn in Hb. lia. Qed.

Lemma tags_required s lo hi : 0 < lo ->
  first_failed s [required; min lo; max hi] = None <-> within_bounds lo hi s.
Proof.
  intros Hlo. rewrite first_failed_none by (intros t Ht; rewrite !elem_of_cons, elem_of_nil in Ht; naive_solver).
  rewrite !Forall_cons, Validator.required_ok, min_ok, max_ok, negb_true_iff, bool_decide_eq_false, !Z.leb_le. unfold within_bounds.
  split; [tauto |]. intros [H1 H2]. split_and!; [| done | done | by apply Forall_nil].
  intros ->. rewrite rune_count_empty in H1. lia.
Qed.

End Requests.

(** ** The routes the document knows *)

Section Paths.
Context {jwt : JwtLib} {bcrypt : BcryptLib} {uuid : UuidLib} {val : ValidatorLib} {prs : Parsers}.
Context {C B U G : Type} `{!Cacher C, !Blacklist B, !UserRepository U}.
Context (random : nat -> string) (a : authUseCase) (appEnv : string) (health metrics swagger : handler (World C B U G)).

Definition registered : list (string * string) :=
  map (fun r => (ToLower (r_method r), trim_slash (r_path r))) (Setup random a appEnv health metrics swagger).
Definition documented_paths : list (string * string) :=
  map (fun '(m, p) => (m, fiber_path p)) (documented_operations the_doc).

(** Every route the document lacks, and the one operation it has no route for: the
    health check is served outside the base path. *)
Theorem coverage_of_routes :
  List.filter (fun r => negb (bool_decide (r ∈ documented_paths))) registered =
    [("get", "/"); ("get", "/health"); ("get", "/metrics"); ("get", "/docs/*"); ("post", "/api/v1/auth/login");
     ("post", "/api/v1/auth/refresh"); ("post", "/api/v1/auth/logout"); ("post", "/api/v1/auth/forgot-password");
     ("post", "/api/v1/auth/reset-password")]%string /\
  List.filter (fun r => negb (bool_decide (r ∈ registered))) documented_paths = [("get", "/api/v1/health")]%string.
Proof. split; vm_compute; reflexivity. Qed.
End Paths.

(** ** The health check *)

Section HealthDoc.
Context {val : ValidatorLib} {W : Type}.

Lemma probes_code order v w :
  v.2 = 200 \/ v.2 = 503 -> (run (probes (W := W) order v) w).1.2 = 200 \/ (run (probes (W := W) order v) w).1.2 = 503.
Proof.
  revert v w. induction order as [| [name check] order IH]; intros v w Hv; [done |]. cbn [probes]. rewrite run_bind.
  destruct (run check w) as [result w']. apply IH. unfold note. destruct v as [[services overall] code].
  destruct (String.eqb result "down"); [by right | done].
Qed.

(** Wherever it is served, its answers are those the document gives it. *)
Theorem health_documented (now : prog W Z) (h : HealthHandler) (order : list (string * Checker)) (c : Ctx) (w : W) :
  let out := (run (Check now h order c) w).1 in out.1 = None /\ doc_answer "/health" "get" out.2.
Proof.
  unfold Check. cbv zeta. rewrite run_bind. destruct (run (db_ping h _) w) as [err w1]. rewrite run_bind.
  match goal with |- context [run (probes order ?v) w1] => pose proof (probes_code order v w1) as Hc;
    assert (v.2 = 200 \/ v.2 = 503) as Hv by (destruct err; auto); specialize (Hc Hv);
    destruct (run (probes order v) w1) as [[[services overall] code] w2] end.
  rewrite run_bind. destruct (run now w2) as [t w3]. cbn in Hc |- *. split; [done |].
  eexists. split; [reflexivity |]. destruct Hc as [-> | ->]; vm_compute; reflexivity.
Qed.
End HealthDoc.

Module ApiDocsWitness.
Import PlainHash BinaryUuid TokenCodec UserWitness AuthWitness PlainValidator.
#[local] Existing Instances Table.table_db Db.db_repository Memory.memory_cacher MemoryBlacklist.memory_blacklist.

(** The parsers of [ApiWitness], with times as text. *)
#[local] Instance text_times : Parsers := {|
  parse_login := @parse_login ApiWitness.parsers; parse_refresh := @parse_refresh ApiWitness.parsers;
  parse_logout := @parse_logout ApiWitness.parsers; parse_forgot := @parse_forgot ApiWitness.parsers;
  parse_reset := @parse_reset ApiWitness.parsers; parse_create := @parse_create ApiWitness.parsers;
  parse_update := @parse_update ApiWitness.parsers; parse_page := @parse_page ApiWitness.parsers;
  time_json t := JStr (Itoa t)
|}.

#[local] Instance table_foreign : ForeignGorm Table.state.
Proof.
  constructor.
  - intros i d. cbn. by destruct (_ !! i).
  - done.
  - intros u d. cbn. by repeat case_match.
  - done.
  - done.
Qed.
#[local] Instance plain_foreign : ForeignBcrypt.
Proof. constructor. intros n pw cost. cbn. by destruct (_ <? _). Qed.

Definition create_route : route (C := Memory.Cacher) (B := MemoryBlacklist.MemoryBlacklist) (U := Db.userRepository Table.state)
    (G := RateLimit.Memory.MemoryLimiter) :=
  MkRoute "POST" "/api/v1/users/" (Middleware (jwtCfg auth) (writeLimiter handle_CreateUser)).

Lemma user_routes_documented_witness :
  Forall (fun r => exists path method, describes path method r /\
    forall q (w : app), let c := (run (serve (r_handler r) q) w).1 in
      doc_answer path method c \/ guard_answer path method (Http.status c)) (RegisterUserRoutes auth).
Proof. apply user_routes_documented. intros t. by eexists. Defined.

(** With a token a user is created and answered as documented; without one, 401 is not. *)
Example two_answers :
  let answer tok := (run (serve (r_handler create_route) (ApiWitness.with_token tok "bob")) w1).1 in
  status (answer (AccessToken pair)) = 201 /\ status (answer ""%string) = 401 /\
  documented_statuses the_doc "/users" "post" = ["201"; "400"; "409"; "500"]%string.
Proof. split; [vm_compute; reflexivity |]. split; vm_compute; reflexivity. Qed.

End ApiDocsWitness.
