(* ===== verification/Examples.v ===== *)
(** The example programs ([examples/]) over the packages they show: the login service
    ([auth/main.go]), signing and verifying ([jwt/main.go]) and the demonstrations of the
    HTTP client ([httpclient/main.go]). A program that prints answers its lines. *)

From stdpp Require Import base gmap strings list fin_maps.
From Stdlib Require Import ZArith Lia Ascii String.
From S2P Require Import Prelude Prog GoStrings GoTime Json Cache Blacklist RateLimit Jwt User World UserUseCase AuthUseCase Http Middleware.
From S2P Require Journal Broker Ssrf HttpClient.

(** ** examples/auth *)
Module AuthExample.

(** [user] simulates a database row. *)
Record user : Type := MkUser { ID : string; Email : string; PasswordHash : string; Roles : list string }.

(** Expiry 0: the default of a day. *)
Definition jwtCfg : Config :=
  MkConfig "super-secret-key-at-least-32-bytes!" "wapgo-auth-example" "wapgo-api" 0.

Section AuthExample.
Context {jwt : JwtLib} {bcrypt : BcryptLib} {C B U G : Type} `{!Blacklist B}.
(* the random bytes; fiber's reading of a login body: email and password *)
Context (random : nat -> string) (BodyParser : Request -> result (string * string)).
Notation W := (World C B U G).

(** The seeded users; an error of bcrypt is dropped, which leaves an empty hash. *)
Definition hash_of (r : result string) : string := match r with Ok h => h | Err _ => "" end.
Definition seed : prog W (gmap string user) :=
  let! n := draw in
  let adminHash := hash_of (GenerateFromPassword n "secret" DefaultCost) in
  let! m := draw in
  let userHash := hash_of (GenerateFromPassword m "password" DefaultCost) in
  Ret (<["admin@example.com" := MkUser "u-001" "admin@example.com" adminHash ["admin"; "user"]]>
       {["user@example.com" := MkUser "u-002" "user@example.com" userHash ["user"]]}).

(** POST /login. *)
Definition login (db : gmap string user) : handler W := fun c =>
  match BodyParser (request c) with
  | Err _ => Ret (Response.BadRequest "invalid request body" c)
  | Ok (email, password) =>
      let refused := Ret (Response.Error 401 Response.ErrUnauthorized "invalid credentials" c) in
      match db !! email with
      | None => refused
      | Some u =>
          match CompareHashAndPassword (PasswordHash u) password with
          | Some _ => refused
          | None =>
              let! signed := auth_Sign random (ID u) (Roles u) "access" jwtCfg in
              match signed with
              | Err _ => Ret (Response.InternalError c)
              | Ok (token, _) => Ret (c_JSON (status c) (JObj [("token", JStr token)]) c)
              end
          end
      end
  end.

(** GET /api/profile; without claims the handler would panic. *)
Definition nil_claims : error := Fresh "runtime error: invalid memory address or nil pointer dereference".
Definition profile : handler W := fun c =>
  match GetClaims c with
  | None => Ret (Some nil_claims, c)
  | Some claims =>
      Ret (Response.Success "profile"
             (Some (JObj [("id", JStr (Subject claims)); ("roles", JArr (map JStr (Jwt.Roles claims)))])) c)
  end.

(** GET /api/admin/dashboard. *)
Definition dashboard : handler W := reply (Response.Success "admin dashboard" (Some (JObj [("stats", JStr "ok")]))).

(** The application: its routes, by method and path. *)
Definition app (db : gmap string user) : list (string * string * handler W) :=
  [("POST", "/login", login db);
   ("GET", "/api/profile", Middleware jwtCfg profile);
   ("GET", "/api/admin/dashboard", Middleware jwtCfg (RequireRole ["admin"] dashboard))]%string.

Definition route_of (routes : list (string * string * handler W)) (m p : string) : option (handler W) :=
  snd <$> List.find (fun r => String.eqb r.1.1 m && String.eqb r.1.2 p) routes.

(** fiber's default error handler, and its answer to a request no route takes. *)
Context (DefaultErrorHandler : error -> Ctx -> Ctx) (no_route : Request -> error).

(** The group's middleware meets every request under its path. *)
Definition under_api (p : string) : bool := String.eqb p "/api" || HasPrefix p "/api/".

(** A request to the application: its route, and the error handler on what it returns. *)
Definition request_to (db : gmap string user) (r : Request) : prog W Ctx :=
  let! out := match route_of (app db) (method r) (path r) with
              | Some h => h (fresh_ctx r)
              | None =>
                  let refuse c := Ret (Some (no_route r), c) in
                  if under_api (path r) then Middleware jwtCfg refuse (fresh_ctx r) else refuse (fresh_ctx r)
              end in
  Ret (match out with (None, c) => c | (Some e, c) => DefaultErrorHandler e c end).
End AuthExample.
End AuthExample.

(** ** examples/jwt *)
Module JwtExample.

Definition cfg : Config := MkConfig "super-secret-key-at-least-32-bytes!" "wapgo" "wapgo-clients" (15 * Minute).
Definition weakCfg : Config := MkConfig "short" "" "" 0.

(** How a program ends. *)
Inductive outcome : Type := Done | Fatal (msg : string) | Panic.

Section JwtExample.
Context {jwt : JwtLib} {C B U G : Type}.
(* the random bytes; time.Time.Format(time.RFC3339) in the local zone *)
Context (random : nat -> string) (RFC3339 : Z -> string).
Notation W := (World C B U G).

(** A slice of strings printed with %v. *)
Definition show_strings (l : list string) : string := "[" ++ Join l " " ++ "]".

Definition main : prog W (list string * outcome) :=
  let! signed := auth_Sign random "user-42" ["admin"; "editor"] "access" cfg in
  match signed with
  | Err e => Ret ([], Fatal ("sign: " ++ error_text e))
  | Ok (token, _) =>
      let out := [("Token: " ++ token)%string] in
      let! verified := auth_Verify token cfg in
      match verified with
      | Err e => Ret (out, Fatal ("verify: " ++ error_text e))
      | Ok claims =>
          let out := (out ++ ["Subject : " ++ Subject claims; "Roles   : " ++ show_strings (Roles claims)]%string)%list in
          match ExpiresAt claims with
          | None => Ret (out, Panic)
          | Some e =>
              let out := (out ++ [("Expires : " ++ RFC3339 e)%string])%list in
              let! none := auth_Verify "eyJhbGciOiJub25lIn0.e30." cfg in
              let out := match none with
                         | Err e => (out ++ [("alg:none rejected (expected): " ++ error_text e)%string])%list
                         | Ok _ => out
                         end in
              let! weak := auth_Sign random "user-1" [] "access" weakCfg in
              let out := match weak with
                         | Err e => (out ++ [("Weak secret rejected (expected): " ++ error_text e)%string])%list
                         | Ok _ => out
                         end in
              Ret (out, Done)
          end
      end
  end.
End JwtExample.
End JwtExample.

(** ** examples/httpclient *)
Module ClientExample.
Import HttpClient.

(** A printed line: text, or text with an error shown by %v. *)
Inductive line : Type := Text (s : string) | WithError (s : string) (err : option error).
(** How the program ends: [log.Fatalf("Get: %v", err)] in the first demonstration, or at its end. *)
Inductive outcome : Type := Finished | Fatal (err : error).

(** The requests that reached a URL, in a history of events. *)
Fixpoint calls (url : string) (h : list event) : Z :=
  match h with
  | [] => 0
  | Sent r _ :: h' => (if String.eqb (rURL r) url then 1 else 0) + calls url h'
  | _ :: h' => calls url h'
  end.

(** The mock server: its [n]-th answer, and what it prints then. *)
Definition mock_server (n : Z) : HttpClient.Response :=
  if n <? 3 then MkResponse 503 "" "" else MkResponse 200 "text/plain; charset=utf-8" ("{" ++ Quote "status" ++ ":" ++ Quote "ok" ++ "}")%string.
Definition mock_line (n : Z) : line :=
  Text (if n <? 3 then "  server: call " ++ Itoa n ++ " → 503" else "  server: call " ++ Itoa n ++ " → 200 OK").
(** The server that always fails. *)
Definition failing_server : HttpClient.Response := MkResponse 500 "" "".

(** The options of the three clients. *)
Definition retry_options : Options := MkOptions (2 * Second) ["127.0.0.1"] false 0 3 0 0 0.
Definition breaker_options : Options := MkOptions (500 * Millisecond) ["127.0.0.1"] false 0 1 3 (5 * Second) 0.
Definition guard_options : Options := MkOptions Second [] false 0 0 0 0 0.

Section ClientExample.
Context {breaker : Breaker} (env : Env) (ParseIP : string -> option Ssrf.IP).
(* http.NewRequestWithContext; the URLs of the two test servers *)
Context (parse : string -> result HttpClient.Request) (server_URL fail_URL : string).
Notation W := (@HttpClient.World breaker).
Notation go := (prog W).

(** [httpclient.New]: the options in force; the world holds the breaker of the client in use. *)
Definition new_client (o : Options) : go Options :=
  act (fun w => let '(opts, s) := New o in (opts, HttpClient.MkWorld s (hist w) (files w))).

(** [client.Get] with the background context: no request id, token, trace or journal. *)
Definition client_Get (opts : Options) (url : string) : go (result HttpClient.Response) :=
  Get env ParseIP opts "" "" [] parse url.

(** Demo 1; the server's lines come before the answer they belong to. *)
Definition demo1 (o : Options) : go (list line * outcome) :=
  let! opts := new_client o in
  let url := (server_URL ++ "/ping")%string in
  let! r := client_Get opts url in
  let! callCount := reads (fun w => calls url (hist w)) in
  let out := Text "=== Demo 1: Retry on 503 ===" :: map (fun n => mock_line (Z.of_nat n)) (seq 1 (Z.to_nat callCount)) in
  Ret (match r with
       | Err err => (out, Fatal err)
       | Ok resp =>
           ((out ++ [Text ("  final status: " ++ Itoa (StatusCode resp) ++ ", body: " ++ rspBody resp
                           ++ " (after " ++ Itoa callCount ++ " attempts)")])%list, Finished)
       end).

Definition error_of (r : result HttpClient.Response) : option error := match r with Ok _ => None | Err e => Some e end.

(** The loop of demo 2: calls [i + 1] to [i + n]. *)
Fixpoint demo2_loop (opts : Options) (i n : nat) : go (list line) :=
  match n with
  | O => Ret []
  | S n' =>
      let! r := client_Get opts (fail_URL ++ "/fail") in
      let! rest := demo2_loop opts (S i) n' in
      Ret (WithError ("  call " ++ Itoa (Z.of_nat i + 1) ++ ": err=") (error_of r) :: rest)
  end.
Definition demo2 (o : Options) : go (list line) :=
  let! opts := new_client o in
  let! out := demo2_loop opts 0 6 in
  Ret (Text "" :: Text "=== Demo 2: Circuit breaker opens after 5 consecutive failures ===" :: out).

(** Demo 3. *)
Definition demo3 (o : Options) : go (list line) :=
  let! opts := new_client o in
  let! r1 := client_Get opts "http://169.254.169.254/metadata" in
  let! r2 := client_Get opts "http://10.0.0.1/internal" in
  Ret [Text ""; Text "=== Demo 3: SSRF protection blocks internal addresses ===";
       WithError "  link-local blocked: " (error_of r1); WithError "  private range blocked: " (error_of r2)].

Definition main : go (list line * outcome) :=
  let! first := demo1 retry_options in
  match first with
  | (out, Fatal err) => Ret (out, Fatal err)
  | (out, Finished) =>
      let! out2 := demo2 breaker_options in
      let! out3 := demo3 guard_options in
      Ret ((out ++ out2 ++ out3)%list, Finished)
  end.
End ClientExample.
End ClientExample.
