(* ===== verification/ExamplesProps.v ===== *)
(** The example programs do what their comments say: a login of examples/auth opens the
    routes its user's roles allow, for a day; examples/jwt prints what it announces. *)

From stdpp Require Import base gmap strings list fin_maps.
From Stdlib Require Import ZArith Lia String.
From S2P Require Import Prelude Prog GoStrings GoTime Json Cache Blacklist RateLimit Jwt User World UserUseCase AuthUseCase Http Middleware Examples.
From S2P Require Journal Broker Ssrf HttpClient HttpClientProps.

(** ** examples/auth *)

Section AuthFlow.
Import AuthExample.
Context {jwt : JwtLib} {bcrypt : BcryptLib} {C B U G : Type} `{!Blacklist B}.
Context (random : nat -> string) (BodyParser : Http.Request -> result (string * string)).
Context (DefaultErrorHandler : error -> Ctx -> Ctx) (no_route : Http.Request -> error).
Notation W := (World C B U G).
Notation request_to := (AuthExample.request_to (C := C) (B := B) (U := U) (G := G) random BodyParser DefaultErrorHandler no_route).

(** The middleware of a process without a blacklist. *)
Lemma middleware_plain cfg (next : handler W) c (w : W) :
  blacklist w = None -> HasPrefix (c_Get "Authorization" c) bearer = true ->
  run (Middleware cfg next c) w =
    match Verify (tick w).1 (TrimPrefix (c_Get "Authorization" c) bearer) cfg with
    | Err _ => ((Some ErrUnauthorized, c), (tick w).2)
    | Ok claims =>
        if negb (bool_decide (TokenType claims = "")) && negb (bool_decide (TokenType claims = "access"))
        then ((Some ErrUnauthorized, c), (tick w).2)
        else run (next (set_claims claims c)) (tick w).2
    end.
Proof.
  intros Hb Hp. unfold Middleware. rewrite Hp. cbn [negb]. rewrite run_bind. unfold time_Now. rewrite run_act.
  destruct (tick w) as [t w1] eqn:Et. apply tick_eq in Et as (_ & Hb1 & _). cbn [fst snd].
  destruct (Verify t _ cfg) as [claims | e]; [| done]. destruct (_ && _); [done |].
  rewrite run_bind. unfold reads. rewrite run_act, Hb1, Hb. done.
Qed.

(** fiber's default error handler answers the status of a fiber error. *)
Context (fiber_error : forall code c, status (DefaultErrorHandler (FiberErr code) c) = code).

(** *** What is closed *)

(** Login answers 200 only to the password of a user, and nothing under /api, whatever the
    method and with a route or without, answers anything but 401 to a request whose token does
    not verify. *)
Theorem auth_closed (db : gmap string user) (q : Http.Request) (w : W) :
  let c := (run (request_to db q) w).1 in
  (method q = "POST" -> path q = "/login" -> status c = 200 ->
     exists email password u, BodyParser q = Ok (email, password) /\ db !! email = Some u /\
       CompareHashAndPassword (PasswordHash u) password = None) /\
  (under_api (path q) = true -> blacklist w = None ->
     (forall claims, Verify (tick w).1 (TrimPrefix (header "Authorization" (req_headers q)) bearer) jwtCfg <> Ok claims) ->
     status c = 401).
Proof.
  unfold AuthExample.request_to. cbv zeta. split.
  - intros -> ->. cbn. rewrite run_bind. unfold login. cbn [request fresh_ctx].
    destruct (BodyParser q) as [[email password] | e]; [| done].
    destruct (db !! email) as [u |] eqn:Eu; [| done].
    destruct (CompareHashAndPassword _ _) eqn:Ec; [done |]. by eauto 6.
  - intros Hp Hb Hv.
    assert (forall next, (run (Middleware jwtCfg next (fresh_ctx q)) w).1 = (Some ErrUnauthorized, fresh_ctx q)) as Hm.
    { intros next. destruct (HasPrefix (c_Get "Authorization" (fresh_ctx q)) bearer) eqn:Ep.
      - rewrite middleware_plain by done. unfold c_Get. cbn [request fresh_ctx].
        destruct (Verify _ _ _) as [claims |] eqn:Ev; [by destruct (Hv claims) | done].
      - unfold Middleware. by rewrite Ep. }
    assert (exists next, match route_of (app (C := C) (U := U) (G := G) random BodyParser db) (method q) (path q) with
                         | Some h => h = Middleware jwtCfg next
                         | None => True end) as [next Hn].
    { unfold route_of, app. cbn [List.find fst snd]. destruct (String.eqb_spec "/login" (path q)) as [He |]; [by rewrite <- He in Hp |].
      rewrite andb_false_r. do 2 (destruct (_ && _); [by eexists |]). by exists profile. }
    rewrite run_bind. destruct (route_of _ _ _) as [h |]; [rewrite Hn | rewrite Hp].
    + specialize (Hm next). destruct (run (Middleware _ _ _) w) as [out w']. cbn in Hm |- *. subst out. apply fiber_error.
    + match goal with |- context [Middleware jwtCfg ?k] => specialize (Hm k) end.
      destruct (run (Middleware _ _ _) w) as [out w']. cbn in Hm |- *. subst out. apply fiber_error.
Qed.

(** *** What a login opens *)
Context {jwtl : JwtLaws} {bcl : BcryptLaws}.

(** The credentials of the example's comments: address, password, identifier and roles. *)
Definition credentials : list (string * string * string * list string) :=
  [("admin@example.com", "secret", "u-001", ["admin"; "user"]);
   ("user@example.com", "password", "u-002", ["user"])]%string.

Lemma hash_matches n pw : Z.of_nat (String.length pw) <= 72 ->
  CompareHashAndPassword (hash_of (GenerateFromPassword n pw DefaultCost)) pw = None.
Proof.
  intros Hl. pose proof (bcrypt_total n pw DefaultCost Hl ltac:(unfold DefaultCost; lia)) as Ht.
  destruct (GenerateFromPassword n pw DefaultCost) as [h |] eqn:E; [| done]. exact (bcrypt_match _ _ _ _ E).
Qed.

Lemma seeded (w0 : W) email pw id roles :
  (email, pw, id, roles) ∈ credentials ->
  exists u, (run seed w0).1 !! email = Some u /\ ID u = id /\ AuthExample.Roles u = roles /\
    CompareHashAndPassword (PasswordHash u) pw = None.
Proof.
  unfold seed. rewrite run_bind. unfold draw. rewrite run_act. cbn [fst snd]. rewrite run_bind, run_act. cbn [run fst].
  unfold credentials. rewrite !elem_of_cons, elem_of_nil. intros [[= -> -> -> ->] | [[= -> -> -> ->] | []]].
  - eexists. rewrite lookup_insert_eq. do 3 (split; [reflexivity |]). apply hash_matches. done.
  - eexists. rewrite lookup_insert_ne by done. rewrite lookup_singleton_eq.
    do 3 (split; [reflexivity |]). apply hash_matches. done.
Qed.

Lemma exists_one (x : string) (l : list string) : List.Exists (fun r => r ∈ [x]) l <-> x ∈ l.
Proof.
  rewrite List.Exists_exists. setoid_rewrite list_elem_of_singleton. setoid_rewrite <- list_elem_of_In. naive_solver.
Qed.

(** A verified token of a user passes the middleware with the user's claims. *)
Lemma opened now bytes id roles tok jti q (next : handler W) (w : W) :
  Sign now bytes id roles "access" jwtCfg = Ok (tok, jti) -> blacklist w = None ->
  header "Authorization" (req_headers q) = (bearer ++ tok)%string ->
  now <= clock w -> (tick w).1 + Second <= now + 24 * Hour ->
  exists claims, Subject claims = id /\ Jwt.Roles claims = roles /\
    run (Middleware jwtCfg next (fresh_ctx q)) w = run (next (set_claims claims (fresh_ctx q))) (tick w).2.
Proof.
  intros Hs Hb Hh Ht He.
  assert (now <= (tick w).1) as Hn.
  { destruct (tick w) as [t w'] eqn:Et. apply tick_eq in Et as (_ & _ & _ & _ & _ & ?). cbn. lia. }
  destruct (Verify_signed now (tick w).1 _ _ _ _ jwtCfg jwtCfg _ _ Hs Hn eq_refl eq_refl eq_refl)
    as (claims & (_ & Hid & Hr & Hty & _) & Hok & _).
  exists claims. do 2 (split; [done |]). rewrite middleware_plain; [| done |].
  - unfold c_Get. cbn [request fresh_ctx]. rewrite Hh, TrimPrefix_app, Hok.
    + by rewrite Hty.
    + change (lifetime jwtCfg) with (24 * Hour). pose proof (date_precision (now + 24 * Hour)). lia.
  - unfold c_Get. cbn [request fresh_ctx]. by rewrite Hh, HasPrefix_app.
Qed.

(** C27. The flow examples/auth shows, from login to the role gate. Over the seeded users, a login
    with the address and password of one answers 200 with a token, and for a day less a
    second that token opens /api/profile, which answers the user's identifier and roles, and
    /api/admin/dashboard when the user has the role admin; 403 when not. *)
Theorem auth_flow (w0 w : W) (email password id : string) (roles : list string) (q : Http.Request) :
  (email, password, id, roles) ∈ credentials ->
  method q = "POST" -> path q = "/login" -> BodyParser q = Ok (email, password) ->
  let db := (run seed w0).1 in
  let '(c, w1) := run (request_to db q) w in
  exists tok, status c = 200 /\ resp_body c = Some (JObj [("token", JStr tok)]) /\
    forall (q2 : Http.Request) (w2 : W),
      method q2 = "GET" -> header "Authorization" (req_headers q2) = (bearer ++ tok)%string ->
      blacklist w2 = None -> clock w1 <= clock w2 -> (tick w2).1 + Second <= clock w + 24 * Hour ->
      let c2 := (run (request_to db q2) w2).1 in
      (path q2 = "/api/profile" ->
         status c2 = 200 /\
         resp_body c2 = Some (Response.envelope true "profile"
                                (Some (JObj [("id", JStr id); ("roles", JArr (map JStr roles))])))) /\
      (path q2 = "/api/admin/dashboard" -> status c2 = (if bool_decide ("admin" ∈ roles) then 200 else 403)).
Proof.
  intros Hc Hm Hp Hq db. destruct (seeded w0 _ _ _ _ Hc) as (u & Hu & <- & <- & Hpw). fold db in Hu. clearbody db.
  apply run_wp. unfold AuthExample.request_to at 1. apply wp_bind. rewrite Hm, Hp. cbn [route_of app]. cbn.
  unfold login. cbn [request fresh_ctx]. rewrite Hq, Hu, Hpw.
  apply wp_bind, wp_Sign. intros r w1 Hr _ _ _ _ Ht. symmetry in Hr.
  destruct (Sign_ok (clock w1) (random (drawn w)) (ID u) (AuthExample.Roles u) "access" jwtCfg) as [tok Hs]; [vm_compute; discriminate |].
  assert (r = Ok (tok, newJTI (random (drawn w)))) as -> by congruence. clear Hs. cbn. exists tok. do 2 (split; [reflexivity |]).
  intros q2 w2 Hm2 Hh Hb Hc2 He. cbn in Hc2. unfold AuthExample.request_to. rewrite Hm2.
  split; intros ->; cbn; rewrite run_bind.
  - destruct (opened _ _ _ _ _ _ q2 profile w2 Hr Hb Hh ltac:(lia) ltac:(lia)) as (claims & <- & <- & ->). done.
  - destruct (opened _ _ _ _ _ _ q2 (RequireRole ["admin"] dashboard) w2 Hr Hb Hh ltac:(lia) ltac:(lia)) as (claims & _ & <- & ->).
    rewrite require_role_spec. cbn [claims_local set_claims].
    destruct (decide _) as [Hd | Hd]; rewrite exists_one in Hd;
      [by rewrite bool_decide_eq_true_2 | rewrite bool_decide_eq_false_2 by done; apply fiber_error].
Qed.
End AuthFlow.

(** ** examples/jwt *)

Section Jwt.
Import JwtExample.
Context {jwt : JwtLib} {jwtl : JwtLaws} {C B U G : Type}.
Context (random : nat -> string) (RFC3339 : Z -> string).
Notation W := (World C B U G).

(** jwt.WithValidMethods: a token whose header names another algorithm is refused. *)
Context (none_refused : forall o kf now, "none"%string ∉ validMethods o -> is_ok (ParseWithClaims o kf now "eyJhbGciOiJub25lIn0.e30.") = false).

(** The program never panics; run in less than a quarter of an hour it prints its six lines:
    the token, the claims it was signed with, its expiry, and the two refusals. *)
Theorem jwt_example (w : W) :
  let '((out, e), w') := run (main random RFC3339) w in
  e <> Panic /\
  (clock w' + Second <= clock w + 15 * Minute ->
   e = Done /\ exists tok expiry refusal,
     out = ["Token: " ++ tok; "Subject : user-42"; "Roles   : [admin editor]"; "Expires : " ++ RFC3339 expiry;
            "alg:none rejected (expected): " ++ refusal;
            "Weak secret rejected (expected): " ++ error_text (Sentinel ErrWeakSecret)]%string /\
     clock w + 15 * Minute - Second < expiry <= clock w' + 15 * Minute).
Proof.
  apply run_wp. unfold main. apply wp_bind, wp_Sign. intros r w1 Hr _ _ _ _ Ht1.
  destruct (Sign_ok (clock w1) (random (drawn w)) "user-42" ["admin"; "editor"]%string "access" cfg) as [tok Hs]; [vm_compute; discriminate |].
  assert (r = Ok (tok, newJTI (random (drawn w)))) as -> by congruence.
  apply wp_bind, wp_Verify. intros w2 _ _ _ _ Ht2.
  destruct (Verify_signed _ (clock w2) _ _ _ _ cfg cfg _ _ Hs Ht2 eq_refl eq_refl eq_refl) as (claims & Hi & Hok & Hno).
  change (lifetime cfg) with (15 * Minute) in *. pose proof (date_precision (clock w1 + 15 * Minute)) as Hdate.
  destruct (Z.lt_ge_cases (clock w2) (NewNumericDate (clock w1 + 15 * Minute))) as [Hl | Hl].
  - rewrite (Hok Hl). destruct Hi as (_ & Hsub & Hroles & _ & _ & _ & _ & _ & Hexp).
    change (lifetime cfg) with (15 * Minute) in Hexp. rewrite Hexp.
    apply wp_bind, wp_Verify. intros w3 _ _ _ _ Ht3. apply wp_bind, wp_Sign. intros r w4 Hr4 _ _ _ _ Ht4.
    apply wp_ret. split; [done |]. intros _. split; [done |].
    assert (exists e, Verify (clock w3) "eyJhbGciOiJub25lIn0.e30." cfg = Err e) as [e ->].
    { unfold Verify. change (len (Secret cfg) <? 32) with false.
      assert ("none"%string ∉ validMethods (verifyParser cfg)) as Hn by (cbn; set_solver).
      pose proof (none_refused _ (keyfunc cfg) (clock w3) Hn). cbn [negb].
      destruct (ParseWithClaims _ _ _ _) as [[??] |]; [done | by eexists]. }
    change (Sign _ _ _ _ _ weakCfg) with (Err (A := string * string) (Sentinel ErrWeakSecret)) in Hr4.
    rewrite Hr4, Hsub, Hroles. eexists _, _, _. split; [reflexivity |]. lia.
  - destruct (Hno Hl) as [e ->]. apply wp_ret. split; [done |]. lia.
Qed.
End Jwt.

(** ** examples/httpclient *)

Section ClientDemos.
Import HttpClient HttpClientProps ClientExample.
Context {breaker : Breaker} {laws : BreakerLaws} (env : Env) (ParseIP : string -> option Ssrf.IP).
Context (parse : string -> result HttpClient.Request) (server_URL fail_URL : string).
Notation W := (@HttpClient.World breaker).
Notation client_Get := (client_Get env ParseIP parse).

Lemma calls_tries url h h' : tries h = tries h' -> calls url h = calls url h'.
Proof.
  assert (forall h, calls url h = foldr (fun x n => (if String.eqb (rURL x.1) url then 1 else 0) + n) 0 (tries h)) as Hc.
  { clear. induction h as [| [] h IH]; cbn; by rewrite ?IH. }
  intros Ht. by rewrite !Hc, Ht.
Qed.

(** A breaker that counts [k] failures of [n]. *)
Definition counting_to (n T k : Z) (w : W) : Prop := view (cb w) = Closed k /\ params (cb w) = (n, T).

Lemma new_client_spec (o : Options) (w : W) :
  run (new_client o) w = (applyDefaults o, HttpClient.MkWorld (New o).2 (hist w) (files w)) /\
  counting_to (CBConsecutiveFailures (applyDefaults o)) (CBTimeout (applyDefaults o)) 0 (HttpClient.MkWorld (New o).2 (hist w) (files w)).
Proof. split; [reflexivity |]. apply new_closed. Qed.

(** What a refused host costs: an error, a failure counted, and nothing sent. *)
Definition refused (n T k : Z) (w w' : W) : Prop :=
  tries (hist w') = tries (hist w) /\ files w' = files w /\ (k + 1 < n -> counting_to n T (k + 1) w').

Lemma blocked_cb opts req m n T k (w : W) :
  0 <= MaxRetries opts -> counting_to n T k w ->
  Ssrf.validateHost ParseIP (rHost req) (AllowedHosts opts) (AllowPrivate opts) = Some (Fresh m) ->
  exists w', run (cb_RoundTrip env ParseIP opts req) w = (Err (Fresh m), w') /\ refused n T k w w'.
Proof.
  intros Hr [Hv Hp] Hh. destruct (run (cb_RoundTrip env ParseIP opts req) w) as [r w'] eqn:E.
  assert (r = Err (Fresh m) /\ tries (hist w') = tries (hist w) /\ files w' = files w) as (-> & Ht & Hf).
  { revert E. apply (wp_run _ (fun r w' => r = Err (Fresh m) /\ tries (hist w') = tries (hist w) /\ files w' = files w)).
    unfold cb_RoundTrip, clock. apply wp_bind, wp_asked. intros now ->. apply wp_bind, wp_act. intros e w1 E.
    cbn [cb hist files] in E. destruct (ready_closed (env_clock env (hist w)) (cb w) k Hv) as (Hn & _).
    destruct (cb_ready _ (cb w)) as [e' s]. cbn in Hn. injection E as <- <-. subst e'.
    apply wp_bind. unfold retry_RoundTrip. replace (Z.to_nat (MaxRetries opts + 1)) with (S (Z.to_nat (MaxRetries opts))) by lia.
    cbn [attempts prepare]. apply wp_bind, wp_ret, wp_bind. unfold ssrf_RoundTrip. rewrite Hh. apply wp_ret, wp_ret.
    apply wp_bind, wp_asked. intros now' _. apply wp_bind, wp_act. intros [] w3 [= <-]. by apply wp_ret. }
  exists w'. split; [done |]. split; [done |]. split; [done |]. intros Hk.
  destruct (cb_failure env ParseIP opts req w w' (Fresh m) k n T Hv Hp E) as (t & _ & Hp' & Hv').
  split; [| done]. by replace (n <=? k + 1) with false in Hv' by lia.
Qed.

Lemma blocked_Get opts url req m n T k (w : W) :
  0 <= MaxRetries opts -> counting_to n T k w -> (files w).1 = None ->
  parse url = Ok req ->
  Ssrf.validateHost ParseIP (rHost req) (AllowedHosts opts) (AllowPrivate opts) = Some (Fresh m) ->
  exists w', run (client_Get opts url) w = (Err (Fresh m), w') /\ refused n T k w w'.
Proof.
  intros Hr Hc Hj Hu Hh. unfold ClientExample.client_Get, Get. rewrite Hu. unfold Do. rewrite run_bind. unfold reads.
  rewrite run_act, Hj, run_bind. unfold clock, ask. rewrite run_act. cbv beta iota zeta. rewrite run_bind. unfold http_Do. cbn [hops].
  rewrite run_bind. set (q := inject _ _ _ _). set (w1 := HttpClient.MkWorld _ _ _).
  destruct (blocked_cb opts q m n T k w1 Hr Hc Hh) as (w' & -> & Ht & Hf & Hk). exists w'. by split_and!.
Qed.

(** *** As it is written *)

(** The address of the test servers. *)
Context (loopback : ParseIP "127.0.0.1" = Some [127; 0; 0; 1]).

Lemma loopback_blocked hosts : exists m, Ssrf.validateHost ParseIP "127.0.0.1" hosts false = Some (Fresh m).
Proof.
  unfold Ssrf.validateHost, Ssrf.isInternalHost. rewrite loopback. eexists. vm_compute. reflexivity.
Qed.

(** The program does not get past its first request. AllowedHosts narrows what the guard lets
    through and does not widen it: the loopback address of the mock server is refused, the
    program exits after its first heading, and neither server is ever called. *)
Theorem client_example_stops (ping : HttpClient.Request) (w : W) :
  (files w).1 = None -> parse (server_URL ++ "/ping") = Ok ping -> rHost ping = "127.0.0.1" ->
  calls (server_URL ++ "/ping") (hist w) = 0 ->
  let '((out, e), w') := run (ClientExample.main env ParseIP parse server_URL fail_URL) w in
  (exists err, e = Fatal err) /\ out = [Text "=== Demo 1: Retry on 503 ==="] /\ tries (hist w') = tries (hist w).
Proof.
  intros Hj Hp Hh Hc. unfold ClientExample.main, demo1. rewrite !run_bind.
  destruct (new_client_spec retry_options w) as [-> Hn]. rewrite run_bind.
  destruct (loopback_blocked (AllowedHosts (applyDefaults retry_options))) as [m Hm].
  destruct (blocked_Get (applyDefaults retry_options) (server_URL ++ "/ping") ping m _ _ _ _ ltac:(vm_compute; discriminate) Hn Hj Hp
              ltac:(by rewrite Hh)) as (w' & -> & Ht & _ & _).
  rewrite run_bind. unfold reads. rewrite run_act.
  rewrite (calls_tries _ _ _ Ht). cbn [hist]. rewrite Hc. cbn. split; [by eexists |]. by split.
Qed.

(** Demo 3 alone: both addresses are refused, and nothing is sent. *)
Theorem demo3_blocks (metadata internal : HttpClient.Request) (w : W) :
  (files w).1 = None ->
  parse "http://169.254.169.254/metadata" = Ok metadata -> rHost metadata = "169.254.169.254" ->
  parse "http://10.0.0.1/internal" = Ok internal -> rHost internal = "10.0.0.1" ->
  ParseIP "169.254.169.254" = Some [169; 254; 169; 254] -> ParseIP "10.0.0.1" = Some [10; 0; 0; 1] ->
  let '(out, w') := run (demo3 env ParseIP parse guard_options) w in
  (exists e1 e2, out = [Text ""; Text "=== Demo 3: SSRF protection blocks internal addresses ===";
     WithError "  link-local blocked: " (Some e1); WithError "  private range blocked: " (Some e2)]) /\
  tries (hist w') = tries (hist w).
Proof.
  intros Hj Hp1 Hh1 Hp2 Hh2 Hi1 Hi2. unfold demo3. rewrite run_bind.
  destruct (new_client_spec guard_options w) as [-> Hn]. rewrite run_bind.
  assert (exists m, Ssrf.validateHost ParseIP (rHost metadata) [] false = Some (Fresh m)) as [m1 Hm1]
    by (rewrite Hh1; unfold Ssrf.validateHost, Ssrf.isInternalHost; rewrite Hi1; eexists; vm_compute; reflexivity).
  assert (exists m, Ssrf.validateHost ParseIP (rHost internal) [] false = Some (Fresh m)) as [m2 Hm2]
    by (rewrite Hh2; unfold Ssrf.validateHost, Ssrf.isInternalHost; rewrite Hi2; eexists; vm_compute; reflexivity).
  destruct (blocked_Get (applyDefaults guard_options) _ metadata m1 _ _ _ _ ltac:(vm_compute; discriminate) Hn Hj Hp1 Hm1)
    as (w1 & -> & Ht1 & Hf1 & Hc1).
  rewrite run_bind.
  destruct (blocked_Get (applyDefaults guard_options) _ internal m2 _ _ _ w1 ltac:(vm_compute; discriminate) (Hc1 eq_refl)
              ltac:(by rewrite Hf1) Hp2 Hm2) as (w2 & -> & Ht2 & _ & _).
  cbn. split; [by eexists _, _ |]. by rewrite Ht2, Ht1.
Qed.

(** *** With AllowPrivate *)

Definition with_private (o : Options) : Options :=
  MkOptions (Timeout o) (AllowedHosts o) true (MaxResponseBytes o) (MaxRetries o) (CBConsecutiveFailures o)
    (CBTimeout o) (LogBodyMaxBytes o).

Section Retry.
Context (url := (server_URL ++ "/ping")%string) (opts := applyDefaults (with_private retry_options)).
Context (ping_ok : parse url = Ok (HttpClient.MkRequest "GET" url "127.0.0.1" [] None false)).
Context (served : forall h q, rURL q = url -> env_send env h q = Ok (mock_server (calls url h + 1))).
Context (timers_fire : forall h, env_timer env h = true).
Context (no_redirect : forall h resp, env_redirect env h resp = None).

Lemma attempt_served left k q lastErr st (w : W) :
  rURL q = url -> rHost q = "127.0.0.1" -> rBody q = None -> rGetBody q = false ->
  exists w', cb w' = cb w /\ files w' = files w /\ calls url (hist w') = calls url (hist w) + 1 /\
    run (attempts env ParseIP opts (S left) k q lastErr st) w =
      (let resp := mock_server (calls url (hist w) + 1) in
       if StatusCode resp <? 500 then (Ok resp, w')
       else run (attempts env ParseIP opts left (S k) q lastErr (StatusCode resp)) w').
Proof.
  intros Hu Hh Hb Hg. cbn [attempts]. rewrite run_bind.
  assert (exists w1, run (prepare env opts q k lastErr st) w = (None, w1) /\ cb w1 = cb w /\ files w1 = files w /\
            calls url (hist w1) = calls url (hist w)) as (w1 & -> & <- & <- & <-).
  { destruct k as [| k]; cbn [prepare]; [by eexists |]. rewrite Hb, Hg. cbn [andb]. rewrite run_bind. cbn [run].
    rewrite run_bind. unfold ask. rewrite run_act. cbv zeta. rewrite timers_fire. by eexists. }
  rewrite run_bind. unfold ssrf_RoundTrip. rewrite Hh. change (Ssrf.validateHost _ _ _ _) with (@None error). unfold ask. rewrite run_act. cbv zeta.
  rewrite served by done. exists (HttpClient.MkWorld (cb w1) (Sent q (Ok (mock_server (calls url (hist w1) + 1))) :: hist w1) (files w1)).
  do 2 (split; [done |]). split; [cbn; rewrite Hu, String.eqb_refl; lia |]. cbv zeta.
  by destruct (StatusCode (mock_server _) <? 500).
Qed.

(** With AllowPrivate set, the first demonstration shows what it means to: two refusals, then
    the answer, after three attempts. *)
Theorem demo1_retries (w : W) :
  (files w).1 = None -> calls url (hist w) = 0 ->
  (run (demo1 env ParseIP parse server_URL (with_private retry_options)) w).1 =
    ([Text "=== Demo 1: Retry on 503 ==="; Text "  server: call 1 → 503"; Text "  server: call 2 → 503";
      Text "  server: call 3 → 200 OK";
      Text ("  final status: 200, body: " ++ rspBody (mock_server 3) ++ " (after 3 attempts)")], Finished).
Proof.
  intros Hj Hc. unfold demo1. rewrite run_bind.
  destruct (new_client_spec (with_private retry_options) w) as [-> [Hv _]]. fold url opts. rewrite run_bind.
  set (w0 := HttpClient.MkWorld _ _ _) in *.
  assert (exists w', run (client_Get opts url) w0 = (Ok (mock_server 3), w') /\ calls url (hist w') = 3) as (w' & -> & Hw').
  { unfold ClientExample.client_Get, Get. rewrite ping_ok. unfold Do. rewrite run_bind. unfold reads.
    rewrite run_act. cbn [files w0]. rewrite Hj, run_bind. unfold clock, ask. rewrite run_act. cbv beta iota zeta. rewrite run_bind.
    unfold http_Do. cbn [hops]. rewrite run_bind. unfold cb_RoundTrip. rewrite run_bind. unfold clock, ask. rewrite run_act. cbv beta iota zeta.
    rewrite run_bind, run_act. cbn [cb hist files].
    match goal with |- context [cb_ready ?t ?s] => destruct (ready_closed t s 0 Hv) as (Hr & _); destruct (cb_ready t s) as [e s'] end.
    cbn in Hr. subst e. rewrite run_bind. unfold retry_RoundTrip. change (Z.to_nat (MaxRetries opts + 1)) with 4%nat.
    set (q := inject _ _ _ _). set (v := HttpClient.MkWorld s' _ _).
    assert (calls url (hist v) = 0) as Hv0 by exact Hc.
    destruct (attempt_served 3 0 q None 0 v) as (w1 & _ & _ & H1 & ->); [done.. |]. rewrite Hv0 in *. cbv zeta.
    change (StatusCode (mock_server (0 + 1))) with 503. change (503 <? 500) with false. cbn iota.
    destruct (attempt_served 2 1 q None 503 w1) as (w2 & _ & _ & H2 & ->); [done.. |]. rewrite H1 in *. cbv zeta.
    change (StatusCode (mock_server (0 + 1 + 1))) with 503. change (503 <? 500) with false. cbn iota.
    destruct (attempt_served 1 2 q None 503 w2) as (w3 & _ & _ & H3 & ->); [done.. |]. rewrite H2 in *. cbv zeta.
    change (StatusCode (mock_server (0 + 1 + 1 + 1))) with 200. change (200 <? 500) with true. cbn iota.
    rewrite run_bind, run_act. cbv beta iota zeta. rewrite run_bind, run_act. cbn [run]. rewrite run_bind. unfold reads. rewrite run_act. cbv beta iota.
    rewrite no_redirect. cbn [run]. eexists. split; [reflexivity |]. exact H3. }
  rewrite run_bind. unfold reads. rewrite run_act, Hw'. reflexivity.
Qed.
End Retry.

Section Breaker.
Context (url := (fail_URL ++ "/fail")%string) (opts := applyDefaults (with_private breaker_options)) (req : HttpClient.Request).
Context (fail_ok : parse url = Ok req) (fail_url : rURL req = url).
Context (failing : forall h q, rURL q = url -> env_send env h q = Ok failing_server).
(* the demonstration takes less than the five seconds the breaker stays open *)
Context (brisk : forall h t, Clock t ∈ h -> env_clock env h < t + 5 * Second).

Lemma attempts_fail left k q lastErr st (w : W) :
  rURL q = url -> wp (attempts env ParseIP opts left k q lastErr st) (fun r _ => is_ok r = false) w.
Proof.
  intros Hu. revert k lastErr st w. induction left as [| left IH]; intros k lastErr st w; cbn [attempts];
    [by apply wp_ret; destruct lastErr |].
  apply wp_bind. unfold wp at 1. destruct (run (prepare env opts q k lastErr st) w) as [[r |] w1] eqn:Ep.
  - apply wp_ret. destruct k as [| k]; [done |]. revert Ep. cbn [prepare].
    destruct (_ && _); [by intros [= <- <-]; destruct lastErr |]. rewrite run_bind.
    destruct (run (if rGetBody q then _ else _) w) as [[e |] w2]; [by intros [= <- <-] |].
    cbv zeta. rewrite run_bind. unfold ask. rewrite run_act. cbv zeta. destruct (env_timer _ _); [done |].
    rewrite run_bind, run_act. by intros [= <- <-].
  - apply wp_bind. unfold ssrf_RoundTrip. destruct (Ssrf.validateHost _ _ _ _) as [e |].
    + apply wp_ret. destruct (isRetryableErr e); [apply IH | by apply wp_ret].
    + apply wp_asked. intros x ->. rewrite failing by done. apply IH.
Qed.

(** The breaker before each call of the loop: [k] failures counted, or open. *)
Definition loop_state (k : Z) (w : W) : Prop :=
  (files w).1 = None /\
  if 3 <=? k then exists t, Clock t ∈ hist w /\ view (cb w) = Opened (t + 5 * Second)
  else counting_to 3 (5 * Second) k w.

Lemma demo2_call (k : Z) (w : W) :
  0 <= k -> loop_state k w ->
  exists e w', run (client_Get opts url) w = (Err e, w') /\ loop_state (k + 1) w' /\
    (List.length (tries (hist w')) <= List.length (tries (hist w)) + (if (3 <=? k)%Z then 0 else 2))%nat.
Proof.
  intros Hk [Hj Hs]. unfold ClientExample.client_Get, Get. rewrite fail_ok. unfold Do. rewrite run_bind. unfold reads.
  rewrite run_act, Hj, run_bind. unfold clock, ask. rewrite run_act. cbv beta iota zeta. rewrite run_bind. unfold http_Do. cbn [hops].
  rewrite run_bind. set (q := inject _ _ _ _). set (w1 := HttpClient.MkWorld _ _ _).
  assert (exists e w', run (cb_RoundTrip env ParseIP opts q) w1 = (Err e, w') /\ loop_state (k + 1) w' /\
    (List.length (tries (hist w')) <= List.length (tries (hist w1)) + (if (3 <=? k)%Z then 0 else 2))%nat) as (e & w' & -> & Hl & Hn).
  { destruct (3 <=? k) eqn:E3.
    - destruct Hs as (t & Ht & Hv).
      assert (env_clock env (hist w1) < t + 5 * Second) as Hnow by (apply brisk; right; done).
      unfold cb_RoundTrip. rewrite run_bind. unfold clock, ask. rewrite run_act. cbv beta iota zeta. rewrite run_bind, run_act.
      cbn [cb hist files]. destruct (ready_opened _ (cb w1) _ Hv Hnow) as (Hr & Hv' & _).
      cbn [hist w1] in Hr, Hv'. destruct (cb_ready _ (cb w1)) as [[e |] s]; [| done]. exists e. eexists. split; [reflexivity |].
      split; [| cbn; lia]. split; [done |]. replace (3 <=? k + 1) with true by lia. exists t. split; [by right; right | done].
    - pose proof (run_wp _ _ _ (wp_cb env ParseIP opts q w1)) as Hc.
      assert (wp (cb_RoundTrip env ParseIP opts q) (fun r _ => is_ok r = false) w1) as Hf.
      { unfold cb_RoundTrip, clock. apply wp_bind, wp_asked. intros now _. apply wp_bind, wp_act. intros refused w2 _.
        destruct refused; [by apply wp_ret |]. apply wp_bind. eapply wp_mono; [by apply attempts_fail |]. intros r w3 Hr.
        apply wp_bind, wp_asked. intros now' _. apply wp_bind, wp_act. intros [] w4 _. by apply wp_ret. }
      destruct Hs as [Hv Hp]. unfold wp in Hf. destruct (run (cb_RoundTrip env ParseIP opts q) w1) as [r w'] eqn:E. cbn [fst] in Hf.
      destruct r as [resp | e]; [done |]. exists e, w'. split; [done |].
      destruct (cb_failure env ParseIP opts q w1 w' e k 3 (5 * Second) Hv Hp E) as (t & Ht & Hp' & Hv').
      destruct Hc as ((sent & Hsent & Hlen & _) & Hfiles). split.
      + split; [by rewrite Hfiles |]. destruct (3 <=? k + 1); [| done]. exists t. split; [| done].
        destruct (hist w') as [| ev h]; [done |]. injection Ht as ->. by left.
      + rewrite Hsent, length_app. change (Z.to_nat (MaxRetries opts + 1)) with 2%nat in Hlen. lia. }
  exists e, w'. by split_and!.
Qed.

(** The loop: every call fails; after three of them the rest are refused without a request. *)
Lemma demo2_calls n i (w : W) :
  loop_state (Z.of_nat i) w ->
  let '(out, w') := run (demo2_loop env ParseIP parse fail_URL opts i n) w in
  Forall2 (fun l j => exists e, l = WithError ("  call " ++ Itoa (Z.of_nat j + 1) ++ ": err=") (Some e)) out (seq i n) /\
  (List.length (tries (hist w')) <= List.length (tries (hist w)) + 2 * Nat.min n (3 - i))%nat.
Proof.
  revert i w. induction n as [| n IH]; intros i w Hs; cbn [demo2_loop]; [split; [constructor | cbn; lia] |].
  rewrite run_bind. fold url. destruct (demo2_call (Z.of_nat i) w ltac:(lia) Hs) as (e & w1 & -> & Hs1 & Hl).
  rewrite run_bind. specialize (IH (S i) w1). rewrite Nat2Z.inj_succ in IH. specialize (IH Hs1).
  destruct (run (demo2_loop _ _ _ _ _ (S i) n) w1) as [out w2]. destruct IH as [Hf Hl2]. cbn [run seq]. split.
  - constructor; [by eexists | exact Hf].
  - destruct (3 <=? Z.of_nat i) eqn:E; lia.
Qed.

(** With AllowPrivate set, the second demonstration opens the breaker, after three failures and
    not the five its heading says: its six calls all fail, and send six requests, not twelve. *)
Theorem demo2_opens (w : W) :
  (files w).1 = None ->
  let '(out, w') := run (demo2 env ParseIP parse fail_URL (with_private breaker_options)) w in
  (exists e1 e2 e3 e4 e5 e6, out = [Text ""; Text "=== Demo 2: Circuit breaker opens after 5 consecutive failures ===";
     WithError "  call 1: err=" (Some e1); WithError "  call 2: err=" (Some e2); WithError "  call 3: err=" (Some e3);
     WithError "  call 4: err=" (Some e4); WithError "  call 5: err=" (Some e5); WithError "  call 6: err=" (Some e6)]) /\
  (List.length (tries (hist w')) <= List.length (tries (hist w)) + 6)%nat.
Proof.
  intros Hj. unfold demo2. rewrite run_bind. destruct (new_client_spec (with_private breaker_options) w) as [-> Hn]. rewrite run_bind.
  match type of Hn with counting_to _ _ _ ?v => pose proof (demo2_calls 6 0 v (conj Hj Hn)) as Hd end. unfold opts in Hd.
  destruct (run (demo2_loop _ _ _ _ _ 0 6) _) as [out w']. destruct Hd as [Hf Hl]. cbn [run]. split; [| exact Hl].
  cbn [seq] in Hf. repeat match goal with H : Forall2 _ _ (_ :: _) |- _ => apply Forall2_cons_inv_r in H as (? & ? & [? ->] & ? & ->) end.
  match goal with H : Forall2 _ _ [] |- _ => apply Forall2_nil_inv_r in H as -> end. by eexists _, _, _, _, _, _.
Qed.
End Breaker.
End ClientDemos.

(** ** Witnesses *)

Module ExamplesWitness.
Import PlainHash TokenCodec UserWitness AuthWitness AuthExample.
#[local] Existing Instances MemoryBlacklist.memory_blacklist.

Definition unlisted : UserWitness.app := set_blacklist None start.
Definition BodyParser (q : Http.Request) : result (string * string) :=
  if String.eqb (req_body q) "user" then Ok ("user@example.com", "password")%string else Err (Fresh "unexpected end of JSON input").
Definition on_error (e : error) (c : Ctx) : Ctx := (ErrorHandler e c).2.
Definition post : Http.Request := MkReq "POST" "/login" "" [] "user" "10.0.0.1".
Definition get (path tok : string) : Http.Request :=
  MkReq "GET" path "" [("authorization", bearer ++ tok)]%string "" "10.0.0.1".
Definition no_route (_ : Http.Request) : error := fiber_ErrNotFound.
Notation ask := (request_to random BodyParser on_error no_route).

(** The regular user sees the profile, and not the dashboard. *)
Lemma auth_flow_witness :
  let db := (run seed unlisted).1 in
  let '(c, w1) := run (ask db post) unlisted in
  exists tok, resp_body c = Some (JObj [("token"%string, JStr tok)]) /\
    status (run (ask db (get "/api/profile" tok)) w1).1 = 200 /\
    status (run (ask db (get "/api/admin/dashboard" tok)) w1).1 = 403.
Proof.
  pose proof (auth_flow random BodyParser on_error no_route (fun _ _ => eq_refl) unlisted unlisted "user@example.com" "password" "u-002" ["user"]%string
                post ltac:(right; left) eq_refl eq_refl eq_refl) as H. cbv zeta in *.
  assert (Hb : blacklist (run (ask (run seed unlisted).1 post) unlisted).2 = None) by (vm_compute; reflexivity).
  assert (Ht : (tick (run (ask (run seed unlisted).1 post) unlisted).2).1 = clock unlisted) by (vm_compute; reflexivity).
  destruct (run (ask (run seed unlisted).1 post) unlisted) as [c w1]. cbn [snd] in *.
  destruct H as (tok & _ & Hbody & H). exists tok. split; [exact Hbody |].
  assert (Hle : (tick w1).1 + Second <= clock unlisted + 24 * Hour) by (rewrite Ht; vm_compute; discriminate).
  split.
  - destruct (H (get "/api/profile" tok) w1 eq_refl eq_refl Hb ltac:(lia) Hle) as [Hp _]. apply (Hp eq_refl).
  - destruct (H (get "/api/admin/dashboard" tok) w1 eq_refl eq_refl Hb ltac:(lia) Hle) as [_ Hd]. apply (Hd eq_refl).
Defined.
End ExamplesWitness.
