(* ===== verification/Contexts.v ===== *)
(** The values the packages keep in a [context.Context]: the request identifier
    ([pkg/logger/logger.go]), the authorization of outgoing calls
    ([pkg/httpclient/base_client.go]), the journal ([pkg/journal]) and the audit logger
    ([pkg/auditlog]). Each package has a key of a type of its own; two of them are the same
    integer. *)

From stdpp Require Import base list strings.
From Stdlib Require Import ZArith Lia String.
From S2P Require Import Prelude Prog GoStrings Broker Journal Ssrf HttpClient.

(** A key: its type, known by its package, and its value. *)
Record key : Type := MkKey { key_type : string; key_value : nat }.
#[export] Instance key_eq : EqDecision key.
Proof. solve_decision. Defined.

(** The dynamic types of the values; a pointer is an address, nil included. *)
Inductive value : Type := VString (s : string) | VJournal (p : option nat) | VAuditLogger (p : option nat).

Inductive context : Type := Background | WithValue (parent : context) (k : key) (v : value).

(** [ctx.Value(key)]: the innermost value of an equal key. *)
Fixpoint Value (ctx : context) (k : key) : option value :=
  match ctx with
  | Background => None
  | WithValue p k' v => if decide (k' = k) then Some v else Value p k
  end.

(** ** What the packages put there *)

Definition requestIDKey : key := MkKey "logger.ctxKey" 0.
Definition WithRequestID (ctx : context) (requestID : string) : context := WithValue ctx requestIDKey (VString requestID).
Definition RequestIDFromContext (ctx : context) : string :=
  match Value ctx requestIDKey with Some (VString id) => id | _ => "" end.

Definition authKey : key := MkKey "httpclient.ctxKey" 0.
Definition WithAuthorization (ctx : context) (token : string) : context := WithValue ctx authKey (VString token).
Definition AuthorizationFromContext (ctx : context) : string :=
  match Value ctx authKey with Some (VString v) => v | _ => "" end.

(** [journal.Start] stores the journal it allocates, at [fresh]. *)
Definition journalKey : key := MkKey "journal.ctxKey{}" 0.
Definition journal_Start (fresh : nat) (ctx : context) : context * nat := (WithValue ctx journalKey (VJournal (Some fresh)), fresh).
Definition journal_FromContext (ctx : context) : option nat :=
  match Value ctx journalKey with Some (VJournal j) => j | _ => None end.

Definition auditKey : key := MkKey "auditlog.contextKey{}" 0.
Definition WithAuditLogger (ctx : context) (l : option nat) : context := WithValue ctx auditKey (VAuditLogger l).
Definition audit_FromContext (ctx : context) : option nat :=
  match Value ctx auditKey with
  | None => None
  | Some v => match v with VAuditLogger l => l | _ => None end
  end.

(** ** The packages do not see each other's values *)

(** What the four packages read. *)
Definition readings (ctx : context) : string * string * option nat * option nat :=
  (RequestIDFromContext ctx, AuthorizationFromContext ctx, journal_FromContext ctx, audit_FromContext ctx).

(** Each writer replaces what its own reader answers, and nothing else: although the keys of
    two packages are the same integer, an authorization never shows up as a request
    identifier, or the other way round. *)
Theorem context_values_separate (ctx : context) (s : string) (fresh : nat) (l : option nat) :
  let '(rid, auth, j, a) := readings ctx in
  key_value requestIDKey = key_value authKey /\
  readings (WithRequestID ctx s) = (s, auth, j, a) /\ readings (WithAuthorization ctx s) = (rid, s, j, a) /\
  readings (journal_Start fresh ctx).1 = (rid, auth, Some fresh, a) /\ readings (WithAuditLogger ctx l) = (rid, auth, j, l) /\
  readings Background = (""%string, ""%string, None, None).
Proof. by split_and!. Qed.

(** ** What a call of the HTTP client sends of them *)

Lemma header_set k k' v hs r :
  header_of k (with_headers (set_header k' v hs) r) = if EqualFold k' k then v else header_of k (with_headers hs r).
Proof.
  unfold header_of, set_header. cbn [rHeaders with_headers List.find fst]. destruct (EqualFold k' k) eqn:E; [done |].
  induction hs as [| [k0 v0] hs IH]; [done |].
  rewrite filter_cons. cbn [fst]. destruct (decide (EqualFold k0 k' = false)) as [E0 | E0]; cbn [List.find fst].
  - by destruct (EqualFold k0 k).
  - destruct (EqualFold k0 k) eqn:E1; [| exact IH]. apply not_false_is_true in E0.
    assert (ToLower k0 = ToLower k') as H0 by by apply String.eqb_eq.
    assert (ToLower k0 = ToLower k) as H1 by by apply String.eqb_eq.
    exfalso. apply (proj2 (not_true_iff_false _) E), String.eqb_eq. congruence.
Qed.

Lemma header_traced k traced hs r :
  Forall (fun kv => EqualFold kv.1 k = false) traced ->
  header_of k (with_headers (fold_left (fun hs kv => set_header kv.1 kv.2 hs) traced hs) r) = header_of k (with_headers hs r).
Proof.
  intros Ht. revert hs. induction Ht as [| [k' v] traced Hk Ht IH]; intros hs; [done |]. cbn. rewrite IH, header_set.
  cbn [fst] in Hk. by rewrite Hk.
Qed.

(** The propagation of the request identifier and the authorization: whatever the trace
    propagator adds under other names, the request that leaves carries the context's identifier
    and authorization under their headers, in place of what the caller had set there, and the
    caller's own where the context has none. *)
Theorem outgoing_headers (ctx : context) (traced : list (string * string)) (r : Request) :
  Forall (fun kv => EqualFold kv.1 "X-Request-ID" = false /\ EqualFold kv.1 "Authorization" = false) traced ->
  let sent := inject (RequestIDFromContext ctx) (AuthorizationFromContext ctx) traced r in
  header_of "X-Request-ID" sent = (if String.eqb (RequestIDFromContext ctx) "" then header_of "X-Request-ID" r else RequestIDFromContext ctx) /\
  header_of "Authorization" sent = (if String.eqb (AuthorizationFromContext ctx) "" then header_of "Authorization" r else AuthorizationFromContext ctx).
Proof.
  intros Ht. cbv zeta. unfold inject. rewrite !header_traced by (eapply Forall_impl; [exact Ht |]; by intros ? [? ?]).
  destruct (String.eqb (RequestIDFromContext ctx) ""), (String.eqb (AuthorizationFromContext ctx) "");
    rewrite ?header_set; split; reflexivity.
Qed.
